(* ===== verification/_CoqProject ===== *)
-Q . S2P
Prelude.v
Mem.v
CString.v
Heap.v
Kheap.v
Store.v
Buffer.v
Termio.v
MemCheck.v
Disk.v
DiskStream.v
Paging.v
AddressSpace.v
Fat16.v
PathParser.v
Ring.v
CList.v
Gdt.v
Pic.v
Task.v
Idt.v
FileTable.v
File.v
Volume.v
Process.v
Program.v
System.v
Running.v
Kernel.v
