(* ===== verification/Prelude.v ===== *)
(** * AvocadOS, verified parts

    AvocadOS is a small 32-bit x86 kernel in C. This library translates its C code into
    functions on explicit states and proves what they do. Paths below are under
    [src/]; two demonstration programs, [list.c] and [buffer.c], are at the top of the
    repository.

    ** How the kernel is put together, and the file that models each part

    [kernel_main] starts the parts in the order: segments and the interrupt controllers,
    interrupt table, terminal, heap, paging, files, disk, tasks; then it loops for ever.
    From there on interrupts run the kernel: the timer's calls the scheduler.

    - [Prelude]: this file. [outcome] is what a C function can do: return, run into
      undefined behaviour, call [panic], or use up the fuel of an unbounded loop.
    - [Mem]: byte memory, little-endian words, strings in memory.
    - [CString]: [string/string.c] on byte memory ([memmove] is in [Store]).
    - [Heap]: [memory/heap.c], the table of 4096-byte blocks; [Kheap]:
      [memory/kheap.c], the kernel's heap, and the interface [Allocator] with its
      [AllocatorLaws], which the kernel's heap implements and everything that
      allocates is verified against. [MemCheck]: [memory/memcheck.c], the debugging
      build's record of allocations, and that build's [kzalloc] and [kfree].
    - [Store]: objects in allocated memory; ownership ([kowned]), frames
      ([modifies]), room for allocations to come ([room]).
    - [Buffer]: [buffer.c]. [Ring], [CList]: rings of linked nodes, and [list.c].
    - [Termio]: [termio/termio.c], a map of 16-bit cells and a cursor.
    - [Disk]: [disk/disk.c] over the interface [Ports] and the laws [AtaDrive];
      it implements [BlockDevice]. [DiskStream]: [disk/disk_stream.c] over
      [BlockDevice]. [Fat16]: [fs/fat16.c] over [BlockDevice] and [Allocator].
    - [PathParser]: [fs/path_parser.c]. [FileTable]: [fs/file_table.c]. [File]:
      [fs/file.c], over the interface [FileSystem] of a registered file system.
      [Volume]: [fs/fat16.c]'s table of operations as such a file system: mounting a
      volume, and a file from [fopen] to [fread] through every layer.
    - [Paging]: [memory/paging.c]; directories and tables are words in memory.
      [AddressSpace]: the kernel's own directory and copies of directories.
    - [Gdt]: [kernel/gdt.c]. [Pic]: the interrupt controllers of [kernel/kernel.c]
      and [idt/idt.c]. [Idt]: the rest of [idt/idt.c].
    - [Task]: [kernel/task/task.c], tasks and the scheduler. [Process]:
      [kernel/task/process.c], and [__switch_task]. [Program]: the memory of a program,
      [process_map_memory] over [Paging]'s directories. [System]: the invariant of the
      running system, tasks, processes and the kernel's directory together, under ticks
      and [process_init]. [Running]: the states reached from [tasking_init].
    - [Kernel]: [kernel/kernel.c] and [kernel/panic.c]: the splash screen, [print_path]
      and [kernel_main], which calls all of the above.

    A state is a record of the globals the functions of a file share; it contains the
    state of the parts below: [system_state] (Kernel) has [processing] (Process), which
    has [tasking] (Task), which has [machine] (Paging), which has the allocator with its
    memory. A C function is a
    function of the same name from the state and its arguments to an [outcome] of its
    result and the new state. A pointer is its address, NULL is 0. A struct in memory
    is read and written at its offsets; a struct no other part points into is a record.
    Integers are kept at their width by [u8], [u16], [u32], [s8], [s32]. An access
    outside the mapped bytes, out of an array or through NULL is [Ub].

    ** What the theorems show

    - Memory: an allocation is new, zeroed and apart from the live ones; freeing spares
      the others; the search of the heap returns exactly when stated; requests larger
      than the heap and freeing its last allocation are undefined. The checker's table
      follows the heap, and a second release panics.
    - Strings: [memcpy], [memset], [itoa] against their meaning, with the exact
      condition under which [memset] is right.
    - Devices: the ATA protocol reads the requested sectors; a stream is the disk as one
      byte array; the controllers are moved and masked; the terminal's text goes round.
    - File system: a read follows the FAT chain and returns the file's next bytes; a
      look-up finds the first entry of a name; the root directory is searched in part
      only. Paths parse into their components, [fopen] gives a numbered descriptor on
      which [fread] reads the file, and the table gives numbers back. [fat16_probe]
      mounts a volume with a sound header, and FAT16 implements [FileSystem], so
      [fopen] and [fread] give the bytes the directory and the chain of clusters say.
    - Virtual memory: mapping makes the addresses translate and moves no other;
      [paging_init] leaves a directory that maps the kernel at both of its places; a
      copy of a directory translates as the original does. [virtual_to_physical_addr]
      walks [directory_virtual], the kernel's own copy of the tables' addresses; so each of
      these theorems also gives the words the processor reads, those of the directory
      ([directory_entry]) and of its tables ([table_word]), flags included.
    - Segments and interrupts: what is installed denotes the flat segments and the
      handlers; a timer interrupt is acknowledged and switches tasks; when a line
      interrupts again.
    - Tasks: the scheduler is round robin and resumes a task where it was; a new task
      runs next; the ring survives insertion and removal. [tasking_init] leaves two
      processes, two tasks, and the idle task next.
    - Programs: [process_map_memory] makes a directory in which the program, its stack and
      the kernel are where they belong; after [process_init] the next tick starts the
      program there; and the system stays sound over any ticks and programs started, from
      [tasking_init] and from [kernel_main].
    - The start: [kernel_main], on a machine with an ATA drive that holds a FAT16
      volume, runs every initialiser without an error, mounts the volume, and then
      never returns.
    - The lists and the buffer behave as sequences and as a bounded queue.

    Theorems named in a documentation comment by a claim number come last in their file, each
    with a [_witness] that applies it to a concrete state.

    ** Fuel and bounds

    A loop with no counted bound takes [fuel], and [Diverge] is the result without
    enough. The theorems ask for a bound under which the loop is shown to end: the
    length of a string or a path and one, the number of tasks, the bytes to read, the
    polls after which [AtaDrive] says a drive is ready. The kernel's heap uses
    [kernel_fuel], 10000, with a table of at most 4096 blocks, on which its search and
    its release end; searches for a slot take one more than the slots there are. A
    model that ends with some fuel ends the same with more ([while_more_fuel]).

    ** Not modelled

    - Assembly: the ports, [lgdt], [ltr], [lidt], control registers and [sti] are
      parameters or assignments; the stubs of [idt/idt.asm] that push a frame, and
      [raise_int_20], are arguments or hypotheses. Boot code and the programs on the
      disk are not there.
    - [panic]'s loop, which is the outcome [Panic] of its callers.
    - [fs/fat.cc]: it is inside [#ifdef DESASTRE], is no part of the build, and calls
      functions that no file has.
    - [kernel/task/task.c]'s macro [switch_to], which is assembly, and the body of
      [idle_function], a loop of [nop]s.
    - Concurrency within a function: an interrupt is a call between the others.

    ** This file

    - [outcome], with its monad and the inversion tactic [outcome_inv];
    - machine integers: [u8], [u16], [u32], [s8], [s32] wrap a [Z] to a width;
    - loops: [while_loop] (fuel) with its total, partial and divergence rules,
      and [for_loop] (a counted loop) with its invariant rule;
    - arrays: [arr_get] and [arr_set], C array accesses on a list, undefined
      out of bounds;
    - the hint databases [avocado] (resolution) and [word] (rewriting). *)
From stdpp Require Export base option list gmap numbers strings.
From Stdlib Require Export ZArith Lia.
#[global] Open Scope Z_scope.

Create HintDb avocado.
Create Rewrite HintDb word.

(** ** Outcomes *)

Inductive outcome (A : Type) : Type :=
  | Ok (a : A)
  | Ub
  | Panic (msg : string)
  | Diverge.
Arguments Ok {A} a.
Arguments Ub {A}.
Arguments Panic {A} msg.
Arguments Diverge {A}.

#[export] Instance outcome_ret : MRet outcome := @Ok.
#[export] Instance outcome_bind : MBind outcome := λ A B f x,
  match x with
  | Ok a => f a
  | Ub => Ub
  | Panic msg => Panic msg
  | Diverge => Diverge
  end.
#[export] Instance outcome_fmap : FMap outcome := λ A B f x, x ≫= λ a, Ok (f a).

#[export] Instance outcome_eq_dec {A} `{EqDecision A} : EqDecision (outcome A).
Proof. solve_decision. Defined.

Lemma bind_Ok {A B} (a : A) (f : A → outcome B) : (Ok a ≫= f) = f a.
Proof. reflexivity. Qed.

Lemma Ok_pair_inv {A B} (a c : A) (b d : B) : Ok (a, b) = Ok (c, d) → a = c ∧ b = d.
Proof. intros E. by injection E. Qed.

(** Naming the second result of a run without writing it out. *)
Definition result_or {A B} (x : outcome (A * B)) (d : B) : B :=
  match x with Ok (_, b) => b | _ => d end.

Lemma run_result {A B} (x : outcome (A * B)) a d :
  match x with Ok (p, _) => p = a | _ => False end → x = Ok (a, result_or x d).
Proof. destruct x as [[p b]| | |]; [|done..]. by intros ->. Qed.

Lemma bind_Ok_inv {A B} (x : outcome A) (f : A → outcome B) b :
  (x ≫= f) = Ok b → ∃ a, x = Ok a ∧ f a = Ok b.
Proof. destruct x; cbn; try discriminate. eauto. Qed.

Lemma bind_assoc {A B C} (x : outcome A) (f : A → outcome B) (g : B → outcome C) :
  (x ≫= f) ≫= g = x ≫= λ a, f a ≫= g.
Proof. by destruct x. Qed.

(** [outcome_inv] splits every hypothesis that says a bind returned. *)
Ltac outcome_inv :=
  repeat match goal with
    | H : mbind _ _ = Ok _ |- _ =>
        let a := fresh "r" in let Ha := fresh "Hr" in
        apply bind_Ok_inv in H as (a & Ha & H)
    | H : Ok _ = Ok _ |- _ => injection H as H; try subst
    | H : mret _ = Ok _ |- _ => injection H as H; try subst
    | H : Ub = Ok _ |- _ => discriminate H
    | H : Panic _ = Ok _ |- _ => discriminate H
    | H : Diverge = Ok _ |- _ => discriminate H
    | H : (_, _) = (_, _) |- _ => injection H as H; try subst
    end.

(** The program's [assert]-like reads of an option: undefined when absent. *)
Definition or_ub {A} (o : option A) : outcome A :=
  match o with Some a => Ok a | None => Ub end.

Lemma or_ub_Ok {A} (o : option A) a : or_ub o = Ok a ↔ o = Some a.
Proof. destruct o; cbn; split; congruence. Qed.

(** Evaluate a decidable proposition on concrete data. *)
Ltac decide_by_compute :=
  lazymatch goal with
  | |- ?P => refine (bool_decide_unpack P _); vm_compute; exact I
  end.

(** Tuples of equal numbers. *)
Ltac tuple_lia := repeat match goal with |- (_, _) = (_, _) => f_equal end; lia.

(** ** Machine integers *)

Definition u8 (z : Z) : Z := z mod 2 ^ 8.
Definition u16 (z : Z) : Z := z mod 2 ^ 16.
Definition u32 (z : Z) : Z := z mod 2 ^ 32.
Definition s8 (z : Z) : Z := (z + 2 ^ 7) mod 2 ^ 8 - 2 ^ 7.
Definition s32 (z : Z) : Z := (z + 2 ^ 31) mod 2 ^ 32 - 2 ^ 31.
Definition s64 (z : Z) : Z := (z + 2 ^ 63) mod 2 ^ 64 - 2 ^ 63.

Lemma u8_range z : 0 ≤ u8 z < 2 ^ 8.
Proof. apply Z.mod_pos_bound. lia. Qed.
Lemma u16_range z : 0 ≤ u16 z < 2 ^ 16.
Proof. apply Z.mod_pos_bound. lia. Qed.
Lemma u32_range z : 0 ≤ u32 z < 2 ^ 32.
Proof. apply Z.mod_pos_bound. lia. Qed.
Lemma s32_range z : - 2 ^ 31 ≤ s32 z < 2 ^ 31.
Proof. unfold s32. pose proof (Z.mod_pos_bound (z + 2 ^ 31) (2 ^ 32)). lia. Qed.
Lemma u8_id z : 0 ≤ z < 2 ^ 8 → u8 z = z.
Proof. apply Z.mod_small. Qed.
Lemma u16_id z : 0 ≤ z < 2 ^ 16 → u16 z = z.
Proof. apply Z.mod_small. Qed.
Lemma u32_id z : 0 ≤ z < 2 ^ 32 → u32 z = z.
Proof. apply Z.mod_small. Qed.
Lemma s8_id z : - 2 ^ 7 ≤ z < 2 ^ 7 → s8 z = z.
Proof. intros. unfold s8. rewrite Z.mod_small; lia. Qed.
Lemma s32_id z : - 2 ^ 31 ≤ z < 2 ^ 31 → s32 z = z.
Proof. intros. unfold s32. rewrite Z.mod_small; lia. Qed.
Lemma s64_id z : - 2 ^ 63 ≤ z < 2 ^ 63 → s64 z = z.
Proof. intros. unfold s64. rewrite Z.mod_small; lia. Qed.

Lemma s32_add_mul z k : s32 (z + k * 2 ^ 32) = s32 z.
Proof.
  unfold s32. replace (z + k * 2 ^ 32 + 2 ^ 31) with (z + 2 ^ 31 + k * 2 ^ 32) by lia.
  by rewrite Z.mod_add by lia.
Qed.
Lemma s32_repr z : ∃ k, z = s32 z + k * 2 ^ 32.
Proof.
  exists ((z + 2 ^ 31) / 2 ^ 32). unfold s32. pose proof (Z.div_mod (z + 2 ^ 31) (2 ^ 32)). lia.
Qed.

(** Masks: [x & (2^n - 1)] and [x & ~(2^n - 1)]. *)
Lemma land_mask x n : 0 ≤ n → Z.land x (2 ^ n - 1) = x mod 2 ^ n.
Proof. intros. rewrite <- Z.land_ones by done. by rewrite Z.ones_equiv, Z.sub_1_r. Qed.

Lemma land_lnot_mask x n : 0 ≤ n → Z.land x (Z.lnot (2 ^ n - 1)) = x - x mod 2 ^ n.
Proof.
  intros Hn. rewrite <- Z.ldiff_land, Z.sub_1_r, <- Z.ones_equiv, Z.ldiff_ones_r by done.
  rewrite Z.shiftl_mul_pow2, Z.shiftr_div_pow2 by done.
  pose proof (Z.div_mod x (2 ^ n)). lia.
Qed.

#[export] Hint Rewrite u8_id u16_id u32_id s8_id s32_id s64_id using lia : word.
#[export] Hint Resolve u8_range u16_range u32_range s32_range : avocado.

(** ** Loops *)

(** [step s] is one evaluation of a loop's condition and, when it holds, of its
    body: [inl s'] goes round again, [inr r] leaves the loop. *)
Fixpoint while_loop {S R} (fuel : nat) (step : S → outcome (S + R)) (s : S) : outcome R :=
  match fuel with
  | O => Diverge
  | Datatypes.S fuel =>
      r ← step s;
      match r with
      | inl s' => while_loop fuel step s'
      | inr r => Ok r
      end
  end.

Section while.
Context {S R : Type} (step : S → outcome (S + R)).

Lemma while_unfold fuel s :
  while_loop (Datatypes.S fuel) step s =
  (r ← step s; match r with inl s' => while_loop fuel step s' | inr r => Ok r end).
Proof. reflexivity. Qed.

Lemma while_continue fuel s s' :
  step s = Ok (inl s') → while_loop (Datatypes.S fuel) step s = while_loop fuel step s'.
Proof. intros H. by rewrite while_unfold, H. Qed.

Lemma while_exit fuel s r :
  step s = Ok (inr r) → while_loop (Datatypes.S fuel) step s = Ok r.
Proof. intros H. by rewrite while_unfold, H. Qed.

(** Termination: a measure that every continuing step decreases. *)
Lemma while_total (I : S → Prop) (m : S → nat) (Q : R → Prop) fuel s :
  I s → (m s < fuel)%nat →
  (∀ s, I s →
    (∃ s', step s = Ok (inl s') ∧ I s' ∧ (m s' < m s)%nat) ∨
    (∃ r, step s = Ok (inr r) ∧ Q r)) →
  ∃ r, while_loop fuel step s = Ok r ∧ Q r.
Proof.
  intros HI Hm Hstep. revert s HI Hm.
  induction fuel as [|fuel IH]; intros s HI Hm; [lia|].
  destruct (Hstep s HI) as [(s' & Hs & HI' & Hlt)|(r & Hs & HQ)].
  - rewrite (while_continue _ _ _ Hs). apply IH; [done|lia].
  - rewrite (while_exit _ _ _ Hs). eauto.
Qed.

(** Termination by counting rounds: an invariant that knows the round number
    and allows at most [bound] of them. *)
Lemma while_total_rounds (I : nat → S → Prop) (bound : nat) (Q : R → Prop) fuel s :
  I 0%nat s → (bound < fuel)%nat →
  (∀ k s, I k s → (k ≤ bound)%nat) →
  (∀ k s, I k s →
    (∃ s', step s = Ok (inl s') ∧ I (Datatypes.S k) s') ∨
    (∃ r, step s = Ok (inr r) ∧ Q r)) →
  ∃ r, while_loop fuel step s = Ok r ∧ Q r.
Proof.
  intros HI Hfuel Hbound Hstep.
  enough (Hgen : ∀ fuel k s, I k s → (bound - k < fuel)%nat →
    ∃ r, while_loop fuel step s = Ok r ∧ Q r) by (apply (Hgen fuel 0%nat); [done|lia]).
  clear - Hbound Hstep. intros fuel. induction fuel as [|fuel IH]; intros k s HI Hlt; [lia|].
  destruct (Hstep k s HI) as [(s' & Hs & HI')|(r & Hs & HQ)].
  - rewrite (while_continue _ _ _ Hs). apply (IH (Datatypes.S k)); [done|].
    pose proof (Hbound _ _ HI'). lia.
  - rewrite (while_exit _ _ _ Hs). eauto.
Qed.

(** Partial correctness: what holds when the loop returned. *)
Lemma while_partial (I : S → Prop) (Q : R → Prop) :
  (∀ s s', I s → step s = Ok (inl s') → I s') →
  (∀ s r, I s → step s = Ok (inr r) → Q r) →
  ∀ fuel s r, I s → while_loop fuel step s = Ok r → Q r.
Proof.
  intros Hl Hr fuel. induction fuel as [|fuel IH]; intros s r HI Hw; [done|].
  rewrite while_unfold in Hw. apply bind_Ok_inv in Hw as ([s'|r'] & Hs & Hw).
  - eauto.
  - injection Hw as ->. eauto.
Qed.

(** Divergence: an invariant under which every step goes round again. *)
Lemma while_diverges (I : S → Prop) :
  (∀ s, I s → ∃ s', step s = Ok (inl s') ∧ I s') →
  ∀ fuel s, I s → while_loop fuel step s = Diverge.
Proof.
  intros Hstep fuel. induction fuel as [|fuel IH]; intros s HI; [done|].
  destruct (Hstep s HI) as (s' & Hs & HI').
  rewrite (while_continue _ _ _ Hs). auto.
Qed.

(** More fuel never changes a result. *)
Lemma while_more_fuel fuel fuel' s r :
  while_loop fuel step s = Ok r → (fuel ≤ fuel')%nat → while_loop fuel' step s = Ok r.
Proof.
  revert fuel' s. induction fuel as [|fuel IH]; intros [|fuel'] s Hw Hle; try done; [lia|].
  rewrite while_unfold in Hw |- *. apply bind_Ok_inv in Hw as ([s'|r'] & -> & Hw).
  - rewrite bind_Ok. apply IH; [done|lia].
  - done.
Qed.
End while.

(** [for_loop n i body s] runs [body i], [body (i + 1)], ..., [n] times. *)
Fixpoint for_loop {S} (n : nat) (i : Z) (body : Z → S → outcome S) (s : S) : outcome S :=
  match n with
  | O => Ok s
  | Datatypes.S n => s' ← body i s; for_loop n (i + 1) body s'
  end.

Lemma for_loop_ok {S} (I : Z → S → Prop) (body : Z → S → outcome S) n i s :
  (∀ j s, i ≤ j < i + Z.of_nat n → I j s → ∃ s', body j s = Ok s' ∧ I (j + 1) s') →
  I i s → ∃ s', for_loop n i body s = Ok s' ∧ I (i + Z.of_nat n) s'.
Proof.
  revert i s. induction n as [|n IH]; intros i s Hbody HI.
  - exists s. by replace (i + Z.of_nat 0) with i by lia.
  - destruct (Hbody i s) as (s' & Hs' & HI'); [lia|done|].
    cbn. rewrite Hs', bind_Ok.
    replace (i + Z.of_nat (Datatypes.S n)) with (i + 1 + Z.of_nat n) by lia.
    apply IH; [|done]. intros. apply Hbody; [lia|done].
Qed.

(** ** Arrays *)

(** [arr_get l i] and [arr_set l i x] are the C accesses [l[i]] and
    [l[i] = x] on an array of [length l] cells. *)
Definition arr_get {A} (l : list A) (i : Z) : outcome A :=
  if decide (0 ≤ i) then or_ub (l !! Z.to_nat i) else Ub.

Definition arr_set {A} (l : list A) (i : Z) (x : A) : outcome (list A) :=
  if decide (0 ≤ i < Z.of_nat (length l)) then Ok (<[Z.to_nat i := x]> l) else Ub.

Lemma arr_get_Ok {A} (l : list A) i x :
  arr_get l i = Ok x ↔ 0 ≤ i ∧ l !! Z.to_nat i = Some x.
Proof. unfold arr_get. case_decide; rewrite ?or_ub_Ok; intuition (try congruence; lia). Qed.

Lemma arr_get_nat {A} (l : list A) (i : nat) : arr_get l (Z.of_nat i) = or_ub (l !! i).
Proof. unfold arr_get. rewrite decide_True by lia. by rewrite Nat2Z.id. Qed.

Lemma arr_get_in {A} (l : list A) i :
  0 ≤ i < Z.of_nat (length l) → ∃ x, arr_get l i = Ok x ∧ l !! Z.to_nat i = Some x.
Proof.
  intros. destruct (lookup_lt_is_Some_2 l (Z.to_nat i)) as [x Hx]; [lia|].
  exists x. rewrite arr_get_Ok. split; [split; [lia|done]|done].
Qed.

Lemma arr_get_out {A} (l : list A) i :
  ¬ (0 ≤ i < Z.of_nat (length l)) → arr_get l i = Ub.
Proof.
  intros. unfold arr_get. case_decide; [|done].
  rewrite lookup_ge_None_2 by lia. done.
Qed.

Lemma arr_set_Ok {A} (l l' : list A) i x :
  arr_set l i x = Ok l' ↔ 0 ≤ i < Z.of_nat (length l) ∧ l' = <[Z.to_nat i := x]> l.
Proof. unfold arr_set. case_decide; intuition congruence. Qed.

Lemma arr_set_in {A} (l : list A) i x :
  0 ≤ i < Z.of_nat (length l) → arr_set l i x = Ok (<[Z.to_nat i := x]> l).
Proof. intros. unfold arr_set. by rewrite decide_True. Qed.

Lemma arr_set_out {A} (l : list A) i x :
  ¬ (0 ≤ i < Z.of_nat (length l)) → arr_set l i x = Ub.
Proof. intros. unfold arr_set. by rewrite decide_False. Qed.

Lemma arr_set_length {A} (l l' : list A) i x :
  arr_set l i x = Ok l' → length l' = length l.
Proof. rewrite arr_set_Ok. intros [_ ->]. apply length_insert. Qed.

(** A loop that looks at the cells of [l] in turn and stops at the first zero; past the
    last it gives [none]. *)
Lemma search_spec (step : Z → outcome (Z + Z)) (l : list Z) none :
  (∀ i x, l !! i = Some x → step (Z.of_nat i) = Ok (if decide (x = 0) then inr (Z.of_nat i) else inl (Z.of_nat i + 1))) →
  step (Z.of_nat (length l)) = Ok (inr none) →
  (Forall (λ x, x ≠ 0) l ∧ while_loop (S (length l)) step 0 = Ok none) ∨
  ∃ i, while_loop (S (length l)) step 0 = Ok (Z.of_nat i) ∧ l !! i = Some 0 ∧
    ∀ j x, (j < i)%nat → l !! j = Some x → x ≠ 0.
Proof.
  intros Hin Hout. destruct (list_find (λ x, x = 0) l) as [[i d]|] eqn:E.
  - right. apply list_find_Some in E as (Hi & -> & Hlt). exists i.
    pose proof (lookup_lt_Some _ _ _ Hi) as Hil. split; [|split; [done|intros j d Hj Hd; by eapply Hlt]].
    destruct (while_total_rounds step (λ k j, j = Z.of_nat k ∧ (k ≤ i)%nat) i (λ r, r = Z.of_nat i) (S (length l)) 0)
      as (r & -> & ->); [split; [done|lia]|lia|by intros k j []| |done].
    intros k j [-> Hk]. destruct (lookup_lt_is_Some_2 l k) as [x Hx]; [lia|]. rewrite (Hin k x Hx).
    destruct (decide (k = i)) as [-> | Hne].
    + right. eexists. split; [|done]. rewrite Hx in Hi. injection Hi as ->. done.
    + left. eexists. rewrite decide_False; [split; [done|split; lia]|]. eapply Hlt; [done|lia].
  - left. apply list_find_None in E. split; [done|].
    destruct (while_total_rounds step (λ k j, j = Z.of_nat k ∧ (k ≤ length l)%nat) (length l) (λ r, r = none) (S (length l)) 0)
      as (r & -> & ->); [split; [done|lia]|lia|by intros k j []| |done].
    intros k j [-> Hk]. destruct (decide (k = length l)) as [-> | Hne]; [right; by eexists|left].
    destruct (lookup_lt_is_Some_2 l k) as [x Hx]; [lia|]. rewrite (Hin k x Hx), decide_False by (by eapply Forall_lookup_1 in E).
    eexists. split; [done|]. split; lia.
Qed.

(** The [n] cells of [l] from index [i] on. *)
Definition arr_slice {A} (l : list A) (i n : Z) : outcome (list A) :=
  if decide (0 ≤ i ∧ 0 ≤ n ∧ i + n ≤ Z.of_nat (length l)) then
    Ok (take (Z.to_nat n) (drop (Z.to_nat i) l))
  else Ub.

Lemma arr_slice_in {A} (l : list A) i n :
  0 ≤ i → 0 ≤ n → i + n ≤ Z.of_nat (length l) →
  arr_slice l i n = Ok (take (Z.to_nat n) (drop (Z.to_nat i) l)).
Proof. intros. unfold arr_slice. by rewrite decide_True. Qed.

#[export] Hint Resolve arr_set_length : avocado.
