(* ===== verification/Mem.v ===== *)
(** Byte-addressed memory: the flat address space the kernel's C code reads and
    writes through [char *] and [uint32_t *].

    [mem] maps the mapped addresses to bytes (0..255); an access to an address
    outside the domain is undefined behaviour. [load32]/[store32] are the
    little-endian accesses of i386. [bytes_at] and [mapped] say what a region
    holds, [write_bytes] is the reference for every routine that fills one. *)
From S2P Require Import Prelude.

Abbreviation mem := (gmap Z Z).

Definition load8 (m : mem) (a : Z) : outcome Z := or_ub (m !! a).

Definition store8 (m : mem) (a v : Z) : outcome mem :=
  match m !! a with Some _ => Ok (<[a := u8 v]> m) | None => Ub end.

(** The [n] bytes at [a]. *)
Fixpoint load_bytes (m : mem) (a : Z) (n : nat) : outcome (list Z) :=
  match n with
  | O => Ok []
  | S n => b ← load8 m a; l ← load_bytes m (a + 1) n; Ok (b :: l)
  end.

Definition combine4 (b0 b1 b2 b3 : Z) : Z := b0 + 2 ^ 8 * b1 + 2 ^ 16 * b2 + 2 ^ 24 * b3.

Definition load32 (m : mem) (a : Z) : outcome Z :=
  b0 ← load8 m a; b1 ← load8 m (a + 1); b2 ← load8 m (a + 2); b3 ← load8 m (a + 3);
  Ok (combine4 b0 b1 b2 b3).

Definition store32 (m : mem) (a v : Z) : outcome mem :=
  m ← store8 m a v; m ← store8 m (a + 1) (Z.shiftr v 8);
  m ← store8 m (a + 2) (Z.shiftr v 16); store8 m (a + 3) (Z.shiftr v 24).

(** A [char] of the i686 target is signed. *)
Definition load_char (m : mem) (a : Z) : outcome Z := b ← load8 m a; Ok (s8 b).

(** ** What a region holds *)

Definition wf_mem (m : mem) : Prop := map_Forall (λ _ b, 0 ≤ b < 256) m.

Definition mapped (m : mem) (a n : Z) : Prop := ∀ x, a ≤ x < a + n → is_Some (m !! x).

Definition bytes_at (m : mem) (a : Z) (l : list Z) : Prop :=
  ∀ i b, l !! i = Some b → m !! (a + Z.of_nat i) = Some b.

Definition is_byte (b : Z) : Prop := 0 ≤ b < 256.

Fixpoint write_bytes (m : mem) (a : Z) (l : list Z) : mem :=
  match l with
  | [] => m
  | b :: l => <[a := b]> (write_bytes m (a + 1) l)
  end.

(** A NUL-terminated string: the bytes [s], none of them zero, then a zero. *)
Definition cstr (m : mem) (a : Z) (s : list Z) : Prop :=
  bytes_at m a (s ++ [0]) ∧ Forall (λ b, 0 < b < 256) s.

(** ** Lemmas *)

Lemma write_bytes_lookup m a l x :
  write_bytes m a l !! x =
  if decide (a ≤ x < a + Z.of_nat (length l)) then l !! Z.to_nat (x - a) else m !! x.
Proof.
  revert a. induction l as [|b l IH]; intros a; cbn [write_bytes length].
  - rewrite decide_False by lia. done.
  - destruct (decide (x = a)) as [->|Hne].
    + rewrite lookup_insert_eq, decide_True by lia.
      by replace (Z.to_nat (a - a)) with O by lia.
    + rewrite lookup_insert_ne, IH by done. repeat case_decide; try lia; try done.
      replace (Z.to_nat (x - a)) with (S (Z.to_nat (x - (a + 1)))) by lia. done.
Qed.

Lemma write_bytes_lookup_in m a l i b :
  l !! i = Some b → write_bytes m a l !! (a + Z.of_nat i) = Some b.
Proof.
  intros H. pose proof (lookup_lt_Some _ _ _ H). rewrite write_bytes_lookup, decide_True by lia.
  by replace (Z.to_nat (a + Z.of_nat i - a)) with i by lia.
Qed.

Lemma write_bytes_lookup_out m a l x :
  ¬ (a ≤ x < a + Z.of_nat (length l)) → write_bytes m a l !! x = m !! x.
Proof. intros. by rewrite write_bytes_lookup, decide_False. Qed.

Lemma bytes_at_write m a l : bytes_at (write_bytes m a l) a l.
Proof. intros i b. apply write_bytes_lookup_in. Qed.

Lemma bytes_at_write_other m a l x l' :
  x + Z.of_nat (length l') ≤ a ∨ a + Z.of_nat (length l) ≤ x →
  bytes_at m x l' → bytes_at (write_bytes m a l) x l'.
Proof.
  intros Hd H i b Hi. pose proof (lookup_lt_Some _ _ _ Hi).
  rewrite write_bytes_lookup_out by lia. auto.
Qed.

Lemma write_bytes_app m a l1 l2 :
  write_bytes m a (l1 ++ l2) =
  write_bytes (write_bytes m a l1) (a + Z.of_nat (length l1)) l2.
Proof.
  apply map_eq. intros x. rewrite !write_bytes_lookup, length_app, Nat2Z.inj_add.
  repeat case_decide; try lia; try done.
  - rewrite lookup_app_r by lia. f_equal. lia.
  - by rewrite lookup_app_l by lia.
Qed.

Lemma write_bytes_dom m a l x :
  mapped m a (Z.of_nat (length l)) → is_Some (write_bytes m a l !! x) ↔ is_Some (m !! x).
Proof.
  intros Hm. rewrite write_bytes_lookup. case_decide; [|done].
  split; [intros _; by apply Hm|intros _].
  apply lookup_lt_is_Some_2. lia.
Qed.

Lemma mapped_write m a l b n :
  mapped m a (Z.of_nat (length l)) → mapped m b n → mapped (write_bytes m a l) b n.
Proof. intros Ha Hb x Hx. rewrite write_bytes_dom; auto. Qed.

Lemma mapped_write_mono m a l b n : mapped m b n → mapped (write_bytes m a l) b n.
Proof.
  intros Hm x Hx. rewrite write_bytes_lookup. case_decide; [|by apply Hm].
  apply lookup_lt_is_Some_2. lia.
Qed.

Lemma mapped_fill m a n b : mapped (write_bytes m a (replicate (Z.to_nat n) b)) a n.
Proof.
  intros x Hx. rewrite write_bytes_lookup, length_replicate, decide_True by lia.
  apply lookup_lt_is_Some_2. rewrite length_replicate. lia.
Qed.

Lemma mapped_sub m a n b k : mapped m a n → a ≤ b → b + k ≤ a + n → mapped m b k.
Proof. intros H ?? x ?. apply H. lia. Qed.

Lemma bytes_at_mapped m a l : bytes_at m a l → mapped m a (Z.of_nat (length l)).
Proof.
  intros H x Hx. destruct (lookup_lt_is_Some_2 l (Z.to_nat (x - a))) as [b Hb]; [lia|].
  apply H in Hb. replace (a + Z.of_nat (Z.to_nat (x - a))) with x in Hb by lia. eauto.
Qed.

Lemma mapped_bytes m a n : 0 ≤ n → mapped m a n → ∃ l, Z.of_nat (length l) = n ∧ bytes_at m a l.
Proof.
  intros Hn Hm. exists ((λ i, default 0 (m !! (a + i))) <$> seqZ 0 n). split.
  - rewrite length_fmap, length_seqZ. lia.
  - intros i b Hi. apply list_lookup_fmap_Some in Hi as (j & -> & Hj). apply lookup_seqZ in Hj as [-> Hj].
    rewrite Z.add_0_l. destruct (Hm (a + Z.of_nat i)) as [x Hx]; [lia|]. by rewrite Hx.
Qed.

Lemma bytes_at_app m a l1 l2 :
  bytes_at m a (l1 ++ l2) ↔ bytes_at m a l1 ∧ bytes_at m (a + Z.of_nat (length l1)) l2.
Proof.
  split.
  - intros H. split; intros i b Hi.
    + apply H. rewrite lookup_app_l; [done|]. by eapply lookup_lt_Some.
    + replace (a + Z.of_nat (length l1) + Z.of_nat i)
        with (a + Z.of_nat (length l1 + i)) by lia.
      apply H. rewrite lookup_app_r by lia. by replace (_ + i - _)%nat with i by lia.
  - intros [H1 H2] i b Hi. rewrite lookup_app_Some in Hi. destruct Hi as [Hi|[Hle Hi]]; [auto|].
    apply H2 in Hi. rewrite <- Hi. f_equal. lia.
Qed.

Lemma bytes_at_load m a l i b : bytes_at m a l → l !! i = Some b → load8 m (a + Z.of_nat i) = Ok b.
Proof. intros H Hi. unfold load8. by rewrite (H i b Hi). Qed.

Lemma load_bytes_ok m a l : bytes_at m a l → load_bytes m a (length l) = Ok l.
Proof.
  revert a. induction l as [|b l IH]; intros a Hl; [done|]. cbn [length load_bytes].
  apply (bytes_at_app m a [b] l) in Hl as [Hb Hl]. pose proof (bytes_at_load _ _ _ 0 b Hb eq_refl) as E.
  rewrite Z.add_0_r in E. rewrite E, bind_Ok. change (a + Z.of_nat (length [b])) with (a + 1) in Hl. by rewrite (IH _ Hl).
Qed.

Lemma bytes_at_byte m a l : wf_mem m → bytes_at m a l → Forall is_byte l.
Proof.
  intros Hm H. apply Forall_lookup. intros i b Hi. apply H in Hi. exact (Hm _ _ Hi).
Qed.

(** What [bytes_at] reads is determined. *)
Lemma bytes_at_agree m a l1 l2 :
  length l1 = length l2 → bytes_at m a l1 → bytes_at m a l2 → l1 = l2.
Proof.
  intros Hlen H1 H2. apply list_eq. intros i.
  destruct (l1 !! i) as [x|] eqn:E1, (l2 !! i) as [y|] eqn:E2; [|exfalso..|done].
  - apply H1 in E1. apply H2 in E2. congruence.
  - apply lookup_lt_Some in E1. apply lookup_ge_None in E2. lia.
  - apply lookup_lt_Some in E2. apply lookup_ge_None in E1. lia.
Qed.

Lemma store8_ok m a v : is_Some (m !! a) → store8 m a v = Ok (write_bytes m a [u8 v]).
Proof. intros [b Hb]. unfold store8. by rewrite Hb. Qed.

Lemma wf_write_bytes m a l : wf_mem m → Forall is_byte l → wf_mem (write_bytes m a l).
Proof.
  intros Hm Hl x b. rewrite write_bytes_lookup. case_decide; [|apply Hm].
  intros Hb. exact (Forall_lookup_1 _ _ _ _ Hl Hb).
Qed.

Lemma u8_byte v : is_byte (u8 v).
Proof. apply u8_range. Qed.
#[export] Hint Resolve u8_byte wf_write_bytes : avocado.

(** The four bytes of a word. *)
Definition split4 (v : Z) : list Z :=
  [u8 v; u8 (Z.shiftr v 8); u8 (Z.shiftr v 16); u8 (Z.shiftr v 24)].

Lemma split4_combine4 b0 b1 b2 b3 :
  is_byte b0 → is_byte b1 → is_byte b2 → is_byte b3 →
  split4 (combine4 b0 b1 b2 b3) = [b0; b1; b2; b3].
Proof.
  unfold is_byte, split4, combine4, u8. intros. rewrite !Z.shiftr_div_pow2 by lia.
  repeat f_equal; Z.div_mod_to_equations; lia.
Qed.

Lemma combine4_split4 v : 0 ≤ v < 2 ^ 32 →
  combine4 (u8 v) (u8 (Z.shiftr v 8)) (u8 (Z.shiftr v 16)) (u8 (Z.shiftr v 24)) = v.
Proof.
  unfold combine4, u8. intros. rewrite !Z.shiftr_div_pow2 by lia.
  change (2 ^ 24) with (2 ^ 8 * 2 ^ 8 * 2 ^ 8). change (2 ^ 16) with (2 ^ 8 * 2 ^ 8).
  rewrite <- !Z.div_div by lia. set (q1 := v / 2 ^ 8). set (q2 := q1 / 2 ^ 8).
  rewrite (Z.mod_small (q2 / 2 ^ 8)) by (subst q1 q2; Z.div_mod_to_equations; lia).
  pose proof (Z.div_mod v (2 ^ 8)). pose proof (Z.div_mod q1 (2 ^ 8)).
  pose proof (Z.div_mod q2 (2 ^ 8)). lia.
Qed.

Lemma store32_ok m a v : mapped m a 4 → store32 m a v = Ok (write_bytes m a (split4 v)).
Proof.
  intros Hm. unfold store32, split4.
  assert (is_Some (m !! a) ∧ is_Some (m !! (a + 1)) ∧ is_Some (m !! (a + 2)) ∧
          is_Some (m !! (a + 3))) as (? & ? & ? & ?) by (repeat split; apply Hm; lia).
  rewrite store8_ok, bind_Ok by done.
  rewrite store8_ok, bind_Ok by (rewrite write_bytes_lookup_out; [done|cbn [length]; lia]).
  rewrite store8_ok, bind_Ok by (rewrite !write_bytes_lookup_out; [done|cbn [length]; lia..]).
  rewrite store8_ok by (rewrite !write_bytes_lookup_out; [done|cbn [length]; lia..]).
  f_equal. change [u8 v; u8 (Z.shiftr v 8); u8 (Z.shiftr v 16); u8 (Z.shiftr v 24)]
    with ([u8 v] ++ [u8 (Z.shiftr v 8)] ++ [u8 (Z.shiftr v 16)] ++ [u8 (Z.shiftr v 24)]).
  rewrite !write_bytes_app. cbn [length]. change (Z.of_nat 1) with 1.
  replace (a + 1 + 1) with (a + 2) by lia. by replace (a + 2 + 1) with (a + 3) by lia.
Qed.

Lemma load32_ok m a b0 b1 b2 b3 :
  bytes_at m a [b0; b1; b2; b3] → load32 m a = Ok (combine4 b0 b1 b2 b3).
Proof.
  intros H. unfold load32, load8. pose proof (H 0%nat) as H0. rewrite Z.add_0_r in H0.
  rewrite (H0 b0 eq_refl), (H 1%nat b1 eq_refl : m !! (a + 1) = _),
    (H 2%nat b2 eq_refl : m !! (a + 2) = _), (H 3%nat b3 eq_refl : m !! (a + 3) = _).
  done.
Qed.

Lemma load32_split4 m a v : 0 ≤ v < 2 ^ 32 → bytes_at m a (split4 v) → load32 m a = Ok v.
Proof. intros Hv H. rewrite (load32_ok _ _ _ _ _ _ H). by rewrite combine4_split4. Qed.

(** Words read back what was written and are spared by writes elsewhere. *)
Lemma load32_ext m m' a : (∀ x, a ≤ x < a + 4 → m' !! x = m !! x) → load32 m' a = load32 m a.
Proof. intros H. unfold load32, load8. by rewrite !H by lia. Qed.

Lemma load32_shift m m' a b : (∀ i, 0 ≤ i < 4 → m' !! (b + i) = m !! (a + i)) → load32 m' b = load32 m a.
Proof.
  intros E. unfold load32, load8. pose proof (E 0 ltac:(lia)) as E0. rewrite !Z.add_0_r in E0.
  by rewrite E0, (E 1), (E 2), (E 3) by lia.
Qed.

Lemma load32_write_other m b l a :
  a + 4 ≤ b ∨ b + Z.of_nat (length l) ≤ a → load32 (write_bytes m b l) a = load32 m a.
Proof. intros Hd. apply load32_ext. intros x Hx. apply write_bytes_lookup_out. lia. Qed.

Lemma load32_write_same m a v : 0 ≤ v < 2 ^ 32 → load32 (write_bytes m a (split4 v)) a = Ok v.
Proof. intros Hv. apply load32_split4; [done|]. apply bytes_at_write. Qed.

Lemma load32_zeroed m a n b : a ≤ b → b + 4 ≤ a + n →
  load32 (write_bytes m a (replicate (Z.to_nat n) 0)) b = Ok 0.
Proof.
  intros Hab Hb. apply (load32_split4 _ _ 0); [lia|]. intros i x Hi.
  change (split4 0) with (replicate 4 0) in Hi. apply lookup_replicate in Hi as [-> Hlt].
  rewrite write_bytes_lookup, length_replicate, decide_True by lia.
  apply lookup_replicate_2. lia.
Qed.

Lemma load32_range m a v : wf_mem m → load32 m a = Ok v → 0 ≤ v < 2 ^ 32.
Proof.
  intros Hm H. unfold load32, load8 in H. outcome_inv.
  repeat match goal with E : or_ub _ = Ok _ |- _ => apply or_ub_Ok in E; apply Hm in E; cbn beta in E end.
  unfold combine4. lia.
Qed.

Lemma load32_mapped m a v : load32 m a = Ok v → mapped m a 4.
Proof.
  unfold load32, load8. intros H x Hx. outcome_inv.
  repeat match goal with E : or_ub _ = Ok _ |- _ => apply or_ub_Ok in E end.
  assert (x = a ∨ x = a + 1 ∨ x = a + 2 ∨ x = a + 3) as [-> | [-> | [-> | ->]]] by lia; eauto.
Qed.

Lemma mapped_load32 m a : wf_mem m → mapped m a 4 → ∃ v, load32 m a = Ok v ∧ 0 ≤ v < 2 ^ 32.
Proof.
  intros Hm H. destruct (H a) as [b0 E0]; [lia|]. destruct (H (a + 1)) as [b1 E1]; [lia|].
  destruct (H (a + 2)) as [b2 E2]; [lia|]. destruct (H (a + 3)) as [b3 E3]; [lia|].
  assert (E : load32 m a = Ok (combine4 b0 b1 b2 b3))
    by (unfold load32, load8; by rewrite E0, E1, E2, E3).
  eexists. split; [exact E|]. by eapply load32_range.
Qed.

Lemma split4_bytes v : Forall is_byte (split4 v).
Proof. unfold split4. repeat constructor; apply u8_range. Qed.
#[export] Hint Resolve split4_bytes : avocado.

(** ** Deciding the region predicates on concrete memories *)

Definition bytes_at_b (m : mem) (a : Z) (l : list Z) : bool :=
  forallb (λ i, bool_decide (m !! (a + i) = l !! Z.to_nat i)) (seqZ 0 (Z.of_nat (length l))).

Definition mapped_b (m : mem) (a n : Z) : bool :=
  forallb (λ i, bool_decide (is_Some (m !! (a + i)))) (seqZ 0 n).

Lemma bytes_at_check m a l : bytes_at_b m a l = true → bytes_at m a l.
Proof.
  unfold bytes_at_b. rewrite forallb_forall. intros H i b Hi.
  specialize (H (Z.of_nat i)). rewrite <- list_elem_of_In, elem_of_seqZ in H.
  pose proof (lookup_lt_Some _ _ _ Hi).
  rewrite bool_decide_eq_true, Nat2Z.id in H. rewrite H by lia. done.
Qed.

Lemma mapped_check m a n : mapped_b m a n = true → mapped m a n.
Proof.
  unfold mapped_b. rewrite forallb_forall. intros H x Hx.
  specialize (H (x - a)). rewrite <- list_elem_of_In, elem_of_seqZ, bool_decide_eq_true in H.
  replace (a + (x - a)) with x in H by lia. apply H. lia.
Qed.

Lemma mapped_checks m a n : mapped m a n → mapped_b m a n = true.
Proof.
  intros Hm. unfold mapped_b. apply forallb_forall. intros i Hi. rewrite <- list_elem_of_In, elem_of_seqZ in Hi.
  apply bool_decide_eq_true, Hm. lia.
Qed.

Lemma wf_mem_check m : bool_decide (wf_mem m) = true → wf_mem m.
Proof. apply bool_decide_eq_true_1. Qed.
