(* ===== verification/CString.v ===== *)
(** [src/string/string.c]: the kernel's freestanding string library, on the byte
    memory of [Mem].

    Each definition is the C routine of the same name (the [char *] argument a
    routine returns unchanged is left out of its result). A loop whose bound is
    an argument carries enough fuel by itself; a loop that runs to a NUL takes
    the fuel as an argument, and the theorems say how much is enough. The
    theorems give each routine its reference on byte lists: [write_bytes],
    [cmp_bytes], [decimal]. *)
From S2P Require Import Prelude Mem.

(** ** Block operations *)

(** [byte << 24 | byte << 16 | byte << 8 | byte] with a signed [char byte]. *)
Definition memset_dword (c : Z) : Z :=
  let byte := s8 c in
  u32 (Z.lor (Z.lor (Z.lor (Z.shiftl byte 24) (Z.shiftl byte 16)) (Z.shiftl byte 8)) byte).

Definition memset (m : mem) (s c n : Z) : outcome mem :=
  let dwords := n / 4 in
  let remaining_bytes := n mod 4 in
  m ← for_loop (Z.to_nat dwords) 0 (λ dword m, store32 m (s + 4 * dword) (memset_dword c)) m;
  for_loop (Z.to_nat remaining_bytes) 0 (λ i m, store8 m (s + dwords * 4 + i) (s8 c)) m.

Definition memcpy (m : mem) (dest source n : Z) : outcome mem :=
  let dwords := n / 4 in
  let remaining_bytes := n mod 4 in
  m ← for_loop (Z.to_nat dwords) 0
        (λ dword m, v ← load32 m (source + 4 * dword); store32 m (dest + 4 * dword) v) m;
  for_loop (Z.to_nat remaining_bytes) 0
    (λ i m, b ← load8 m (source + dwords * 4 + i); store8 m (dest + dwords * 4 + i) b) m.

Definition memcmp (m : mem) (s1 s2 n : Z) : outcome Z :=
  while_loop (S (Z.to_nat n))
    (λ i, if decide (i < n) then
            c1 ← load_char m (s1 + i); c2 ← load_char m (s2 + i);
            Ok (if decide (c1 ≠ c2) then inr 1 else inl (i + 1))
          else Ok (inr 0)) 0.

(** [NULL] is 0. *)
Definition memchr (m : mem) (s c n : Z) : outcome Z :=
  while_loop (S (Z.to_nat n))
    (λ i, if decide (i < n) then
            x ← load_char m (s + i);
            Ok (if decide (c = x) then inr (s + i) else inl (i + 1))
          else Ok (inr 0)) 0.

(** ** Strings *)

Definition strlen (fuel : nat) (m : mem) (str : Z) : outcome Z :=
  while_loop fuel
    (λ len, c ← load_char m (str + len);
            Ok (if decide (c = 0) then inr len else inl (u32 (len + 1)))) 0.

Definition strnlen (m : mem) (str max_len : Z) : outcome Z :=
  while_loop (S (Z.to_nat max_len))
    (λ len, if decide (len < max_len) then
              c ← load_char m (str + len);
              Ok (if decide (c = 0) then inr len else inl (len + 1))
            else Ok (inr len)) 0.

Definition to_upper (c : Z) : Z := if decide (97 ≤ c ∧ c ≤ 122) then c - 32 else c.
Definition to_lower (c : Z) : Z := if decide (65 ≤ c ∧ c ≤ 90) then c + 32 else c.

Definition strcmp (fuel : nat) (m : mem) (s1 s2 : Z) : outcome Z :=
  while_loop fuel
    (λ '(s1, s2),
       c1 ← load_char m s1; c2 ← load_char m s2;
       Ok (if decide (c1 = 0 ∨ c2 = 0 ∨ c1 ≠ c2) then inr (c1 - c2)
           else inl (s1 + 1, s2 + 1))) (s1, s2).

Definition strncmp (fuel : nat) (m : mem) (s1 s2 n : Z) : outcome Z :=
  while_loop fuel
    (λ '(s1, s2, i),
       c1 ← load_char m s1; c2 ← load_char m s2;
       Ok (if decide (c1 = 0 ∨ c2 = 0 ∨ c1 ≠ c2) then inr (c1 - c2)
           else let i := u32 (i + 1) in
                if decide (i = n) then inr (c1 - c2) else inl (s1 + 1, s2 + 1, i)))
    (s1, s2, 0).

(** [char_s1], [char_s2] keep the last pair compared when the loop ends at a NUL. *)
Definition strcasecmp (fuel : nat) (m : mem) (s1 s2 : Z) : outcome Z :=
  while_loop fuel
    (λ '(s1, s2, char_s1, char_s2),
       c1 ← load_char m s1; c2 ← load_char m s2;
       Ok (if decide (c1 = 0 ∨ c2 = 0) then inr (char_s1 - char_s2)
           else let char_s1 := s8 (to_upper c1) in
                let char_s2 := s8 (to_upper c2) in
                if decide (char_s1 ≠ char_s2) then inr (char_s1 - char_s2)
                else inl (s1 + 1, s2 + 1, char_s1, char_s2)))
    (s1, s2, 0, 0).

Definition strncasecmp (fuel : nat) (m : mem) (s1 s2 n : Z) : outcome Z :=
  while_loop fuel
    (λ '(s1, s2, i),
       c1 ← load_char m s1; c2 ← load_char m s2;
       Ok (if decide (c1 = 0 ∨ c2 = 0 ∨ s8 (to_upper c1) ≠ s8 (to_upper c2)) then inr (c1 - c2)
           else let i := u32 (i + 1) in
                if decide (i = n) then inr (c1 - c2) else inl (s1 + 1, s2 + 1, i)))
    (s1, s2, 0).

Definition strcpy (fuel : nat) (m : mem) (dest src : Z) : outcome mem :=
  while_loop fuel
    (λ '(ptr, src, m),
       c ← load8 m src;
       if decide (c = 0) then m' ← store8 m ptr 0; Ok (inr m')
       else m' ← store8 m ptr c; Ok (inl (ptr + 1, src + 1, m'))) (dest, src, m).

Definition strncpy (m : mem) (dest src n : Z) : outcome mem :=
  im ← while_loop (S (Z.to_nat n))
    (λ '(i, m),
       if decide (i < n) then
         c ← load8 m (src + i);
         if decide (c = 0) then Ok (inr (i, m))
         else m' ← store8 m (dest + i) c; Ok (inl (i + 1, m'))
       else Ok (inr (i, m))) (0, m);
  let '(i, m) := im in
  for_loop (Z.to_nat (n - i)) i (λ i m, store8 m (dest + i) 0) m.

Definition strchr (fuel : nat) (m : mem) (s c : Z) : outcome Z :=
  while_loop fuel
    (λ s, x ← load_char m s;
          Ok (if decide (x = 0) then inr 0 else if decide (c = x) then inr s else inl (s + 1))) s.

(** ** Characters and numbers *)

Definition is_digit (c : Z) : bool := bool_decide (48 ≤ c ∧ c ≤ 57).
Definition numeric_char_to_digit (c : Z) : Z := c - 48.
Definition digit_to_char (c : Z) : Z := if decide (c < 0 ∨ 9 < c) then 69 else 48 + c.

(** An [int] has at most ten decimal digits. *)
Definition itoa_fuel : nat := 10.

Definition itoa_count (shifter ptr : Z) : outcome Z :=
  while_loop itoa_fuel
    (λ '(shifter, ptr),
       let shifter := Z.quot shifter 10 in
       Ok (if decide (shifter = 0) then inr (ptr + 1) else inl (shifter, ptr + 1)))
    (shifter, ptr).

Definition itoa_write (m : mem) (shifter ptr : Z) : outcome (mem * Z) :=
  while_loop itoa_fuel
    (λ '(shifter, ptr, m),
       m' ← store8 m ptr (digit_to_char (Z.rem shifter 10));
       let shifter := Z.quot shifter 10 in
       Ok (if decide (shifter = 0) then inr (m', ptr - 1) else inl (shifter, ptr - 1, m')))
    (shifter, ptr, m).

(** [c] is an [int64_t], [shifter] an [int]; [shifter *= -1] wraps. *)
Definition itoa (m : mem) (c buf : Z) : outcome mem :=
  let shifter := s32 c in
  if decide (shifter = 0) then
    m ← store8 m buf 48; store8 m (buf + 1) 0
  else
    let is_negative := bool_decide (shifter < 0) in
    let ptr := if is_negative then buf + 1 else buf in
    let shifter := if is_negative then s32 (shifter * -1) else shifter in
    ptr ← itoa_count shifter ptr;
    m ← store8 m ptr 0;
    let shifter := s32 (if is_negative then s64 (- c) else c) in
    mp ← itoa_write m shifter (ptr - 1);
    let '(m, ptr) := mp in
    if is_negative then store8 m ptr 45 else Ok m.

(** ** References *)

(** What a comparison up to the first NUL or difference returns. *)
Fixpoint cmp_bytes (l1 l2 : list Z) : Z :=
  match l1, l2 with
  | x :: l1, y :: l2 =>
      if decide (x ≠ 0 ∧ x = y) then cmp_bytes l1 l2 else s8 x - s8 y
  | _, _ => 0
  end.

(** The decimal digits of a natural number, most significant first. *)
Fixpoint digits (fuel : nat) (v : Z) : list Z :=
  match fuel with
  | O => []
  | S fuel => if decide (v < 10) then [v] else digits fuel (v / 10) ++ [v mod 10]
  end.

Definition parse_digits (l : list Z) : Z := foldl (λ acc c, 10 * acc + (c - 48)) 0 l.

Definition parse_int (l : list Z) : Z :=
  match l with
  | 45 :: l => - parse_digits l
  | l => parse_digits l
  end.

(** The bytes [memset] writes: whole words of four bytes, then single bytes. *)
Definition memset_bytes (c n : Z) : list Z :=
  concat (replicate (Z.to_nat (n / 4)) (split4 (memset_dword c))) ++
  replicate (Z.to_nat (n mod 4)) (u8 c).

(** ** Block operations: lemmas *)

(** ** Block operations: lemmas *)

Lemma bytes_at_sub m a l i k :
  bytes_at m a l → bytes_at m (a + Z.of_nat i) (take k (drop i l)).
Proof.
  intros H j b Hj. rewrite lookup_take_Some, lookup_drop in Hj. destruct Hj as [Hj _].
  apply H in Hj. rewrite <- Hj. f_equal. lia.
Qed.

(** Extending a written prefix by the next [k] bytes. *)
Lemma write_bytes_extend m a l i k :
  (i + k ≤ length l)%nat →
  write_bytes (write_bytes m a (take i l)) (a + Z.of_nat i) (take k (drop i l)) =
  write_bytes m a (take (i + k) l).
Proof.
  intros. rewrite <- take_take_drop, write_bytes_app. f_equal.
  rewrite length_take. f_equal. lia.
Qed.

Lemma copy_word m src dest l :
  length l = 4%nat → Forall is_byte l → bytes_at m src l → mapped m dest 4 →
  (v ← load32 m src; store32 m dest v) = Ok (write_bytes m dest l).
Proof.
  intros Hlen Hl Hs Hd. destruct l as [|b0 [|b1 [|b2 [|b3 [|]]]]]; try discriminate.
  rewrite !Forall_cons in Hl. destruct Hl as (? & ? & ? & ? & _).
  rewrite (load32_ok _ _ _ _ _ _ Hs), bind_Ok, store32_ok, split4_combine4 by done. done.
Qed.

Lemma copy_byte m src dest l :
  length l = 1%nat → Forall is_byte l → bytes_at m src l → mapped m dest 1 →
  (v ← load8 m src; store8 m dest v) = Ok (write_bytes m dest l).
Proof.
  intros Hlen Hl Hs Hd. destruct l as [|b [|]]; try discriminate.
  rewrite Forall_singleton in Hl. unfold load8.
  pose proof (Hs 0%nat b eq_refl) as Hb. rewrite Z.add_0_r in Hb. rewrite Hb. cbn.
  unfold store8. destruct (Hd dest) as [x ->]; [lia|]. rewrite u8_id by apply Hl. done.
Qed.

(** A forward copy may overlap as long as it never reads what it wrote. *)
Definition copy_safe (dest source n : Z) : Prop := dest ≤ source ∨ source + n ≤ dest.

Lemma bytes_at_forward m dest source bs i k :
  copy_safe dest source (Z.of_nat (length bs)) → (i + k ≤ length bs)%nat →
  bytes_at m source bs →
  bytes_at (write_bytes m dest (take i bs)) (source + Z.of_nat i) (take k (drop i bs)).
Proof.
  intros Hs Hi Hb. destruct Hs.
  - apply bytes_at_write_other; [|by apply bytes_at_sub].
    right. rewrite length_take. lia.
  - apply bytes_at_write_other; [|by apply bytes_at_sub].
    left. rewrite length_take, length_drop. lia.
Qed.

(** One copying loop of unit [k]: from [i] bytes done to [i + n * k]. *)
Lemma copy_loop (k : nat) body m dest source bs (i n : nat) :
  (∀ m' src dst l, length l = k → Forall is_byte l → bytes_at m' src l →
     mapped m' dst (Z.of_nat k) →
     ∀ j, src = source + Z.of_nat i + Z.of_nat k * j →
          dst = dest + Z.of_nat i + Z.of_nat k * j → body j m' = Ok (write_bytes m' dst l)) →
  Forall is_byte bs → bytes_at m source bs → mapped m dest (Z.of_nat (length bs)) →
  copy_safe dest source (Z.of_nat (length bs)) → (i + n * k ≤ length bs)%nat →
  for_loop n 0 body (write_bytes m dest (take i bs)) =
  Ok (write_bytes m dest (take (i + n * k) bs)).
Proof.
  intros Hbody Hbytes Hsrc Hdst Hsafe Hlen.
  destruct (for_loop_ok (λ j m', m' = write_bytes m dest (take (i + Z.to_nat j * k) bs))
    body n 0 (write_bytes m dest (take i bs))) as (m' & -> & ->).
  - intros j m' Hj ->.
    assert (Hjk : (Z.to_nat j * k + k ≤ n * k)%nat).
    { rewrite <- (Nat.mul_1_l k) at 2. rewrite <- Nat.mul_add_distr_r.
      apply Nat.mul_le_mono_r. lia. }
    set (p := (i + Z.to_nat j * k)%nat) in *.
    eexists. split.
    + eapply Hbody with (l := take k (drop p bs)) (src := source + Z.of_nat p)
        (dst := dest + Z.of_nat p); [..|subst p; lia|subst p; lia].
      * rewrite length_take, length_drop. lia.
      * by apply Forall_take, Forall_drop.
      * apply bytes_at_forward; [done|lia|done].
      * apply mapped_write.
        -- eapply mapped_sub; [exact Hdst|lia|]. rewrite length_take. lia.
        -- eapply mapped_sub; [exact Hdst|lia|lia].
    + rewrite write_bytes_extend by lia. f_equal. f_equal. subst p.
      replace (Z.to_nat (j + 1)) with (S (Z.to_nat j)) by lia. lia.
  - f_equal. f_equal. lia.
  - f_equal. f_equal. f_equal. lia.
Qed.

Lemma memcpy_ok m dest source bs :
  wf_mem m → bytes_at m source bs → mapped m dest (Z.of_nat (length bs)) →
  copy_safe dest source (Z.of_nat (length bs)) →
  memcpy m dest source (Z.of_nat (length bs)) = Ok (write_bytes m dest bs).
Proof.
  intros Hm Hs Hd Hsafe. pose proof (bytes_at_byte _ _ _ Hm Hs) as Hb.
  set (n := Z.of_nat (length bs)) in *. unfold memcpy.
  pose proof (Z.div_mod n 4 ltac:(lia)). pose proof (Z.mod_pos_bound n 4 ltac:(lia)).
  assert (0 ≤ n / 4) by (apply Z.div_pos; lia).
  change m with (write_bytes m dest (take 0 bs)) at 1.
  rewrite (copy_loop 4 _ m dest source bs 0); try done; [|..|lia].
  2: { intros m' src dst l ???? j -> ->. rewrite Z.add_0_r in *. by apply copy_word. }
  rewrite bind_Ok.
  rewrite (copy_loop 1 _ m dest source bs); try done; [|..|lia].
  2: { intros m' src dst l ???? j -> ->.
       replace (source + Z.of_nat _ + _) with (source + n / 4 * 4 + j) in * by lia.
       replace (dest + Z.of_nat _ + _) with (dest + n / 4 * 4 + j) in * by lia. by apply copy_byte. }
  by rewrite take_ge by lia.
Qed.

Lemma u8_s8 c : u8 (s8 c) = u8 c.
Proof.
  unfold u8, s8. rewrite Zminus_mod_idemp_l. f_equal. lia.
Qed.

(** A counted loop that writes the same chunk [n] times. *)
Lemma fill_loop chunk body m a n :
  (∀ m' j dst, dst = a + Z.of_nat (length chunk) * j → mapped m' dst (Z.of_nat (length chunk)) →
     body j m' = Ok (write_bytes m' dst chunk)) →
  mapped m a (Z.of_nat (n * length chunk)) →
  for_loop n 0 body m = Ok (write_bytes m a (concat (replicate n chunk))).
Proof.
  intros Hbody Hm.
  destruct (for_loop_ok (λ j m', m' = write_bytes m a (concat (replicate (Z.to_nat j) chunk)))
    body n 0 m) as (m' & -> & ->); [|done|].
  - intros j m' Hj ->.
    assert (Hlen : ∀ k, length (concat (replicate k chunk)) = (k * length chunk)%nat).
    { intros k. induction k as [|k IH]; [done|]. cbn. rewrite length_app, IH. lia. }
    assert (Hjk : (Z.to_nat j * length chunk + length chunk ≤ n * length chunk)%nat).
    { rewrite <- (Nat.mul_1_l (length chunk)) at 2. rewrite <- Nat.mul_add_distr_r.
      apply Nat.mul_le_mono_r. lia. }
    eexists. split.
    + apply (Hbody _ _ _ eq_refl). apply mapped_write.
      * rewrite Hlen. eapply mapped_sub; [exact Hm|lia|lia].
      * eapply mapped_sub; [exact Hm|lia|lia].
    + replace (Z.to_nat (j + 1)) with (Z.to_nat j + 1)%nat by lia.
      rewrite replicate_add, concat_app, write_bytes_app, Hlen. cbn. rewrite app_nil_r.
      f_equal. lia.
  - by rewrite Z.add_0_l, Nat2Z.id.
Qed.

Lemma concat_replicate_singleton {A} n (x : A) : concat (replicate n [x]) = replicate n x.
Proof. induction n as [|n IH]; [done|]. cbn. by rewrite IH. Qed.

Lemma memset_ok m s c n :
  0 ≤ n → mapped m s n → memset m s c n = Ok (write_bytes m s (memset_bytes c n)).
Proof.
  intros Hn Hm. unfold memset, memset_bytes.
  pose proof (Z.div_mod n 4 ltac:(lia)). pose proof (Z.mod_pos_bound n 4 ltac:(lia)).
  assert (0 ≤ n / 4) by (apply Z.div_pos; lia).
  set (q := n / 4) in *. set (r := n mod 4) in *.
  rewrite (fill_loop (split4 (memset_dword c)) _ m s), bind_Ok.
  - rewrite <- (concat_replicate_singleton _ (u8 c)), write_bytes_app.
    assert (Hlen : length (concat (replicate (Z.to_nat q) (split4 (memset_dword c)))) =
      (Z.to_nat q * 4)%nat).
    { generalize (Z.to_nat q). intros k. induction k as [|k IH]; [done|]. cbn in *. lia. }
    rewrite Hlen. apply fill_loop.
    + intros m' j dst -> Hd. cbn [length] in Hd |- *.
      replace (s + Z.of_nat (Z.to_nat q * 4) + Z.of_nat 1 * j) with (s + q * 4 + j) in * by lia.
      rewrite store8_ok, u8_s8 by (apply Hd; lia). done.
    + apply mapped_write; rewrite ?Hlen; (eapply mapped_sub; [exact Hm|cbn; lia|cbn; lia]).
  - intros m' j dst -> Hd. apply store32_ok. exact Hd.
  - eapply mapped_sub; [exact Hm|lia|]. cbn [split4 length]. lia.
Qed.

(** The word [memset] stores, by the top bit of the byte: a negative [char] is
    sign-extended before the shifts, and its copies are lost in the [|]. *)
Lemma memset_word c :
  split4 (memset_dword c) =
  if decide (u8 c < 128) then replicate 4 (u8 c) else [u8 c; 255; 255; 255].
Proof.
  assert (Hc : memset_dword c = memset_dword (u8 c)).
  { unfold memset_dword. replace (s8 (u8 c)) with (s8 c); [done|].
    unfold s8, u8. by rewrite Zplus_mod_idemp_l. }
  rewrite Hc. clear Hc. pose proof (u8_range c) as Hr. revert Hr. generalize (u8 c). intros b Hb.
  assert (Hall : forallb (λ b, bool_decide (split4 (memset_dword b) =
    if decide (b < 128) then replicate 4 b else [b; 255; 255; 255])) (seqZ 0 256) = true)
    by (vm_compute; reflexivity).
  rewrite forallb_forall in Hall. specialize (Hall b).
  refine (bool_decide_eq_true_1 _ (Hall _)). apply list_elem_of_In, elem_of_seqZ. lia.
Qed.

Lemma concat_replicate_replicate {A} n k (x : A) :
  concat (replicate n (replicate k x)) = replicate (n * k) x.
Proof.
  induction n as [|n IH]; [done|]. rewrite replicate_S. cbn [concat]. rewrite IH.
  by rewrite <- replicate_add.
Qed.

Lemma memset_bytes_good c n :
  0 ≤ n → n < 4 ∨ u8 c < 128 ∨ u8 c = 255 →
  memset_bytes c n = replicate (Z.to_nat n) (u8 c).
Proof.
  intros Hn Hc. unfold memset_bytes.
  pose proof (Z.div_mod n 4 ltac:(lia)). pose proof (Z.mod_pos_bound n 4 ltac:(lia)).
  assert (0 ≤ n / 4) by (apply Z.div_pos; lia).
  destruct (decide (n < 4)).
  - replace (n / 4) with 0 by lia. change (Z.to_nat 0) with O. cbn.
    by replace (n mod 4) with n by lia.
  - assert (split4 (memset_dword c) = replicate 4 (u8 c)) as ->.
    { rewrite memset_word. case_decide; [done|]. by destruct Hc as [?|[?| ->]]. }
    rewrite concat_replicate_replicate, <- replicate_add. f_equal. lia.
Qed.

(** Two fills of one region agree only if they write the same bytes. *)
Lemma write_bytes_inj m a l1 l2 :
  length l1 = length l2 → write_bytes m a l1 = write_bytes m a l2 → l1 = l2.
Proof.
  intros Hlen He. apply (bytes_at_agree (write_bytes m a l1) a); [done|apply bytes_at_write|].
  rewrite He. apply bytes_at_write.
Qed.

(** ** Comparisons: lemmas *)

Lemma load_char_at m a l i b :
  bytes_at m a l → l !! i = Some b → load_char m (a + Z.of_nat i) = Ok (s8 b).
Proof. intros H Hi. unfold load_char. by rewrite (bytes_at_load _ _ _ _ _ H Hi). Qed.

Lemma load_char_hd m a b l : bytes_at m a (b :: l) → load_char m a = Ok (s8 b).
Proof. intros H. by rewrite <- (load_char_at _ _ _ 0 b H eq_refl), Z.add_0_r. Qed.

Lemma bytes_at_tl m a b l : bytes_at m a (b :: l) → bytes_at m (a + 1) l.
Proof. intros H. change (b :: l) with ([b] ++ l) in H. apply bytes_at_app in H. apply H. Qed.

Lemma s8_inj x y : is_byte x → is_byte y → s8 x = s8 y → x = y.
Proof.
  unfold is_byte, s8. intros. assert (((x + 2 ^ 7) mod 2 ^ 8) = ((y + 2 ^ 7) mod 2 ^ 8)) by lia.
  Z.div_mod_to_equations. lia.
Qed.

Lemma s8_zero x : is_byte x → s8 x = 0 ↔ x = 0.
Proof.
  intros Hx. split; [|by intros ->]. intros H. apply s8_inj; [done|by unfold is_byte|done].
Qed.

(** The test both comparison loops make on a pair of characters. *)
Lemma char_pair x y :
  is_byte x → is_byte y →
  (s8 x = 0 ∨ s8 y = 0 ∨ s8 x ≠ s8 y) ↔ ¬ (x ≠ 0 ∧ x = y).
Proof.
  intros Hx Hy. rewrite !s8_zero by done. split.
  - intros [->|[->|H]] [H1 H2]; congruence.
  - intros H. destruct (decide (x = 0)); [by left|]. destruct (decide (x = y)).
    + exfalso. auto.
    + right. right. intros E. by apply s8_inj in E.
Qed.

(** [strncmp] on two arrays of [n > 0] bytes. *)
Lemma strncmp_arrays fuel m a b l1 l2 :
  Forall is_byte l1 → Forall is_byte l2 → bytes_at m a l1 → bytes_at m b l2 →
  length l1 = length l2 → (0 < length l1 ≤ fuel)%nat → Z.of_nat (length l1) < 2 ^ 32 →
  strncmp fuel m a b (Z.of_nat (length l1)) = Ok (cmp_bytes l1 l2).
Proof.
  unfold strncmp.
  enough (Hgen : ∀ l1 l2 fuel a b i n, Forall is_byte l1 → Forall is_byte l2 →
    bytes_at m a l1 → bytes_at m b l2 →
    length l1 = length l2 → (0 < length l1 ≤ fuel)%nat → 0 ≤ i → n = i + Z.of_nat (length l1) →
    n < 2 ^ 32 → while_loop fuel
    (λ '(s1, s2, i),
       c1 ← load_char m s1; c2 ← load_char m s2;
       Ok (if decide (c1 = 0 ∨ c2 = 0 ∨ c1 ≠ c2) then inr (c1 - c2)
           else let i := u32 (i + 1) in
                if decide (i = n) then inr (c1 - c2) else inl (s1 + 1, s2 + 1, i)))
    (a, b, i) = Ok (cmp_bytes l1 l2)).
  { intros. apply Hgen; try done. }
  clear. intros l1. induction l1 as [|x l1 IH]; intros [|y l2] fuel a b i n Hb1 Hb2 H1 H2 Hlen Hf Hi Hn Hn32;
    try discriminate; cbn [length] in Hf, Hn; [lia|].
  destruct fuel as [|fuel]; [lia|]. apply Forall_cons in Hb1 as [Hx Hb1]. apply Forall_cons in Hb2 as [Hy Hb2].
  rewrite while_unfold, (load_char_hd _ _ _ _ H1), (load_char_hd _ _ _ _ H2), !bind_Ok.
  cbn [cmp_bytes]. pose proof (char_pair x y Hx Hy) as Hp.
  destruct (decide (x ≠ 0 ∧ x = y)) as [[Hnz ->]|Hne].
  - rewrite decide_False by tauto. rewrite u32_id by lia. case_decide as Hin.
    + destruct l1; [|cbn [length] in Hn; lia]. destruct l2; [|discriminate]. cbn. f_equal. lia.
    + apply bytes_at_tl in H1, H2. apply IH; try done; cbn [length] in Hlen; lia.
  - rewrite decide_True by tauto. done.
Qed.

Lemma cmp_bytes_zero l1 l2 :
  length l1 = length l2 → Forall (λ b, 0 < b < 256) l1 → Forall (λ b, 0 < b < 256) l2 →
  cmp_bytes l1 l2 = 0 ↔ l1 = l2.
Proof.
  revert l2. induction l1 as [|x l1 IH]; intros [|y l2] Hlen H1 H2; try discriminate; [done|].
  apply Forall_cons in H1 as [Hx H1]. apply Forall_cons in H2 as [Hy H2]. cbn.
  case_decide as Hxy.
  - destruct Hxy as [_ ->]. rewrite IH; [|cbn in Hlen; lia|done..]. split; congruence.
  - split; [|injection 1; intros; exfalso; apply Hxy; split; [lia|done]].
    intros H. exfalso. apply Hxy. split; [lia|].
    apply s8_inj; [unfold is_byte; lia..|lia].
Qed.

Lemma strcmp_ok fuel m a b s1 s2 :
  cstr m a s1 → cstr m b s2 → (length s1 < fuel)%nat →
  strcmp fuel m a b = Ok (cmp_bytes (s1 ++ [0]) (s2 ++ [0])).
Proof.
  intros [H1 F1] [H2 F2]. unfold strcmp. revert fuel a b s2 H1 H2 F1 F2.
  induction s1 as [|x s1 IH]; intros [|fuel] a b s2 H1 H2 F1 F2 Hf; cbn [length] in Hf; try lia.
  - destruct s2 as [|y s2]; cbn [app] in *;
      rewrite while_unfold, (load_char_hd _ _ _ _ H1), (load_char_hd _ _ _ _ H2), !bind_Ok,
        decide_True by (left; done); done.
  - apply Forall_cons in F1 as [Hx F1].
    destruct s2 as [|y s2]; cbn [app] in *;
      rewrite while_unfold, (load_char_hd _ _ _ _ H1), (load_char_hd _ _ _ _ H2), !bind_Ok.
    + rewrite decide_True by (right; left; done). cbn. by rewrite decide_False by lia.
    + apply Forall_cons in F2 as [Hy F2].
      pose proof (char_pair x y) as Hp. unfold is_byte in Hp.
      cbn [cmp_bytes]. destruct (decide (x ≠ 0 ∧ x = y)) as [[? ->]|Hne].
      * rewrite decide_False by (rewrite Hp; [tauto|lia..]).
        apply bytes_at_tl in H1, H2. apply IH; auto. lia.
      * by rewrite decide_True by (rewrite Hp; [tauto|lia..]).
Qed.

Lemma strlen_ok fuel m a s :
  cstr m a s → (length s < fuel)%nat → Z.of_nat (length s) < 2 ^ 32 →
  strlen fuel m a = Ok (Z.of_nat (length s)).
Proof.
  intros [Hs Hb] Hf Hlen. unfold strlen.
  edestruct (while_total
    (λ len, c ← load_char m (a + len); Ok (if decide (c = 0) then inr len else inl (u32 (len + 1))))
    (λ len, 0 ≤ len ≤ Z.of_nat (length s)) (λ len, length s - Z.to_nat len)%nat
    (λ r, r = Z.of_nat (length s)) fuel 0) as (r & Hr & ->); [lia|lia| |exact Hr].
  - intros len Hl. replace (a + len) with (a + Z.of_nat (Z.to_nat len)) by lia.
    destruct (decide (len = Z.of_nat (length s))) as [->|Hne].
    + right. rewrite (load_char_at _ _ _ _ 0 Hs), bind_Ok by (rewrite Nat2Z.id; by rewrite lookup_app_r, Nat.sub_diag by lia).
      eauto.
    + left. destruct (lookup_lt_is_Some_2 s (Z.to_nat len)) as [b Hlb]; [lia|].
      pose proof (Forall_lookup_1 _ _ _ _ Hb Hlb) as Hb'; cbn beta in Hb'.
      rewrite (load_char_at _ _ _ _ b Hs), bind_Ok by (by apply lookup_app_l_Some).
      rewrite decide_False by (rewrite s8_zero; unfold is_byte; lia).
      rewrite u32_id by lia. eexists. split; [done|lia].
Qed.

(** The index of the first NUL, or the length. *)
Fixpoint nul_index (l : list Z) : nat :=
  match l with
  | [] => 0
  | b :: l => if decide (b = 0) then 0 else S (nul_index l)
  end.

Lemma nul_index_cstr s l : Forall (λ b, 0 < b < 256) s → nul_index (s ++ 0 :: l) = length s.
Proof.
  induction 1 as [|b s Hb _ IH]; [done|]. cbn. rewrite decide_False by lia. by rewrite IH.
Qed.

Lemma nul_index_full s : Forall (λ b, 0 < b < 256) s → nul_index s = length s.
Proof. induction 1 as [|b s Hb _ IH]; [done|]. cbn. rewrite decide_False by lia. by rewrite IH. Qed.

Lemma strnlen_ok m a l n :
  Forall is_byte l → bytes_at m a l → 0 ≤ n → n ≤ Z.of_nat (length l) ∨ (nul_index l < length l)%nat →
  strnlen m a n = Ok (Z.min n (Z.of_nat (nul_index l))).
Proof.
  intros Hb Hl Hn Hstop. unfold strnlen.
  enough (Hgen : ∀ l len fuel, Forall is_byte l → bytes_at m (a + len) l → 0 ≤ len ≤ n →
    n - len ≤ Z.of_nat (length l) ∨ (nul_index l < length l)%nat → (Z.to_nat (n - len) < fuel)%nat →
    while_loop fuel (λ len, if decide (len < n) then
              c ← load_char m (a + len); Ok (if decide (c = 0) then inr len else inl (len + 1))
            else Ok (inr len)) len = Ok (Z.min n (len + Z.of_nat (nul_index l)))).
  { rewrite (Hgen l 0); try done; rewrite ?Z.add_0_r, ?Z.sub_0_r; try done; lia. }
  clear. intros l. induction l as [|b l IH]; intros len [|fuel] Hb Hl Hlen Hstop Hf; try lia;
    rewrite while_unfold; cbn [nul_index length] in *.
  - rewrite decide_False by lia. cbn. f_equal. lia.
  - apply Forall_cons in Hb as [Hb Hbs]. destruct (decide (len < n)) as [Hlt|Hge]; [|rewrite bind_Ok; f_equal; lia].
    rewrite (load_char_hd _ _ _ _ Hl), !bind_Ok. destruct (decide (b = 0)) as [->|Hnz].
    + rewrite decide_True by done. f_equal. lia.
    + rewrite decide_False by (by rewrite s8_zero). apply bytes_at_tl in Hl.
      rewrite <- Z.add_assoc in Hl.
      rewrite IH; [f_equal; lia|done|done|lia| |lia].
      destruct Hstop; [left; lia|right; lia].
Qed.

Lemma strnlen_cstr m a t n : cstr m a t → 0 ≤ n → strnlen m a n = Ok (Z.of_nat (length (take (Z.to_nat n) t))).
Proof.
  intros [Ht Hb] Hn. rewrite (strnlen_ok _ _ (t ++ [0])).
  - rewrite nul_index_cstr by done. f_equal. rewrite length_take. lia.
  - apply Forall_app. split; [|repeat constructor; unfold is_byte; lia].
    eapply Forall_impl; [exact Hb|]. unfold is_byte. cbn. lia.
  - done.
  - done.
  - right. rewrite nul_index_cstr, length_app by done. cbn [length]. lia.
Qed.

(** [memchr] finds the first [c]; a character of 7 bits is its own [char]. *)
Lemma memchr_ok m a l c : Forall is_byte l → bytes_at m a l → 0 ≤ c < 128 →
  memchr m a c (Z.of_nat (length l)) =
  Ok (match list_find (λ b, b = c) l with Some (i, _) => a + Z.of_nat i | None => 0 end).
Proof.
  intros Hb Hl Hc. unfold memchr.
  enough (Hgen : ∀ l i fuel n, Forall is_byte l → bytes_at m (a + i) l → n = i + Z.of_nat (length l) →
    (length l < fuel)%nat →
    while_loop fuel (λ i, if decide (i < n) then
        x ← load_char m (a + i); Ok (if decide (c = x) then inr (a + i) else inl (i + 1))
      else Ok (inr 0)) i =
    Ok (match list_find (λ b, b = c) l with Some (j, _) => a + i + Z.of_nat j | None => 0 end)).
  { rewrite (Hgen l 0) by (try done; rewrite ?Z.add_0_r; try done; lia). by rewrite Z.add_0_r. }
  clear Hb Hl l. intros l. induction l as [|b l IH]; intros i [|fuel] n Hb Hl Hn Hf; try lia;
    rewrite while_unfold; cbn [length] in *.
  - by rewrite decide_False by lia.
  - apply Forall_cons in Hb as [Hb Hbs]. rewrite decide_True by lia.
    rewrite (load_char_hd _ _ _ _ Hl), !bind_Ok. cbn [list_find].
    destruct (decide (b = c)) as [->|Hne].
    + rewrite decide_True by (by rewrite s8_id by lia). cbn. f_equal. lia.
    + rewrite decide_False.
      * apply bytes_at_tl in Hl. rewrite <- Z.add_assoc in Hl.
        rewrite (IH (i + 1)) by (try done; lia). destruct (list_find _ l) as [[j y]|]; cbn; [|done].
        f_equal. lia.
      * intros E. apply Hne. apply s8_inj; [done|unfold is_byte; lia|]. by rewrite <- E, s8_id by lia.
Qed.

(** [memcmp] of two bytes is zero on equal ones. *)
Lemma memcmp_two m a b x y x' y' : bytes_at m a [x; y] → bytes_at m b [x'; y'] →
  is_byte x → is_byte y → is_byte x' → is_byte y' →
  memcmp m a b 2 = Ok (if decide (x = x' ∧ y = y') then 0 else 1).
Proof.
  intros Ha Hb Hx Hy Hx' Hy'. unfold memcmp. change (S (Z.to_nat 2)) with 3%nat.
  pose proof (load_char_hd _ _ _ _ Ha) as L1. pose proof (load_char_hd _ _ _ _ Hb) as L2.
  pose proof (load_char_hd _ _ _ _ (bytes_at_tl _ _ _ _ Ha)) as L3.
  pose proof (load_char_hd _ _ _ _ (bytes_at_tl _ _ _ _ Hb)) as L4.
  rewrite while_unfold. rewrite decide_True by lia. rewrite !Z.add_0_r, L1, bind_Ok, L2, !bind_Ok.
  destruct (decide (x = x')) as [->|Hne].
  - rewrite decide_False by (intros E; by apply E). rewrite while_unfold, decide_True by lia.
    rewrite Z.add_0_l, L3, bind_Ok, L4, !bind_Ok. destruct (decide (y = y')) as [->|Hne].
    + rewrite decide_False by (intros E; by apply E). rewrite decide_True by done.
      by rewrite while_unfold, decide_False by lia.
    + rewrite decide_True by (intros E; apply Hne; by apply s8_inj).
      by rewrite decide_False by tauto.
  - rewrite decide_True by (intros E; apply Hne; by apply s8_inj).
    by rewrite decide_False by tauto.
Qed.

Lemma for_store_zeros m a n i :
  0 ≤ n → mapped m (a + i) n →
  for_loop (Z.to_nat n) i (λ i m, store8 m (a + i) 0) m =
  Ok (write_bytes m (a + i) (replicate (Z.to_nat n) 0)).
Proof.
  intros Hn Hm.
  destruct (for_loop_ok (λ j m', m' = write_bytes m (a + i) (replicate (Z.to_nat (j - i)) 0))
    (λ i m, store8 m (a + i) 0) (Z.to_nat n) i m) as (m' & -> & ->).
  - intros j m' Hj ->. eexists. split.
    + apply store8_ok. rewrite write_bytes_lookup_out; [apply Hm; lia|].
      rewrite length_replicate. lia.
    + replace (Z.to_nat (j + 1 - i)) with (Z.to_nat (j - i) + 1)%nat by lia.
      rewrite replicate_add, write_bytes_app, length_replicate. cbn. f_equal. lia.
  - by rewrite Z.sub_diag.
  - repeat f_equal. lia.
Qed.

(** [strncpy] copies at most [n] bytes of the string and pads with NULs. *)
Lemma strncpy_ok m dest src s n :
  cstr m src s → 0 ≤ n → mapped m dest n →
  src + Z.of_nat (length s) < dest ∨ dest + n ≤ src →
  strncpy m dest src n =
  Ok (write_bytes m dest (take (Z.to_nat n) s ++ replicate (Z.to_nat n - length s) 0)).
Proof.
  intros [Hs Hb] Hn Hd Hdisj. unfold strncpy.
  set (k := Z.min n (Z.of_nat (length s))).
  edestruct (while_total
    (λ '(i, m), if decide (i < n) then
         c ← load8 m (src + i);
         if decide (c = 0) then Ok (inr (i, m))
         else m' ← store8 m (dest + i) c; Ok (inl (i + 1, m'))
       else Ok (inr (i, m)))
    (λ '(i, m'), 0 ≤ i ≤ k ∧ m' = write_bytes m dest (take (Z.to_nat i) s))
    (λ '(i, _), Z.to_nat n - Z.to_nat i)%nat
    (λ r, r = (k, write_bytes m dest (take (Z.to_nat k) s))) (S (Z.to_nat n)) (0, m))
    as (r & Hr & ->); [subst k; split; [lia|done]|lia| |rewrite Hr, bind_Ok]; cycle 1.
  - rewrite for_store_zeros; [|subst k; lia|]; cycle 1.
    { apply mapped_write; (eapply mapped_sub; [exact Hd|subst k; lia|]); rewrite ?length_take; subst k; lia. }
    rewrite write_bytes_app, length_take. f_equal. f_equal; [|subst k; lia|f_equal; subst k; lia].
    f_equal. destruct (decide (n ≤ Z.of_nat (length s))).
    + f_equal. subst k. lia.
    + rewrite !take_ge by (subst k; lia). done.
  - intros [i m'] [Hi ->].
    case_decide as Hlt; [|right; eexists; split; [done|]; by replace i with k by (subst k; lia)].
    assert (Hload : ∀ c, (s ++ [0]) !! Z.to_nat i = Some c →
      load8 (write_bytes m dest (take (Z.to_nat i) s)) (src + i) = Ok c).
    { intros c Hc. unfold load8. rewrite write_bytes_lookup_out.
      - apply Hs in Hc. by replace (src + Z.of_nat (Z.to_nat i)) with (src + i) in Hc by lia; rewrite Hc.
      - rewrite length_take. subst k. lia. }
    destruct (decide (i = Z.of_nat (length s))) as [->|Hne].
    + right. erewrite Hload, bind_Ok by (by rewrite lookup_app_r, Nat2Z.id, Nat.sub_diag by lia).
      rewrite decide_True by done. eexists. split; [done|]. by replace k with (Z.of_nat (length s)) by (subst k; lia).
    + left. destruct (lookup_lt_is_Some_2 s (Z.to_nat i)) as [c Hc]; [subst k; lia|].
      erewrite Hload, bind_Ok by (by apply lookup_app_l_Some).
      pose proof (Forall_lookup_1 _ _ _ _ Hb Hc) as Hc'; cbn beta in Hc'. rewrite decide_False by lia.
      rewrite store8_ok, bind_Ok by (rewrite write_bytes_lookup_out; [apply Hd; lia|rewrite length_take; lia]).
      eexists. split; [done|]. split; [|lia]. split; [subst k; lia|].
      rewrite u8_id by lia. replace (Z.to_nat (i + 1)) with (S (Z.to_nat i)) by lia.
      rewrite (take_S_r _ _ _ Hc), write_bytes_app, length_take. f_equal. subst k. lia.
Qed.

(** ** Decimal output: lemmas *)

Lemma write_bytes_comm m a1 l1 a2 l2 :
  a1 + Z.of_nat (length l1) ≤ a2 ∨ a2 + Z.of_nat (length l2) ≤ a1 →
  write_bytes (write_bytes m a1 l1) a2 l2 = write_bytes (write_bytes m a2 l2) a1 l1.
Proof.
  intros Hd. apply map_eq. intros x. rewrite !write_bytes_lookup.
  repeat case_decide; try done; lia.
Qed.

Lemma digits_length fuel v : 0 ≤ v < 10 ^ Z.of_nat fuel → (0 < fuel)%nat →
  (0 < length (digits fuel v) ≤ fuel)%nat.
Proof.
  revert v. induction fuel as [|fuel IH]; intros v Hv Hf; [lia|]. cbn [digits].
  case_decide; [cbn; lia|]. rewrite length_app. cbn [length].
  destruct fuel; [cbn in Hv; lia|].
  specialize (IH (v / 10)). rewrite Nat2Z.inj_succ, Z.pow_succ_r in Hv by lia.
  assert (0 ≤ v / 10 < 10 ^ Z.of_nat (S fuel)) by (split; [apply Z.div_pos; lia|apply Z.div_lt_upper_bound; lia]).
  lia.
Qed.

Lemma digits_range fuel v : 0 ≤ v → Forall (λ d, 0 ≤ d ≤ 9) (digits fuel v).
Proof.
  revert v. induction fuel as [|fuel IH]; intros v Hv; cbn; [done|]. case_decide.
  - rewrite Forall_singleton. lia.
  - rewrite Forall_app, Forall_singleton. split; [apply IH; apply Z.div_pos; lia|].
    pose proof (Z.mod_pos_bound v 10). lia.
Qed.

Definition ascii_digits (v : Z) : list Z := (λ d, 48 + d) <$> digits itoa_fuel v.

Lemma parse_digits_app l d : parse_digits (l ++ [d]) = 10 * parse_digits l + (d - 48).
Proof. unfold parse_digits. by rewrite foldl_app. Qed.

Lemma parse_ascii_digits fuel v : 0 ≤ v < 10 ^ Z.of_nat fuel →
  parse_digits ((λ d, 48 + d) <$> digits fuel v) = v.
Proof.
  revert v. induction fuel as [|fuel IH]; intros v Hv; [cbn in *; lia|]. cbn [digits].
  case_decide; [cbn; lia|]. rewrite fmap_app. cbn [fmap list_fmap]. rewrite parse_digits_app.
  rewrite Nat2Z.inj_succ, Z.pow_succ_r in Hv by lia.
  rewrite IH by (split; [apply Z.div_pos; lia|apply Z.div_lt_upper_bound; lia]).
  pose proof (Z.div_mod v 10). lia.
Qed.

Lemma itoa_count_ok fuel v ptr : 0 ≤ v < 10 ^ Z.of_nat fuel → (0 < fuel)%nat →
  while_loop fuel
    (λ '(shifter, ptr),
       let shifter := Z.quot shifter 10 in
       Ok (if decide (shifter = 0) then inr (ptr + 1) else inl (shifter, ptr + 1)))
    (v, ptr) = Ok (ptr + Z.of_nat (length (digits fuel v))).
Proof.
  revert v ptr. induction fuel as [|fuel IH]; intros v ptr Hv Hf; [lia|].
  rewrite while_unfold, bind_Ok. cbn [digits]. rewrite Z.quot_div_nonneg by lia.
  rewrite Nat2Z.inj_succ, Z.pow_succ_r in Hv by lia.
  assert (0 ≤ v / 10 < 10 ^ Z.of_nat fuel) by (split; [apply Z.div_pos; lia|apply Z.div_lt_upper_bound; lia]).
  destruct (decide (v < 10)).
  - rewrite Z.div_small by lia. done.
  - rewrite decide_False by (intros E; apply Z.div_small_iff in E; lia).
    destruct fuel; [cbn in *; lia|].
    rewrite IH by lia. rewrite length_app. cbn [length]. f_equal. lia.
Qed.

Lemma itoa_write_ok fuel m v ptr : 0 ≤ v < 10 ^ Z.of_nat fuel → (0 < fuel)%nat →
  mapped m (ptr - Z.of_nat (length (digits fuel v)) + 1) (Z.of_nat (length (digits fuel v))) →
  while_loop fuel
    (λ '(shifter, ptr, m),
       m' ← store8 m ptr (digit_to_char (Z.rem shifter 10));
       let shifter := Z.quot shifter 10 in
       Ok (if decide (shifter = 0) then inr (m', ptr - 1) else inl (shifter, ptr - 1, m')))
    (v, ptr, m) =
  Ok (write_bytes m (ptr - Z.of_nat (length (digits fuel v)) + 1) ((λ d, 48 + d) <$> digits fuel v),
      ptr - Z.of_nat (length (digits fuel v))).
Proof.
  revert m v ptr. induction fuel as [|fuel IH]; intros m v ptr Hv Hf Hm; [lia|].
  rewrite Nat2Z.inj_succ, Z.pow_succ_r in Hv by lia.
  assert (Hv' : 0 ≤ v / 10 < 10 ^ Z.of_nat fuel) by (split; [apply Z.div_pos; lia|apply Z.div_lt_upper_bound; lia]).
  pose proof (Z.mod_pos_bound v 10 ltac:(lia)).
  rewrite while_unfold. rewrite Z.quot_div_nonneg, Z.rem_mod_nonneg by lia.
  rewrite store8_ok, !bind_Ok.
  2: { apply Hm. assert (0 < length (digits (S fuel) v))%nat; [|lia].
       apply digits_length; [|lia]. rewrite Nat2Z.inj_succ, Z.pow_succ_r; lia. }
  unfold digit_to_char. rewrite (decide_False (P := v `mod` 10 < 0 ∨ 9 < v `mod` 10)) by lia.
  rewrite u8_id by lia.
  cbn [digits] in *. destruct (decide (v < 10)).
  - rewrite (Z.div_small v 10), (Z.mod_small v 10) by lia. cbn [length] in *.
    rewrite decide_True by done. cbn [fmap list_fmap]. do 2 f_equal. f_equal; lia.
  - rewrite decide_False by (intros E; apply Z.div_small_iff in E; lia).
    rewrite length_app in *. cbn [length] in *.
    destruct fuel; [cbn in *; lia|].
    rewrite IH; [|done|lia|].
    + rewrite fmap_app, write_bytes_app, length_fmap. cbn [fmap list_fmap].
      rewrite write_bytes_comm by (rewrite length_fmap; cbn [length]; lia).
      do 2 f_equal; [|lia]. f_equal; [f_equal; lia|lia].
    + apply mapped_write; (eapply mapped_sub; [exact Hm|cbn [length]; lia|cbn [length]; lia]).
Qed.

(** What [itoa] writes before the NUL. *)
Definition itoa_text (v : Z) : list Z :=
  if decide (v < 0) then 45 :: ascii_digits (- v) else ascii_digits v.

Lemma s32_opp c : s32 c ≠ - 2 ^ 31 → s32 (- c) = - s32 c.
Proof.
  intros Hc. destruct (s32_repr c) as [k Hk]. pose proof (s32_range c).
  rewrite Hk at 1. replace (- (s32 c + k * 2 ^ 32)) with (- s32 c + (- k) * 2 ^ 32) by lia.
  rewrite s32_add_mul. apply s32_id. lia.
Qed.

Lemma s32_s64 c : s32 (s64 c) = s32 c.
Proof.
  unfold s32, s64.
  pose proof (Z.div_mod (c + 2 ^ 63) (2 ^ 64)) as E.
  replace ((c + 2 ^ 63) mod 2 ^ 64 - 2 ^ 63 + 2 ^ 31)
    with (c + 2 ^ 31 + (- 2 ^ 32 * ((c + 2 ^ 63) / 2 ^ 64)) * 2 ^ 32) by lia.
  by rewrite Z.mod_add by lia.
Qed.

Lemma itoa_ok m c buf :
  s32 c ≠ - 2 ^ 31 → mapped m buf (Z.of_nat (length (itoa_text (s32 c))) + 1) →
  itoa m c buf = Ok (write_bytes m buf (itoa_text (s32 c) ++ [0])).
Proof.
  intros Hc Hm. unfold itoa, itoa_count, itoa_write. pose proof (s32_range c) as Hr.
  assert (Hpow : 10 ^ Z.of_nat itoa_fuel = 10000000000) by reflexivity.
  destruct (decide (s32 c = 0)) as [E|E].
  { rewrite E in *. change (itoa_text 0) with [48] in *. cbn [length] in Hm. rewrite store8_ok, bind_Ok by (apply Hm; lia).
    rewrite store8_ok by (rewrite write_bytes_lookup_out; [apply Hm; lia|cbn [length]; lia]).
    by rewrite write_bytes_app. }
  unfold itoa_text in *. rewrite write_bytes_app. unfold ascii_digits in *.
  destruct (decide (s32 c < 0)) as [Hneg|Hpos].
  - rewrite bool_decide_true by done. set (v := - s32 c) in *.
    replace (s32 (s32 c * -1)) with v by (rewrite s32_id; lia).
    rewrite s32_s64, s32_opp by done. fold v.
    rewrite itoa_count_ok, bind_Ok by (unfold itoa_fuel in *; lia).
    cbn [length] in *. rewrite length_fmap in *.
    pose proof (digits_length itoa_fuel v ltac:(lia) ltac:(unfold itoa_fuel; lia)).
    set (k := Z.of_nat (length (digits itoa_fuel v))) in *.
    rewrite store8_ok, bind_Ok by (apply Hm; lia).
    rewrite itoa_write_ok; [|lia|unfold itoa_fuel; lia|].
    2: { fold k. apply mapped_write; (eapply mapped_sub; [exact Hm|cbn [length]; lia|cbn [length]; lia]). }
    fold k. rewrite bind_Ok.
    replace (buf + 1 + k - 1 - k) with buf by lia.
    rewrite store8_ok.
    2: { rewrite !write_bytes_lookup_out; [apply Hm; lia|cbn [length]; lia|].
         rewrite length_fmap. fold k. lia. }
    f_equal. rewrite (write_bytes_comm m) by (rewrite length_fmap; cbn [length]; fold k; lia).
    rewrite (write_bytes_comm _ (buf + 1 + k)) by (cbn [length]; lia).
    change (45 :: ?l) with ([45] ++ l). rewrite (write_bytes_app m buf [45]). cbn [length].
    rewrite (write_bytes_comm m _ _ buf) by (rewrite length_fmap; cbn [length]; fold k; lia).
    change (u8 45) with 45. change (u8 0) with 0. 
    f_equal. subst k. lia.
  - rewrite bool_decide_false by done. set (v := s32 c) in *.
    rewrite itoa_count_ok, bind_Ok by (unfold itoa_fuel in *; lia).
    rewrite length_fmap in *.
    pose proof (digits_length itoa_fuel v ltac:(lia) ltac:(unfold itoa_fuel; lia)).
    set (k := Z.of_nat (length (digits itoa_fuel v))) in *.
    rewrite store8_ok, bind_Ok by (apply Hm; lia).
    rewrite itoa_write_ok; [|fold v; lia|unfold itoa_fuel; lia|].
    2: { fold v k. apply mapped_write; (eapply mapped_sub; [exact Hm|cbn [length]; lia|cbn [length]; lia]). }
    fold v k. rewrite bind_Ok. f_equal.
    rewrite (write_bytes_comm m) by (rewrite length_fmap; cbn [length]; fold k; lia).
    change (u8 0) with 0. f_equal. f_equal. lia.
Qed.

Lemma itoa_text_length c : (length (itoa_text (s32 c)) ≤ 11)%nat.
Proof.
  pose proof (s32_range c). assert (Hpow : 10 ^ Z.of_nat itoa_fuel = 10000000000) by reflexivity.
  unfold itoa_text, ascii_digits. case_decide; cbn [length]; rewrite length_fmap.
  - pose proof (digits_length itoa_fuel (- s32 c)). unfold itoa_fuel in *. lia.
  - pose proof (digits_length itoa_fuel (s32 c)). unfold itoa_fuel in *. lia.
Qed.

Lemma itoa_text_bytes v : Forall (λ b, 0 < b < 256) (itoa_text v).
Proof.
  assert (H : ∀ v, 0 ≤ v → Forall (λ b, 0 < b < 256) (ascii_digits v)).
  { intros w Hw. unfold ascii_digits. apply Forall_fmap.
    eapply Forall_impl; [by apply digits_range|]. cbn. lia. }
  unfold itoa_text. case_decide; [constructor; [lia|]|]; apply H; lia.
Qed.

Lemma parse_int_digit c l : c ≠ 45 → parse_int (c :: l) = parse_digits (c :: l).
Proof.
  intros Hc. unfold parse_int.
  repeat match goal with |- context [match ?x with _ => _ end] => destruct x; try done end.
Qed.

Lemma parse_itoa_text v : - 2 ^ 31 < v < 2 ^ 31 → parse_int (itoa_text v) = v.
Proof.
  intros Hv. assert (Hpow : 10 ^ Z.of_nat itoa_fuel = 10000000000) by reflexivity.
  unfold itoa_text, ascii_digits. case_decide.
  - cbn [parse_int]. rewrite parse_ascii_digits by lia. lia.
  - pose proof (digits_range itoa_fuel v ltac:(lia)) as Hd.
    pose proof (parse_ascii_digits itoa_fuel v ltac:(lia)) as Hp.
    destruct (digits itoa_fuel v) as [|d l]; [done|]. apply Forall_cons in Hd as [Hd _].
    cbn [fmap list_fmap] in *. rewrite parse_int_digit by lia. exact Hp.
Qed.

(** * Properties *)

(** Two regions of a small memory, seven bytes each, for the witnesses. *)
Definition witness_mem : mem :=
  write_bytes (write_bytes ∅ 100 [72; 101; 108; 108; 111; 33; 0]) 200 (replicate 16 7).

(** C28: [memset] fills [n] writable bytes with its byte exactly when that byte
    is below 128 or is 255, or fewer than four bytes are filled: any other byte is
    a negative [char], and sign extension spoils three of every four bytes. *)
Theorem memset_fills_iff m s c n :
  0 ≤ n → mapped m s n →
  memset m s c n = Ok (write_bytes m s (replicate (Z.to_nat n) (u8 c))) ↔
  n < 4 ∨ u8 c < 128 ∨ u8 c = 255.
Proof.
  intros Hn Hm. rewrite memset_ok by done. split.
  - intros H. injection H as H. apply write_bytes_inj in H.
    + destruct (decide (n < 4)); [by left|]. right.
      unfold memset_bytes in H.
      assert (Hq : 1 ≤ n / 4) by (apply Z.div_le_lower_bound; lia).
      replace (Z.to_nat (n / 4)) with (S (Z.to_nat (n / 4) - 1)) in H by lia.
      replace (Z.to_nat n) with (S (S (Z.to_nat n - 2))) in H by lia.
      cbn [replicate concat] in H. rewrite memset_word in H.
      case_decide; [by left|right]. cbn in H. by injection H.
    + unfold memset_bytes.
      rewrite length_app, !length_replicate.
      assert (Hlen : ∀ k, length (concat (replicate k (split4 (memset_dword c)))) = (4 * k)%nat).
      { intros k. induction k as [|k IH]; [done|]. cbn in *. lia. }
      rewrite Hlen. pose proof (Z.div_mod n 4). pose proof (Z.mod_pos_bound n 4).
      assert (0 ≤ n / 4) by (apply Z.div_pos; lia). lia.
  - intros Hc. by rewrite memset_bytes_good.
Qed.

Lemma memset_fills_iff_witness :
  memset witness_mem 200 32 11 = Ok (write_bytes witness_mem 200 (replicate 11 32)) ∧
  memset witness_mem 200 200 8 ≠ Ok (write_bytes witness_mem 200 (replicate 8 200)).
Proof.
  split.
  - apply (memset_fills_iff witness_mem 200 32 11); [lia| |right; left; vm_compute; reflexivity].
    apply mapped_check. vm_compute. reflexivity.
  - intros H. apply (memset_fills_iff witness_mem 200 200 8) in H.
    + vm_compute in H. by destruct H as [H|[H|H]].
    + lia.
    + apply mapped_check. vm_compute. reflexivity.
Defined.

(** C29: [itoa] prints in decimal: it terminates, fills the buffer with the text
    of [(int)c] and a NUL, at most twelve bytes, and reading the text back gives
    [(int)c]. The one exception is [INT_MIN], which the hypothesis leaves out. *)
Theorem itoa_prints m c buf :
  s32 c ≠ - 2 ^ 31 → mapped m buf 12 →
  ∃ text, itoa m c buf = Ok (write_bytes m buf (text ++ [0])) ∧
    parse_int text = s32 c ∧ (length text ≤ 11)%nat.
Proof.
  intros Hc Hm. pose proof (s32_range c) as Hr. pose proof (itoa_text_length c) as Hlen.
  exists (itoa_text (s32 c)). split; [|split; [apply parse_itoa_text; lia|done]].
  apply itoa_ok; [done|]. eapply mapped_sub; [exact Hm|lia|lia].
Qed.

Lemma itoa_prints_witness :
  ∃ text, itoa witness_mem (-1204) 200 = Ok (write_bytes witness_mem 200 (text ++ [0])) ∧
    parse_int text = -1204 ∧ (length text ≤ 11)%nat.
Proof.
  apply (itoa_prints witness_mem (-1204) 200); [vm_compute; discriminate|].
  apply mapped_check. vm_compute. reflexivity.
Defined.

(** What [itoa] writes for [INT_MIN], an address such as 0x80000000 included:
    every digit is negative and comes out as ['E']. *)
Example itoa_int_min :
  (m ← itoa witness_mem 0x80000000 200; Ok ((λ i, m !! (200 + i)) <$> seqZ 0 12)) =
  Ok (Some <$> ([45] ++ replicate 10 69 ++ [0])).
Proof. vm_compute. reflexivity. Qed.

(** [strncmp] with [n = 0] compares the whole strings. *)
Example strncmp_zero : strncmp 8 witness_mem 100 101 0 = Ok (-29).
Proof. vm_compute. reflexivity. Qed.
