(* ===== verification/Heap.v ===== *)
(** [src/memory/heap.c], [src/memory/heap.h]: the block allocator.

    [heap_table] holds one byte per 4096-byte block: [entries] is the array the
    C pointer of that name refers to, so an index past its end is undefined. The
    operations are the C functions of the same names; the two loops without a
    counted bound ([find_first_block], [heap_free]) take fuel.

    The contract is stated on segments: [seg_bytes] lays out a free block and a
    live allocation of [n] blocks, [heap_ok h segs] says that the table is the
    layout of [segs], and the operations rewrite [segs]. *)
From S2P Require Import Prelude Mem CString.

Definition KERNEL_HEAP_BLOCK_SIZE : Z := 4096.
Definition EINVAL : Z := 22.
Definition ENOMEM : Z := 12.

Definition HEAP_MEMORY_BLOCK_FREE : Z := 0.
Definition HEAP_MEMORY_BLOCK_TAKEN : Z := 1.
Definition HEAP_MEMORY_BLOCK_HAS_NEXT : Z := 128.
Definition HEAP_MEMORY_BLOCK_IS_FIRST : Z := 64.

(** [heap.h], the block macros. *)
Definition BLOCK_TEST_FREE (b : Z) : bool := bool_decide (b = HEAP_MEMORY_BLOCK_FREE).
Definition BLOCK_TEST_TAKEN (b : Z) : bool := bool_decide (Z.land b HEAP_MEMORY_BLOCK_TAKEN ≠ 0).
Definition BLOCK_TEST_FIRST (b : Z) : bool := bool_decide (Z.land b HEAP_MEMORY_BLOCK_IS_FIRST ≠ 0).
Definition BLOCK_SET_TAKEN (b : Z) : Z := u8 (Z.lor b HEAP_MEMORY_BLOCK_TAKEN).
Definition BLOCK_SET_NEXT (b : Z) : Z := u8 (Z.lor b HEAP_MEMORY_BLOCK_HAS_NEXT).
Definition BLOCK_SET_NO_NEXT (b : Z) : Z := u8 (Z.land b (Z.lnot HEAP_MEMORY_BLOCK_HAS_NEXT)).
Definition BLOCK_SET_FIRST (b : Z) : Z := u8 (Z.lor b HEAP_MEMORY_BLOCK_IS_FIRST).
Definition BLOCK_SET_NOT_FIRST (b : Z) : Z := u8 (Z.land b (Z.lnot HEAP_MEMORY_BLOCK_IS_FIRST)).

Record heap_table := HeapTable { entries : list Z; len : Z; in_use : Z }.
Record heap := Heap { table : heap_table; base_addr : Z; last_allocated_block : Z }.

Definition set_entries (h : heap) (es : list Z) : heap :=
  Heap (HeapTable es (len (table h)) (in_use (table h))) (base_addr h) (last_allocated_block h).
Definition set_in_use (h : heap) (n : Z) : heap :=
  Heap (HeapTable (entries (table h)) (len (table h)) n) (base_addr h) (last_allocated_block h).
Definition set_last (h : heap) (b : Z) : heap := Heap (table h) (base_addr h) b.

Definition heap_validate_table (ptr end_ : Z) (table : heap_table) : Z :=
  let table_size := u32 (end_ - ptr) in
  let total_blocks := table_size / KERNEL_HEAP_BLOCK_SIZE in
  if decide (len table ≠ total_blocks) then - EINVAL else 0.

Definition heap_validate_alignment (ptr : Z) : bool :=
  bool_decide (ptr mod KERNEL_HEAP_BLOCK_SIZE = 0).

(** [memset(entries, FREE, len)] on the array, undefined past its end. *)
Definition clear_entries (t : heap_table) : outcome heap_table :=
  if decide (0 ≤ len t ≤ Z.of_nat (length (entries t))) then
    Ok (HeapTable (replicate (Z.to_nat (len t)) HEAP_MEMORY_BLOCK_FREE ++
                   drop (Z.to_nat (len t)) (entries t)) (len t) (in_use t))
  else Ub.

Definition heap_create (h : heap) (ptr end_addr : Z) (heap_table : heap_table) : outcome (Z * heap) :=
  if negb (heap_validate_alignment ptr) || negb (heap_validate_alignment end_addr) then
    Ok (- EINVAL, h)
  else
    let h := Heap heap_table ptr 0 in
    if decide (heap_validate_table ptr end_addr heap_table ≠ 0) then Ok (- EINVAL, h)
    else t ← clear_entries heap_table; Ok (0, Heap t ptr 0).

Definition size_to_nblocks (size : Z) : Z :=
  size / KERNEL_HEAP_BLOCK_SIZE + (if decide (size mod KERNEL_HEAP_BLOCK_SIZE ≠ 0) then 1 else 0).

(** One round of the search loop on [(i, remaining_blocks, found_block,
    last_allocated_block)]; [(i + 1) % len] is undefined for an empty table. *)
Definition find_step (t : heap_table) (n_blocks : Z) (s : Z * Z * Z * Z) :
    outcome ((Z * Z * Z * Z) + (Z * Z * Z)) :=
  let '(i, remaining, found, last) := s in
  if decide (i ≠ last ∧ remaining ≠ 0) then
    e ← arr_get (entries t) i;
    if decide (len t = 0) then Ub
    else
      let next := u32 (i + 1) mod len t in
      if BLOCK_TEST_TAKEN e then Ok (inl (next, s32 n_blocks, -1, 0))
      else Ok (inl (next, s32 (remaining - 1), if decide (found = -1) then s32 i else found, i))
  else Ok (inr (remaining, found, last)).

Definition find_first_block (fuel : nat) (h : heap) (n_blocks : Z) : outcome (Z * heap) :=
  r ← while_loop fuel (find_step (table h) n_blocks)
        (u32 (last_allocated_block h + 1), s32 n_blocks, -1, last_allocated_block h);
  let '(remaining, found, last) := r in
  Ok (if decide (remaining ≠ 0) then - ENOMEM else found, set_last h last).

Definition heap_reserve_blocks (h : heap) (first_block n_blocks : Z) : outcome heap :=
  let end_block := u32 (first_block + n_blocks) in
  es ← for_loop (Z.to_nat (end_block - first_block)) first_block
         (λ j es, e ← arr_get es j;
                  arr_set es j (BLOCK_SET_NEXT (BLOCK_SET_NOT_FIRST (BLOCK_SET_TAKEN e))))
         (entries (table h));
  e ← arr_get es first_block;
  es ← arr_set es first_block (BLOCK_SET_FIRST e);
  e ← arr_get es (u32 (end_block - 1));
  es ← arr_set es (u32 (end_block - 1)) (BLOCK_SET_NO_NEXT e);
  Ok (set_entries h es).

Definition heap_block_to_addr (h : heap) (block_index : Z) : Z :=
  u32 (base_addr h + block_index * KERNEL_HEAP_BLOCK_SIZE).

Definition heap_addr_to_block (h : heap) (ptr : Z) : Z :=
  u32 (ptr - base_addr h) / KERNEL_HEAP_BLOCK_SIZE.

Definition heap_malloc_blocks (fuel : nat) (h : heap) (n_blocks : Z) : outcome (Z * heap) :=
  fh ← find_first_block fuel h n_blocks;
  let '(first_block, h) := fh in
  if decide (first_block < 0) then Ok (0, h)
  else
    h ← heap_reserve_blocks h first_block n_blocks;
    let h := set_in_use h (u32 (in_use (table h) + n_blocks)) in
    Ok (heap_block_to_addr h first_block, h).

Definition heap_malloc (fuel : nat) (h : heap) (size : Z) : outcome (Z * heap) :=
  let n_blocks := size_to_nblocks size in
  if decide (n_blocks = 0) then Ok (0, h) else heap_malloc_blocks fuel h n_blocks.

(** The [while] of [heap_free] on [(block, heap)]. *)
Definition free_step (s : Z * heap) : outcome ((Z * heap) + heap) :=
  let '(block, h) := s in
  e ← arr_get (entries (table h)) block;
  if negb (BLOCK_TEST_FREE e) && negb (BLOCK_TEST_FIRST e) then
    es ← arr_set (entries (table h)) block HEAP_MEMORY_BLOCK_FREE;
    Ok (inl (block + 1, set_in_use (set_entries h es) (u32 (in_use (table h) - 1))))
  else Ok (inr h).

Definition heap_free (fuel : nat) (m : mem) (h : heap) (ptr : Z) : outcome (mem * heap) :=
  let block := heap_addr_to_block h ptr in
  m ← memset m ptr 0xFF KERNEL_HEAP_BLOCK_SIZE;
  e ← arr_get (entries (table h)) block;
  if negb (BLOCK_TEST_FIRST e) then Ok (m, h)
  else
    es ← arr_set (entries (table h)) block HEAP_MEMORY_BLOCK_FREE;
    let h := set_in_use (set_entries h es) (u32 (in_use (table h) - 1)) in
    h ← while_loop fuel free_step (block + 1, h);
    Ok (m, h).

Definition count_used_blocks (h : heap) : outcome Z :=
  for_loop (Z.to_nat (len (table h))) 0
    (λ i count, e ← arr_get (entries (table h)) i;
                Ok (if BLOCK_TEST_TAKEN e then u32 (count + 1) else count)) 0.

(** * The abstract heap *)

Inductive seg := Free | Used (n : nat).

(** A live allocation: its first block is marked FIRST, every block but the last
    HAS_NEXT. *)
Definition run_bytes (n : nat) : list Z :=
  match n with
  | O => []
  | S O => [65]
  | S (S k) => 193 :: replicate k 129 ++ [1]
  end.

Definition seg_bytes (s : seg) : list Z :=
  match s with Free => [HEAP_MEMORY_BLOCK_FREE] | Used n => run_bytes n end.

Definition seg_size (s : seg) : nat := match s with Free => 1 | Used n => n end.
Definition seg_used (s : seg) : nat := match s with Free => 0 | Used n => n end.

Definition layout (segs : list seg) : list Z := concat (seg_bytes <$> segs).
Definition used_blocks (segs : list seg) : nat := sum_list (seg_used <$> segs).

Definition seg_ok (s : seg) : Prop := match s with Free => True | Used n => (0 < n)%nat end.

Record heap_ok (h : heap) (segs : list seg) : Prop := HeapOk {
  ok_segs : Forall seg_ok segs;
  ok_entries : entries (table h) = layout segs;
  ok_len : len (table h) = Z.of_nat (length (layout segs));
  ok_len_pos : 1 < len (table h);
  ok_in_use : in_use (table h) = Z.of_nat (used_blocks segs);
  ok_last : 0 ≤ last_allocated_block h < len (table h);
  ok_base : 0 < base_addr h;
  ok_aligned : base_addr h mod KERNEL_HEAP_BLOCK_SIZE = 0;
  ok_end : base_addr h + len (table h) * KERNEL_HEAP_BLOCK_SIZE < 2 ^ 32
}.

(** ** Layouts *)

Lemma run_bytes_length n : length (run_bytes n) = n.
Proof. destruct n as [|[|k]]; [done..|]. cbn. rewrite length_app, length_replicate. cbn. lia. Qed.

(** The shape of a live run: a FIRST block, then taken blocks that are not. *)
Lemma run_bytes_shape n : (0 < n)%nat → ∃ e rest, run_bytes n = e :: rest ∧
  BLOCK_TEST_FIRST e = true ∧ BLOCK_TEST_TAKEN e = true ∧
  Forall (λ e, BLOCK_TEST_FIRST e = false ∧ BLOCK_TEST_FREE e = false ∧ BLOCK_TEST_TAKEN e = true) rest.
Proof.
  intros Hn. destruct n as [|[|k]]; [lia|..]; cbn [run_bytes].
  - exists 65, []. by repeat split.
  - exists 193, (replicate k 129 ++ [1]). do 3 (split; [done|]).
    rewrite Forall_app, Forall_singleton. split; [|done].
    by apply Forall_replicate.
Qed.

Lemma run_bytes_taken n : Forall (λ e, BLOCK_TEST_TAKEN e = true) (run_bytes n).
Proof.
  destruct n as [|n]; [constructor|].
  destruct (run_bytes_shape (S n)) as (e & rest & -> & _ & Ht & Hrest); [lia|].
  constructor; [done|]. eapply Forall_impl; [exact Hrest|]. by intros ? (_ & _ & ?).
Qed.

Lemma layout_app s1 s2 : layout (s1 ++ s2) = layout s1 ++ layout s2.
Proof. unfold layout. by rewrite fmap_app, concat_app. Qed.

Lemma layout_cons s l : layout (s :: l) = seg_bytes s ++ layout l.
Proof. reflexivity. Qed.

Lemma layout_free n : layout (replicate n Free) = replicate n HEAP_MEMORY_BLOCK_FREE.
Proof. induction n as [|n IH]; [done|]. cbn [replicate]. by rewrite layout_cons, IH. Qed.

Lemma used_app s1 s2 : used_blocks (s1 ++ s2) = (used_blocks s1 + used_blocks s2)%nat.
Proof.
  unfold used_blocks. rewrite fmap_app. induction (seg_used <$> s1) as [|x l IH]; cbn in *; lia.
Qed.

Lemma used_free n : used_blocks (replicate n Free) = 0%nat.
Proof. induction n as [|n IH]; [done|]. exact IH. Qed.

Lemma layout_nil_inv segs : Forall seg_ok segs → length (layout segs) = 0%nat → segs = [].
Proof.
  destruct segs as [|[|n] segs]; [done|discriminate|].
  rewrite Forall_cons, layout_cons, length_app. cbn. rewrite run_bytes_length. lia.
Qed.

Lemma used_le_layout segs : Forall seg_ok segs → (used_blocks segs ≤ length (layout segs))%nat.
Proof.
  induction 1 as [|s segs Hs _ IH]; [done|]. rewrite layout_cons, length_app.
  destruct s; cbn; [unfold used_blocks in IH; lia|]. rewrite run_bytes_length.
  unfold used_blocks in *. lia.
Qed.

(** A block that is not taken is a [Free] segment. *)
Lemma layout_free_at segs b e :
  Forall seg_ok segs → layout segs !! b = Some e → BLOCK_TEST_TAKEN e = false →
  ∃ s1 s2, segs = s1 ++ Free :: s2 ∧ length (layout s1) = b.
Proof.
  intros Hok. revert b. induction Hok as [|s segs Hs Hok IH]; intros b Hb He; [done|].
  rewrite layout_cons in Hb. apply lookup_app_Some in Hb as [Hb|[Hle Hb]].
  - destruct s as [|n].
    + apply list_lookup_singleton_Some in Hb as [-> <-]. by exists [], segs.
    + cbn [seg_bytes] in Hb. pose proof (Forall_lookup_1 _ _ _ _ (run_bytes_taken n) Hb) as Ht.
      cbn in Ht. congruence.
  - destruct (IH _ Hb He) as (s1 & s2 & -> & Hlen). exists (s :: s1), s2. split; [done|].
    rewrite layout_cons, length_app. lia.
Qed.

Lemma layout_free_run segs n b :
  Forall seg_ok segs → (0 < n)%nat →
  (∀ k, (k < n)%nat → ∃ e, layout segs !! (b + k)%nat = Some e ∧ BLOCK_TEST_TAKEN e = false) →
  ∃ s1 s2, segs = s1 ++ replicate n Free ++ s2 ∧ length (layout s1) = b.
Proof.
  intros Hok Hn. revert segs b Hok. induction n as [|n IH]; intros segs b Hok Hfree; [lia|].
  destruct (Hfree 0%nat) as (e & He & Ht); [lia|]. rewrite Nat.add_0_r in He.
  destruct (layout_free_at _ _ _ Hok He Ht) as (s1 & s2 & -> & Hlen).
  apply Forall_app in Hok as [Hok1 Hok2]. apply Forall_cons in Hok2 as [_ Hok2].
  destruct n as [|n]; [by exists s1, s2|].
  destruct (IH ltac:(lia) s2 0%nat Hok2) as (t1 & t2 & -> & Ht1).
  - intros k Hk. destruct (Hfree (S k)) as (e' & He' & Ht'); [lia|]. exists e'. split; [|done].
    rewrite layout_app, layout_cons in He'. rewrite lookup_app_r in He' by lia.
    rewrite lookup_app_r in He' by (cbn; lia). rewrite <- He'. f_equal. cbn. lia.
  - apply Forall_app in Hok2 as [Hokt _]. rewrite (layout_nil_inv t1 Hokt Ht1).
    by exists s1, t2.
Qed.

(** ** Reserving blocks *)

Lemma lookup_insert_middle {A} (pre post : list A) x y :
  <[length pre := y]> (pre ++ x :: post) = pre ++ y :: post.
Proof. rewrite insert_app_r_alt by lia. by rewrite Nat.sub_diag. Qed.

Lemma arr_get_middle {A} (pre post : list A) x i :
  i = Z.of_nat (length pre) → arr_get (pre ++ x :: post) i = Ok x.
Proof. intros ->. rewrite arr_get_nat, lookup_app_r, Nat.sub_diag by lia. done. Qed.

Lemma arr_set_middle {A} (pre post : list A) x y i :
  i = Z.of_nat (length pre) → arr_set (pre ++ x :: post) i y = Ok (pre ++ y :: post).
Proof.
  intros ->. rewrite arr_set_in by (rewrite length_app; cbn; lia).
  by rewrite Nat2Z.id, lookup_insert_middle.
Qed.

Lemma reserve_loop pre post n :
  for_loop n (Z.of_nat (length pre))
    (λ j es, e ← arr_get es j;
             arr_set es j (BLOCK_SET_NEXT (BLOCK_SET_NOT_FIRST (BLOCK_SET_TAKEN e))))
    (pre ++ replicate n HEAP_MEMORY_BLOCK_FREE ++ post) = Ok (pre ++ replicate n 129 ++ post).
Proof.
  destruct (for_loop_ok (λ j es, let k := (Z.to_nat j - length pre)%nat in
      es = (pre ++ replicate k 129) ++ replicate (n - k) HEAP_MEMORY_BLOCK_FREE ++ post)
    (λ j es, e ← arr_get es j;
             arr_set es j (BLOCK_SET_NEXT (BLOCK_SET_NOT_FIRST (BLOCK_SET_TAKEN e))))
    n (Z.of_nat (length pre)) (pre ++ replicate n HEAP_MEMORY_BLOCK_FREE ++ post))
    as (es & -> & Hes).
  - intros j es Hj Hes. cbn zeta in *. set (k := (Z.to_nat j - length pre)%nat) in *.
    replace (n - k)%nat with (S (n - S k)) in Hes by lia. cbn [replicate app] in Hes.
    assert (Hlen : j = Z.of_nat (length (pre ++ replicate k 129)))
      by (rewrite length_app, length_replicate; lia).
    rewrite Hes, arr_get_middle, bind_Ok, arr_set_middle by done. eexists. split; [done|].
    replace (Z.to_nat (j + 1) - length pre)%nat with (k + 1)%nat by lia.
    replace (n - (k + 1))%nat with (n - S k)%nat by lia.
    by rewrite replicate_add, <- !app_assoc.
  - cbn zeta. rewrite Nat2Z.id, Nat.sub_diag, Nat.sub_0_r. cbn. by rewrite app_nil_r.
  - cbn zeta in Hes. rewrite Hes. replace (Z.to_nat (Z.of_nat (length pre) + Z.of_nat n) - length pre)%nat with n by lia.
    rewrite Nat.sub_diag. cbn. by rewrite <- app_assoc.
Qed.

Lemma heap_reserve_ok h pre n post :
  (0 < n)%nat → Z.of_nat (length pre + n) < 2 ^ 32 →
  entries (table h) = pre ++ replicate n HEAP_MEMORY_BLOCK_FREE ++ post →
  heap_reserve_blocks h (Z.of_nat (length pre)) (Z.of_nat n) =
  Ok (set_entries h (pre ++ run_bytes n ++ post)).
Proof.
  intros Hn Hlen He. unfold heap_reserve_blocks. cbn zeta.
  rewrite (u32_id (Z.of_nat (length pre) + Z.of_nat n)) by lia.
  replace (Z.to_nat _) with n by lia. rewrite He, reserve_loop, bind_Ok.
  destruct n as [|n]; [lia|]. cbn [replicate app].
  rewrite arr_get_middle, bind_Ok, arr_set_middle, bind_Ok by done.
  rewrite u32_id by lia.
  destruct n as [|n].
  - rewrite arr_get_middle, bind_Ok, arr_set_middle by lia. done.
  - rewrite replicate_S_end. change (?x :: (?l ++ ?l') ++ ?l'') with (([x] ++ l ++ l') ++ l'').
    rewrite <- !app_assoc. change ([129] ++ post) with (129 :: post).
    rewrite !(app_assoc pre), !(app_assoc (pre ++ _)).
    rewrite arr_get_middle, bind_Ok, arr_set_middle
      by (rewrite !length_app, length_replicate; cbn [length]; lia).
    rewrite bind_Ok. do 2 f_equal. rewrite <- !app_assoc. cbn [run_bytes app].
    by rewrite <- app_assoc.
Qed.

(** Writing past the table is undefined. *)
Lemma heap_reserve_out h b n :
  0 ≤ b → 0 < n → b + n < 2 ^ 32 → Z.of_nat (length (entries (table h))) < b + n →
  heap_reserve_blocks h b n = Ub.
Proof.
  intros Hb Hn Hw Hlen. unfold heap_reserve_blocks. cbn zeta. rewrite (u32_id (b + n)) by lia.
  replace (b + n - b) with n by lia.
  enough (Hloop : ∀ k i es, Z.of_nat (length es) < i + Z.of_nat k → 0 ≤ i → (0 < k)%nat →
    for_loop k i (λ j es, e ← arr_get es j;
       arr_set es j (BLOCK_SET_NEXT (BLOCK_SET_NOT_FIRST (BLOCK_SET_TAKEN e)))) es = Ub)
    by (rewrite Hloop; [done|lia..]).
  intros k. induction k as [|k IH]; intros i es Hl Hi Hk; [lia|]. cbn [for_loop].
  destruct (decide (i < Z.of_nat (length es))) as [Hin|Hout].
  - destruct (arr_get_in es i) as (e & -> & _); [lia|]. rewrite bind_Ok.
    rewrite arr_set_in, bind_Ok by lia. apply IH; rewrite ?length_insert; lia.
  - by rewrite arr_get_out by lia.
Qed.

(** ** The search loop *)

Definition is_free (es : list Z) (p : Z) : Prop :=
  ∃ e, es !! Z.to_nat p = Some e ∧ BLOCK_TEST_TAKEN e = false.

(** [n] free blocks from [b] on, the table read as a ring. *)
Definition cyclic_run (t : heap_table) (b n : Z) : Prop :=
  ∀ k, 0 ≤ k < n → is_free (entries t) ((b + k) mod len t).

#[export] Instance is_free_dec es p : Decision (is_free es p).
Proof.
  unfold is_free. destruct (es !! Z.to_nat p) as [e|] eqn:E.
  - destruct (BLOCK_TEST_TAKEN e) eqn:Ht; [right|left]; [|by exists e].
    intros (e' & He & Ht'). congruence.
  - right. intros (e' & He & _). congruence.
Defined.

Lemma cyclic_run_Forall t b n :
  cyclic_run t b n ↔ Forall (λ k, is_free (entries t) ((b + k) mod len t)) (seqZ 0 n).
Proof.
  rewrite Forall_forall. unfold cyclic_run. setoid_rewrite elem_of_seqZ.
  split; intros H k Hk; apply H; lia.
Qed.

#[export] Instance cyclic_run_dec t b n : Decision (cyclic_run t b n).
Proof.
  destruct (decide (Forall (λ k, is_free (entries t) ((b + k) mod len t)) (seqZ 0 n))) as [H|H];
    [left|right]; by rewrite cyclic_run_Forall.
Defined.

Section search.
Context (t : heap_table) (n : Z).
Hypothesis Hlen : Z.of_nat (length (entries t)) = len t.
Hypothesis HN : 1 < len t < 2 ^ 31.
Hypothesis Hn : 0 < n < 2 ^ 31.

Lemma next_in i : 0 ≤ i < len t → 0 ≤ (i + 1) mod len t < len t.
Proof. intros. apply Z.mod_pos_bound. lia. Qed.

Lemma next_ne i : 0 ≤ i < len t → (i + 1) mod len t ≠ i.
Proof.
  intros Hi E. destruct (decide (i + 1 = len t)) as [E'|Hne].
  - rewrite E', Z.mod_same in E by lia. lia.
  - rewrite Z.mod_small in E by lia. lia.
Qed.

Lemma find_step_in i rem found last :
  0 ≤ i < len t → 0 < rem ≤ n → i ≠ last →
  (is_free (entries t) i ∧
   find_step t n (i, rem, found, last) =
   Ok (inl ((i + 1) mod len t, rem - 1, if decide (found = -1) then i else found, i))) ∨
  (¬ is_free (entries t) i ∧
   find_step t n (i, rem, found, last) = Ok (inl ((i + 1) mod len t, n, -1, 0))).
Proof.
  intros Hi Hrem Hne. unfold find_step. rewrite decide_True by lia.
  destruct (arr_get_in (entries t) i) as (e & -> & He); [lia|]. rewrite bind_Ok.
  rewrite decide_False by lia. rewrite u32_id, (s32_id n), (s32_id (rem - 1)), (s32_id i) by lia.
  destruct (BLOCK_TEST_TAKEN e) eqn:Ht; [right|left]; (split; [|done]).
  - intros (e' & He' & Ht'). congruence.
  - by exists e.
Qed.

Lemma find_step_exit i rem found last :
  i = last ∨ rem = 0 → find_step t n (i, rem, found, last) = Ok (inr (rem, found, last)).
Proof. intros. unfold find_step. by rewrite decide_False by lia. Qed.

(** What the loop knows: no run yet, or a run that ends just before [i]. *)
Definition scan (s : Z * Z * Z * Z) : Prop :=
  let '(i, rem, found, last) := s in
  0 ≤ i ∧ 0 ≤ last < len t ∧
  ((rem = n ∧ found = -1) ∨
   (0 ≤ rem < n ∧ 0 ≤ found < len t ∧ cyclic_run t found (n - rem) ∧
    i = (found + (n - rem)) mod len t ∧ i ≠ last)).

Lemma run_extend b k : cyclic_run t b k → is_free (entries t) ((b + k) mod len t) →
  cyclic_run t b (k + 1).
Proof.
  intros Hrun Hf j Hj. destruct (decide (j = k)) as [->|]; [done|]. apply Hrun. lia.
Qed.

(** The run state after a free block. *)
Lemma scan_free i rem found last :
  0 ≤ i < len t → 0 < rem → scan (i, rem, found, last) → is_free (entries t) i →
  scan ((i + 1) mod len t, rem - 1, if decide (found = -1) then i else found, i).
Proof.
  intros Hi Hrem (_ & Hl & Hcase) Hf. unfold scan.
  pose proof (next_in i Hi). pose proof (next_ne i Hi).
  split; [lia|]. split; [lia|]. right. destruct Hcase as [[-> ->]|(Hr & Hfd & Hrun & Heq & _)].
  - rewrite decide_True by done. split_and!; try lia.
    + intros k Hk. replace (i + k) with i by lia. by rewrite Z.mod_small.
    + f_equal. lia.
  - rewrite decide_False by lia. replace (n - (rem - 1)) with (n - rem + 1) by lia.
    split_and!; try lia.
    + apply run_extend; [done|]. by rewrite <- Heq.
    + rewrite Heq, Zplus_mod_idemp_l. f_equal. lia.
Qed.

Lemma scan_step s s' : scan s → find_step t n s = Ok (inl s') → scan s'.
Proof.
  destruct s as [[[i rem] found] last]. intros Hs Hstep.
  pose proof Hs as (Hi & Hl & Hcase).
  destruct (decide (i = last ∨ rem = 0)) as [Hx|Hx].
  { rewrite find_step_exit in Hstep by done. discriminate. }
  destruct (decide (i < len t)) as [Hin|Hout].
  - destruct (find_step_in i rem found last ltac:(lia) ltac:(lia) ltac:(lia))
      as [[Hf E]|[Hf E]]; rewrite E in Hstep.
    + injection Hstep as <-. apply (scan_free i rem found last); [lia..|done|done].
    + injection Hstep as <-. pose proof (next_in i ltac:(lia)). unfold scan. lia.
  - unfold find_step in Hstep. rewrite decide_True in Hstep by lia.
    rewrite arr_get_out in Hstep by lia. discriminate.
Qed.

Lemma find_loop_sound fuel i0 last0 rem found last :
  0 ≤ i0 → 0 ≤ last0 < len t →
  while_loop fuel (find_step t n) (i0, n, -1, last0) = Ok (rem, found, last) →
  0 ≤ last < len t ∧ (rem = 0 → 0 ≤ found < len t ∧ cyclic_run t found n).
Proof.
  intros Hi0 Hl0 Hw.
  refine (while_partial _ scan
    (λ '(rem, found, last), 0 ≤ last < len t ∧ (rem = 0 → 0 ≤ found < len t ∧ cyclic_run t found n))
    scan_step _ _ _ _ _ Hw); [|unfold scan; lia].
  intros [[[i r] f] l] [[r' f'] l'] (Hi & Hl & Hcase) Hstep. unfold find_step in Hstep.
  case_decide as Hc.
  - apply bind_Ok_inv in Hstep as (e & _ & Hstep). destruct (decide (len t = 0)); [done|].
    destruct (BLOCK_TEST_TAKEN e); discriminate.
  - injection Hstep as <- <- <-. split; [done|]. intros ->.
    destruct Hcase as [[? _]|(_ & Hf & Hrun & _)]; [lia|]. rewrite Z.sub_0_r in Hrun. done.
Qed.

(** The search returns when the last block is taken: it stops at the end. *)
Lemma find_loop_stops i0 last0 fuel :
  0 ≤ i0 < len t → 0 ≤ last0 < len t → i0 ≠ last0 → ¬ is_free (entries t) (len t - 1) →
  (Z.to_nat (len t) + 1 < fuel)%nat →
  ∃ r, while_loop fuel (find_step t n) (i0, n, -1, last0) = Ok r.
Proof.
  intros Hi0 Hl0 Hne Hlast Hfuel.
  destruct (while_total_rounds (find_step t n)
    (λ k s, scan s ∧ (Z.of_nat k ≤ len t) ∧ let '(i, rem, found, last) := s in
       i < len t ∧ 0 ≤ rem ≤ n ∧ (i ≠ last ∧ i = i0 + Z.of_nat k ∨ i = last))
    (Z.to_nat (len t)) (λ _, True) fuel (i0, n, -1, last0)) as (r & Hr & _); [..|by exists r].
  - split; [unfold scan; lia|]. lia.
  - lia.
  - intros k s (_ & ? & _). lia.
  - intros k [[[i rem] found] last] (Hs & Hk & Hi & Hrem & Hpos). pose proof Hs as (Hi' & Hl & _).
    destruct (decide (i = last ∨ rem = 0)); [right; rewrite find_step_exit by done; eauto|].
    destruct Hpos as [[_ Hpos]|?]; [|lia]. left.
    destruct (find_step_in i rem found last ltac:(lia) ltac:(lia) ltac:(lia))
      as [[Hf E]|[Hf E]];
      (eexists; split; [exact E|]); (split; [by eapply scan_step|]).
    + pose proof (next_ne i ltac:(lia)). assert (i ≠ len t - 1) by (intros ->; done).
      rewrite Z.mod_small by lia. lia.
    + destruct (decide (i = len t - 1)) as [->|].
      * replace (len t - 1 + 1) with (len t) by lia. rewrite Z.mod_same by lia. lia.
      * rewrite Z.mod_small by lia. lia.
Qed.

(** It returns when there is a run, even one that wraps around the end. *)
Lemma find_loop_finds i0 last0 fuel b :
  0 ≤ i0 < len t → 0 ≤ last0 < len t → i0 ≠ last0 → 0 ≤ b < len t → cyclic_run t b n →
  (Z.to_nat (len t + n) < fuel)%nat →
  ∃ r, while_loop fuel (find_step t n) (i0, n, -1, last0) = Ok r.
Proof.
  intros Hi0 Hl0 Hne Hb Hrun Hfuel.
  set (d := (b - i0) mod len t).
  assert (Hd : 0 ≤ d < len t) by (apply Z.mod_pos_bound; lia).
  assert (Hpos : ∀ j, 0 ≤ j → (i0 + (d + j)) mod len t = (b + j) mod len t).
  { intros j Hj. unfold d. rewrite Z.add_assoc, (Z.add_comm i0), <- Z.add_assoc.
    rewrite Zplus_mod_idemp_l. f_equal. lia. }
  destruct (while_total_rounds (find_step t n)
    (λ k s, scan s ∧ let '(i, rem, found, last) := s in
       i < len t ∧ 0 ≤ rem ≤ n ∧ Z.of_nat k ≤ d + n ∧
       (i = last ∨ i = (i0 + Z.of_nat k) mod len t ∧
        (d < Z.of_nat k → rem ≤ n - (Z.of_nat k - d))))
    (Z.to_nat (len t + n)) (λ _, True) fuel (i0, n, -1, last0)) as (r & Hr & _); [..|by exists r].
  - split; [unfold scan; lia|]. split_and!; try lia. right. split; [|lia].
    rewrite Z.add_0_r. by rewrite Z.mod_small.
  - lia.
  - intros k [[[i rem] found] last] (_ & ?). lia.
  - intros k [[[i rem] found] last] (Hs & Hi & Hrem & Hk & Hcase). pose proof Hs as (Hi' & Hl & _).
    destruct (decide (i = last ∨ rem = 0)); [right; rewrite find_step_exit by done; eauto|].
    destruct Hcase as [|[Hik Hr]]; [lia|]. left.
    assert (Hkd : Z.of_nat k < d + n) by lia.
    assert (Hfree : d ≤ Z.of_nat k → is_free (entries t) i).
    { intros Hdk. rewrite Hik. replace (Z.of_nat k) with (d + (Z.of_nat k - d)) by lia.
      rewrite Hpos by lia. apply Hrun. lia. }
    destruct (find_step_in i rem found last ltac:(lia) ltac:(lia) ltac:(lia))
      as [[Hf E]|[Hf E]];
      (eexists; split; [exact E|]); (split; [by eapply scan_step|]);
      pose proof (next_in i ltac:(lia)) as Hnx;
      (assert (Hnext : (i + 1) mod len t = (i0 + Z.of_nat (S k)) mod len t)
        by (rewrite Hik, Zplus_mod_idemp_l; f_equal; lia)).
    + split_and!; lia.
    + assert (Z.of_nat k < d) by (destruct (decide (d ≤ Z.of_nat k)); [exfalso; auto|lia]).
      split_and!; lia.
Qed.

(** On a table of free blocks the search counts [n] blocks from where it
    starts, as often round the table as that takes. *)
Lemma find_loop_all_free i0 last0 fuel :
  0 ≤ i0 < len t → 0 ≤ last0 < len t → i0 ≠ last0 →
  (∀ p, 0 ≤ p < len t → is_free (entries t) p) → (Z.to_nat n < fuel)%nat →
  ∃ last, while_loop fuel (find_step t n) (i0, n, -1, last0) = Ok (0, i0, last).
Proof.
  intros Hi0 Hl0 Hne Hfree Hfuel.
  destruct (while_total_rounds (find_step t n)
    (λ k s, ∃ i last, s = (i, n - Z.of_nat k, if decide (k = 0%nat) then -1 else i0, last) ∧
       0 ≤ i < len t ∧ i ≠ last ∧ (k = 0%nat → i = i0) ∧ Z.of_nat k ≤ n)
    (Z.to_nat n) (λ '(rem, found, _), rem = 0 ∧ found = i0) fuel (i0, n, -1, last0))
    as ([[rem found] last] & Hr & -> & ->); [..|by exists last].
  - exists i0, last0. rewrite decide_True by done. rewrite Z.sub_0_r. split; [done|lia].
  - lia.
  - intros k s (i & last & _ & H). lia.
  - intros k s (i & last & -> & Hi & Hil & Hk0 & Hk).
    destruct (decide (n - Z.of_nat k = 0)) as [Hz|Hz].
    + right. rewrite find_step_exit by lia. eexists. split; [done|]. cbn.
      rewrite decide_False by lia. lia.
    + left. destruct (find_step_in i (n - Z.of_nat k) (if decide (k = 0%nat) then -1 else i0) last
        ltac:(lia) ltac:(lia) Hil) as [[_ ->]|[Hf _]]; [|exfalso; auto].
      eexists. split; [done|]. exists ((i + 1) mod len t), i.
      pose proof (next_in i Hi). pose proof (next_ne i Hi). split; [|lia].
      rewrite (decide_False (P := S k = 0%nat)) by lia.
      replace (n - Z.of_nat (S k)) with (n - Z.of_nat k - 1) by lia.
      destruct (decide (k = 0%nat)) as [E|E].
      * rewrite (decide_True (P := -1 = -1)) by done. by rewrite (Hk0 E).
      * by rewrite (decide_False (P := i0 = -1)) by lia.
Qed.

(** Behind the last allocation it counts [n] free blocks and stops at the last one. *)
Lemma find_loop_front i0 fuel : 0 < i0 → i0 + n ≤ len t →
  (∀ p, i0 ≤ p < i0 + n → is_free (entries t) p) → (Z.to_nat n < fuel)%nat →
  while_loop fuel (find_step t n) (i0, n, -1, i0 - 1) = Ok (0, i0, i0 + n - 1).
Proof.
  intros Hi0 Hle Hfree Hfuel.
  destruct (while_total_rounds (find_step t n)
    (λ k s, ∃ i, s = (i, n - Z.of_nat k, if decide (k = 0%nat) then -1 else i0, i0 + Z.of_nat k - 1) ∧
       (i = i0 + Z.of_nat k ∨ Z.of_nat k = n) ∧ Z.of_nat k ≤ n)
    (Z.to_nat n) (λ r, r = (0, i0, i0 + n - 1)) fuel (i0, n, -1, i0 - 1)) as (r & Hr & ->); [..|done].
  - exists i0. rewrite decide_True by done. split; [tuple_lia|lia].
  - lia.
  - intros k s (i & _ & H). lia.
  - intros k s (i & -> & Hi & Hk). destruct (decide (n - Z.of_nat k = 0)) as [Hz|Hz].
    + right. rewrite find_step_exit by lia. eexists. split; [done|]. rewrite decide_False by lia.
      tuple_lia.
    + left. destruct Hi as [-> | ?]; [|lia].
      destruct (find_step_in (i0 + Z.of_nat k) (n - Z.of_nat k) (if decide (k = 0%nat) then -1 else i0)
        (i0 + Z.of_nat k - 1) ltac:(lia) ltac:(lia) ltac:(lia)) as [[_ ->]|[Hf _]]; [|exfalso; apply Hf, Hfree; lia].
      eexists. split; [done|]. exists ((i0 + Z.of_nat k + 1) mod len t). split; [|split; [|lia]].
      * rewrite (decide_False (P := S k = 0%nat)) by lia. destruct (decide (k = 0%nat)) as [->|].
        -- rewrite decide_True by done. tuple_lia.
        -- rewrite decide_False by lia. tuple_lia.
      * destruct (decide (Z.of_nat (S k) = n)); [by right|left]. rewrite Z.mod_small; lia.
Qed.

(** It runs for ever when the last block is free and no run is long enough. *)
Lemma find_loop_diverges i0 last0 fuel :
  0 ≤ i0 < len t → 0 ≤ last0 < len t → i0 ≠ last0 → is_free (entries t) (len t - 1) →
  (∀ b, 0 ≤ b < len t → ¬ cyclic_run t b n) →
  while_loop fuel (find_step t n) (i0, n, -1, last0) = Diverge.
Proof.
  intros Hi0 Hl0 Hne Hlast Hnorun.
  apply (while_diverges _ (λ s, scan s ∧ let '(i, rem, found, last) := s in
    i < len t ∧ 0 ≤ rem ≤ n ∧ i ≠ last)).
  - intros [[[i rem] found] last] (Hs & Hi & Hrem & Hil). pose proof Hs as (Hi' & Hl & Hcase).
    assert (rem ≠ 0).
    { intros ->. destruct Hcase as [[? _]|(_ & Hf & Hrun & _)]; [lia|].
      rewrite Z.sub_0_r in Hrun. by apply (Hnorun found). }
    pose proof (next_in i ltac:(lia)). pose proof (next_ne i ltac:(lia)).
    destruct (find_step_in i rem found last ltac:(lia) ltac:(lia) ltac:(lia))
      as [[Hf E]|[Hf E]];
      (eexists; split; [exact E|]); (split; [by eapply scan_step|]); [lia|].
    assert (i ≠ len t - 1) by (intros ->; done).
    rewrite Z.mod_small by lia. lia.
  - split; [unfold scan; lia|]. lia.
Qed.
End search.

(** ** Allocation *)

(** What [heap_malloc] may do to the segments: fail and leave them alone, or turn
    a run of [n] free blocks into a live allocation at its address. *)
Inductive malloc_step (base : Z) : list seg → nat → list seg → Z → Prop :=
  | malloc_fails segs n : malloc_step base segs n segs 0
  | malloc_takes s1 s2 n :
      malloc_step base (s1 ++ replicate n Free ++ s2) n (s1 ++ Used n :: s2)
        (base + KERNEL_HEAP_BLOCK_SIZE * Z.of_nat (length (layout s1))).

Lemma size_to_nblocks_range size : 0 < size < 2 ^ 32 →
  0 < size_to_nblocks size ≤ 2 ^ 20 ∧
  size ≤ size_to_nblocks size * KERNEL_HEAP_BLOCK_SIZE < size + KERNEL_HEAP_BLOCK_SIZE.
Proof.
  intros Hs. unfold size_to_nblocks, KERNEL_HEAP_BLOCK_SIZE.
  pose proof (Z.div_mod size 4096). pose proof (Z.mod_pos_bound size 4096).
  assert (size / 4096 < 2 ^ 20) by (apply Z.div_lt_upper_bound; lia).
  assert (0 ≤ size / 4096) by (apply Z.div_pos; lia).
  case_decide; lia.
Qed.

Section ok.
Context (h : heap) (segs : list seg) (Hok : heap_ok h segs).

Lemma ok_entries_len : Z.of_nat (length (entries (table h))) = len (table h).
Proof. by rewrite (ok_entries _ _ Hok), (ok_len _ _ Hok). Qed.

Lemma ok_len_small : len (table h) < 2 ^ 20.
Proof.
  pose proof (ok_base _ _ Hok). pose proof (ok_end _ _ Hok).
  unfold KERNEL_HEAP_BLOCK_SIZE in *. lia.
Qed.

Lemma find_first_block_sound fuel n r h' :
  0 < n < 2 ^ 31 → find_first_block fuel h n = Ok (r, h') →
  ∃ last, h' = set_last h last ∧ 0 ≤ last < len (table h) ∧
    (r = - ENOMEM ∨ (0 ≤ r < len (table h) ∧ cyclic_run (table h) r n)).
Proof.
  intros Hn Hf. unfold find_first_block in Hf.
  pose proof ok_entries_len. pose proof ok_len_small.
  pose proof (ok_len_pos _ _ Hok). pose proof (ok_last _ _ Hok).
  rewrite u32_id, s32_id in Hf by lia.
  apply bind_Ok_inv in Hf as ([[rem found] last] & Hw & Hf). injection Hf as <- <-.
  apply find_loop_sound in Hw; [|lia..]. destruct Hw as [Hlast Hrun].
  exists last. split; [done|]. split; [done|].
  case_decide; [by left|]. right. apply Hrun. lia.
Qed.

(** A run found before the end of the table is a run of [Free] segments. *)
Lemma cyclic_run_segs b n :
  0 ≤ b → 0 < n → b + n ≤ len (table h) → cyclic_run (table h) b n →
  ∃ s1 s2, segs = s1 ++ replicate (Z.to_nat n) Free ++ s2 ∧ Z.of_nat (length (layout s1)) = b.
Proof.
  intros Hb Hn Hbn Hrun.
  destruct (layout_free_run segs (Z.to_nat n) (Z.to_nat b)) as (s1 & s2 & E & Hl);
    [apply (ok_segs _ _ Hok)|lia| |exists s1, s2; split; [done|lia]].
  intros k Hk. destruct (Hrun (Z.of_nat k)) as (e & He & Ht); [lia|].
  exists e. split; [|done]. rewrite Z.mod_small in He by lia.
  rewrite (ok_entries _ _ Hok) in He. rewrite <- He. f_equal. lia.
Qed.
End ok.

Lemma heap_ok_take h s1 s2 n last :
  heap_ok h (s1 ++ replicate n Free ++ s2) → (0 < n)%nat → 0 ≤ last < len (table h) →
  heap_ok (set_in_use (set_entries (set_last h last) (layout s1 ++ run_bytes n ++ layout s2))
             (u32 (in_use (table h) + Z.of_nat n))) (s1 ++ Used n :: s2).
Proof.
  intros Hok Hn Hlast. destruct Hok.
  assert (Hsegs : Forall seg_ok (s1 ++ Used n :: s2)).
  { rewrite !Forall_app in ok_segs0. destruct ok_segs0 as (? & _ & ?).
    by rewrite Forall_app, Forall_cons. }
  assert (Hlay : length (layout (s1 ++ Used n :: s2)) = length (layout (s1 ++ replicate n Free ++ s2))).
  { rewrite !layout_app, layout_cons, layout_free, !length_app, length_replicate. cbn [seg_bytes].
    by rewrite run_bytes_length. }
  assert (Hused : used_blocks (s1 ++ Used n :: s2) =
    (used_blocks (s1 ++ replicate n Free ++ s2) + n)%nat).
  { rewrite !used_app, used_free. change (Used n :: s2) with ([Used n] ++ s2). rewrite used_app.
    cbn. lia. }
  pose proof (used_le_layout _ Hsegs) as Hle.
  constructor; cbn; try done.
  - by rewrite layout_app, layout_cons.
  - by rewrite Hlay.
  - rewrite ok_in_use0, Hused, u32_id; [lia|].
    unfold KERNEL_HEAP_BLOCK_SIZE in *. lia.
Qed.

(** What follows a search that found the [Free] segments behind [s1]. *)
Lemma take_found h s1 n s2 last :
  heap_ok h (s1 ++ replicate n Free ++ s2) → (0 < n)%nat → 0 ≤ last < len (table h) →
  ∃ h', heap_reserve_blocks (set_last h last) (Z.of_nat (length (layout s1))) (Z.of_nat n) = Ok h' ∧
    let h'' := set_in_use h' (u32 (in_use (table h') + Z.of_nat n)) in
    heap_block_to_addr h'' (Z.of_nat (length (layout s1))) =
      base_addr h + KERNEL_HEAP_BLOCK_SIZE * Z.of_nat (length (layout s1)) ∧
    heap_ok h'' (s1 ++ Used n :: s2) ∧ base_addr h'' = base_addr h ∧ last_allocated_block h'' = last.
Proof.
  intros Hok Hn Hlast. pose proof (ok_len_small _ _ Hok) as Hsmall.
  pose proof (ok_entries _ _ Hok) as He. rewrite !layout_app, layout_free in He.
  pose proof (ok_len _ _ Hok) as Hl. rewrite !layout_app, layout_free, !length_app, length_replicate in Hl.
  eexists. split; [apply (heap_reserve_ok _ _ n (layout s2) Hn); [lia|exact He]|].
  cbn -[KERNEL_HEAP_BLOCK_SIZE heap_block_to_addr]. unfold heap_block_to_addr. cbn -[KERNEL_HEAP_BLOCK_SIZE].
  pose proof (ok_end _ _ Hok). pose proof (ok_base _ _ Hok).
  split; [rewrite u32_id by (unfold KERNEL_HEAP_BLOCK_SIZE in *; lia); lia|]. split; [|done].
  apply (heap_ok_take h s1 s2 n last Hok Hn Hlast).
Qed.

Lemma heap_malloc_spec fuel h segs size p h' :
  heap_ok h segs → 0 < size < 2 ^ 32 → heap_malloc fuel h size = Ok (p, h') →
  ∃ segs', malloc_step (base_addr h) segs (Z.to_nat (size_to_nblocks size)) segs' p ∧
    heap_ok h' segs' ∧ base_addr h' = base_addr h.
Proof.
  intros Hok Hsize Hm. pose proof (size_to_nblocks_range size Hsize) as [Hn Hfit].
  set (n := size_to_nblocks size) in *. unfold heap_malloc in Hm. fold n in Hm.
  rewrite decide_False in Hm by lia. unfold heap_malloc_blocks in Hm.
  apply bind_Ok_inv in Hm as ([r h1] & Hf & Hm).
  destruct (find_first_block_sound _ _ Hok fuel n r h1 ltac:(lia) Hf) as (last & -> & Hlast & Hr).
  pose proof (ok_len_small _ _ Hok) as Hsmall.
  case_decide as Hneg.
  - injection Hm as <- <-. exists segs. split; [constructor|]. split; [|done].
    destruct Hok. by constructor.
  - destruct Hr as [->|[Hr Hrun]]; [by unfold ENOMEM in Hneg|].
    apply bind_Ok_inv in Hm as (h2 & Hres & Hm). injection Hm as <- <-.
    destruct (decide (len (table h) < r + n)) as [Hout|Hin].
    { rewrite heap_reserve_out in Hres; [done|lia..|]. cbn. rewrite (ok_entries_len _ _ Hok). lia. }
    destruct (cyclic_run_segs _ _ Hok r n) as (s1 & s2 & -> & Hs1); [lia..|done|].
    destruct (take_found h s1 (Z.to_nat n) s2 last Hok) as (h3 & E & Ha & Ho & Hb & _); [lia..|].
    rewrite Hs1, Z2Nat.id in * by lia. rewrite Hres in E. injection E as <-. rewrite Ha, <- Hs1.
    exists (s1 ++ Used (Z.to_nat n) :: s2). split; [constructor|]. by split.
Qed.

(** Behind the last allocation there are [f] free blocks and nothing else. *)
Record heap_front (h : heap) (segs : list seg) (f : nat) : Prop := HeapFront {
  front_ok : heap_ok h (segs ++ replicate f Free);
  front_last : last_allocated_block h + 1 = Z.of_nat (length (layout segs))
}.

Lemma heap_malloc_front fuel h segs f size : let n := Z.to_nat (size_to_nblocks size) in
  heap_front h segs f → 0 < size < 2 ^ 32 → (n ≤ f)%nat → (n < fuel)%nat →
  ∃ h', heap_malloc fuel h size = Ok (base_addr h + KERNEL_HEAP_BLOCK_SIZE * Z.of_nat (length (layout segs)), h') ∧
    heap_front h' (segs ++ [Used n]) (f - n) ∧ base_addr h' = base_addr h.
Proof.
  intros n [Hok Hlast] Hsize Hnf Hfuel. pose proof (size_to_nblocks_range size Hsize) as [Hn _].
  pose proof (ok_entries_len _ _ Hok) as Hel. pose proof (ok_len_small _ _ Hok) as Hsmall.
  pose proof (ok_len_pos _ _ Hok). pose proof (ok_last _ _ Hok). pose proof (ok_len _ _ Hok) as Hl.
  pose proof (ok_entries _ _ Hok) as He. rewrite layout_app, layout_free in He, Hl. rewrite length_app, length_replicate in Hl.
  assert (En : size_to_nblocks size = Z.of_nat n) by lia.
  unfold heap_malloc. rewrite En, decide_False by lia. unfold heap_malloc_blocks, find_first_block.
  rewrite u32_id, s32_id by lia. replace (last_allocated_block h) with (Z.of_nat (length (layout segs)) - 1) by lia.
  rewrite Z.sub_add, (find_loop_front (table h) (Z.of_nat n) Hel ltac:(lia) ltac:(lia)); [|lia|lia| |lia].
  2: { intros p Hp. exists 0. split; [|done]. rewrite He, lookup_app_r by lia. apply lookup_replicate_2. lia. }
  rewrite !bind_Ok, (decide_False (P := 0 ≠ 0)), decide_False by lia.
  replace (replicate f Free) with (replicate n Free ++ replicate (f - n) Free) in Hok by (rewrite <- replicate_add; f_equal; lia).
  destruct (take_found h segs n (replicate (f - n) Free) (Z.of_nat (length (layout segs)) + Z.of_nat n - 1) Hok)
    as (h' & -> & Ha & Ho & Hb & Hla); [lia..|]. rewrite bind_Ok. cbn zeta. rewrite Ha.
  eexists. split; [done|]. split; [|done]. split; [by rewrite <- app_assoc|].
  rewrite Hla, layout_app, length_app. change (layout [Used n]) with (run_bytes n ++ []).
  rewrite app_nil_r, run_bytes_length. lia.
Qed.

(** C11: [heap_malloc] implements the abstract allocator: whatever it returns, the
    table is again the layout of segments, and either it returned NULL and
    allocated nothing or it returned the block-aligned address of blocks that
    were all free, enough for [size] bytes, and marked exactly those. *)
Theorem heap_malloc_refines fuel h segs size p h' :
  heap_ok h segs → 0 < size < 2 ^ 32 → heap_malloc fuel h size = Ok (p, h') →
  ∃ segs', malloc_step (base_addr h) segs (Z.to_nat (size_to_nblocks size)) segs' p ∧
    heap_ok h' segs' ∧ base_addr h' = base_addr h ∧
    size ≤ size_to_nblocks size * KERNEL_HEAP_BLOCK_SIZE.
Proof.
  intros Hok Hsize Hm. destruct (heap_malloc_spec _ _ _ _ _ _ Hok Hsize Hm) as (segs' & ? & ? & ?).
  pose proof (size_to_nblocks_range size Hsize). exists segs'. by split_and!; try lia.
Qed.

(** A small heap laid out as [segs], for the witnesses. *)
Definition small_heap (segs : list seg) (last : Z) : heap :=
  Heap (HeapTable (layout segs) (Z.of_nat (length (layout segs))) (Z.of_nat (used_blocks segs)))
    0x10000 last.

Lemma small_heap_ok segs last :
  Forall seg_ok segs → 1 < Z.of_nat (length (layout segs)) < 1000 →
  0 ≤ last < Z.of_nat (length (layout segs)) → heap_ok (small_heap segs last) segs.
Proof.
  intros Hs Hl Hlast. constructor; cbn -[KERNEL_HEAP_BLOCK_SIZE Z.mul Z.pow]; try done; try lia.
  unfold KERNEL_HEAP_BLOCK_SIZE. lia.
Qed.

Definition witness_segs : list seg := [Used 1; Free; Free; Used 2; Free; Used 1].

Lemma witness_heap_ok last : 0 ≤ last < 7 → heap_ok (small_heap witness_segs last) witness_segs.
Proof.
  intros. apply small_heap_ok; [repeat constructor| |]; change (length (layout witness_segs)) with 7%nat; lia.
Qed.

Lemma heap_malloc_refines_witness :
  ∃ h' segs', heap_malloc 20 (small_heap witness_segs 0) 5000 = Ok (0x11000, h') ∧
    malloc_step 0x10000 witness_segs 2 segs' 0x11000 ∧ heap_ok h' segs' ∧
    base_addr h' = 0x10000 ∧ 5000 ≤ size_to_nblocks 5000 * KERNEL_HEAP_BLOCK_SIZE.
Proof.
  eexists.
  destruct (heap_malloc_refines 20 (small_heap witness_segs 0) witness_segs 5000 0x11000
    (Heap (HeapTable [65; 193; 1; 193; 1; 0; 65] 7 6) 0x10000 2)) as (segs' & H).
  - apply witness_heap_ok. lia.
  - lia.
  - vm_compute. reflexivity.
  - exists segs'. split; [vm_compute; reflexivity|exact H].
Defined.

(** C25: when [find_first_block] returns: on a well-formed table it comes back,
    with some fuel, exactly when the last block is taken or some run of [n]
    blocks, the table read as a ring, is free. Otherwise (last block free, no
    room) the scan goes round the table for ever: with any fuel it is still going. *)
Theorem find_first_block_returns_iff h segs n :
  heap_ok h segs → 0 < n < 2 ^ 31 → last_allocated_block h + 1 < len (table h) →
  let comes_back := ¬ is_free (entries (table h)) (len (table h) - 1) ∨
    ∃ b, 0 ≤ b < len (table h) ∧ cyclic_run (table h) b n in
  ((∃ fuel r, find_first_block fuel h n = Ok r) ↔ comes_back) ∧
  (¬ comes_back → ∀ fuel, find_first_block fuel h n = Diverge).
Proof.
  intros Hok Hn Hlast comes_back. pose proof (ok_entries_len _ _ Hok) as Hlen.
  pose proof (ok_len_small _ _ Hok). pose proof (ok_len_pos _ _ Hok). pose proof (ok_last _ _ Hok).
  assert (Hdiv : ¬ comes_back → ∀ fuel, find_first_block fuel h n = Diverge).
  { intros Hnot fuel. unfold find_first_block. rewrite u32_id, s32_id by lia. rewrite find_loop_diverges; try done; try lia.
    - destruct (decide (is_free (entries (table h)) (len (table h) - 1))); [done|]. destruct Hnot. by left.
    - intros b Hb Hrun. apply Hnot. right. by exists b. }
  split; [|exact Hdiv]. split.
  - intros (fuel & r & Hf).
    destruct (decide (is_free (entries (table h)) (len (table h) - 1))) as [Hfree|]; [right|by left].
    destruct (decide (Exists (λ b, cyclic_run (table h) b n) (seqZ 0 (len (table h))))) as [Hex|Hnex].
    + apply Exists_exists in Hex as (b & Hb & Hrun). apply elem_of_seqZ in Hb.
      exists b. split; [lia|done].
    + rewrite Hdiv in Hf; [done|]. intros [?|(b & Hb & Hrun)]; [done|]. apply Hnex.
      apply Exists_exists. exists b. split; [|done]. apply elem_of_seqZ. lia.
  - intros Hcase. unfold find_first_block. rewrite u32_id, s32_id by lia.
    assert (∃ fuel r, while_loop fuel (find_step (table h) n)
      (last_allocated_block h + 1, n, -1, last_allocated_block h) = Ok r) as (fuel & r & Hr).
    { destruct Hcase as [Hstop|(b & Hb & Hrun)].
      - eexists. eapply find_loop_stops; try done; try lia. apply Nat.lt_succ_diag_r.
      - eexists. eapply find_loop_finds; try done; try lia. apply Nat.lt_succ_diag_r. }
    exists fuel. rewrite Hr, bind_Ok. destruct r as [[rem found] last]. eauto.
Qed.

(** Two free blocks, the last one taken; and no three in a row, the last one free. *)
Lemma find_first_block_returns_iff_witness :
  (∃ fuel r, find_first_block fuel (small_heap witness_segs 0) 2 = Ok r) ∧
  ∀ fuel, find_first_block fuel (small_heap [Used 1; Free; Used 2; Free] 0) 3 = Diverge.
Proof.
  split.
  - apply (find_first_block_returns_iff _ witness_segs 2); [apply witness_heap_ok; lia|lia|..].
    + vm_compute. reflexivity.
    + left. vm_compute. intros (e & [= <-] & H). discriminate.
  - apply (find_first_block_returns_iff _ [Used 1; Free; Used 2; Free] 3).
    + apply small_heap_ok; [repeat constructor|..]; cbn; lia.
    + lia.
    + vm_compute. reflexivity.
    + intros [H|(b & Hb & H)].
      * apply H. exists 0. split; reflexivity.
      * assert (Hnone : Forall (λ b, ¬ cyclic_run (table (small_heap [Used 1; Free; Used 2; Free] 0)) b 3)
          (seqZ 0 5)) by decide_by_compute.
        rewrite Forall_forall in Hnone. apply (Hnone b); [|done].
        apply elem_of_seqZ. cbn in Hb. lia.
Defined.

(** ** Freeing *)

(** The loop of [heap_free] clears a run of continuation blocks and stops at the
    next free or first block. *)
Lemma free_loop fuel h pre rest post e :
  entries (table h) = pre ++ rest ++ e :: post →
  Forall (λ e, BLOCK_TEST_FIRST e = false ∧ BLOCK_TEST_FREE e = false ∧ BLOCK_TEST_TAKEN e = true) rest →
  BLOCK_TEST_FREE e = true ∨ BLOCK_TEST_FIRST e = true →
  (length rest < fuel)%nat → Z.of_nat (length rest) ≤ in_use (table h) < 2 ^ 32 →
  while_loop fuel free_step (Z.of_nat (length pre), h) =
  Ok (set_in_use (set_entries h (pre ++ replicate (length rest) HEAP_MEMORY_BLOCK_FREE ++ e :: post))
        (in_use (table h) - Z.of_nat (length rest))).
Proof.
  revert fuel h pre. induction rest as [|x rest IH]; intros [|fuel] h pre He Hrest Hstop Hf Hu; try (cbn in Hf; lia).
  - rewrite while_exit with (r := h).
    + f_equal. destruct h as [[es l u] b la]. cbn in *. rewrite He. cbn. by rewrite Z.sub_0_r.
    + unfold free_step. rewrite He. cbn [app]. rewrite arr_get_middle, bind_Ok by done.
      destruct Hstop as [-> | ->]; [done|]. by rewrite andb_false_r.
  - apply Forall_cons in Hrest as [(Hx1 & Hx2 & _) Hrest]. cbn [length] in *.
    rewrite while_continue with (s' := (Z.of_nat (length pre) + 1,
      set_in_use (set_entries h (pre ++ HEAP_MEMORY_BLOCK_FREE :: rest ++ e :: post)) (in_use (table h) - 1))).
    + replace (Z.of_nat (length pre) + 1) with (Z.of_nat (length (pre ++ [HEAP_MEMORY_BLOCK_FREE])))
        by (rewrite length_app; cbn; lia).
      rewrite IH; [|cbn; by rewrite <- app_assoc|done..|lia|cbn; lia].
      cbn. rewrite <- app_assoc. unfold set_in_use, set_entries. cbn. do 3 f_equal. lia.
    + unfold free_step. rewrite He. cbn [app]. rewrite arr_get_middle, bind_Ok, Hx1, Hx2 by done. cbn.
      rewrite arr_set_middle, bind_Ok by done. by rewrite u32_id by lia.
Qed.

(** At the end of the table the loop reads past it. *)
Lemma free_loop_end fuel h pre rest :
  entries (table h) = pre ++ rest →
  Forall (λ e, BLOCK_TEST_FIRST e = false ∧ BLOCK_TEST_FREE e = false ∧ BLOCK_TEST_TAKEN e = true) rest →
  (length rest < fuel)%nat → while_loop fuel free_step (Z.of_nat (length pre), h) = Ub.
Proof.
  revert fuel h pre. induction rest as [|x rest IH]; intros [|fuel] h pre He Hrest Hf; try (cbn in Hf; lia).
  - rewrite while_unfold. unfold free_step. rewrite He, app_nil_r.
    by rewrite arr_get_out by lia.
  - apply Forall_cons in Hrest as [(Hx1 & Hx2 & _) Hrest]. cbn [length] in *.
    erewrite while_continue.
    2: { unfold free_step. rewrite He, arr_get_middle, bind_Ok, Hx1, Hx2 by done. cbn [negb andb].
         rewrite arr_set_middle, bind_Ok by done. reflexivity. }
    replace (Z.of_nat (length pre) + 1) with (Z.of_nat (length (pre ++ [HEAP_MEMORY_BLOCK_FREE])))
      by (rewrite length_app; cbn; lia).
    apply IH; [|done|lia]. cbn. by rewrite <- app_assoc.
Qed.

(** The head of a layout is free or first, so it stops the loop. *)
Lemma layout_head s segs : seg_ok s → ∃ e post, layout (s :: segs) = e :: post ∧
  (BLOCK_TEST_FREE e = true ∨ BLOCK_TEST_FIRST e = true).
Proof.
  intros Hs. rewrite layout_cons. destruct s as [|n]; cbn [seg_bytes].
  - eexists _, _. split; [reflexivity|]. by left.
  - destruct (run_bytes_shape n Hs) as (e & rest & -> & Hf & _).
    eexists _, _. split; [reflexivity|]. by right.
Qed.

Lemma heap_ok_release h s1 n s2 :
  heap_ok h (s1 ++ Used n :: s2) →
  heap_ok (set_in_use (set_entries h (layout s1 ++ replicate n HEAP_MEMORY_BLOCK_FREE ++ layout s2))
             (in_use (table h) - Z.of_nat n)) (s1 ++ replicate n Free ++ s2).
Proof.
  intros []. rewrite Forall_app, Forall_cons in ok_segs0. destruct ok_segs0 as (H1 & _ & H2).
  assert (Hlay : length (layout (s1 ++ Used n :: s2)) = length (layout (s1 ++ replicate n Free ++ s2))).
  { rewrite !layout_app, layout_cons, layout_free, !length_app, length_replicate. cbn [seg_bytes].
    by rewrite run_bytes_length. }
  assert (Hused : used_blocks (s1 ++ Used n :: s2) =
    (used_blocks (s1 ++ replicate n Free ++ s2) + n)%nat).
  { rewrite !used_app, used_free. change (Used n :: s2) with ([Used n] ++ s2). rewrite used_app.
    cbn. lia. }
  constructor; cbn; try done.
  - rewrite !Forall_app. split; [done|]. split; [|done]. by apply Forall_replicate.
  - by rewrite !layout_app, layout_free.
  - by rewrite <- Hlay.
  - lia.
Qed.

Section free.
Context (h : heap) (s1 s2 : list seg) (n : nat) (m : mem) (fuel : nat).
Hypothesis Hok : heap_ok h (s1 ++ Used n :: s2).
Let ptr := base_addr h + KERNEL_HEAP_BLOCK_SIZE * Z.of_nat (length (layout s1)).
Hypothesis Hmapped : mapped m ptr KERNEL_HEAP_BLOCK_SIZE.

Lemma live_block : heap_addr_to_block h ptr = Z.of_nat (length (layout s1)).
Proof.
  pose proof (ok_end _ _ Hok). pose proof (ok_base _ _ Hok). pose proof (ok_len _ _ Hok) as Hl.
  rewrite layout_app, length_app in Hl. unfold heap_addr_to_block, ptr, KERNEL_HEAP_BLOCK_SIZE in *.
  replace (base_addr h + 4096 * _ - base_addr h) with (Z.of_nat (length (layout s1)) * 4096) by lia.
  rewrite u32_id by lia. apply Z.div_mul. lia.
Qed.

(** The common prefix of [heap_free] on a live allocation. *)
Lemma heap_free_start :
  ∃ e rest, run_bytes n = e :: rest ∧
    Forall (λ e, BLOCK_TEST_FIRST e = false ∧ BLOCK_TEST_FREE e = false ∧ BLOCK_TEST_TAKEN e = true) rest ∧
    (0 < n)%nat ∧ Z.of_nat n ≤ in_use (table h) < 2 ^ 32 ∧
    heap_free fuel m h ptr =
    (h ← while_loop fuel free_step (Z.of_nat (length (layout s1)) + 1,
       set_in_use (set_entries h (layout s1 ++ HEAP_MEMORY_BLOCK_FREE :: rest ++ layout s2))
         (in_use (table h) - 1));
     Ok (write_bytes m ptr (replicate 4096 255), h)).
Proof.
  pose proof (ok_segs _ _ Hok) as Hs. rewrite Forall_app, Forall_cons in Hs.
  destruct Hs as (_ & Hn & _). cbn in Hn.
  destruct (run_bytes_shape n Hn) as (e & rest & Erun & Hf & _ & Hrest).
  assert (Hu : Z.of_nat n ≤ in_use (table h) < 2 ^ 32).
  { pose proof (used_le_layout _ (ok_segs _ _ Hok)). pose proof (ok_in_use _ _ Hok) as Hi.
    pose proof (ok_len_small _ _ Hok). rewrite (ok_len _ _ Hok) in *.
    assert (n ≤ used_blocks (s1 ++ Used n :: s2))%nat; [|lia].
    rewrite used_app. change (Used n :: s2) with ([Used n] ++ s2). rewrite used_app. cbn. lia. }
  exists e, rest. do 4 (split; [done|]).
  unfold heap_free. rewrite live_block, memset_ok, memset_bytes_good, bind_Ok
    by (unfold KERNEL_HEAP_BLOCK_SIZE in *; auto; lia).
  pose proof (ok_entries _ _ Hok) as He. rewrite layout_app, layout_cons in He. cbn [seg_bytes] in He.
  rewrite Erun in He. cbn [app] in He.
  rewrite He, arr_get_middle, bind_Ok, Hf by done. cbn [negb].
  rewrite arr_set_middle, bind_Ok by done. rewrite u32_id by lia. done.
Qed.
End free.

Lemma heap_free_spec fuel m h s1 n s2 :
  heap_ok h (s1 ++ Used n :: s2) → s2 ≠ [] → (n < fuel)%nat →
  mapped m (base_addr h + KERNEL_HEAP_BLOCK_SIZE * Z.of_nat (length (layout s1))) KERNEL_HEAP_BLOCK_SIZE →
  ∃ h', heap_free fuel m h (base_addr h + KERNEL_HEAP_BLOCK_SIZE * Z.of_nat (length (layout s1))) =
    Ok (write_bytes m (base_addr h + KERNEL_HEAP_BLOCK_SIZE * Z.of_nat (length (layout s1)))
          (replicate 4096 255), h') ∧
    heap_ok h' (s1 ++ replicate n Free ++ s2) ∧
    base_addr h' = base_addr h ∧ last_allocated_block h' = last_allocated_block h.
Proof.
  intros Hok Hs2 Hfuel Hm.
  destruct (heap_free_start h s1 s2 n m fuel Hok Hm) as (e & rest & Erun & Hrest & Hn & Hu & ->).
  assert (Hlen : n = S (length rest)) by (rewrite <- (run_bytes_length n), Erun; done).
  destruct s2 as [|s s2]; [done|].
  pose proof (ok_segs _ _ Hok) as Hs. rewrite Forall_app, !Forall_cons in Hs.
  destruct (layout_head s s2) as (e' & post & El & Hstop); [tauto|].
  replace (Z.of_nat (length (layout s1)) + 1)
    with (Z.of_nat (length (layout s1 ++ [HEAP_MEMORY_BLOCK_FREE]))) by (rewrite length_app; cbn; lia).
  erewrite free_loop with (rest := rest); [|cbn [entries table set_entries set_in_use]; rewrite El, <- app_assoc; reflexivity|done|done|lia|cbn; lia].
  rewrite bind_Ok. eexists. split; [reflexivity|]. split; [|done].
  pose proof (heap_ok_release _ _ _ _ Hok) as Hrel. rewrite El in Hrel.
  cbn -[replicate]. rewrite <- app_assoc. cbn [app].
  rewrite Hlen in Hrel at 1 2. cbn [replicate app] in Hrel.
  replace (in_use (table h) - 1 - Z.of_nat (length rest)) with (in_use (table h) - Z.of_nat (S (length rest))) by lia.
  exact Hrel.
Qed.

(** C24: [heap_free] on the address of a live allocation, unless that allocation
    is the last thing in the table, frees exactly its blocks, subtracts them from
    [in_use] and poisons its first 4096 bytes with 0xFF. *)
Theorem heap_free_refines fuel m h s1 n s2 :
  heap_ok h (s1 ++ Used n :: s2) → s2 ≠ [] → (n < fuel)%nat →
  mapped m (base_addr h + KERNEL_HEAP_BLOCK_SIZE * Z.of_nat (length (layout s1))) KERNEL_HEAP_BLOCK_SIZE →
  ∃ h', heap_free fuel m h (base_addr h + KERNEL_HEAP_BLOCK_SIZE * Z.of_nat (length (layout s1))) =
    Ok (write_bytes m (base_addr h + KERNEL_HEAP_BLOCK_SIZE * Z.of_nat (length (layout s1)))
          (replicate 4096 255), h') ∧
    heap_ok h' (s1 ++ replicate n Free ++ s2) ∧
    base_addr h' = base_addr h ∧ last_allocated_block h' = last_allocated_block h.
Proof. apply heap_free_spec. Qed.

Lemma heap_free_last fuel m h s1 n :
  heap_ok h (s1 ++ [Used n]) → (n < fuel)%nat →
  mapped m (base_addr h + KERNEL_HEAP_BLOCK_SIZE * Z.of_nat (length (layout s1))) KERNEL_HEAP_BLOCK_SIZE →
  heap_free fuel m h (base_addr h + KERNEL_HEAP_BLOCK_SIZE * Z.of_nat (length (layout s1))) = Ub.
Proof.
  intros Hok Hfuel Hm.
  destruct (heap_free_start h s1 [] n m fuel Hok Hm) as (e & rest & Erun & Hrest & Hn & Hu & ->).
  assert (Hlen : n = S (length rest)) by (rewrite <- (run_bytes_length n), Erun; done).
  replace (Z.of_nat (length (layout s1)) + 1)
    with (Z.of_nat (length (layout s1 ++ [HEAP_MEMORY_BLOCK_FREE]))) by (rewrite length_app; cbn; lia).
  rewrite free_loop_end with (rest := rest); [done| |done|lia].
  cbn. by rewrite app_nil_r, <- app_assoc.
Qed.

(** freeing the allocation that ends at the last block reads [entries] past
    its end: the loop looks for the next free or first block, never at HAS_NEXT. *)
Theorem heap_free_last_undefined fuel m h s1 n :
  heap_ok h (s1 ++ [Used n]) → (n < fuel)%nat →
  mapped m (base_addr h + KERNEL_HEAP_BLOCK_SIZE * Z.of_nat (length (layout s1))) KERNEL_HEAP_BLOCK_SIZE →
  heap_free fuel m h (base_addr h + KERNEL_HEAP_BLOCK_SIZE * Z.of_nat (length (layout s1))) = Ub.
Proof. apply heap_free_last. Qed.

Lemma heap_free_refines_witness :
  ∃ h', heap_free 5 (write_bytes ∅ 0x13000 (replicate 4096 7)) (small_heap witness_segs 0)
      (0x10000 + KERNEL_HEAP_BLOCK_SIZE * Z.of_nat 3) =
    Ok (write_bytes (write_bytes ∅ 0x13000 (replicate 4096 7)) 0x13000 (replicate 4096 255), h') ∧
    heap_ok h' ([Used 1; Free; Free] ++ replicate 2 Free ++ [Free; Used 1]) ∧
    base_addr h' = 0x10000 ∧ last_allocated_block h' = 0.
Proof.
  apply (heap_free_refines 5 (write_bytes ∅ 0x13000 (replicate 4096 7)) (small_heap witness_segs 0)
    [Used 1; Free; Free] 2 [Free; Used 1]).
  - apply (witness_heap_ok 0). lia.
  - discriminate.
  - lia.
  - apply (mapped_fill ∅ 0x13000 4096 7).
Defined.

Lemma heap_free_last_undefined_witness :
  heap_free 5 (write_bytes ∅ 0x16000 (replicate 4096 7)) (small_heap witness_segs 0) 0x16000 = Ub.
Proof.
  apply (heap_free_last_undefined 5 (write_bytes ∅ 0x16000 (replicate 4096 7))
    (small_heap witness_segs 0) [Used 1; Free; Free; Used 2; Free] 1).
  - apply (witness_heap_ok 0). lia.
  - lia.
  - apply (mapped_fill ∅ 0x16000 4096 7).
Defined.

(** ** Bookkeeping *)

Lemma count_taken_layout segs : Forall seg_ok segs →
  length (filter (λ e, BLOCK_TEST_TAKEN e = true) (layout segs)) = used_blocks segs.
Proof.
  induction 1 as [|s segs Hs _ IH]; [done|].
  rewrite layout_cons, filter_app, length_app, IH. destruct s as [|n]; [done|].
  change (used_blocks (Used n :: segs)) with (n + used_blocks segs)%nat. f_equal.
  cbn [seg_bytes]. rewrite <- (run_bytes_length n) at 2. f_equal.
  pose proof (run_bytes_taken n) as Ht. induction Ht as [|e l He _ IHl]; [done|].
  by rewrite filter_cons_True, IHl.
Qed.

(** On a well-formed table [count_used_blocks] and the [in_use] counter agree
    on the blocks the live allocations hold. *)
Lemma count_used_blocks_in_use h segs :
  heap_ok h segs →
  count_used_blocks h = Ok (in_use (table h)) ∧ in_use (table h) = Z.of_nat (used_blocks segs).
Proof.
  intros Hok. split; [|apply (ok_in_use _ _ Hok)]. unfold count_used_blocks.
  pose proof (ok_entries_len _ _ Hok) as Hlen. pose proof (ok_len_small _ _ Hok) as Hsmall.
  set (es := entries (table h)) in *.
  destruct (for_loop_ok (λ i count,
      count = Z.of_nat (length (filter (λ e, BLOCK_TEST_TAKEN e = true) (take (Z.to_nat i) es))))
    (λ i count, e ← arr_get es i; Ok (if BLOCK_TEST_TAKEN e then u32 (count + 1) else count))
    (Z.to_nat (len (table h))) 0 0) as (c & -> & ->); [|done|].
  - intros i c Hi ->. destruct (arr_get_in es i) as (e & -> & He); [lia|].
    rewrite bind_Ok. eexists. split; [done|].
    replace (Z.to_nat (i + 1)) with (S (Z.to_nat i)) by lia.
    rewrite (take_S_r _ _ _ He), filter_app, length_app.
    pose proof (length_filter (λ e, BLOCK_TEST_TAKEN e = true) (take (Z.to_nat i) es)) as Hle.
    rewrite length_take in Hle. destruct (BLOCK_TEST_TAKEN e) eqn:Ht.
    + rewrite filter_cons_True by done. rewrite u32_id by lia. cbn. lia.
    + rewrite filter_cons_False by congruence. cbn. lia.
  - rewrite take_ge by lia. f_equal. subst es. rewrite (ok_entries _ _ Hok).
    rewrite count_taken_layout by apply (ok_segs _ _ Hok). symmetry. apply (ok_in_use _ _ Hok).
Qed.

