(* ===== verification/Kheap.v ===== *)
(** [src/memory/kheap.c]: the kernel heap, and the allocator interface the rest
    of the kernel is verified against.

    [kernel] is the state the functions of [kheap.c] share: the byte memory and
    [kernel_heap] (with [kheap_table] inside it, which the C code reaches through
    both names). [kheap_init] takes the address of [_kernel_end] and what the
    table's memory holds before it is cleared.

    [Allocator] and [AllocatorLaws] are the interface: what [kzalloc] and [kfree]
    do to memory and to the set of live allocations. The end of the file proves
    that the kernel heap implements it. *)
From S2P Require Import Prelude Mem CString Heap.

Definition KERNEL_HEAP_SIZE : Z := 0x1000000.

Record kernel := Kernel { kmem : mem; kernel_heap : heap }.

(** [(addr & 0xFFF) ? (addr & ~0xFFF) + 0x1000 : addr] *)
Definition page_round_up (addr : Z) : Z :=
  if decide (Z.land addr 0xFFF ≠ 0) then u32 (Z.land addr (Z.lnot 0xFFF) + 0x1000) else addr.

Definition kheap_init (kernel_end : Z) (table_memory : list Z) : outcome heap :=
  let table_ptr_begin := page_round_up kernel_end in
  let len := KERNEL_HEAP_SIZE / KERNEL_HEAP_BLOCK_SIZE in
  let kheap_table := HeapTable table_memory len 0 in
  let table_ptr_end := page_round_up (u32 (table_ptr_begin + len)) in
  let end_ := u32 (table_ptr_end + KERNEL_HEAP_SIZE) in
  rh ← heap_create (Heap kheap_table 0 0) table_ptr_end end_ kheap_table;
  let '(res, h) := rh in
  if decide (res ≠ 0) then Panic "Error creating kheap" else Ok h.

Definition kmalloc (fuel : nat) (k : kernel) (size : Z) : outcome (Z * kernel) :=
  ph ← heap_malloc fuel (kernel_heap k) size;
  let '(p, h) := ph in Ok (p, Kernel (kmem k) h).

Definition __kzalloc (fuel : nat) (k : kernel) (size : Z) : outcome (Z * kernel) :=
  ph ← heap_malloc fuel (kernel_heap k) size;
  let '(ptr, h) := ph in
  if decide (ptr = 0) then Ok (0, Kernel (kmem k) h)
  else m ← memset (kmem k) ptr 0 size; Ok (ptr, Kernel m h).

Definition __kfree (fuel : nat) (k : kernel) (ptr : Z) : outcome kernel :=
  mh ← heap_free fuel (kmem k) (kernel_heap k) ptr;
  let '(m, h) := mh in Ok (Kernel m h).

Definition kheap_count_used_blocks (k : kernel) : outcome Z := count_used_blocks (kernel_heap k).
Definition kheap_addr_to_block (k : kernel) (ptr : Z) : Z := heap_addr_to_block (kernel_heap k) ptr.

Definition kheap_free (k : kernel) : Z :=
  u32 (u32 (len (table (kernel_heap k)) - in_use (table (kernel_heap k))) * KERNEL_HEAP_BLOCK_SIZE).
Definition kheap_used (k : kernel) : Z :=
  u32 (in_use (table (kernel_heap k)) * KERNEL_HEAP_BLOCK_SIZE).

(** [malloc], kept for the debugger. *)
Definition malloc : nat → kernel → Z → outcome (Z * kernel) := kmalloc.

(** * The allocator interface *)

Class Allocator (K : Type) := {
  kzalloc : K → Z → outcome (Z * K);
  kfree : K → Z → outcome K;
  memory : K → mem;
  with_memory : K → mem → K
}.

(** [live k p n]: the [n] bytes at [p] belong to a live allocation of [k];
    [arena k x]: allocations may contain the address [x]. *)
Class AllocatorLaws (K : Type) `{Allocator K} := {
  alloc_inv : K → Prop;
  live : K → Z → Z → Prop;
  arena : K → Z → Prop;

  live_nonnull : ∀ k p n, alloc_inv k → live k p n → 0 < p ∧ p + n < 2 ^ 32;
  live_mapped : ∀ k p n, alloc_inv k → live k p n → mapped (memory k) p n;

  (** A NULL result changes nothing; any other result is a new, zeroed, writable,
      page-aligned allocation apart from all the live ones. *)
  kzalloc_law : ∀ k size p k', alloc_inv k → 0 < size < 2 ^ 32 → kzalloc k size = Ok (p, k') →
    alloc_inv k' ∧ (∀ q n, live k q n → live k' q n) ∧ (∀ x, arena k' x ↔ arena k x) ∧
    ((p = 0 ∧ memory k' = memory k) ∨
     (live k' p size ∧ memory k' = write_bytes (memory k) p (replicate (Z.to_nat size) 0) ∧
      p mod 4096 = 0 ∧ (∀ x, p ≤ x < p + size → arena k x) ∧
      (∀ q n, live k q n → 0 < n → q + n ≤ p ∨ p + size ≤ q)));

  (** Freeing an allocation spares the others and their bytes, and all memory
      outside the arena. *)
  kfree_law : ∀ k p n k', alloc_inv k → live k p n → 0 < n → kfree k p = Ok k' →
    alloc_inv k' ∧ (∀ x, arena k' x ↔ arena k x) ∧
    (∀ q c, live k q c → 0 < c → q ≠ p → live k' q c) ∧
    (∀ q c x, live k q c → q ≠ p → q ≤ x < q + c → memory k' !! x = memory k !! x) ∧
    (∀ x, ¬ arena k x → memory k' !! x = memory k !! x);

  (** Freeing returns when another allocation lies above. *)
  kfree_returns : ∀ k p n q m, alloc_inv k → live k p n → 0 < n → live k q m → 0 < m → p < q →
    ∃ k', kfree k p = Ok k';

  memory_with_memory : ∀ k m, memory (with_memory k m) = m;
  with_memory_twice : ∀ k m m', with_memory (with_memory k m) m' = with_memory k m';
  with_memory_same : ∀ k, with_memory k (memory k) = k;
  alloc_inv_with_memory : ∀ k m, alloc_inv k → (∀ x, is_Some (memory k !! x) → is_Some (m !! x)) →
    wf_mem m → alloc_inv (with_memory k m);
  live_with_memory : ∀ k m p n, live (with_memory k m) p n ↔ live k p n;
  arena_with_memory : ∀ k m x, arena (with_memory k m) x ↔ arena k x;
  kfree_with_memory_wf : ∀ k, alloc_inv k → wf_mem (memory k)
}.

(** * The kernel heap implements the interface *)

(** A table is the layout of one list of segments only. *)
Lemma run_middle_inj k k' l l' :
  replicate k 129 ++ 1 :: l = replicate k' 129 ++ 1 :: l' → k = k' ∧ l = l'.
Proof.
  revert k'. induction k as [|k IH]; intros [|k'] E; cbn in E; try discriminate.
  - injection E as ->. done.
  - injection E as E. destruct (IH _ E) as [-> ->]. done.
Qed.

Lemma run_bytes_inj n n' l l' :
  (0 < n)%nat → (0 < n')%nat → run_bytes n ++ l = run_bytes n' ++ l' → n = n' ∧ l = l'.
Proof.
  intros Hn Hn'. destruct n as [|[|k]], n' as [|[|k']]; try lia; cbn [run_bytes app]; intros E;
    try discriminate.
  - injection E as ->. done.
  - injection E as E. rewrite <- !app_assoc in E. apply run_middle_inj in E as [-> ->]. done.
Qed.

Lemma layout_inj segs segs' :
  Forall seg_ok segs → Forall seg_ok segs' → layout segs = layout segs' → segs = segs'.
Proof.
  intros H. revert segs'. induction H as [|s segs Hs Hok IH]; intros [|s' segs'] Hok' E; [done|..].
  - apply Forall_cons in Hok' as [Hs' _]. destruct s' as [|[|[|k]]]; try discriminate; cbn in Hs'; lia.
  - destruct s as [|[|[|k]]]; try discriminate; cbn in Hs; lia.
  - apply Forall_cons in Hok' as [Hs' Hok']. rewrite !layout_cons in E.
    destruct s as [|n], s' as [|n']; cbn [seg_bytes] in E; cbn in Hs, Hs'.
    + injection E as E. rewrite (IH _ Hok' E). done.
    + destruct (run_bytes_shape n' Hs') as (e & rest & Er & Hf & _). rewrite Er in E.
      injection E as E _. subst e. done.
    + destruct (run_bytes_shape n Hs) as (e & rest & Er & Hf & _). rewrite Er in E.
      injection E as E _. subst e. done.
    + apply run_bytes_inj in E as [-> E]; [|done..]. rewrite (IH _ Hok' E). done.
Qed.

(** [live_in segs b c]: an allocation of [c] blocks starts at block [b]. *)
Fixpoint live_in (segs : list seg) (b c : nat) : Prop :=
  match segs with
  | [] => False
  | s :: segs => (s = Used c ∧ b = 0%nat) ∨ ((seg_size s ≤ b)%nat ∧ live_in segs (b - seg_size s) c)
  end.

Lemma seg_bytes_length s : length (seg_bytes s) = seg_size s.
Proof. destruct s; [done|]. apply run_bytes_length. Qed.

Lemma live_in_app s1 s2 b c :
  live_in (s1 ++ s2) b c ↔
  live_in s1 b c ∨ ((length (layout s1) ≤ b)%nat ∧ live_in s2 (b - length (layout s1)) c).
Proof.
  revert b. induction s1 as [|s s1 IH]; intros b; cbn [app live_in].
  - change (length (layout [])) with 0%nat. rewrite Nat.sub_0_r. intuition lia.
  - rewrite IH, layout_cons, length_app, seg_bytes_length.
    replace (b - (seg_size s + length (layout s1)))%nat
      with (b - seg_size s - length (layout s1))%nat by lia. intuition lia.
Qed.

Lemma live_in_free n b c : ¬ live_in (replicate n Free) b c.
Proof.
  revert b. induction n as [|n IH]; intros b; cbn; [tauto|].
  intros [[? _]|[_ H]]; [discriminate|]. exact (IH _ H).
Qed.

Lemma live_in_bound segs b c : live_in segs b c → (b + c ≤ length (layout segs))%nat.
Proof.
  revert b. induction segs as [|s segs IH]; intros b; [done|].
  rewrite layout_cons, length_app, seg_bytes_length. cbn. intros [[-> ->]|[Hle H]]; cbn; [lia|].
  apply IH in H. lia.
Qed.

Lemma live_in_split segs b c : live_in segs b c →
  ∃ s1 s2, segs = s1 ++ Used c :: s2 ∧ length (layout s1) = b.
Proof.
  revert b. induction segs as [|s segs IH]; intros b; [done|]. cbn. intros [[-> ->]|[Hle H]].
  - by exists [], segs.
  - destruct (IH _ H) as (s1 & s2 & -> & Hl). exists (s :: s1), s2. split; [done|].
    rewrite layout_cons, length_app, seg_bytes_length. lia.
Qed.

(** Allocating blocks adds one allocation and keeps the others; the new one
    overlaps none of them. *)
Lemma live_in_take s1 n s2 b c :
  live_in (s1 ++ replicate n Free ++ s2) b c →
  live_in (s1 ++ Used n :: s2) b c ∧
  (b + c ≤ length (layout s1) ∨ length (layout s1) + n ≤ b)%nat.
Proof.
  rewrite !live_in_app, layout_free, length_replicate. cbn [live_in seg_size].
  intros [H|[Hle [H|[Hle' H]]]].
  - split; [by left|]. left. by apply live_in_bound.
  - by apply live_in_free in H.
  - split; [|lia]. right. split; [done|]. right. by split.
Qed.

(** Freeing an allocation keeps the others. *)
Lemma live_in_release s1 n s2 b c :
  (0 < n)%nat → live_in (s1 ++ Used n :: s2) b c → b ≠ length (layout s1) →
  live_in (s1 ++ replicate n Free ++ s2) b c ∧
  (b + c ≤ length (layout s1) ∨ length (layout s1) + n ≤ b)%nat.
Proof.
  intros Hn. rewrite !live_in_app, layout_free, length_replicate. cbn [live_in seg_size].
  intros [H|[Hle [[_ H]|[Hle' H]]]] Hb.
  - split; [by left|]. left. by apply live_in_bound.
  - lia.
  - split; [|lia]. right. split; [done|]. right. by split.
Qed.

(** The search of a 4096-block table ends within [4096 + n] rounds if it ends. *)
Definition kernel_fuel : nat := Z.to_nat 10000.

#[export] Instance kernel_allocator : Allocator kernel := {
  kzalloc := __kzalloc kernel_fuel;
  kfree := __kfree kernel_fuel;
  memory := kmem;
  with_memory k m := Kernel m (kernel_heap k)
}.

(** The heap's blocks are backed by memory. *)
Definition kernel_ok (k : kernel) (segs : list seg) : Prop :=
  heap_ok (kernel_heap k) segs ∧
  len (table (kernel_heap k)) ≤ KERNEL_HEAP_SIZE / KERNEL_HEAP_BLOCK_SIZE ∧ wf_mem (kmem k) ∧
  mapped (kmem k) (base_addr (kernel_heap k))
    (len (table (kernel_heap k)) * KERNEL_HEAP_BLOCK_SIZE).

Definition kernel_live (k : kernel) (p n : Z) : Prop :=
  ∃ segs b c, Forall seg_ok segs ∧ entries (table (kernel_heap k)) = layout segs ∧ live_in segs b c ∧
    p = base_addr (kernel_heap k) + KERNEL_HEAP_BLOCK_SIZE * Z.of_nat b ∧
    0 ≤ n ≤ KERNEL_HEAP_BLOCK_SIZE * Z.of_nat c.

Definition kernel_arena (k : kernel) (x : Z) : Prop :=
  base_addr (kernel_heap k) ≤ x <
  base_addr (kernel_heap k) + len (table (kernel_heap k)) * KERNEL_HEAP_BLOCK_SIZE.

Lemma kernel_live_in k segs p n : kernel_ok k segs → kernel_live k p n →
  ∃ b c, live_in segs b c ∧ p = base_addr (kernel_heap k) + KERNEL_HEAP_BLOCK_SIZE * Z.of_nat b ∧
    0 ≤ n ≤ KERNEL_HEAP_BLOCK_SIZE * Z.of_nat c.
Proof.
  intros (Hok & _) (segs' & b & c & Hs & He & Hl & Hp & Hn).
  rewrite (ok_entries _ _ Hok) in He. apply layout_inj in He as ->; [|apply (ok_segs _ _ Hok)|done].
  eauto.
Qed.

Lemma kernel_live_intro k segs b c n : kernel_ok k segs → live_in segs b c →
  0 ≤ n ≤ KERNEL_HEAP_BLOCK_SIZE * Z.of_nat c →
  kernel_live k (base_addr (kernel_heap k) + KERNEL_HEAP_BLOCK_SIZE * Z.of_nat b) n.
Proof.
  intros (Hok & _) Hl Hn. exists segs, b, c. split; [apply (ok_segs _ _ Hok)|].
  split; [apply (ok_entries _ _ Hok)|]. done.
Qed.

(** ** The laws *)

Lemma kernel_arena_eq k' segs' k segs :
  kernel_ok k' segs' → kernel_ok k segs → base_addr (kernel_heap k') = base_addr (kernel_heap k) →
  length (layout segs') = length (layout segs) → ∀ x, kernel_arena k' x ↔ kernel_arena k x.
Proof.
  intros (Hok' & _) (Hok & _) Hb Hl x. unfold kernel_arena.
  by rewrite (ok_len _ _ Hok'), (ok_len _ _ Hok), Hb, Hl.
Qed.

Lemma layout_start_bound h s1 s s2 : heap_ok h (s1 ++ s :: s2) → seg_ok s →
  base_addr h + KERNEL_HEAP_BLOCK_SIZE * Z.of_nat (length (layout s1) + seg_size s) ≤
  base_addr h + len (table h) * KERNEL_HEAP_BLOCK_SIZE.
Proof.
  intros Hok _. rewrite (ok_len _ _ Hok), layout_app, layout_cons, !length_app, seg_bytes_length.
  unfold KERNEL_HEAP_BLOCK_SIZE. lia.
Qed.

(** The region [heap_malloc] returns is backed by memory, so it can be cleared. *)
Lemma malloc_region k segs size p h :
  kernel_ok k segs → 0 < size < 2 ^ 32 → heap_malloc kernel_fuel (kernel_heap k) size = Ok (p, h) → p ≠ 0 →
  mapped (kmem k) p size ∧ memset (kmem k) p 0 size = Ok (write_bytes (kmem k) p (replicate (Z.to_nat size) 0)).
Proof.
  intros (Hok & Hmax & Hwf & Hmap) Hsize Hm Hp. pose proof (size_to_nblocks_range size Hsize) as [Hn Hfit].
  destruct (heap_malloc_spec _ _ _ _ _ _ Hok Hsize Hm) as (segs' & Hstep & Hok' & Hbase).
  assert (Hlen : len (table h) = len (table (kernel_heap k))).
  { rewrite (ok_len _ _ Hok), (ok_len _ _ Hok'). inversion Hstep; subst; [done|].
    by rewrite !layout_app, layout_cons, layout_free, !length_app, seg_bytes_length, length_replicate. }
  assert (Hpm : mapped (kmem k) p size).
  { inversion Hstep; subst; [done|]. set (n := Z.to_nat (size_to_nblocks size)) in *.
    assert (Hs : seg_ok (Used n)) by (cbn; lia). pose proof (layout_start_bound h s1 _ s2 Hok' Hs) as Hb.
    rewrite Hlen, Hbase in Hb. cbn [seg_size] in Hb. unfold KERNEL_HEAP_BLOCK_SIZE in *.
    eapply mapped_sub; [exact Hmap|lia|lia]. }
  split; [done|].
  rewrite memset_ok, memset_bytes_good; [done|lia|right; left; by vm_compute|lia|done].
Qed.

(** What [__kzalloc] does on a well-formed kernel, both outcomes. *)
Lemma kzalloc_cases k segs size p k' :
  kernel_ok k segs → 0 < size < 2 ^ 32 → __kzalloc kernel_fuel k size = Ok (p, k') →
  (p = 0 ∧ kmem k' = kmem k ∧ kernel_ok k' segs ∧
   base_addr (kernel_heap k') = base_addr (kernel_heap k)) ∨
  (∃ s1 s2 n, (0 < n)%nat ∧ segs = s1 ++ replicate n Free ++ s2 ∧
     kernel_ok k' (s1 ++ Used n :: s2) ∧ size ≤ KERNEL_HEAP_BLOCK_SIZE * Z.of_nat n ∧
     p = base_addr (kernel_heap k) + KERNEL_HEAP_BLOCK_SIZE * Z.of_nat (length (layout s1)) ∧
     base_addr (kernel_heap k') = base_addr (kernel_heap k) ∧
     kmem k' = write_bytes (kmem k) p (replicate (Z.to_nat size) 0) ∧
     n = Z.to_nat (size_to_nblocks size)).
Proof.
  intros (Hok & Hmax & Hwf & Hmap) Hsize Hk. unfold __kzalloc in Hk.
  apply bind_Ok_inv in Hk as ([q h] & Hm & Hk).
  pose proof (size_to_nblocks_range size Hsize) as [Hn Hfit].
  destruct (heap_malloc_spec _ _ _ _ _ _ Hok Hsize Hm) as (segs' & Hstep & Hok' & Hbase).
  assert (Hlen : len (table h) = len (table (kernel_heap k))).
  { rewrite (ok_len _ _ Hok), (ok_len _ _ Hok'). inversion Hstep; subst; [done|].
    by rewrite !layout_app, layout_cons, layout_free, !length_app, seg_bytes_length, length_replicate. }
  pose proof (ok_base _ _ Hok). inversion Hstep; subst.
  - left. rewrite decide_True in Hk by done. injection Hk as <- <-.
    unfold kernel_ok. cbn [kmem kernel_heap]. rewrite Hlen, Hbase. done.
  - right. set (n := Z.to_nat (size_to_nblocks size)) in *.
    rewrite decide_False in Hk by (unfold KERNEL_HEAP_BLOCK_SIZE; lia).
    set (p' := base_addr (kernel_heap k) + _) in *.
    destruct (malloc_region _ _ _ _ _ (conj Hok (conj Hmax (conj Hwf Hmap))) Hsize Hm) as [Hpm Hms];
      [subst p'; unfold KERNEL_HEAP_BLOCK_SIZE; lia|].
    rewrite Hms, bind_Ok in Hk.
    injection Hk as <- <-. exists s1, s2, n.
    split; [lia|]. split; [done|]. split; [|split; [lia|split; [done|split; [exact Hbase|done]]]].
    unfold kernel_ok. cbn [kmem kernel_heap]. rewrite Hlen, Hbase.
    split; [exact Hok'|]. split; [exact Hmax|]. split.
    + apply wf_write_bytes; [done|]. apply Forall_replicate. by unfold is_byte.
    + apply mapped_write; [|exact Hmap].
      eapply mapped_sub; [exact Hpm|lia|]. rewrite length_replicate. lia.
Qed.

(** The first block of an allocation, and what [heap_free] asks of it. *)
Lemma kfree_setup k s1 n s2 : kernel_ok k (s1 ++ Used n :: s2) →
  let p := base_addr (kernel_heap k) + KERNEL_HEAP_BLOCK_SIZE * Z.of_nat (length (layout s1)) in
  (n < kernel_fuel)%nat ∧ mapped (kmem k) p KERNEL_HEAP_BLOCK_SIZE ∧
  p + KERNEL_HEAP_BLOCK_SIZE ≤ base_addr (kernel_heap k) + len (table (kernel_heap k)) * KERNEL_HEAP_BLOCK_SIZE.
Proof.
  intros (Hok & Hmax & _ & Hmap) p.
  pose proof (ok_segs _ _ Hok) as Hs. rewrite Forall_app, Forall_cons in Hs. destruct Hs as (_ & Hn & _).
  pose proof (layout_start_bound _ _ _ _ Hok Hn) as Hb. cbn [seg_size] in Hb. cbn in Hn.
  change (KERNEL_HEAP_SIZE / KERNEL_HEAP_BLOCK_SIZE) with 4096 in Hmax.
  subst p. unfold kernel_fuel, KERNEL_HEAP_BLOCK_SIZE in *.
  split; [lia|]. split; [|lia]. eapply mapped_sub; [exact Hmap|lia|lia].
Qed.

Lemma kfree_ok k s1 n s2 : kernel_ok k (s1 ++ Used n :: s2) → s2 ≠ [] →
  ∃ k', __kfree kernel_fuel k
    (base_addr (kernel_heap k) + KERNEL_HEAP_BLOCK_SIZE * Z.of_nat (length (layout s1))) = Ok k'.
Proof.
  intros Hk Hne. destruct (kfree_setup _ _ _ _ Hk) as (Hfuel & Hm & _). destruct Hk as (Hok & _).
  destruct (heap_free_spec kernel_fuel (kmem k) (kernel_heap k) s1 n s2 Hok Hne Hfuel Hm) as (h' & E & _).
  unfold __kfree. rewrite E, bind_Ok. by eexists.
Qed.

Lemma kfree_cases k s1 n s2 k' :
  kernel_ok k (s1 ++ Used n :: s2) →
  __kfree kernel_fuel k
    (base_addr (kernel_heap k) + KERNEL_HEAP_BLOCK_SIZE * Z.of_nat (length (layout s1))) = Ok k' →
  kernel_ok k' (s1 ++ replicate n Free ++ s2) ∧ base_addr (kernel_heap k') = base_addr (kernel_heap k) ∧
  kmem k' = write_bytes (kmem k)
    (base_addr (kernel_heap k) + KERNEL_HEAP_BLOCK_SIZE * Z.of_nat (length (layout s1)))
    (replicate 4096 255) ∧
  last_allocated_block (kernel_heap k') = last_allocated_block (kernel_heap k).
Proof.
  intros Hkk Hk. destruct (kfree_setup _ _ _ _ Hkk) as (Hfuel & Hm & _).
  destruct Hkk as (Hok & Hmax & Hwf & Hmap). unfold __kfree in Hk.
  apply bind_Ok_inv in Hk as ([m h] & Hf & Hk). injection Hk as <-.
  set (p := base_addr (kernel_heap k) + KERNEL_HEAP_BLOCK_SIZE * Z.of_nat (length (layout s1))) in *.
  destruct (decide (s2 = [])) as [->|Hne].
  { pose proof (heap_free_last kernel_fuel (kmem k) (kernel_heap k) s1 n Hok Hfuel Hm) as E.
    fold p in E. rewrite E in Hf. discriminate. }
  destruct (heap_free_spec kernel_fuel (kmem k) (kernel_heap k) s1 n s2 Hok Hne Hfuel Hm)
    as (h' & E & Hok' & Hbase & Hlast).
  fold p in E. rewrite E in Hf. apply Ok_pair_inv in Hf as [Em <-]. rewrite <- Em.
  assert (Hlen : len (table h') = len (table (kernel_heap k))).
  { rewrite (ok_len _ _ Hok), (ok_len _ _ Hok').
    by rewrite !layout_app, layout_cons, layout_free, !length_app, seg_bytes_length, length_replicate. }
  unfold kernel_ok. cbn [kmem kernel_heap]. rewrite Hlen, Hbase.
  split; [|split; [done|split; [reflexivity|exact Hlast]]].
  split; [exact Hok'|]. split; [exact Hmax|]. split.
  - apply wf_write_bytes; [exact Hwf|]. apply Forall_replicate. by unfold is_byte.
  - apply mapped_write; [|exact Hmap]. rewrite length_replicate. exact Hm.
Qed.

#[export] Program Instance kernel_allocator_laws : AllocatorLaws kernel := {
  alloc_inv k := ∃ segs, kernel_ok k segs;
  live := kernel_live;
  arena := kernel_arena
}.
Next Obligation.
  intros k p n [segs Hk] Hl. destruct (kernel_live_in _ _ _ _ Hk Hl) as (b & c & Hin & -> & Hn).
  destruct Hk as (Hok & _). apply live_in_bound in Hin.
  pose proof (ok_base _ _ Hok). pose proof (ok_end _ _ Hok). rewrite (ok_len _ _ Hok) in *.
  unfold KERNEL_HEAP_BLOCK_SIZE in *. lia.
Qed.
Next Obligation.
  intros k p n [segs Hk] Hl. destruct (kernel_live_in _ _ _ _ Hk Hl) as (b & c & Hin & -> & Hn).
  destruct Hk as (Hok & _ & _ & Hmap). apply live_in_bound in Hin.
  rewrite (ok_len _ _ Hok) in Hmap. unfold KERNEL_HEAP_BLOCK_SIZE in *.
  eapply mapped_sub; [exact Hmap|lia|lia].
Qed.
Next Obligation.
  intros k size p k' [segs Hk] Hsize E.
  destruct (kzalloc_cases _ _ _ _ _ Hk Hsize E)
    as [(-> & Hm & Hk' & Hb)|(s1 & s2 & n & Hn & -> & Hk' & Hfit & -> & Hb & Hm & _)].
  - split; [by exists segs|]. split; [|split; [by apply (kernel_arena_eq _ _ _ _ Hk' Hk)|left; by split]].
    intros q c Hl. destruct (kernel_live_in _ _ _ _ Hk Hl) as (b & c' & Hin & -> & Hc).
    rewrite <- Hb. by apply (kernel_live_intro _ _ _ _ _ Hk' Hin).
  - split; [by exists (s1 ++ Used n :: s2)|].
    split; [|split; [|right; split; [|split; [exact Hm|split; [|split]]]]].
    + intros q c Hl. destruct (kernel_live_in _ _ _ _ Hk Hl) as (b & c' & Hin & -> & Hc).
      apply live_in_take in Hin as [Hin _]. rewrite <- Hb. by apply (kernel_live_intro _ _ _ _ _ Hk' Hin).
    + apply (kernel_arena_eq _ _ _ _ Hk' Hk Hb).
      rewrite !layout_app, layout_cons, layout_free, !length_app, seg_bytes_length, length_replicate. done.
    + rewrite <- Hb. apply (kernel_live_intro _ _ _ n _ Hk'); [|lia].
      apply live_in_app. right. split; [lia|]. left. split; [done|lia].
    + destruct Hk as (Hok & _). pose proof (ok_aligned _ _ Hok) as Ha.
      unfold KERNEL_HEAP_BLOCK_SIZE in *. rewrite Z.mul_comm, Z.mod_add by lia. exact Ha.
    + intros x Hx. destruct Hk as (Hok & _). unfold kernel_arena. rewrite (ok_len _ _ Hok).
      rewrite !layout_app, layout_free, !length_app, length_replicate.
      unfold KERNEL_HEAP_BLOCK_SIZE in *. lia.
    + intros q c Hl Hc. destruct (kernel_live_in _ _ _ _ Hk Hl) as (b & c' & Hin & -> & Hc').
      apply live_in_take in Hin as [_ Hd]. unfold KERNEL_HEAP_BLOCK_SIZE in *. lia.
Qed.
Next Obligation.
  intros k p n k' [segs Hk] Hl Hn E. destruct (kernel_live_in _ _ _ _ Hk Hl) as (b & c & Hin & -> & Hc).
  destruct (live_in_split _ _ _ Hin) as (s1 & s2 & -> & <-).
  destruct (kfree_cases _ _ _ _ _ Hk E) as (Hk' & Hb & Hm & _).
  destruct (kfree_setup _ _ _ _ Hk) as (_ & _ & Hend).
  assert (Hc0 : (0 < c)%nat) by (unfold KERNEL_HEAP_BLOCK_SIZE in *; lia).
  assert (Hother : ∀ q d, kernel_live k q d →
    q ≠ base_addr (kernel_heap k) + KERNEL_HEAP_BLOCK_SIZE * Z.of_nat (length (layout s1)) →
    kernel_live k' q d ∧ (q + d ≤ base_addr (kernel_heap k) + KERNEL_HEAP_BLOCK_SIZE * Z.of_nat (length (layout s1)) ∨
      base_addr (kernel_heap k) + KERNEL_HEAP_BLOCK_SIZE * Z.of_nat (length (layout s1)) + 4096 ≤ q)).
  { intros q d Hq Hne. destruct (kernel_live_in _ _ _ _ Hk Hq) as (b & c' & Hin' & -> & Hd).
    apply live_in_release in Hin' as [Hin' Hdisj]; [|done|intros ->; done]. split.
    - rewrite <- Hb. by apply (kernel_live_intro _ _ _ _ _ Hk' Hin').
    - unfold KERNEL_HEAP_BLOCK_SIZE in *. lia. }
  split; [by exists (s1 ++ replicate c Free ++ s2)|]. split; [|split; [|split]].
  - apply (kernel_arena_eq _ _ _ _ Hk' Hk Hb).
    rewrite !layout_app, layout_cons, layout_free, !length_app, seg_bytes_length, length_replicate. done.
  - intros q d Hq _ Hne. by apply Hother.
  - intros q d x Hq Hne Hx. destruct (Hother _ _ Hq Hne) as [_ Hd]. cbn [memory kernel_allocator].
    rewrite Hm. apply write_bytes_lookup_out. rewrite length_replicate. lia.
  - intros x Hx. cbn [memory kernel_allocator]. rewrite Hm. apply write_bytes_lookup_out.
    rewrite length_replicate. unfold kernel_arena, KERNEL_HEAP_BLOCK_SIZE in *. lia.
Qed.
Next Obligation.
  intros k p n q m [segs Hk] Hl Hn Hq Hm Hpq.
  destruct (kernel_live_in _ _ _ _ Hk Hl) as (b & c & Hin & -> & Hc).
  destruct (kernel_live_in _ _ _ _ Hk Hq) as (b' & c' & Hin' & -> & Hc').
  destruct (live_in_split _ _ _ Hin) as (s1 & s2 & -> & <-).
  unfold KERNEL_HEAP_BLOCK_SIZE in *. apply (kfree_ok _ _ _ _ Hk). intros ->.
  pose proof (live_in_bound _ _ _ Hin') as Hb.
  apply live_in_release in Hin' as [_ Hd]; [|lia|intros ->; lia].
  rewrite layout_app, layout_cons, !length_app, seg_bytes_length in Hb. cbn in Hb. lia.
Qed.
Next Obligation. done. Qed.
Next Obligation. done. Qed.
Next Obligation. by intros []. Qed.
Next Obligation.
  intros k m [segs (Hok & Hmax & _ & Hmap)] Hsub Hwf. exists segs. split; [done|]. split; [done|].
  split; [done|]. intros x Hx. apply Hsub, Hmap, Hx.
Qed.
Next Obligation. intros k m p n. done. Qed.
Next Obligation. intros k m x. done. Qed.
Next Obligation. intros k [segs (_ & _ & Hwf & _)]. done. Qed.

(** * Initialisation *)

Lemma page_round_up_spec a : 0 ≤ a ≤ 2 ^ 32 - 4096 →
  page_round_up a mod 4096 = 0 ∧ a ≤ page_round_up a < a + 4096.
Proof.
  intros Ha. unfold page_round_up. change 0xFFF with (2 ^ 12 - 1).
  rewrite land_mask, land_lnot_mask by done. change (2 ^ 12) with 4096.
  pose proof (Z.mod_pos_bound a 4096). case_decide as Hm.
  - rewrite u32_id by lia. split; [|lia]. Z.div_mod_to_equations. lia.
  - split; [|lia]. lia.
Qed.

(** The heap [kheap_init] makes: 4096 free blocks behind the page-aligned table. *)
Lemma kheap_init_spec kernel_end table_memory :
  0 < kernel_end → kernel_end + KERNEL_HEAP_SIZE + 0x3000 < 2 ^ 32 → length table_memory = 4096%nat →
  ∃ h, kheap_init kernel_end table_memory = Ok h ∧ heap_ok h (replicate 4096 Free) ∧
    last_allocated_block h = 0 ∧
    base_addr h = page_round_up kernel_end + 4096.
Proof.
  intros Hk Hend Hl. unfold KERNEL_HEAP_SIZE in Hend.
  destruct (page_round_up_spec kernel_end) as [Ha Hb]; [lia|].
  set (tb := page_round_up kernel_end) in *.
  assert (Ert : page_round_up (u32 (tb + 4096)) = tb + 4096).
  { rewrite u32_id by lia. unfold page_round_up. change 0xFFF with (2 ^ 12 - 1).
    rewrite land_mask by done. rewrite decide_False; [done|]. change (2 ^ 12) with 4096.
    Z.div_mod_to_equations. lia. }
  assert (Hal : (tb + 4096) mod 4096 = 0 ∧ (tb + 4096 + 0x1000000) mod 4096 = 0).
  { Z.div_mod_to_equations. lia. }
  destruct Hal as [Hal1 Hal2].
  unfold kheap_init. fold tb. change (KERNEL_HEAP_SIZE / KERNEL_HEAP_BLOCK_SIZE) with 4096.
  cbn zeta. rewrite Ert. unfold KERNEL_HEAP_SIZE. rewrite (u32_id (tb + 4096 + 0x1000000)) by lia.
  assert (Hc : heap_create (Heap (HeapTable table_memory 4096 0) 0 0) (tb + 4096)
      (tb + 4096 + 0x1000000) (HeapTable table_memory 4096 0) =
    Ok (0, Heap (HeapTable (replicate (Z.to_nat 4096) HEAP_MEMORY_BLOCK_FREE) 4096 0) (tb + 4096) 0)).
  { unfold heap_create, heap_validate_alignment, KERNEL_HEAP_BLOCK_SIZE.
    rewrite !bool_decide_eq_true_2 by done. cbn [negb orb].
    unfold heap_validate_table, KERNEL_HEAP_BLOCK_SIZE. cbn [len].
    replace (u32 (tb + 4096 + 0x1000000 - (tb + 4096))) with 0x1000000
      by (rewrite u32_id by lia; lia).
    rewrite decide_False by (intros H; by apply H). unfold clear_entries. cbn [len entries in_use].
    rewrite decide_True by lia. rewrite bind_Ok. rewrite drop_ge by (rewrite Hl; lia).
    by rewrite app_nil_r. }
  rewrite Hc, bind_Ok. rewrite decide_False by (intros H; by apply H).
  eexists. split; [reflexivity|]. cbn [last_allocated_block base_addr]. split; [|done].
  split; cbn [table base_addr last_allocated_block entries len in_use];
    rewrite ?layout_free, ?used_free, ?length_replicate; try lia; unfold KERNEL_HEAP_BLOCK_SIZE; try lia;
    try done.
  by apply Forall_replicate.
Qed.

(** the kernel heap starts right: whatever the address of [_kernel_end] (with
    room above it) and whatever the table's memory held, [kheap_init] does not
    panic and leaves a well-formed heap of 4096 free blocks on a page boundary,
    above both the kernel and the heap's own table. *)
Theorem kheap_init_ok kernel_end table_memory :
  0 < kernel_end → kernel_end + KERNEL_HEAP_SIZE + 0x3000 < 2 ^ 32 → length table_memory = 4096%nat →
  ∃ h, kheap_init kernel_end table_memory = Ok h ∧ heap_ok h (replicate 4096 Free) ∧
    kernel_end + 4096 ≤ base_addr h < kernel_end + 8192.
Proof.
  intros Hk Hend Hl. destruct (kheap_init_spec _ _ Hk Hend Hl) as (h & E & Hok & _ & Hb).
  exists h. split; [done|]. split; [done|]. unfold KERNEL_HEAP_SIZE in *.
  pose proof (page_round_up_spec kernel_end). lia.
Qed.

Lemma kheap_init_ok_witness :
  ∃ h, kheap_init 0x123456 (replicate 4096 7) = Ok h ∧ heap_ok h (replicate 4096 Free) ∧
    0x123456 + 4096 ≤ base_addr h < 0x123456 + 8192.
Proof.
  apply (kheap_init_ok 0x123456 (replicate 4096 7)).
  - lia.
  - unfold KERNEL_HEAP_SIZE. lia.
  - by rewrite length_replicate.
Defined.

(** C27: no first request that exceeds the heap gets NULL: on the heap
    [kheap_init] leaves, a request for more than its 4096 blocks finds the free
    ones round and round and marks blocks past the end of the table. *)
Theorem kzalloc_oversized_undefined kernel_end table_memory h m size :
  0 < kernel_end → kernel_end + KERNEL_HEAP_SIZE + 0x3000 < 2 ^ 32 → length table_memory = 4096%nat →
  kheap_init kernel_end table_memory = Ok h → KERNEL_HEAP_SIZE < size < 2 ^ 32 →
  ∃ fuel, __kzalloc fuel (Kernel m h) size = Ub.
Proof.
  intros Hk Hend Hl Hh Hsize. destruct (kheap_init_spec _ _ Hk Hend Hl) as (h' & E & Hok & Hlast & _).
  rewrite Hh in E. injection E as <-. unfold KERNEL_HEAP_SIZE in *.
  destruct (size_to_nblocks_range size) as [Hn Hfit]; [lia|].
  assert (Hn4 : 4096 < size_to_nblocks size) by (unfold KERNEL_HEAP_BLOCK_SIZE in *; lia).
  set (n := size_to_nblocks size) in *. exists (S (Z.to_nat n)).
  pose proof (ok_entries_len _ _ Hok) as Hel. pose proof (ok_len _ _ Hok) as Hlen.
  rewrite layout_free, length_replicate in Hlen.
  destruct (find_loop_all_free (table h) n Hel ltac:(lia) ltac:(lia) 1 0 (S (Z.to_nat n)))
    as [last Hf]; [lia..| |lia|].
  { intros p Hp. exists 0. split; [|done]. rewrite (ok_entries _ _ Hok), layout_free.
    apply lookup_replicate_2. lia. }
  unfold __kzalloc, heap_malloc. cbn [kernel_heap]. fold n. rewrite decide_False by lia.
  unfold heap_malloc_blocks, find_first_block. rewrite Hlast.
  change (u32 (0 + 1)) with 1. rewrite s32_id by lia.
  rewrite Hf, !bind_Ok. change (if decide (0 ≠ 0) then - ENOMEM else 1) with 1.
  rewrite decide_False by lia.
  rewrite heap_reserve_out; [done|lia|lia|lia|]. cbn [set_last table]. lia.
Qed.

Lemma kzalloc_oversized_undefined_witness :
  ∃ fuel, __kzalloc fuel (Kernel ∅ (Heap (HeapTable (replicate (Z.to_nat 4096) 0) 4096 0) 0x125000 0))
    (KERNEL_HEAP_SIZE + 1) = Ub.
Proof.
  apply (kzalloc_oversized_undefined 0x123456 (replicate 4096 7)).
  - lia.
  - unfold KERNEL_HEAP_SIZE. lia.
  - by rewrite length_replicate.
  - vm_compute. reflexivity.
  - unfold KERNEL_HEAP_SIZE. lia.
Defined.

(** C10: [kzalloc] hands out separate memory: on a well-formed kernel heap a
    non-NULL result is an allocation of [size] zeroed bytes that overlaps no live
    allocation, and every allocation that was live still is. *)
Theorem kzalloc_fresh k segs size p k' q n :
  kernel_ok k segs → 0 < size < 2 ^ 32 → kzalloc k size = Ok (p, k') → p ≠ 0 →
  live k q n → 0 < n →
  live k' p size ∧ bytes_at (memory k') p (replicate (Z.to_nat size) 0) ∧
  live k' q n ∧ (q + n ≤ p ∨ p + size ≤ q).
Proof.
  intros Hk Hsize E Hp Hl Hn.
  destruct (kzalloc_law k size p k') as (_ & Hkeep & _ & [[? _]|(Hnew & Hm & _ & _ & Hd)]);
    [by exists segs|done|done|done|].
  split; [done|]. split; [|split; [by apply Hkeep|by apply Hd]].
  rewrite Hm. apply bytes_at_write.
Qed.

Definition witness_kernel_segs : list seg := [Used 1; Free; Free].
Definition witness_kernel : kernel :=
  Kernel (write_bytes ∅ 0x10000 (replicate (Z.to_nat 12288) 7)) (small_heap witness_kernel_segs 0).
Definition witness_kernel' : kernel :=
  result_or (kzalloc witness_kernel 5000) witness_kernel.

Lemma witness_kernel_ok : kernel_ok witness_kernel witness_kernel_segs.
Proof.
  split; [by apply small_heap_ok; repeat constructor|]. split; [by vm_compute|]. split.
  - apply wf_write_bytes; [apply map_Forall_empty|]. by apply Forall_replicate.
  - apply mapped_fill.
Qed.

Lemma kzalloc_fresh_witness :
  live witness_kernel' 0x11000 5000 ∧
  bytes_at (memory witness_kernel') 0x11000 (replicate (Z.to_nat 5000) 0) ∧
  live witness_kernel' 0x10000 100 ∧ (0x10000 + 100 ≤ 0x11000 ∨ 0x11000 + 5000 ≤ 0x10000).
Proof.
  apply (kzalloc_fresh witness_kernel witness_kernel_segs 5000 0x11000 witness_kernel' 0x10000 100).
  - exact witness_kernel_ok.
  - lia.
  - apply run_result. vm_compute. reflexivity.
  - lia.
  - apply (kernel_live_intro _ _ 0 1 100 witness_kernel_ok); [by left|].
    unfold KERNEL_HEAP_BLOCK_SIZE. lia.
  - lia.
Defined.
