(* ===== verification/Store.v ===== *)
(** Objects in allocated memory: words and bytes read and written through the
    allocator's memory, and the ownership that keeps them apart from what
    [kzalloc] hands out. Every client of the [Allocator] interface that stores
    pointers in memory (page tables, paths) builds on these lemmas. *)
From S2P Require Import Prelude Mem CString Heap Kheap.

(** [a] and [b] are the starts of regions of [n] and [m] bytes. *)
Definition apart (a n b m : Z) : Prop := a + n ≤ b ∨ b + m ≤ a.
#[export] Instance apart_dec a n b m : Decision (apart a n b m).
Proof. unfold apart. apply _. Defined.

Section store.
Context {K : Type} `{Allocator K}.

Definition kread (k : K) (a : Z) : outcome Z := load32 (memory k) a.

Definition kwrite (k : K) (a v : Z) : outcome K :=
  m ← store32 (memory k) a v; Ok (with_memory k m).

(** A struct of 32-bit members stored at [a]. *)
Fixpoint kwrite_words (k : K) (a : Z) (ws : list Z) : outcome K :=
  match ws with
  | [] => Ok k
  | w :: ws => k ← kwrite k a w; kwrite_words k (a + 4) ws
  end.

(** [memcpy] and [memset] in the allocator's memory. *)
Definition kcopy (k : K) (dest source n : Z) : outcome K :=
  m ← memcpy (memory k) dest source n; Ok (with_memory k m).
Definition kset (k : K) (a c n : Z) : outcome K :=
  m ← memset (memory k) a c n; Ok (with_memory k m).

(** [memmove] of [string.c]: through a buffer. *)
Definition memmove (k : K) (dest source n : Z) : outcome (Z * K) :=
  pk ← kzalloc k n; let '(buf, k) := pk in
  if decide (buf = 0) then Ok (0, k)
  else k ← kcopy k buf source n; k ← kcopy k dest buf n; k ← kfree k buf; Ok (dest, k).
End store.

Section laws.
Context {K : Type} `{AllocatorLaws K}.
Implicit Type k : K.

(** [kowned k a n]: the [n] bytes at [a] are memory no allocation will be given:
    part of a live one, or outside the arena. *)
Definition kowned k (a n : Z) : Prop :=
  mapped (memory k) a n ∧
  ((∃ p c, live k p c ∧ p ≤ a ∧ a + n ≤ p + c ∧ 0 < c) ∨
   (∀ x, a ≤ x < a + n → ¬ arena k x)).

(** What writing and allocating keep. *)
Record kkeeps k k' : Prop := KKeeps {
  kkeeps_arena : ∀ x, arena k' x ↔ arena k x;
  kkeeps_inv : alloc_inv k';
  kkeeps_owned : ∀ a n, 0 < n → kowned k a n → kowned k' a n;
  kkeeps_mapped : ∀ x, is_Some (memory k !! x) → is_Some (memory k' !! x);
  kkeeps_live : ∀ p n, live k p n → live k' p n
}.

Lemma kkeeps_refl k : alloc_inv k → kkeeps k k.
Proof. by split. Qed.

Lemma kkeeps_trans k1 k2 k3 : kkeeps k1 k2 → kkeeps k2 k3 → kkeeps k1 k3.
Proof. intros [A1 A2 A3 A4 A5] [B1 B2 B3 B4 B5]. split; auto. intros x. by rewrite B1. Qed.

Lemma kept k k' a n : kkeeps k k' → kowned k a n → 0 < n → kowned k' a n.
Proof. intros [_ _ H' _ _] Ho Hn. by apply H'. Qed.

Lemma kowned_sub k a n b m : kowned k a n → a ≤ b → b + m ≤ a + n → kowned k b m.
Proof.
  intros [Hm Ho] Hl Hr. split; [by eapply mapped_sub|].
  destruct Ho as [(p & c & Hp & ?)|Ha]; [left; exists p, c; split; [done|lia]|right].
  intros x Hx. apply Ha. lia.
Qed.

Lemma kread_range k a v : alloc_inv k → kread k a = Ok v → 0 ≤ v < 2 ^ 32.
Proof. intros Hi Hr. eapply load32_range; [|exact Hr]. by apply kfree_with_memory_wf. Qed.

(** Bytes written to mapped memory. *)
Lemma kkeeps_write k a l : alloc_inv k → mapped (memory k) a (Z.of_nat (length l)) → Forall is_byte l →
  kkeeps k (with_memory k (write_bytes (memory k) a l)).
Proof.
  intros Hi Hm Hl. split.
  - intros x. apply arena_with_memory.
  - apply alloc_inv_with_memory; [done| |].
    + intros x Hx. by apply write_bytes_dom.
    + apply wf_write_bytes; [by apply kfree_with_memory_wf|done].
  - intros b n Hn [Hmb Hob]. split.
    + rewrite memory_with_memory. by apply mapped_write_mono.
    + setoid_rewrite live_with_memory. setoid_rewrite arena_with_memory. exact Hob.
  - intros x Hx. rewrite memory_with_memory. by apply write_bytes_dom.
  - intros p n Hp. by apply live_with_memory.
Qed.

Lemma kwrite_ok k a v : alloc_inv k → kowned k a 4 → 0 ≤ v < 2 ^ 32 →
  ∃ k', kwrite k a v = Ok k' ∧ kkeeps k k' ∧ k' = with_memory k (write_bytes (memory k) a (split4 v)) ∧
    kread k' a = Ok v ∧ ∀ b, apart b 4 a 4 → kread k' b = kread k b.
Proof.
  intros Hi [Hm Ho] Hv. unfold kwrite. rewrite store32_ok, bind_Ok by done.
  eexists. split; [reflexivity|]. unfold kread. rewrite memory_with_memory.
  split; [by apply kkeeps_write; [|exact Hm|apply split4_bytes]|].
  split; [done|]. split; [by apply load32_write_same|].
  intros b Hb. apply load32_write_other. unfold apart in Hb. cbn [split4 length]. lia.
Qed.

Lemma kalloc_ok k size p k' : alloc_inv k → 0 < size < 2 ^ 32 → kzalloc k size = Ok (p, k') → p ≠ 0 →
  kkeeps k k' ∧ kowned k' p size ∧ 0 < p ∧ p + size < 2 ^ 32 ∧ p mod 4096 = 0 ∧
  memory k' = write_bytes (memory k) p (replicate (Z.to_nat size) 0) ∧
  (∀ x, p ≤ x < p + size → arena k x) ∧
  (∀ a n, 0 < n → kowned k a n → apart a n p size) ∧
  (∀ a, p ≤ a → a + 4 ≤ p + size → kread k' a = Ok 0) ∧
  (∀ a, apart a 4 p size → kread k' a = kread k a).
Proof.
  intros Hi Hs E Hp.
  destruct (kzalloc_law _ _ _ _ Hi Hs E) as (Hi' & Hlive & Har & [[? _]|(Hl & Hm & Hal & Hina & Hsep)]);
    [done|].
  destruct (live_nonnull k' p size Hi' Hl). pose proof (live_mapped _ _ _ Hi' Hl) as Hmp.
  split; [split|].
  - exact Har.
  - done.
  - intros a n Hn [Hma Hoa]. split.
    + rewrite Hm. by apply mapped_write_mono.
    + destruct Hoa as [(q & c & Hq & ?)|Ha]; [left; exists q, c; split; [auto|lia]|right].
      intros x Hx. rewrite Har. by apply Ha.
  - intros x Hx. rewrite Hm. apply (mapped_write_mono _ _ _ x 1); [|lia]. intros y Hy. by replace y with x by lia.
  - exact Hlive.
  - split; [split; [done|left; exists p, size; split; [done|lia]]|].
    split; [lia|]. split; [lia|]. split; [done|]. split; [done|]. split; [exact Hina|]. split; [|split].
    + intros a n Hn [_ Hoa]. unfold apart. destruct Hoa as [(q & c & Hq & ?)|Ha].
      * destruct (Hsep q c Hq ltac:(lia)); lia.
      * destruct (decide (a + n ≤ p ∨ p + size ≤ a)) as [|Ho]; [done|exfalso].
        apply (Ha (Z.max a p)); [lia|]. apply Hina. lia.
    + intros a Ha1 Ha2. unfold kread. rewrite Hm. by apply load32_zeroed.
    + intros a Ha. unfold kread. rewrite Hm. apply load32_write_other.
      rewrite length_replicate. unfold apart in Ha. lia.
Qed.

(** ** Frames

    [modifies cs k k']: [k'] keeps what [k] owns, and the bytes of every owned
    region apart from the regions [cs]. [fresh k b m]: nothing [k] owns meets the
    [m] bytes at [b]. *)
Definition apart_all (cs : list (Z * Z)) (a n : Z) : Prop := Forall (λ c, apart a n c.1 c.2) cs.

Record modifies (cs : list (Z * Z)) k k' : Prop := Modifies {
  modifies_keeps : kkeeps k k';
  modifies_bytes : ∀ a n, 0 < n → kowned k a n → apart_all cs a n →
    ∀ x, a ≤ x < a + n → memory k' !! x = memory k !! x
}.

Definition fresh k (b m : Z) : Prop := ∀ a n, 0 < n → kowned k a n → apart a n b m.

Lemma modifies_inv cs k k' : modifies cs k k' → alloc_inv k'.
Proof. intros [[_ ? _ _ _] _]. done. Qed.

Lemma modifies_owned cs k k' a n : modifies cs k k' → kowned k a n → 0 < n → kowned k' a n.
Proof. intros [[_ _ Ho _ _] _] ? ?. by apply Ho. Qed.

Lemma modifies_refl cs k : alloc_inv k → modifies cs k k.
Proof. intros Hi. split; [by apply kkeeps_refl|done]. Qed.

(** Two steps: what is apart from [cs] must be apart from what the second one
    modifies. *)
Lemma modifies_step cs cs2 k1 k2 k3 : modifies cs k1 k2 → modifies cs2 k2 k3 →
  (∀ a n, 0 < n → kowned k1 a n → apart_all cs a n → apart_all cs2 a n) → modifies cs k1 k3.
Proof.
  intros M1 M2 Hcs. split; [eapply kkeeps_trans; [apply M1|apply M2]|]. intros a n Hn Ho Ha x Hx.
  rewrite (modifies_bytes _ _ _ M2 a n Hn (modifies_owned _ _ _ _ _ M1 Ho Hn) (Hcs _ _ Hn Ho Ha) x Hx).
  by apply (modifies_bytes _ _ _ M1 a n).
Qed.

Lemma modifies_sub cs cs' k k' : modifies cs' k k' →
  (∀ a n, 0 < n → kowned k a n → apart_all cs a n → apart_all cs' a n) → modifies cs k k'.
Proof.
  intros M Hcs. split; [apply M|]. intros a n Hn Ho Ha. apply (modifies_bytes _ _ _ M a n Hn Ho).
  by apply Hcs.
Qed.

Lemma fresh_sub k b m c l : fresh k b m → b ≤ c → c + l ≤ b + m → fresh k c l.
Proof. intros Hf Hb Hc a n Hn Ho. pose proof (Hf a n Hn Ho). unfold apart in *. lia. Qed.

Lemma fresh_before cs k k' b m : modifies cs k k' → fresh k' b m → fresh k b m.
Proof. intros M Hf a n Hn Ho. apply Hf; [done|]. by apply (modifies_owned _ _ _ _ _ M). Qed.

Lemma modifies_load cs k k' a n : modifies cs k k' → kowned k a n → apart_all cs a n → 4 ≤ n →
  ∀ b, a ≤ b → b + 4 ≤ a + n → kread k' b = kread k b.
Proof.
  intros M Ho Ha Hn b Hb Hbn. apply load32_ext. intros x Hx. apply (modifies_bytes _ _ _ M a n); [lia|done..|lia].
Qed.

Lemma modifies_read cs k k' a : modifies cs k k' → kowned k a 4 → apart_all cs a 4 →
  kread k' a = kread k a.
Proof. intros M Ho Ha. apply (modifies_load cs _ _ a 4); [done..|lia|lia|lia]. Qed.

Lemma modifies_text cs k k' a n l : modifies cs k k' → kowned k a n → apart_all cs a n → 0 < n →
  ∀ b, a ≤ b → b + Z.of_nat (length l) ≤ a + n → bytes_at (memory k) b l → bytes_at (memory k') b l.
Proof.
  intros M Ho Ha Hn b Hb Hl Ht i x Hi. pose proof (lookup_lt_Some _ _ _ Hi).
  rewrite (modifies_bytes _ _ _ M a n) by (done || lia). by apply Ht.
Qed.

Lemma modifies_cstr cs k k' a s : modifies cs k k' → kowned k a (Z.of_nat (length s) + 1) →
  apart_all cs a (Z.of_nat (length s) + 1) → cstr (memory k) a s → cstr (memory k') a s.
Proof.
  intros M Ho Ha [Ht Hs]. split; [|done]. eapply (modifies_text _ _ _ _ _ _ M Ho Ha); [lia|lia| |done].
  rewrite length_app. cbn [length]. lia.
Qed.

(** ** Steps, with the room for the allocations to come

    [room_then Q sizes k]: [kzalloc] succeeds on each of [sizes] in turn, whatever is
    stored in memory meanwhile, and then [Q] holds. *)
Fixpoint room_then (Q : K → Prop) (sizes : list Z) k : Prop :=
  match sizes with
  | [] => ∀ m, (∀ x, is_Some (memory k !! x) ↔ is_Some (m !! x)) → wf_mem m → Q (with_memory k m)
  | size :: sizes => ∀ m, (∀ x, is_Some (memory k !! x) ↔ is_Some (m !! x)) → wf_mem m →
      ∃ p k', kzalloc (with_memory k m) size = Ok (p, k') ∧ p ≠ 0 ∧ room_then Q sizes k'
  end.

Lemma room_write Q sizes k m : room_then Q sizes k → (∀ x, is_Some (memory k !! x) ↔ is_Some (m !! x)) →
  room_then Q sizes (with_memory k m).
Proof.
  destruct sizes as [|size sizes]; intros Hr Hm m' Hm' Hwf; rewrite with_memory_twice;
    (apply Hr; [|done]); intros x; rewrite memory_with_memory in Hm'; by rewrite Hm.
Qed.

Lemma room_end Q k : alloc_inv k → room_then Q [] k → Q k.
Proof. intros Hi Hr. rewrite <- (with_memory_same k). apply Hr; [done|by apply kfree_with_memory_wf]. Qed.

Lemma room_mono (Q Q' : K → Prop) sizes k : (∀ k, Q k → Q' k) → room_then Q sizes k → room_then Q' sizes k.
Proof.
  intros HQ. revert k. induction sizes as [|size sizes IH]; intros k Hr m Hm Hwf; [by apply HQ, Hr|].
  destruct (Hr m Hm Hwf) as (p & k' & E & Hp & Hr'). exists p, k'. auto.
Qed.

Lemma alloc_step {Q} size sizes k : alloc_inv k → 0 < size < 2 ^ 32 → room_then Q (size :: sizes) k →
  ∃ p k', kzalloc k size = Ok (p, k') ∧ 0 < p ∧ p + size < 2 ^ 32 ∧ p mod 4096 = 0 ∧
    modifies [] k k' ∧ room_then Q sizes k' ∧ kowned k' p size ∧ fresh k p size ∧
    bytes_at (memory k') p (replicate (Z.to_nat size) 0).
Proof.
  intros Hi Hs Hr. destruct (Hr (memory k)) as (p & k' & E & Hp & Hr'); [done|by apply kfree_with_memory_wf|].
  rewrite with_memory_same in E. exists p, k'.
  destruct (kalloc_ok k size p k' Hi Hs E Hp) as (K1 & O1 & Hp0 & Hp1 & Hal & M1 & _ & A1 & _).
  split; [done|]. split; [done|]. split; [done|]. split; [done|]. split; [split; [done|]|].
  - intros a n Hn Ho _ x Hx. pose proof (A1 a n Hn Ho) as Ha. unfold apart in Ha.
    rewrite M1. apply write_bytes_lookup_out. rewrite length_replicate. lia.
  - split; [done|]. split; [done|]. split; [exact A1|]. rewrite M1. apply bytes_at_write.
Qed.

Lemma bytes_step {Q} sizes k a l : alloc_inv k → mapped (memory k) a (Z.of_nat (length l)) →
  Forall is_byte l → room_then Q sizes k →
  let k' := with_memory k (write_bytes (memory k) a l) in
  modifies [(a, Z.of_nat (length l))] k k' ∧ room_then Q sizes k' ∧ bytes_at (memory k') a l.
Proof.
  intros Hi Hm Hl Hr k'. split; [split; [by apply kkeeps_write|]|split].
  - intros b n Hn Ho Ha x Hx. apply Forall_cons in Ha as [Ha _]. unfold apart in Ha. cbn in Ha.
    unfold k'. rewrite memory_with_memory. apply write_bytes_lookup_out. lia.
  - apply room_write; [done|]. intros x. symmetry. by apply write_bytes_dom.
  - unfold k'. rewrite memory_with_memory. apply bytes_at_write.
Qed.

Lemma write_step {Q} sizes k a v : alloc_inv k → kowned k a 4 → 0 ≤ v < 2 ^ 32 → room_then Q sizes k →
  ∃ k', kwrite k a v = Ok k' ∧ modifies [(a, 4)] k k' ∧ room_then Q sizes k' ∧ kread k' a = Ok v.
Proof.
  intros Hi Ho Hv Hr. destruct (kwrite_ok k a v Hi Ho Hv) as (k' & E & _ & -> & Hread & _).
  destruct (bytes_step sizes k a (split4 v) Hi (proj1 Ho) (split4_bytes v) Hr) as (Hm & Hr' & _). eauto.
Qed.

(** ** Allocations to come, with their addresses

    [same_heap k k']: the two differ in what memory holds only. [allots Q l k]: for
    each pair of [l] in turn, [kzalloc] of that size gives that address, whatever is
    stored in memory meanwhile, and then [Q] holds. *)
Definition same_heap k k' : Prop :=
  ∃ m, k' = with_memory k m ∧ (∀ x, is_Some (memory k !! x) ↔ is_Some (m !! x)) ∧ wf_mem m.

Lemma same_heap_refl k : alloc_inv k → same_heap k k.
Proof.
  intros Hi. exists (memory k). rewrite with_memory_same. split; [done|]. split; [done|].
  by apply kfree_with_memory_wf.
Qed.

Lemma same_heap_trans k1 k2 k3 : same_heap k1 k2 → same_heap k2 k3 → same_heap k1 k3.
Proof.
  intros (m & -> & Hd & Hw) (m' & -> & Hd' & Hw'). exists m'. rewrite with_memory_twice.
  split; [done|]. split; [|done]. intros x. rewrite Hd, <- Hd'. by rewrite memory_with_memory.
Qed.

Lemma same_heap_write k a l : alloc_inv k → mapped (memory k) a (Z.of_nat (length l)) → Forall is_byte l →
  same_heap k (with_memory k (write_bytes (memory k) a l)).
Proof.
  intros Hi Hm Hl. eexists. split; [done|]. split.
  - intros x. symmetry. by apply write_bytes_dom.
  - apply wf_write_bytes; [by apply kfree_with_memory_wf|done].
Qed.

Fixpoint allots (Q : K → Prop) (l : list (Z * Z)) k : Prop :=
  match l with
  | [] => ∀ k1, same_heap k k1 → Q k1
  | (size, p) :: l => ∀ k1, same_heap k k1 → ∃ k2, kzalloc k1 size = Ok (p, k2) ∧ p ≠ 0 ∧ allots Q l k2
  end.

Lemma allots_same Q l k k' : same_heap k k' → allots Q l k → allots Q l k'.
Proof.
  destruct l as [|[size p] l]; intros Hs Ha k1 Hk1; apply Ha; by eapply same_heap_trans.
Qed.

(** What the state of the heap promises survives stores. *)
Lemma allots_keep Q l k : allots Q l k → room_then (allots Q l) [] k.
Proof. intros Ha m Hm Hwf. eapply allots_same; [|exact Ha]. by exists m. Qed.

Lemma allots_room Q l : ∀ k, allots Q l k → room_then Q l.*1 k.
Proof.
  induction l as [|[size p] l IH]; intros k Ha m Hm Hwf; [apply Ha; by exists m|].
  destruct (Ha (with_memory k m)) as (k' & E & Hp & Ha'); [by exists m|]. exists p, k'. eauto.
Qed.

(** ** Releasing an allocation

    [stays k p a n]: the [n] bytes at [a] are owned, and not by the allocation at
    [p]. *)
Definition stays k (p a n : Z) : Prop :=
  mapped (memory k) a n ∧
  ((∃ q c, live k q c ∧ q ≠ p ∧ q ≤ a ∧ a + n ≤ q + c ∧ 0 < c) ∨
   (∀ x, a ≤ x < a + n → ¬ arena k x)).

Lemma stays_sub k p a n b m : stays k p a n → a ≤ b → b + m ≤ a + n → stays k p b m.
Proof.
  intros [Hm Ho] Hb Hbm. split; [by eapply mapped_sub|]. destruct Ho as [(q & c & Hq & Hne & ?)|Ho].
  - left. exists q, c. split; [done|]. split; [done|lia].
  - right. intros x Hx. apply Ho. lia.
Qed.

Lemma stays_live k p q n : alloc_inv k → live k q n → q ≠ p → 0 < n → stays k p q n.
Proof.
  intros Hi Hl Hne Hn. split; [by apply live_mapped|]. left. exists q, n. split; [done|]. split; [done|lia].
Qed.

Lemma free_step k p n q m : alloc_inv k → live k p n → 0 < n → live k q m → 0 < m → p < q →
  ∃ k', kfree k p = Ok k' ∧ alloc_inv k' ∧
    ∀ a l, 0 < l → stays k p a l → kowned k' a l ∧ ∀ x, a ≤ x < a + l → memory k' !! x = memory k !! x.
Proof.
  intros Hi Hp Hn Hq Hm Hpq. destruct (kfree_returns k p n q m) as [k' E]; [done..|]. exists k'.
  destruct (kfree_law k p n k' Hi Hp Hn E) as (Hi' & Har & Hl & Hb & Ho). split; [done|]. split; [done|].
  intros a l Hl0 [Hma Hs].
  assert (Hsame : ∀ x, a ≤ x < a + l → memory k' !! x = memory k !! x).
  { intros x Hx. destruct Hs as [(b & c & Hbc & Hne & Hx1 & Hx2 & Hc)|Hs].
    - apply (Hb b c); [done|done|lia].
    - apply Ho, Hs, Hx. }
  split; [|done]. split; [intros x Hx; rewrite Hsame by done; by apply Hma|].
  destruct Hs as [(b & c & Hbc & Hne & Hx1 & Hx2 & Hc)|Hs].
  - left. exists b, c. split; [by apply Hl|lia].
  - right. intros x Hx. rewrite Har. by apply Hs.
Qed.

Lemma kcopy_ok k dest source l : alloc_inv k → bytes_at (memory k) source l → mapped (memory k) dest (Z.of_nat (length l)) →
  apart source (Z.of_nat (length l)) dest (Z.of_nat (length l)) →
  kcopy k dest source (Z.of_nat (length l)) = Ok (with_memory k (write_bytes (memory k) dest l)).
Proof.
  intros Hi Hl Ho Ha. pose proof (kfree_with_memory_wf _ Hi) as Hwf. unfold kcopy.
  rewrite memcpy_ok; [by rewrite bind_Ok|done..|unfold apart, copy_safe in *; lia].
Qed.

Lemma copy_step {Q} sizes k dest source l : alloc_inv k → bytes_at (memory k) source l →
  kowned k dest (Z.of_nat (length l)) → apart source (Z.of_nat (length l)) dest (Z.of_nat (length l)) →
  room_then Q sizes k →
  ∃ k', kcopy k dest source (Z.of_nat (length l)) = Ok k' ∧
    modifies [(dest, Z.of_nat (length l))] k k' ∧ room_then Q sizes k' ∧ bytes_at (memory k') dest l.
Proof.
  intros Hi Hl [Ho _] Ha Hr. pose proof (kfree_with_memory_wf _ Hi) as Hwf. rewrite kcopy_ok by done.
  eexists. split; [done|].
  apply bytes_step; [done..| |done]. by eapply bytes_at_byte.
Qed.

(** [memmove] moves whatever the overlap, when there is room for the buffer and the
    buffer can be freed; the rest of what is allocated stays. *)
Lemma memmove_spec k dest source l p c : let n := Z.of_nat (length l) in
  alloc_inv k → 0 < n < 2 ^ 32 → bytes_at (memory k) source l → kowned k source n →
  live k p c → p ≤ dest → dest + n ≤ p + c → room_then (λ _, True) [n] k →
  (∀ buf k1 m, kzalloc k n = Ok (buf, k1) → alloc_inv (with_memory k1 m) → ∃ k2, kfree (with_memory k1 m) buf = Ok k2) →
  ∃ k', memmove k dest source n = Ok (dest, k') ∧ alloc_inv k' ∧ bytes_at (memory k') dest l ∧
    ∀ q m x, live k q m → q ≤ x < q + m →
      live k' q m ∧ (¬ dest ≤ x < dest + n → memory k' !! x = memory k !! x).
Proof.
  intros n Hi Hn Hl Ho Hp Hlo Hhi Hr Hfree. unfold memmove.
  destruct (Hr (memory k)) as (buf & k1 & E & Hb & _); [done|by apply kfree_with_memory_wf|]. rewrite with_memory_same in E.
  destruct (kalloc_ok k n buf k1 Hi Hn E Hb) as (_ & [Om _] & _ & _ & _ & Em & _ & A1 & _).
  destruct (kzalloc_law _ _ _ _ Hi Hn E) as (Hi1 & Hlive & _ & [[? _]|(Lb & _ & _ & _ & Hsep)]); [done|].
  pose proof (A1 source n ltac:(lia) Ho) as As. rewrite E, bind_Ok, decide_False by done.
  assert (Hl1 : bytes_at (memory k1) source l).
  { intros i b Hib. pose proof (lookup_lt_Some _ _ _ Hib). rewrite Em, write_bytes_lookup_out; [by apply Hl|].
    rewrite length_replicate. unfold apart in As. lia. }
  pose proof (bytes_at_byte _ _ _ (kfree_with_memory_wf _ Hi) Hl) as Hby.
  unfold n in *. rewrite (kcopy_ok k1 buf source l) by done. rewrite bind_Ok.
  set (k2 := with_memory k1 _). assert (K2 : kkeeps k1 k2) by (by apply kkeeps_write).
  assert (Hmd : mapped (memory k2) dest (Z.of_nat (length l))).
  { unfold k2. rewrite memory_with_memory. apply mapped_write_mono.
    apply (mapped_sub _ p c); [apply live_mapped; [done|by apply Hlive]|lia|lia]. }
  assert (Hap : p + c ≤ buf ∨ buf + Z.of_nat (length l) ≤ p) by (apply Hsep; [done|lia]).
  assert (Hl2 : bytes_at (memory k2) buf l) by (unfold k2; rewrite memory_with_memory; apply bytes_at_write).
  rewrite (kcopy_ok k2 dest buf l), bind_Ok by (done || apply K2 || (unfold apart; lia)).
  set (k3 := with_memory k2 _). assert (K3 : kkeeps k2 k3) by (apply kkeeps_write; [apply K2|done|done]).
  assert (Hlive3 : ∀ q m, live k1 q m → live k3 q m).
  { intros q m Hq. unfold k3, k2. by rewrite !live_with_memory. }
  assert (H4 : ∃ k4, kfree k3 buf = Ok k4).
  { pose proof (kkeeps_inv _ _ K3) as Hi3. unfold k3, k2 in *. rewrite with_memory_twice in *. by apply Hfree. }
  destruct H4 as [k4 E4]. rewrite E4, bind_Ok.
  destruct (kfree_law k3 buf _ k4 (kkeeps_inv _ _ K3) (Hlive3 _ _ Lb) ltac:(lia) E4) as (Hi4 & _ & Hl4 & Hm4 & _).
  exists k4. split; [done|]. split; [done|]. split.
  - intros i b Hib. pose proof (lookup_lt_Some _ _ _ Hib).
    rewrite (Hm4 p c) by (auto || lia). unfold k3. rewrite memory_with_memory. by apply write_bytes_lookup_in.
  - intros q m x Hq Hx. destruct (Hsep q m Hq ltac:(lia)) as [Hqb | Hqb].
    all: split; [apply Hl4; [by apply Hlive3, Hlive|lia|lia]|intros Hxd].
    all: rewrite (Hm4 q m) by (auto || lia); unfold k3, k2; rewrite !memory_with_memory, !write_bytes_lookup_out by lia.
    all: rewrite Em; apply write_bytes_lookup_out; rewrite length_replicate; lia.
Qed.

(** The words [ws] from [a] on. *)
Definition words_at k (a : Z) (ws : list Z) : Prop :=
  ∀ i w, ws !! i = Some w → kread k (a + 4 * Z.of_nat i) = Ok w.

Lemma words_at_cons k a w ws : words_at k a (w :: ws) ↔ kread k a = Ok w ∧ words_at k (a + 4) ws.
Proof.
  split.
  - intros Hw. split; [rewrite <- (Hw 0%nat w eq_refl); f_equal; lia|]. intros i v Hi.
    rewrite <- (Hw (S i) v Hi). f_equal. lia.
  - intros [Hw Hws] [|i] v Hi; [injection Hi as <-; rewrite <- Hw; f_equal; lia|].
    rewrite <- (Hws i v Hi). f_equal. lia.
Qed.

Lemma words_step {Q} sizes ws : ∀ k a, alloc_inv k → kowned k a (4 * Z.of_nat (length ws)) →
  Forall (λ w, 0 ≤ w < 2 ^ 32) ws → room_then Q sizes k →
  ∃ k', kwrite_words k a ws = Ok k' ∧ modifies [(a, 4 * Z.of_nat (length ws))] k k' ∧ room_then Q sizes k' ∧
    words_at k' a ws.
Proof.
  induction ws as [|w ws IH]; intros k a Hi Ho Hws Hr.
  { exists k. split; [done|]. split; [by apply modifies_refl|]. split; [done|]. by intros i v Hv. }
  apply Forall_cons in Hws as [Hw Hws]. cbn [length kwrite_words] in *.
  destruct (write_step (Q := Q) sizes k a w Hi) as (k1 & E1 & M1 & R1 & W1); [apply (kowned_sub _ _ _ _ _ Ho); lia|done|done|].
  assert (O1 : kowned k1 (a + 4) (4 * Z.of_nat (length ws)) ∨ ws = []).
  { destruct ws; [by right|left]. apply (modifies_owned _ _ _ _ _ M1); [|cbn [length]; lia].
    apply (kowned_sub _ _ _ _ _ Ho); lia. }
  destruct (IH k1 (a + 4) (modifies_inv _ _ _ M1)) as (k2 & E2 & M2 & R2 & W2); [|done|done|].
  { destruct O1 as [? | ->]; [done|]. apply (kowned_sub k1 a 4); [|lia|cbn; lia].
    apply (modifies_owned _ _ _ _ _ M1); [|lia]. apply (kowned_sub _ _ _ _ _ Ho); cbn; lia. }
  exists k2. rewrite E1, bind_Ok. split; [done|]. split; [|split; [done|]].
  - eapply (modifies_step _ _ k k1); [apply (modifies_sub _ _ _ _ M1)|exact M2|];
      intros b n Hn Hb Ha; unfold apart_all, apart in *; rewrite ?Forall_cons in *; cbn [fst snd] in *;
      (split; [lia|constructor]).
  - apply words_at_cons. split; [|done]. rewrite <- W1. apply (modifies_read _ _ _ _ M2).
    + apply (modifies_owned _ _ _ _ _ M1); [|lia]. apply (kowned_sub _ _ _ _ _ Ho); lia.
    + repeat constructor. unfold apart. cbn [fst snd]. lia.
Qed.

Lemma words_at_modifies cs k k' a ws : modifies cs k k' → kowned k a (4 * Z.of_nat (length ws)) →
  apart_all cs a (4 * Z.of_nat (length ws)) → words_at k a ws → words_at k' a ws.
Proof.
  intros M Ho Ha Hw i w Hi. pose proof (lookup_lt_Some _ _ _ Hi). rewrite <- (Hw i w Hi).
  apply (modifies_load _ _ _ _ _ M Ho Ha); lia.
Qed.

(** Zeroed bytes read as zero words. *)
Lemma zeroed_read k p size a : bytes_at (memory k) p (replicate (Z.to_nat size) 0) →
  p ≤ a → a + 4 ≤ p + size → kread k a = Ok 0.
Proof.
  intros Hz Ha Hs. apply (load32_split4 _ _ 0); [lia|]. change (split4 0) with (replicate 4 0).
  intros i x Hi. apply lookup_replicate in Hi as [-> Hlt].
  replace (a + Z.of_nat i) with (p + Z.of_nat (Z.to_nat (a + Z.of_nat i - p))) by lia.
  apply Hz, lookup_replicate_2. lia.
Qed.
End laws.

(** Room, and nothing more. *)
Abbreviation room := (room_then (λ _, True)).

(** Side conditions of the frame lemmas: [apart_tac] states what every freshness
    hypothesis says of the region at hand and leaves arithmetic. *)
Ltac apart_tac :=
  repeat match goal with
    | F : fresh ?k ?b ?m, O : kowned ?k ?a ?n, Hn : 0 < ?n |- apart_all _ ?a ?n =>
        let H := fresh "Hap" in pose proof (F a n Hn O) as H; clear F
    end;
  unfold apart_all, apart in *; rewrite ?Forall_cons, ?Forall_nil in *; cbn [fst snd] in *; try lia.

(** On the kernel heap, whether an allocation succeeds depends on the heap only. *)
Fixpoint heap_room (sizes : list Z) (h : heap) : bool :=
  match sizes with
  | [] => true
  | size :: sizes =>
      match heap_malloc kernel_fuel h size with
      | Ok (p, h') => bool_decide (p ≠ 0 ∧ 0 < size < 2 ^ 32) && heap_room sizes h'
      | _ => false
      end
  end.

(** The same, with the addresses. *)
Fixpoint heap_allots (l : list (Z * Z)) (h : heap) : bool :=
  match l with
  | [] => true
  | (size, p) :: l =>
      match heap_malloc kernel_fuel h size with
      | Ok (q, h') => bool_decide (q = p ∧ p ≠ 0 ∧ 0 < size < 2 ^ 32) && heap_allots l h'
      | _ => false
      end
  end.

Lemma kzalloc_heap k segs size p h' : kernel_ok k segs → 0 < size < 2 ^ 32 →
  heap_malloc kernel_fuel (kernel_heap k) size = Ok (p, h') → p ≠ 0 →
  ∃ k' segs', kzalloc k size = Ok (p, k') ∧ kernel_heap k' = h' ∧ kernel_ok k' segs'.
Proof.
  intros Hk Hs E Hp. destruct (malloc_region _ _ _ _ _ Hk Hs E Hp) as [_ Hms].
  assert (Ez : __kzalloc kernel_fuel k size = Ok (p, Kernel (write_bytes (kmem k) p (replicate (Z.to_nat size) 0)) h')).
  { unfold __kzalloc. rewrite E, bind_Ok, decide_False by done. by rewrite Hms. }
  destruct (kzalloc_cases _ _ _ _ _ Hk Hs Ez) as [(-> & _)|(s1 & s2 & n & _ & _ & Hok & _)]; [done|].
  eexists _, _. split; [exact Ez|]. by split.
Qed.

Lemma kernel_ok_memory k segs m : kernel_ok k segs → (∀ x, is_Some (memory k !! x) ↔ is_Some (m !! x)) →
  wf_mem m → kernel_ok (with_memory k m) segs.
Proof.
  intros (Ho & Hl & _ & Hma) Hm Hwf. split; [done|]. split; [done|]. split; [done|].
  intros x Hx. by apply Hm, Hma.
Qed.

Lemma heap_room_ok sizes k segs : kernel_ok k segs → heap_room sizes (kernel_heap k) = true → room sizes k.
Proof.
  revert k segs. induction sizes as [|size sizes IH]; intros k segs Hk Hr; [done|].
  intros m Hm Hwf. cbn [heap_room] in Hr.
  destruct (heap_malloc kernel_fuel (kernel_heap k) size) as [[p h']| | |] eqn:E; [|done..].
  apply andb_prop in Hr as [Hp Hr]. apply bool_decide_eq_true_1 in Hp as [Hp Hs].
  destruct (kzalloc_heap (with_memory k m) segs size p h') as (k' & segs' & Ez & <- & Hok); [|done..|].
  { by apply kernel_ok_memory. }
  exists p, k'. split; [exact Ez|]. split; [done|]. by apply (IH k' segs').
Qed.

Lemma heap_allots_ok l k segs : kernel_ok k segs → heap_allots l (kernel_heap k) = true → allots (λ _, True) l k.
Proof.
  revert k segs. induction l as [|[size p] l IH]; intros k segs Hk Hr; [done|].
  intros k1 (m & -> & Hm & Hwf). cbn [heap_allots] in Hr.
  destruct (heap_malloc kernel_fuel (kernel_heap k) size) as [[q h']| | |] eqn:E; [|done..].
  apply andb_prop in Hr as [Hp Hr]. apply bool_decide_eq_true_1 in Hp as (-> & Hp & Hs).
  destruct (kzalloc_heap (with_memory k m) segs size p h') as (k' & segs' & Ez & <- & Hok); [|done..|].
  { by apply kernel_ok_memory. }
  exists k'. split; [exact Ez|]. split; [done|]. by apply (IH k' segs').
Qed.

(** ** Behind the last allocation

    A heap that has not gone round its table: after the segments [segs], the last of
    them the last allocation, [f] blocks are free, and the next allocations are
    cut from them. *)
Definition kernel_front (k : kernel) (segs : list seg) (f : nat) : Prop :=
  kernel_ok k (segs ++ replicate f Free) ∧ heap_front (kernel_heap k) segs f.

(** The block behind [segs]. *)
Definition front_address (base : Z) (segs : list seg) : Z :=
  base + KERNEL_HEAP_BLOCK_SIZE * Z.of_nat (length (layout segs)).

Definition front_seg (size : Z) : seg := Used (Z.to_nat (size_to_nblocks size)).
Definition front_blocks (sizes : list Z) : nat := sum_list_with (λ size, Z.to_nat (size_to_nblocks size)) sizes.

Fixpoint front_allocations (base : Z) (segs : list seg) (sizes : list Z) : list (Z * Z) :=
  match sizes with
  | [] => []
  | size :: sizes => (size, front_address base segs) :: front_allocations base (segs ++ [front_seg size]) sizes
  end.

Lemma front_allocations_sizes base segs sizes : (front_allocations base segs sizes).*1 = sizes.
Proof. revert segs. induction sizes as [|size sizes IH]; intros segs; [done|]. cbn. by rewrite IH. Qed.

Lemma kernel_front_memory k segs f m : kernel_front k segs f → (∀ x, is_Some (memory k !! x) ↔ is_Some (m !! x)) →
  wf_mem m → kernel_front (with_memory k m) segs f.
Proof. intros [Hk Hf] Hm Hwf. split; [by apply kernel_ok_memory|exact Hf]. Qed.

Lemma kernel_front_bound k segs f : kernel_front k segs f → (f < kernel_fuel)%nat ∧ 0 < base_addr (kernel_heap k).
Proof.
  intros [(Ho & Hm & _) _]. pose proof (ok_len _ _ Ho) as Hl. rewrite layout_app, layout_free, length_app, length_replicate in Hl.
  change (KERNEL_HEAP_SIZE / KERNEL_HEAP_BLOCK_SIZE) with 4096 in Hm. split; [|apply (ok_base _ _ Ho)].
  unfold kernel_fuel. lia.
Qed.

Lemma kzalloc_front k segs f size : let n := Z.to_nat (size_to_nblocks size) in
  kernel_front k segs f → 0 < size < 2 ^ 32 → (n ≤ f)%nat →
  ∃ k', kzalloc k size = Ok (front_address (base_addr (kernel_heap k)) segs, k') ∧
    front_address (base_addr (kernel_heap k)) segs ≠ 0 ∧
    kernel_front k' (segs ++ [front_seg size]) (f - n) ∧ base_addr (kernel_heap k') = base_addr (kernel_heap k).
Proof.
  intros n Hf Hs Hn. destruct (kernel_front_bound _ _ _ Hf) as [Hfuel Hb]. destruct Hf as [Hk Hf].
  destruct (heap_malloc_front kernel_fuel _ segs f size Hf Hs Hn) as (h' & E & Hf' & Hb'); [lia|].
  assert (Hp : front_address (base_addr (kernel_heap k)) segs ≠ 0) by (unfold front_address, KERNEL_HEAP_BLOCK_SIZE; lia).
  destruct (kzalloc_heap k _ size _ h' Hk Hs E Hp) as (k' & segs' & Ez & <- & Hk'). exists k'.
  split; [exact Ez|]. split; [done|]. split; [|exact Hb']. split; [|exact Hf'].
  destruct Hk' as (_ & Hl & Hw & Hm). split; [apply Hf'|]. done.
Qed.

Lemma front_allots (Q : kernel → Prop) sizes : ∀ k segs f, kernel_front k segs f → Forall (λ size, 0 < size < 2 ^ 32) sizes →
  (front_blocks sizes ≤ f)%nat →
  (∀ k', kernel_front k' (segs ++ (front_seg <$> sizes)) (f - front_blocks sizes) →
    base_addr (kernel_heap k') = base_addr (kernel_heap k) → Q k') →
  allots Q (front_allocations (base_addr (kernel_heap k)) segs sizes) k.
Proof.
  induction sizes as [|size sizes IH]; intros k segs f Hf Hs Hn HQ; cbn [front_allocations allots];
    intros k1 (m & -> & Hm & Hwf); pose proof (kernel_front_memory _ _ _ _ Hf Hm Hwf) as Hf1.
  - apply HQ; [|done]. rewrite fmap_nil, app_nil_r, Nat.sub_0_r. exact Hf1.
  - apply Forall_cons in Hs as [Hs0 Hs]. cbn in Hn.
    destruct (kzalloc_front (with_memory k m) segs f size Hf1 Hs0) as (k2 & E & Hp & Hf2 & Hb); [lia|].
    exists k2. split; [exact E|]. split; [exact Hp|]. change (base_addr (kernel_heap (with_memory k m))) with (base_addr (kernel_heap k)) in Hb.
    rewrite <- Hb. apply (IH k2 _ _ Hf2 Hs); [unfold front_blocks; lia|]. intros k3 H3 Hb3.
    apply HQ; [|by rewrite Hb3, Hb]. rewrite fmap_cons, cons_middle, app_assoc.
    cbn. rewrite Nat.sub_add_distr. exact H3.
Qed.

Lemma front_room (Q : kernel → Prop) sizes k segs f : kernel_front k segs f → Forall (λ size, 0 < size < 2 ^ 32) sizes →
  (front_blocks sizes ≤ f)%nat →
  (∀ k', kernel_front k' (segs ++ (front_seg <$> sizes)) (f - front_blocks sizes) →
    base_addr (kernel_heap k') = base_addr (kernel_heap k) → Q k') →
  room_then Q sizes k.
Proof.
  intros Hf Hs Hn HQ. rewrite <- (front_allocations_sizes (base_addr (kernel_heap k)) segs sizes).
  by apply (allots_room Q), (front_allots Q _ _ segs f).
Qed.

(** Freeing leaves the blocks behind the last allocation as they are. *)
Lemma kfree_front k s1 n s2 f k' : kernel_front k (s1 ++ Used n :: s2) f →
  kfree k (front_address (base_addr (kernel_heap k)) s1) = Ok k' →
  kernel_front k' (s1 ++ replicate n Free ++ s2) f ∧ base_addr (kernel_heap k') = base_addr (kernel_heap k).
Proof.
  intros [Hk [_ Hl]] E. rewrite <- app_assoc in Hk. cbn [app] in Hk.
  destruct (kfree_cases k s1 n _ k' Hk E) as (Hk' & Hb & _ & Hlast). split; [|done].
  rewrite (app_assoc (replicate n Free)), (app_assoc s1) in Hk'. split; [exact Hk'|]. split; [apply Hk'|].
  rewrite Hlast, Hl, !layout_app, layout_cons, layout_free, !length_app, seg_bytes_length, length_replicate. done.
Qed.


(** *** Allocating and freeing since a state

    [front_since k0 k segs f]: as many blocks are free behind the last allocation, and all
    that was in use in [k0] still is, with its bytes. *)
Record front_since (k0 k : kernel) (segs : list seg) (f : nat) : Prop := FrontSince {
  since_inv : alloc_inv k0;
  since_front : kernel_front k segs f;
  since_base : base_addr (kernel_heap k) = base_addr (kernel_heap k0);
  since_modifies : modifies [] k0 k
}.

Lemma since_refl k segs f : kernel_front k segs f → front_since k k segs f.
Proof. intros Hf. assert (alloc_inv k) by (eexists; apply Hf). split; [done..|]. by apply modifies_refl. Qed.

Lemma since_alloc k0 k segs f size : front_since k0 k segs f → 0 < size < 2 ^ 32 → (Z.to_nat (size_to_nblocks size) ≤ f)%nat →
  let p := front_address (base_addr (kernel_heap k0)) segs in
  ∃ k', kzalloc k size = Ok (p, k') ∧ 0 < p < 2 ^ 32 ∧ fresh k0 p size ∧
    front_since k0 k' (segs ++ [front_seg size]) (f - Z.to_nat (size_to_nblocks size)).
Proof.
  intros [Hi Hf Hb M] Hs Hn p. destruct (kzalloc_front k segs f size Hf Hs Hn) as (k' & E & Hp & Hf' & Hb').
  rewrite Hb in E, Hp, Hb'. fold p in E, Hp. exists k'.
  destruct (kalloc_ok k size p k' (modifies_inv _ _ _ M) Hs E Hp) as (K1 & _ & Hp0 & Hp1 & _ & M1 & _ & A1 & _).
  split; [exact E|]. split; [lia|]. split; [by apply (fresh_before _ _ _ _ _ M)|]. split; [exact Hi|exact Hf'|exact Hb'|].
  apply (modifies_step _ [] _ k); [done| |done]. split; [done|]. intros a n Hn' Ho _ x Hx. pose proof (A1 a n Hn' Ho) as Ha.
  unfold apart in Ha. rewrite M1. apply write_bytes_lookup_out. rewrite length_replicate. lia.
Qed.

(** An object that fits a block. *)
Lemma size_to_nblocks_object size : 0 < size ≤ 4096 → size_to_nblocks size = 1.
Proof. intros Hs. unfold size_to_nblocks, KERNEL_HEAP_BLOCK_SIZE. case_decide; Z.div_mod_to_equations; lia. Qed.

Lemma since_object k0 k segs f size : front_since k0 k segs f → 0 < size ≤ 4096 → (0 < f)%nat →
  let p := front_address (base_addr (kernel_heap k0)) segs in
  ∃ k', kzalloc k size = Ok (p, k') ∧ 0 < p < 2 ^ 32 ∧ fresh k0 p size ∧ front_since k0 k' (segs ++ [Used 1]) (f - 1).
Proof.
  intros Hk Hs Hf. pose proof (since_alloc k0 k segs f size Hk ltac:(lia)) as Ha. unfold front_seg in Ha.
  rewrite size_to_nblocks_object in Ha by done. apply Ha. lia.
Qed.

(** A live allocation has a first byte. *)
Lemma kernel_live_first k p n : alloc_inv k → kernel_live k p n → 0 ≤ n ∧ kernel_live k p (Z.max 1 n).
Proof.
  intros [segs Hk] Hl. destruct (kernel_live_in _ _ _ _ Hk Hl) as (b & c & Hin & -> & Hn). split; [lia|].
  apply (kernel_live_intro _ _ _ c _ Hk Hin). destruct (live_in_split _ _ _ Hin) as (s1 & s2 & -> & _).
  destruct Hk as (Ho & _). pose proof (ok_segs _ _ Ho) as Hs. rewrite Forall_app, Forall_cons in Hs. destruct Hs as (_ & Hc & _).
  cbn in Hc. unfold KERNEL_HEAP_BLOCK_SIZE in *. lia.
Qed.

Lemma kernel_live_less k p n m : kernel_live k p n → 0 ≤ m ≤ n → kernel_live k p m.
Proof. intros (segs & b & c & Hs & He & Hl & Hp & Hn) Hm. exists segs, b, c. do 4 (split; [done|]). lia. Qed.

(** Freeing what is new since [k0]. *)
Lemma free_modifies k0 k k' p size : alloc_inv k0 → modifies [] k0 k → live k p 1 → fresh k0 p size → 0 < size →
  kfree k p = Ok k' → (∀ x, is_Some (memory k !! x) → is_Some (memory k' !! x)) → modifies [] k0 k'.
Proof.
  intros Hi0 M Hlp Hfr Hs E Hmap. destruct (kfree_law k p 1 k' (modifies_inv _ _ _ M) Hlp ltac:(lia) E) as (Hi' & Har & Hl & Hbytes & Hout).
  pose proof (modifies_keeps _ _ _ M) as [Ka _ Ko Km Kl].
  assert (Hlive : ∀ q c, live k0 q c → 0 < c → q ≠ p ∧ live k' q c).
  { intros q c Hq Hc. assert (Hne : q ≠ p).
    { intros ->. assert (Ho : kowned k0 p c) by (split; [by apply live_mapped|left; exists p, c; split; [done|lia]]).
      pose proof (Hfr p c Hc Ho) as Ha. unfold apart in Ha. lia. }
    split; [done|]. by apply Hl; [apply Kl|..]. }
  assert (Hsame : ∀ a n, 0 < n → kowned k0 a n → ∀ x, a ≤ x < a + n → memory k' !! x = memory k !! x).
  { intros a n Hn [_ [(q & c & Hq & Hx1 & Hx2 & Hc)|Ho]] x Hx.
    - apply (Hbytes q c); [by apply Kl|by apply (Hlive q c)|lia].
    - apply Hout. rewrite Ka. by apply Ho. }
  split; [split|].
  - intros x. by rewrite Har.
  - done.
  - intros a n Hn Ho. pose proof (Ko a n Hn Ho) as [Hma _]. split; [intros x Hx; by apply Hmap, Hma|].
    destruct Ho as [_ [(q & c & Hq & Hx1 & Hx2 & Hc)|Ho]].
    + left. exists q, c. split; [by apply (Hlive q c)|done].
    + right. intros x Hx. rewrite Har, Ka. by apply Ho.
  - intros x Hx. by apply Hmap, Km.
  - intros q c Hq. destruct (kernel_live_first _ _ _ Hi0 Hq) as [Hc Hq1].
    apply (kernel_live_less _ _ (Z.max 1 c)); [|lia]. apply Hlive; [done|lia].
  - intros a n Hn Ho _ x Hx. rewrite (Hsame a n Hn Ho x Hx). apply (modifies_bytes _ _ _ M a n); [done|done|constructor|done].
Qed.

Lemma since_free k0 k s1 n s2 f size : front_since k0 k (s1 ++ Used n :: s2) f → (0 < f)%nat → 0 < size →
  fresh k0 (front_address (base_addr (kernel_heap k0)) s1) size →
  ∃ k', kfree k (front_address (base_addr (kernel_heap k0)) s1) = Ok k' ∧ front_since k0 k' (s1 ++ replicate n Free ++ s2) f.
Proof.
  intros [Hi Hf Hb M] Hf0 Hs Hfr. rewrite <- Hb in *.
  pose proof Hf as [Hk _]. rewrite <- app_assoc in Hk. cbn [app] in Hk.
  destruct (kfree_ok k s1 n (s2 ++ replicate f Free) Hk) as [k' E]; [destruct f; [lia|by destruct s2]|].
  destruct (kfree_cases k s1 n _ k' Hk E) as (_ & _ & Hm & _).
  destruct (kfree_front k s1 n s2 f k' Hf E) as [Hf' Hb']. exists k'. split; [exact E|]. split; [exact Hi|exact Hf'|congruence|].
  apply (free_modifies k0 k k' (front_address (base_addr (kernel_heap k)) s1) size Hi M); [|exact Hfr|exact Hs|exact E|].
  - pose proof (ok_segs _ _ (proj1 Hk)) as Hsegs. rewrite Forall_app, Forall_cons in Hsegs. destruct Hsegs as (_ & Hn & _). cbn in Hn.
    apply (kernel_live_intro _ _ _ n _ Hk); [|unfold KERNEL_HEAP_BLOCK_SIZE; lia].
    apply live_in_app. right. split; [lia|]. rewrite Nat.sub_diag. by left.
  - intros x [b Hx]. change (memory k') with (kmem k'). rewrite Hm.
    apply (mapped_write_mono (kmem k) _ (replicate 4096 255) x 1); [|lia]. intros y Hy. assert (y = x) as -> by lia. by exists b.
Qed.

(** ** Kernels for the examples

    A heap laid out as [segs] at 0x10000, in [size] bytes of memory that are zero
    but for the byte strings [data]; what lies past the heap is no part of it. *)
Definition example_ram (size : Z) (data : list (Z * list Z)) : mem :=
  foldr (λ al m, write_bytes m al.1 al.2) (write_bytes ∅ 0x10000 (replicate (Z.to_nat size) 0)) data.

Definition example_kernel (segs : list seg) (size : Z) (data : list (Z * list Z)) : kernel :=
  Kernel (example_ram size data) (small_heap segs 0).

Lemma example_ram_mapped size data : mapped (example_ram size data) 0x10000 size.
Proof. unfold example_ram. induction data as [|al data IH]; [apply mapped_fill|by apply mapped_write_mono]. Qed.

Lemma example_ram_wf size data : Forall (λ al, Forall is_byte al.2) data → wf_mem (example_ram size data).
Proof.
  unfold example_ram. induction 1 as [|al data Hal _ IH]; [|by apply wf_write_bytes].
  apply wf_write_bytes; [apply map_Forall_empty|by apply Forall_replicate].
Qed.

Lemma example_kernel_ok segs size data : Forall seg_ok segs → 1 < Z.of_nat (length (layout segs)) < 1000 →
  Z.of_nat (length (layout segs)) * 4096 ≤ size → Forall (λ al, Forall is_byte al.2) data →
  kernel_ok (example_kernel segs size data) segs.
Proof.
  intros Hs Hl Hsize Hd. split; [apply small_heap_ok; [done|done|lia]|]. split.
  { change (KERNEL_HEAP_SIZE / KERNEL_HEAP_BLOCK_SIZE) with 4096.
    change (len (table (kernel_heap (example_kernel segs size data)))) with (Z.of_nat (length (layout segs))). lia. }
  split; [by apply example_ram_wf|]. eapply mapped_sub; [apply (example_ram_mapped size data)|done|].
  change (0x10000 + Z.of_nat (length (layout segs)) * 4096 ≤ 0x10000 + size). lia.
Qed.

Lemma example_outside segs size data a n : 0x10000 + Z.of_nat (length (layout segs)) * 4096 ≤ a →
  a + n ≤ 0x10000 + size → kowned (example_kernel segs size data) a n.
Proof.
  intros Ha Hn. split; [eapply mapped_sub; [apply (example_ram_mapped size data)|lia|lia]|].
  right. intros x Hx Har. change (0x10000 ≤ x < 0x10000 + Z.of_nat (length (layout segs)) * 4096) in Har. lia.
Qed.

(** What such a memory holds, without the memory. *)
Definition example_byte (size : Z) (data : list (Z * list Z)) (x : Z) : option Z :=
  foldr (λ al r, if decide (al.1 ≤ x < al.1 + Z.of_nat (length al.2)) then al.2 !! Z.to_nat (x - al.1) else r)
    (if decide (0x10000 ≤ x < 0x10000 + size) then Some 0 else None) data.

Lemma example_ram_lookup size data x : 0 ≤ size → example_ram size data !! x = example_byte size data x.
Proof.
  intros Hs. unfold example_ram, example_byte. induction data as [|al data IH]; cbn [foldr].
  - rewrite write_bytes_lookup, length_replicate, Z2Nat.id by done. case_decide; [|done].
    apply lookup_replicate. split; [done|lia].
  - rewrite write_bytes_lookup, IH. done.
Qed.

Lemma example_kread segs size data a v : 0 ≤ size →
  (b0 ← or_ub (example_byte size data a); b1 ← or_ub (example_byte size data (a + 1));
   b2 ← or_ub (example_byte size data (a + 2)); b3 ← or_ub (example_byte size data (a + 3));
   Ok (combine4 b0 b1 b2 b3)) = Ok v → kread (example_kernel segs size data) a = Ok v.
Proof.
  intros Hs E. unfold kread, load32, load8. change (memory (example_kernel segs size data)) with (example_ram size data).
  by rewrite !example_ram_lookup.
Qed.

Lemma example_bytes segs size data a l : 0 ≤ size →
  forallb (λ i, bool_decide (example_byte size data (a + i) = l !! Z.to_nat i)) (seqZ 0 (Z.of_nat (length l))) = true →
  bytes_at (memory (example_kernel segs size data)) a l.
Proof.
  intros Hs Hl i b Hi. change (memory (example_kernel segs size data)) with (example_ram size data).
  rewrite forallb_forall in Hl. specialize (Hl (Z.of_nat i)). pose proof (lookup_lt_Some _ _ _ Hi).
  rewrite <- list_elem_of_In, elem_of_seqZ, bool_decide_eq_true, Nat2Z.id in Hl. rewrite example_ram_lookup, Hl by (done || lia). done.
Qed.

(** An array of words. *)
Definition example_word (size : Z) (data : list (Z * list Z)) (a : Z) : outcome Z :=
  b0 ← or_ub (example_byte size data a); b1 ← or_ub (example_byte size data (a + 1));
  b2 ← or_ub (example_byte size data (a + 2)); b3 ← or_ub (example_byte size data (a + 3));
  Ok (combine4 b0 b1 b2 b3).

Lemma example_words segs size data a (f : Z → Z) n : 0 ≤ size →
  forallb (λ i, bool_decide (example_word size data (a + 4 * i) = Ok (f i))) (seqZ 0 n) = true →
  ∀ i, 0 ≤ i < n → kread (example_kernel segs size data) (a + 4 * i) = Ok (f i).
Proof.
  intros Hs Hf i Hi. rewrite forallb_forall in Hf. specialize (Hf i).
  rewrite <- list_elem_of_In, elem_of_seqZ, bool_decide_eq_true in Hf. apply example_kread; [done|]. apply Hf. lia.
Qed.

(** Closed facts about the memory of such a kernel. *)
Ltac example_mem :=
  first [apply example_kread; [done|vm_compute; reflexivity] | apply example_bytes; [done|vm_compute; reflexivity]].
