(* ===== verification/Buffer.v ===== *)
(** [buffer.c]: the circular buffer of pointers.

    [circular_buffer] is the struct, its operations are the C functions; a value
    is an address, 0 for NULL. [main] is a function from the array's address and the
    struct's first contents to what is printed. The specification is a queue of at most
    [BUFFER_SIZE] values; [contents] reads the queue off a buffer. *)
From S2P Require Import Prelude.

Definition BUFFER_SIZE : Z := 3.

Record circular_buffer := CircularBuffer { buffer : list Z; head : Z; end_ : Z; count : Z }.

Definition init (cb : circular_buffer) : outcome circular_buffer :=
  b ← for_loop (Z.to_nat BUFFER_SIZE) 0 (λ i b, arr_set b i 0) (buffer cb);
  Ok (CircularBuffer b 0 0 0).

Definition full (cb : circular_buffer) : bool := bool_decide (count cb = BUFFER_SIZE).
Definition empty (cb : circular_buffer) : bool := bool_decide (count cb = 0).

Definition push_back (cb : circular_buffer) (value : Z) : outcome (Z * circular_buffer) :=
  if full cb then Ok (0, cb)
  else
    b ← arr_set (buffer cb) (head cb) value;
    Ok (1, CircularBuffer b (Z.rem (head cb + 1) BUFFER_SIZE) (end_ cb) (count cb + 1)).

Definition pop_front (cb : circular_buffer) : outcome (Z * circular_buffer) :=
  if empty cb then Ok (0, cb)
  else
    value ← arr_get (buffer cb) (end_ cb);
    Ok (value, CircularBuffer (buffer cb) (head cb) (Z.rem (end_ cb + 1) BUFFER_SIZE) (count cb - 1)).

(** ** [main] *)

(** What it prints: a result of [pop_front] as its two numbers, one of [push_back], the cells. *)
Inductive printed := Popped (found value : Z) | Pushed (p : Z) | Cells (l : list Z).

Section main.
(** The address of [main]'s [array]. *)
Context (array : Z).

Definition array_values : list Z := [100; 200; 300; 400; 500; 600; 700; 800; 900; 1000].

(** [*ptr], for a pointer to a cell of [array]. *)
Definition value_at (ptr : Z) : outcome Z :=
  if decide ((ptr - array) mod 4 = 0) then arr_get array_values ((ptr - array) / 4) else Ub.

Definition show_pop (ptr : Z) : outcome printed :=
  if decide (ptr ≠ 0) then v ← value_at ptr; Ok (Popped 1 v) else Ok (Popped 0 (-1)).

Definition print (cb : circular_buffer) : outcome (list Z) :=
  for_loop (Z.to_nat BUFFER_SIZE) 0
    (λ i out, p ← arr_get (buffer cb) i;
       v ← (if decide (p ≠ 0) then value_at p else Ok (-1)); Ok (out ++ [v])) [].

(** [ptr = pop_front(&buffer)] with the [printf] of it, and a [push_back] with its own. *)
Definition pop_show (s : circular_buffer * list printed) : outcome (circular_buffer * list printed) :=
  let '(cb, out) := s in
  r ← pop_front cb; let '(ptr, cb) := r in
  e ← show_pop ptr; Ok (cb, out ++ [e]).
Definition push_show (i : Z) (s : circular_buffer * list printed) : outcome (circular_buffer * list printed) :=
  let '(cb, out) := s in
  r ← push_back cb (array + 4 * i); let '(p, cb) := r in Ok (cb, out ++ [Pushed p]).

(** [junk] is what the uninitialised struct holds. *)
Definition buffer_main (junk : circular_buffer) : outcome (list printed) :=
  cb ← init junk;
  s ← pop_show (cb, []);
  s ← for_loop 10 0 push_show s;
  s ← pop_show s;
  let '(cb, out) := s in
  r ← pop_front cb; let '(ptr, cb) := r in
  s ← push_show 7 (cb, out);
  let '(cb, out) := s in
  e ← show_pop ptr;
  s ← pop_show (cb, out ++ [e]);
  s ← pop_show s;
  s ← pop_show s;
  let '(cb, out) := s in
  l ← print cb; Ok (out ++ [Cells l]).
End main.

(** ** Specification: runs of a bounded queue *)

Inductive op := Push (value : Z) | Pop.

Definition step (o : op) (cb : circular_buffer) : outcome (Z * circular_buffer) :=
  match o with Push v => push_back cb v | Pop => pop_front cb end.

Definition queue_step (o : op) (q : list Z) : Z * list Z :=
  match o with
  | Push v => if decide (Z.of_nat (length q) = BUFFER_SIZE) then (0, q) else (1, q ++ [v])
  | Pop => match q with [] => (0, []) | v :: q => (v, q) end
  end.

Fixpoint run (ops : list op) (cb : circular_buffer) : outcome (list Z * circular_buffer) :=
  match ops with
  | [] => Ok ([], cb)
  | o :: ops =>
      r1 ← step o cb; let '(r, cb) := r1 in
      rs1 ← run ops cb; let '(rs, cb) := rs1 in Ok (r :: rs, cb)
  end.

Fixpoint queue_run (ops : list op) (q : list Z) : list Z * list Z :=
  match ops with
  | [] => ([], q)
  | o :: ops =>
      let '(r, q) := queue_step o q in
      let '(rs, q) := queue_run ops q in (r :: rs, q)
  end.

(** [buffer_ok cb q]: [cb] is well-formed and holds the queue [q], oldest first. *)
Record buffer_ok (cb : circular_buffer) (q : list Z) : Prop := BufferOk {
  ok_cells : Z.of_nat (length (buffer cb)) = BUFFER_SIZE;
  ok_first : 0 ≤ end_ cb < BUFFER_SIZE;
  ok_count : count cb = Z.of_nat (length q);
  ok_size : Z.of_nat (length q) ≤ BUFFER_SIZE;
  ok_next : head cb = (end_ cb + count cb) mod BUFFER_SIZE;
  ok_queue : ∀ i v, q !! i = Some v →
    buffer cb !! Z.to_nat ((end_ cb + Z.of_nat i) mod BUFFER_SIZE) = Some v
}.

Lemma init_ok cb : Z.of_nat (length (buffer cb)) = BUFFER_SIZE →
  ∃ cb', init cb = Ok cb' ∧ buffer_ok cb' [].
Proof.
  destruct cb as [b h e c]. cbn [buffer]. intros Hl.
  destruct b as [|x [|y [|z [|w b]]]]; unfold BUFFER_SIZE in Hl; cbn [length] in Hl; try lia.
  eexists. split; [reflexivity|]. by constructor.
Qed.

Lemma next_mod x : 0 ≤ x → Z.rem (x + 1) BUFFER_SIZE = (x + 1) mod BUFFER_SIZE.
Proof. intros. apply Z.rem_mod_nonneg; unfold BUFFER_SIZE; lia. Qed.

(** Cells at different distances below [BUFFER_SIZE] are different. *)
Lemma cell_inj e i j : 0 ≤ i < BUFFER_SIZE → 0 ≤ j < BUFFER_SIZE →
  (e + i) mod BUFFER_SIZE = (e + j) mod BUFFER_SIZE → i = j.
Proof. unfold BUFFER_SIZE. intros. Z.div_mod_to_equations. lia. Qed.

Lemma push_back_ok cb q v : buffer_ok cb q → Z.of_nat (length q) < BUFFER_SIZE →
  ∃ cb', push_back cb v = Ok (1, cb') ∧ buffer_ok cb' (q ++ [v]).
Proof.
  intros [Hl He Hc Hs Hn Hq] Hlt. unfold push_back, full.
  rewrite bool_decide_eq_false_2 by lia.
  assert (Hh : 0 ≤ head cb < BUFFER_SIZE) by (rewrite Hn; apply Z.mod_pos_bound; done).
  rewrite arr_set_in, bind_Ok by lia. eexists. split; [reflexivity|].
  constructor; cbn [buffer head end_ count]; rewrite ?length_insert, ?length_app; cbn [length]; try lia.
  - rewrite next_mod, Hn, Zplus_mod_idemp_l by lia. f_equal. lia.
  - intros i w Hi. apply lookup_app_Some in Hi as [Hi|[Hge Hi]].
    + pose proof (lookup_lt_Some _ _ _ Hi). rewrite list_lookup_insert_ne; [by apply Hq|].
      intros E. apply Z2Nat.inj in E; [|lia|apply Z.mod_pos_bound; done].
      rewrite Hn, Hc in E. apply cell_inj in E; lia.
    + destruct (i - length q)%nat eqn:Ei; [|done]. injection Hi as <-.
      replace (Z.of_nat i) with (count cb) by lia. rewrite <- Hn.
      apply list_lookup_insert_eq. lia.
Qed.

Lemma pop_front_ok cb q v : buffer_ok cb (v :: q) →
  ∃ cb', pop_front cb = Ok (v, cb') ∧ buffer_ok cb' q.
Proof.
  intros [Hl He Hc Hs Hn Hq]. unfold pop_front, empty. cbn [length] in Hc, Hs.
  rewrite bool_decide_eq_false_2 by lia.
  pose proof (Hq 0%nat v eq_refl) as Hv. rewrite Z.add_0_r, Z.mod_small in Hv by lia.
  assert (E : arr_get (buffer cb) (end_ cb) = Ok v) by (apply arr_get_Ok; split; [lia|done]).
  rewrite E, bind_Ok. eexists. split; [reflexivity|].
  rewrite next_mod by lia.
  constructor; cbn [buffer head end_ count]; try lia.
  - apply Z.mod_pos_bound. done.
  - rewrite Zplus_mod_idemp_l, Hn. f_equal. lia.
  - intros i w Hi. rewrite Zplus_mod_idemp_l. rewrite <- (Hq (S i) w Hi). do 3 f_equal. lia.
Qed.

Lemma step_ok o cb q : buffer_ok cb q →
  ∃ cb', step o cb = Ok (fst (queue_step o q), cb') ∧ buffer_ok cb' (snd (queue_step o q)).
Proof.
  intros Hok. destruct o as [v|]; cbn [step queue_step].
  - case_decide as Hf.
    + exists cb. split; [|done]. unfold push_back, full.
      rewrite bool_decide_eq_true_2; [done|]. rewrite (ok_count _ _ Hok). done.
    + destruct (push_back_ok cb q v Hok) as (cb' & -> & H); [pose proof (ok_size _ _ Hok); lia|].
      by exists cb'.
  - destruct q as [|v q].
    + exists cb. split; [|done]. unfold pop_front, empty.
      by rewrite bool_decide_eq_true_2 by apply (ok_count _ _ Hok).
    + destruct (pop_front_ok cb q v Hok) as (cb' & -> & H). by exists cb'.
Qed.

Lemma run_ok ops cb q : buffer_ok cb q →
  ∃ cb', run ops cb = Ok (fst (queue_run ops q), cb') ∧ buffer_ok cb' (snd (queue_run ops q)).
Proof.
  revert cb q. induction ops as [|o ops IH]; intros cb q Hok; [by exists cb|].
  cbn [run queue_run]. destruct (step_ok o cb q Hok) as (cb1 & -> & Hok1). rewrite bind_Ok.
  destruct (queue_step o q) as [r q1]. cbn [fst snd] in *.
  destruct (IH cb1 q1 Hok1) as (cb2 & -> & Hok2). rewrite bind_Ok.
  destruct (queue_run ops q1) as [rs q2]. by exists cb2.
Qed.

(** C32: the circular buffer is a bounded FIFO: after [init], any sequence of
    [push_back] and [pop_front] returns, never touches a cell out of bounds, and
    gives the results of a queue of at most [BUFFER_SIZE] values. *)
Theorem buffer_is_fifo cb ops :
  Z.of_nat (length (buffer cb)) = BUFFER_SIZE →
  ∃ cb0 cb', init cb = Ok cb0 ∧ run ops cb0 = Ok (fst (queue_run ops []), cb') ∧
    buffer_ok cb' (snd (queue_run ops [])).
Proof.
  intros Hl. destruct (init_ok cb Hl) as (cb0 & Hi & Hok).
  destruct (run_ok ops cb0 [] Hok) as (cb' & Hr & Hok'). by exists cb0, cb'.
Qed.

Lemma buffer_is_fifo_witness :
  ∃ cb0 cb', init (CircularBuffer [5; 6; 7] 2 2 2) = Ok cb0 ∧
    run [Pop; Push 100; Push 200; Push 300; Push 400; Pop; Push 500; Pop] cb0 =
      Ok ([0; 1; 1; 1; 0; 100; 1; 200], cb') ∧ buffer_ok cb' [300; 500].
Proof.
  exact (buffer_is_fifo (CircularBuffer [5; 6; 7] 2 2 2)
    [Pop; Push 100; Push 200; Push 300; Push 400; Pop; Push 500; Pop] eq_refl).
Defined.

(** [main]: three pushes of ten are taken; the value pushed after two pops comes out
    after the one left, and the last [pop_front] finds the buffer empty. *)
Example buffer_main_prints : buffer_main 0x1000 (CircularBuffer [5; 6; 7] 2 2 2) =
  Ok ([Popped 0 (-1)] ++ (Pushed <$> [1; 1; 1; 0; 0; 0; 0; 0; 0; 0]) ++
      [Popped 1 100; Pushed 1; Popped 1 200; Popped 1 300; Popped 1 800; Popped 0 (-1); Cells [800; 200; 300]]).
Proof. vm_compute. reflexivity. Qed.
