(* ===== verification/Termio.v ===== *)
(** [src/termio/termio.c]: the VGA text terminal.

    [terminal] holds the file's static state: the cells of [video_memory] (16-bit
    cells by index, every index may be written), and the cursor. A [char]
    argument is its signed value, a [uint8_t] its byte. *)
From S2P Require Import Prelude Mem CString.

Definition VGA_WIDTH : Z := 80.
Definition VGA_HEIGHT : Z := 25.

(** The bytes of a string literal. *)
Definition text (s : string) : list Z := (λ a, Z.of_N (Ascii.N_of_ascii a)) <$> String.list_ascii_of_string s.

Record terminal := Terminal {
  video_memory : gmap Z Z;
  terminal_row : Z;
  terminal_column : Z
}.

Definition terminal_make_char (c colour : Z) : Z := u16 (Z.lor (Z.shiftl colour 8) c).

Definition terminal_print_char_x_y (t : terminal) (character x y : Z) : terminal :=
  Terminal (<[(y * VGA_WIDTH + x) mod (VGA_HEIGHT * VGA_WIDTH) := character]> (video_memory t))
    (terminal_row t) (terminal_column t).

Definition terminal_init (t : terminal) : outcome terminal :=
  let filler_char := terminal_make_char 32 0 in
  for_loop (Z.to_nat VGA_HEIGHT) 0
    (λ y t, for_loop (Z.to_nat VGA_WIDTH) 0
       (λ x t, Ok (terminal_print_char_x_y t filler_char x y)) t)
    (Terminal (video_memory t) 0 0).

Definition terminal_put_char (t : terminal) (character colour : Z) : terminal :=
  if decide (character = 10) then
    Terminal (video_memory t) (u16 (terminal_row t + 1) mod VGA_HEIGHT) 0
  else
    let t := terminal_print_char_x_y
      (Terminal (video_memory t) (terminal_row t) (u16 (terminal_column t + 1)))
      (terminal_make_char (s8 character) colour) (terminal_column t) (terminal_row t) in
    if decide (terminal_column t = VGA_WIDTH) then
      Terminal (video_memory t) ((terminal_row t + 1) mod VGA_HEIGHT) 0
    else t.

Definition terminal_print_string_x_y (fuel : nat) (m : mem) (t : terminal) (str colour x y : Z) :
    outcome terminal :=
  while_loop fuel (λ s : Z * Z * terminal, let '(str, index, t) := s in
    c ← load_char m str;
    if decide (c = 0) then Ok (inr t)
    else
      Ok (inl (str + 1, u32 (index + 1) mod (VGA_WIDTH * VGA_HEIGHT),
        Terminal (<[index := terminal_make_char c colour]> (video_memory t))
          (terminal_row t) (terminal_column t))))
    (str, y * VGA_WIDTH + x, t).

Definition terminal_put_str (fuel : nat) (m : mem) (t : terminal) (str colour : Z) : outcome terminal :=
  while_loop fuel (λ s : Z * terminal, let '(str, t) := s in
    c ← load_char m str;
    if decide (c = 0) then Ok (inr t)
    else Ok (inl (str + 1, terminal_put_char t (u8 c) colour)))
    (str, t).

Definition print (fuel : nat) (m : mem) (t : terminal) (str : Z) : outcome terminal :=
  terminal_put_str fuel m t str 15.

Definition print_char (t : terminal) (chr : Z) : terminal := terminal_put_char t (u8 chr) 15.

(** ** The cursor *)

Record terminal_ok (t : terminal) : Prop := TerminalOk {
  ok_row : 0 ≤ terminal_row t < VGA_HEIGHT;
  ok_column : 0 ≤ terminal_column t < VGA_WIDTH
}.

(** The cursor as one position on the screen, read line by line. *)
Definition cursor (t : terminal) : Z := terminal_row t * VGA_WIDTH + terminal_column t.
Definition CELLS : Z := VGA_HEIGHT * VGA_WIDTH.

Lemma cursor_range t : terminal_ok t → 0 ≤ cursor t < CELLS.
Proof. intros [??]. unfold cursor, CELLS, VGA_HEIGHT, VGA_WIDTH in *. lia. Qed.

(** A printable character goes to the cursor's cell and moves the cursor to the
    next one, round the screen. *)
Lemma put_char_printable t b colour : terminal_ok t → b ≠ 10 →
  terminal_ok (terminal_put_char t b colour) ∧
  cursor (terminal_put_char t b colour) = (cursor t + 1) mod CELLS ∧
  video_memory (terminal_put_char t b colour) =
    <[cursor t := terminal_make_char (s8 b) colour]> (video_memory t).
Proof.
  intros Hok Hb. pose proof (cursor_range t Hok) as Hc. destruct Hok as [Hr Hcol].
  unfold terminal_put_char, terminal_print_char_x_y. rewrite decide_False by done.
  cbn [terminal_row terminal_column video_memory]. unfold cursor in *.
  rewrite (Z.mod_small (_ * _ + _)) by exact Hc.
  unfold CELLS, VGA_HEIGHT, VGA_WIDTH in *. rewrite u16_id by lia. split; [|split].
  - case_decide; constructor; unfold VGA_HEIGHT, VGA_WIDTH; cbn [terminal_row terminal_column]; try lia.
    apply Z.mod_pos_bound. lia.
  - case_decide as He; cbn [terminal_row terminal_column].
    + destruct (decide (terminal_row t = 24)) as [->|Hne].
      * replace (terminal_column t) with 79 by lia. done.
      * rewrite !Z.mod_small; lia.
    + rewrite Z.mod_small; lia.
  - by case_decide.
Qed.

Lemma put_char_newline t colour : terminal_ok t →
  terminal_ok (terminal_put_char t 10 colour) ∧
  video_memory (terminal_put_char t 10 colour) = video_memory t ∧
  terminal_column (terminal_put_char t 10 colour) = 0.
Proof.
  intros [Hr Hc]. unfold terminal_put_char. rewrite decide_True by done. split; [|done].
  unfold VGA_HEIGHT, VGA_WIDTH in *. constructor; unfold VGA_HEIGHT, VGA_WIDTH;
    cbn [terminal_row terminal_column]; [apply Z.mod_pos_bound|]; lia.
Qed.

Lemma put_char_ok t b colour : terminal_ok t → terminal_ok (terminal_put_char t b colour).
Proof.
  intros Hok. destruct (decide (b = 10)) as [->|Hb].
  - by apply put_char_newline.
  - by apply put_char_printable.
Qed.
#[export] Hint Resolve put_char_ok : avocado.

(** ** Strings *)

Lemma load_char_cstr m a s i b : cstr m a s → s !! i = Some b →
  load_char m (a + Z.of_nat i) = Ok (s8 b) ∧ s8 b ≠ 0 ∧ u8 (s8 b) = b.
Proof.
  intros [Hs Hnz] Hi. pose proof (Forall_lookup_1 _ _ _ _ Hnz Hi) as Hb. cbn beta in Hb.
  unfold load_char. rewrite (bytes_at_load _ _ _ _ b Hs), bind_Ok
    by (rewrite lookup_app_l; [done|by eapply lookup_lt_Some]).
  split; [done|]. unfold s8, u8. split.
  - Z.div_mod_to_equations. lia.
  - change (2 ^ 7) with 128. change (2 ^ 8) with 256. Z.div_mod_to_equations. lia.
Qed.

Lemma load_char_cstr_end m a s : cstr m a s → load_char m (a + Z.of_nat (length s)) = Ok 0.
Proof.
  intros [Hs _]. unfold load_char.
  rewrite (bytes_at_load _ _ _ _ 0 Hs); [done|]. by rewrite lookup_app_r, Nat.sub_diag.
Qed.

(** [terminal_put_str] puts the string's bytes one after the other. *)
Lemma put_str_fold fuel m t a s colour : cstr m a s → (length s < fuel)%nat →
  terminal_put_str fuel m t a colour = Ok (foldl (λ t b, terminal_put_char t b colour) t s).
Proof.
  intros Hs. unfold terminal_put_str.
  enough (H : ∀ l k t fuel, s = take k s ++ l → (k ≤ length s)%nat → (length l < fuel)%nat →
    while_loop fuel (λ s : Z * terminal, let '(str, t) := s in
      c ← load_char m str;
      if decide (c = 0) then Ok (inr t)
      else Ok (inl (str + 1, terminal_put_char t (u8 c) colour))) (a + Z.of_nat k, t) =
    Ok (foldl (λ t b, terminal_put_char t b colour) t l)).
  { intros Hf. specialize (H s 0%nat t fuel). rewrite Z.add_0_r in H. apply H; [done|lia|done]. }
  clear fuel t. induction l as [|b l IH]; intros k t fuel E Hk Hf; (destruct fuel as [|fuel]; [lia|]).
  - assert (k = length s) as ->.
    { rewrite app_nil_r in E. apply (f_equal length) in E. rewrite length_take in E. lia. }
    apply while_exit. by rewrite (load_char_cstr_end _ _ _ Hs), bind_Ok, decide_True.
  - assert (Hb : s !! k = Some b).
    { rewrite E, lookup_app_r by (rewrite length_take; lia).
      rewrite length_take. by replace (k - k `min` length s)%nat with 0%nat by lia. }
    destruct (load_char_cstr _ _ _ _ _ Hs Hb) as (Hl & Hnz & Hu).
    erewrite while_continue by (rewrite Hl, bind_Ok, decide_False by done; reflexivity).
    rewrite Hu. replace (a + Z.of_nat k + 1) with (a + Z.of_nat (S k)) by lia.
    cbn [foldl]. apply IH; [|by apply lookup_lt_Some in Hb|cbn [length] in Hf; lia].
    rewrite (take_S_r _ _ _ Hb), <- app_assoc. exact E.
Qed.

(** Text without newlines runs along the screen from the cursor. *)
Lemma put_printable t s colour :
  terminal_ok t → Forall (λ b, b ≠ 10) s → Z.of_nat (length s) ≤ CELLS →
  let t' := foldl (λ t b, terminal_put_char t b colour) t s in
  terminal_ok t' ∧ cursor t' = (cursor t + Z.of_nat (length s)) mod CELLS ∧
  (∀ i b, s !! i = Some b →
     video_memory t' !! ((cursor t + Z.of_nat i) mod CELLS) = Some (terminal_make_char (s8 b) colour)) ∧
  (∀ j, (∀ i, (i < length s)%nat → j ≠ (cursor t + Z.of_nat i) mod CELLS) →
     video_memory t' !! j = video_memory t !! j).
Proof.
  intros Hok. cbn zeta. induction s as [|b s IH] using rev_ind; intros Hs Hl.
  { split; [done|]. split; [|done]. rewrite Z.add_0_r, Z.mod_small by by apply cursor_range. done. }
  apply Forall_app in Hs as [Hs Hb]. apply Forall_cons in Hb as [Hb _].
  rewrite length_app in Hl. cbn [length] in Hl.
  destruct IH as (Hok' & Hc & Hin & Hout); [done|lia|].
  rewrite foldl_app. cbn [foldl]. set (t' := foldl _ t s) in *.
  destruct (put_char_printable t' b colour Hok' Hb) as (Hok'' & Hc' & Hv).
  rewrite Hv, Hc', Hc, length_app. cbn [length].
  split; [done|]. split.
  { rewrite Zplus_mod_idemp_l. f_equal. lia. }
  split.
  - intros i c Hi. apply lookup_app_Some in Hi as [Hi|[Hge Hi]].
    + rewrite lookup_insert_ne; [by apply Hin|]. apply lookup_lt_Some in Hi.
      pose proof (cursor_range t Hok). unfold CELLS, VGA_HEIGHT, VGA_WIDTH in *.
      Z.div_mod_to_equations. lia.
    + destruct (i - length s)%nat eqn:Ei; [|done]. injection Hi as <-.
      replace i with (length s) by lia. by rewrite lookup_insert_eq.
  - intros j Hj. rewrite lookup_insert_ne.
    + apply Hout. intros i Hi. apply Hj. lia.
    + intros E. apply (Hj (length s)); [lia|done].
Qed.

(** [filled c lo hi t t']: [t'] is [t] with [c] in the cells from [lo] up to [hi]. *)
Definition filled (c lo hi : Z) (t t' : terminal) : Prop :=
  terminal_row t' = terminal_row t ∧ terminal_column t' = terminal_column t ∧
  ∀ j, video_memory t' !! j = if decide (lo ≤ j < hi) then Some c else video_memory t !! j.

(** Clearing the screen touches its cells only. *)
Lemma print_rows t n y0 c :
  0 ≤ y0 → y0 + Z.of_nat n ≤ VGA_HEIGHT →
  ∃ t', for_loop n y0 (λ y t, for_loop (Z.to_nat VGA_WIDTH) 0
      (λ x t, Ok (terminal_print_char_x_y t c x y)) t) t = Ok t' ∧
    filled c (y0 * VGA_WIDTH) ((y0 + Z.of_nat n) * VGA_WIDTH) t t'.
Proof.
  intros Hy0 Hn. apply (for_loop_ok (λ y, filled c (y0 * VGA_WIDTH) (y * VGA_WIDTH) t)).
  2: { split; [done|]. split; [done|]. intros j. by rewrite decide_False by lia. }
  intros y t1 Hy (Hr & Hc & Hv).
  destruct (for_loop_ok (λ x, filled c (y0 * VGA_WIDTH) (y * VGA_WIDTH + x) t)
    (λ x t, Ok (terminal_print_char_x_y t c x y)) (Z.to_nat VGA_WIDTH) 0 t1)
    as (t2 & E & Hr2 & Hc2 & Hv2).
  - intros x t2 Hx (Hr2 & Hc2 & Hv2). eexists. split; [reflexivity|].
    unfold terminal_print_char_x_y. cbn [video_memory terminal_row terminal_column].
    split; [done|]. split; [done|]. intros j. cbn [video_memory]. unfold VGA_HEIGHT, VGA_WIDTH in *.
    rewrite Z.mod_small by lia. destruct (decide (j = y * 80 + x)) as [->|Hne].
    + rewrite lookup_insert_eq, decide_True by lia. done.
    + rewrite lookup_insert_ne, Hv2 by done. repeat case_decide; try lia; done.
  - split; [done|]. split; [done|]. by rewrite Z.add_0_r.
  - exists t2. split; [exact E|]. split; [done|]. split; [done|]. intros j. rewrite Hv2.
    unfold VGA_WIDTH. repeat case_decide; try lia; done.
Qed.

Lemma terminal_init_spec t :
  ∃ t', terminal_init t = Ok t' ∧ terminal_ok t' ∧ cursor t' = 0 ∧
    (∀ j, video_memory t' !! j = if decide (0 ≤ j < CELLS) then Some 32 else video_memory t !! j).
Proof.
  destruct (print_rows (Terminal (video_memory t) 0 0) (Z.to_nat VGA_HEIGHT) 0 32)
    as (t' & E & Hr & Hc & Hv); [done|done|].
  exists t'. split; [exact E|]. unfold cursor. rewrite Hr, Hc. split; [|split; [done|]].
  - constructor; [rewrite Hr|rewrite Hc]; cbn [terminal_row terminal_column];
      unfold VGA_HEIGHT, VGA_WIDTH; lia.
  - intros j. rewrite Hv. done.
Qed.

(** C30: [terminal_put_str] on a string without newlines writes byte [i] to the
    cell [i] places after the cursor, wrapping round the 80x25 screen, changes no
    other cell, and leaves the cursor behind the text: the row and column
    counters implement one position modulo 2000. *)
Theorem put_str_runs_round fuel m t a s colour :
  terminal_ok t → cstr m a s → (length s < fuel)%nat → Forall (λ b, b ≠ 10) s →
  Z.of_nat (length s) ≤ CELLS →
  ∃ t', terminal_put_str fuel m t a colour = Ok t' ∧ terminal_ok t' ∧
    cursor t' = (cursor t + Z.of_nat (length s)) mod CELLS ∧
    (∀ i b, s !! i = Some b →
       video_memory t' !! ((cursor t + Z.of_nat i) mod CELLS) = Some (terminal_make_char (s8 b) colour)) ∧
    (∀ j, (∀ i, (i < length s)%nat → j ≠ (cursor t + Z.of_nat i) mod CELLS) →
       video_memory t' !! j = video_memory t !! j).
Proof.
  intros Hok Hs Hf Hnl Hl. eexists. split; [by apply put_str_fold|]. by apply put_printable.
Qed.

(** Two characters at the bottom right corner: the second is on the first row. *)
Definition corner : terminal := Terminal ∅ 24 79.

Lemma put_str_runs_round_witness :
  ∃ t', terminal_put_str 5 (write_bytes ∅ 100 [72; 105; 0]) corner 100 15 = Ok t' ∧
    terminal_ok t' ∧ cursor t' = (cursor corner + Z.of_nat (length [72; 105])) mod CELLS ∧
    (∀ i b, [72; 105] !! i = Some b → video_memory t' !! ((cursor corner + Z.of_nat i) mod CELLS) =
       Some (terminal_make_char (s8 b) 15)) ∧
    (∀ j, (∀ i, (i < length [72; 105])%nat → j ≠ (cursor corner + Z.of_nat i) mod CELLS) →
       video_memory t' !! j = video_memory corner !! j).
Proof.
  apply (put_str_runs_round 5 (write_bytes ∅ 100 [72; 105; 0]) corner 100 [72; 105] 15).
  - by constructor.
  - split; [by apply bytes_at_check; vm_compute|]. repeat constructor.
  - cbn. lia.
  - by repeat constructor.
  - by vm_compute.
Defined.

(** C31: a cell shows the character and the colour it was made from exactly for
    7-bit characters: [c] is a signed [char], so from 128 on its sign bits
    overwrite the attribute byte. *)
Theorem make_char_attribute_iff b colour :
  0 ≤ b < 256 → 0 ≤ colour < 16 →
  terminal_make_char (s8 b) colour = colour * 256 + b ↔ b < 128.
Proof.
  intros Hb Hc. unfold terminal_make_char. rewrite Z.shiftl_mul_pow2 by lia.
  change (2 ^ 8) with 256. destruct (decide (b < 128)) as [Hlt|Hge].
  - rewrite s8_id by lia.
    assert (Hz : Z.land (colour * 256) b = 0).
    { apply Z.bits_inj'. intros n Hn. rewrite Z.land_spec, Z.bits_0. change 256 with (2 ^ 8).
      destruct (decide (n < 8)).
      - by rewrite Z.mul_pow2_bits_low by lia.
      - rewrite (Z.bits_above_log2 b), andb_false_r; [done|lia|].
        destruct (decide (b = 0)) as [->|]; [cbn; lia|].
        assert (Z.log2 b < 8) by (apply Z.log2_lt_pow2; lia). lia. }
    pose proof (Z.add_lor_land (colour * 256) b) as E. rewrite Hz, Z.add_0_r in E.
    rewrite E, u16_id by lia. done.
  - split; [|lia]. intros E. exfalso.
    assert (Hs : s8 b = b - 256) by (unfold s8; change (2 ^ 7) with 128; change (2 ^ 8) with 256;
        Z.div_mod_to_equations; lia).
    rewrite Hs in E. set (v := Z.lor (colour * 256) (b - 256)) in *.
    assert (Hv : v / 256 = -1).
    { change 256 with (2 ^ 8). rewrite <- Z.shiftr_div_pow2 by lia. subst v.
      rewrite Z.shiftr_lor, !Z.shiftr_div_pow2 by lia. change (2 ^ 8) with 256.
      replace ((b - 256) / 256) with (-1) by (Z.div_mod_to_equations; lia). apply Z.lor_m1_r. }
    unfold u16 in E. change (2 ^ 16) with 65536 in E. Z.div_mod_to_equations. lia.
Qed.

Lemma make_char_attribute_iff_witness :
  terminal_make_char (s8 200) 15 = 15 * 256 + 200 ↔ 200 < 128.
Proof. apply (make_char_attribute_iff 200 15); lia. Defined.
