(* ===== verification/MemCheck.v ===== *)
(** [src/memory/memcheck.c] and the [MEMCHECK] wrappers of [src/memory/kheap.c]: the
    debugging build's record of who allocated what.

    [allocation_table] is an array in memory, one [struct memcheck_entry] of 112 bytes
    for each block of the heap; its address, and those of the local buffers the numbers
    are printed in, are arguments. [n_allocations], which [kheap.c] uses and no file
    declares, is a member of [checked]; [counter] wraps it at the width it would have.

    The entries follow the heap: [tracked] says that the entry of a block holds the
    number of blocks of the allocation that starts there, 0 where none does. *)
From S2P Require Import Prelude Mem CString Heap Kheap Termio.

Definition SIZEOF_MEMCHECK_ENTRY : Z := 112.
Definition me_blocks : Z := 0.
Definition me_ptr : Z := 4.
Definition me_filename : Z := 8.
Definition me_function : Z := 58.
Definition me_line : Z := 108.
Definition NAME_SIZE : Z := 50.

(** The length of the array. *)
Definition ALLOCATIONS : Z := KERNEL_HEAP_SIZE / KERNEL_HEAP_BLOCK_SIZE.

(** [allocation_table_len] *)
Definition memcheck_table_init : Z := KERNEL_HEAP_SIZE / KERNEL_HEAP_BLOCK_SIZE.

Record checked := Checked { kern : kernel; screen : terminal; n_allocations : Z }.

Section memcheck.
Context (allocation_table asd : Z) (counter : Z → Z).

(** [&allocation_table[block]] *)
Definition entry (block : Z) : Z := allocation_table + SIZEOF_MEMCHECK_ENTRY * block.

Definition memcheck_allocate (k : kernel) (ptr size filename function line : Z) : outcome kernel :=
  let base := base_addr (kernel_heap k) in
  if decide (ptr < base ∨ u32 (base + KERNEL_HEAP_SIZE) ≤ ptr) then
    Panic "WRONG POINTER: Too low or too high"
  else
    let block := kheap_addr_to_block k ptr in
    if decide (block < ALLOCATIONS) then
      m ← store32 (kmem k) (entry block + me_blocks)
            (u32 (size + KERNEL_HEAP_BLOCK_SIZE - 1) / KERNEL_HEAP_BLOCK_SIZE);
      m ← store32 m (entry block + me_line) line;
      m ← store32 m (entry block + me_ptr) ptr;
      m ← strncpy m (entry block + me_filename) filename NAME_SIZE;
      m ← strncpy m (entry block + me_function) function NAME_SIZE;
      Ok (Kernel m (kernel_heap k))
    else Ub.

Definition memcheck_free (k : kernel) (ptr : Z) : outcome kernel :=
  let block := kheap_addr_to_block k ptr in
  if decide (block < ALLOCATIONS) then
    blocks ← load32 (kmem k) (entry block + me_blocks);
    if decide (blocks = 0) then Panic "DOUBLE FREE"
    else
      m ← memset (kmem k) (entry block) 0 SIZEOF_MEMCHECK_ENTRY;
      m ← store32 m (entry block + me_line) (-1);
      Ok (Kernel m (kernel_heap k))
  else Ub.

(** [print] of a literal. *)
Definition print_literal (t : terminal) (l : list Z) : terminal :=
  foldl (λ t b, terminal_put_char t b 15) t l.

(** One entry of [memcheck_check]; [buffer] is its [char buffer[100]]. *)
Definition check_entry (fuel : nat) (buffer skip i : Z) (mt : mem * terminal) : outcome (mem * terminal) :=
  let '(m, t) := mt in
  if decide (i < ALLOCATIONS) then
    blocks ← load32 m (entry i + me_blocks);
    if decide (blocks = 0) then Ok (m, t)
    else
      same ← strcmp fuel m (entry i + me_function) skip;
      if decide (same = 0) then Ok (m, t)
      else
        let t := print_literal t (text "alloc: ") in
        t ← print fuel m t (entry i + me_filename);
        let t := print_char t 58 in
        t ← print fuel m t (entry i + me_function);
        let t := print_char t 58 in
        line ← load32 m (entry i + me_line);
        m ← itoa m (s32 line) buffer;
        t ← print fuel m t buffer;
        let t := print_literal t (text " addr: ") in
        ptr ← load32 m (entry i + me_ptr);
        m ← itoa m ptr buffer;
        t ← print fuel m t buffer;
        Ok (m, print_char t 10)
  else Ub.

Definition memcheck_check (fuel : nat) (allocation_table_len buffer skip : Z) (m : mem) (t : terminal) :
    outcome (mem * terminal) :=
  for_loop (Z.to_nat allocation_table_len) 0 (check_entry fuel buffer skip) (m, print_char t 10).

(** ** The wrappers of [kheap.c] *)

Definition __memcheck_kzalloc (fuel : nat) (s : checked) (size filename function line : Z) :
    outcome (Z * checked) :=
  m ← itoa (kmem (kern s)) (n_allocations s) asd;
  pk ← __kzalloc kernel_fuel (Kernel m (kernel_heap (kern s))) size;
  let '(ptr, k) := pk in
  let t := print_literal (screen s) (text "Allocations->>>>>>>") in
  t ← print fuel (kmem k) t asd;
  let t := print_literal t (text "<<<<<<<<<") in
  m ← itoa (kmem k) ptr asd;
  t ← print fuel m t asd;
  let t := print_literal t (text "<<<<<<<<<" ++ [10]) in
  k ← memcheck_allocate (Kernel m (kernel_heap k)) ptr size filename function line;
  Ok (ptr, Checked k t (counter (n_allocations s + size))).

Definition __memcheck_kfree (s : checked) (ptr : Z) : outcome checked :=
  k ← memcheck_free (kern s) ptr;
  k ← __kfree kernel_fuel k ptr;
  Ok (Checked k (screen s) (n_allocations s)).
End memcheck.

Lemma write_bytes_some m a l x : is_Some (m !! x) → is_Some (write_bytes m a l !! x).
Proof. intros Hx. rewrite write_bytes_lookup. case_decide; [|done]. apply lookup_lt_is_Some_2. lia. Qed.

(** ** The blocks at which allocations start *)

(** The blocks of the allocation that starts at block [b], 0 if none does. *)
Fixpoint starts (segs : list seg) (b : nat) : nat :=
  match segs with
  | [] => 0
  | s :: segs =>
      if decide (b = 0%nat) then seg_used s
      else if decide (b < seg_size s)%nat then 0%nat
      else starts segs (b - seg_size s)
  end.

Lemma starts_app s1 s2 b : Forall seg_ok s1 →
  starts (s1 ++ s2) b =
  if decide (b < length (layout s1))%nat then starts s1 b else starts s2 (b - length (layout s1)).
Proof.
  intros Hs. revert b. induction Hs as [|s s1 Hs _ IH]; intros b; cbn [app starts].
  - change (length (layout [])) with 0%nat. by rewrite Nat.sub_0_r.
  - rewrite layout_cons, length_app, seg_bytes_length, IH.
    assert (0 < seg_size s)%nat by (destruct s; cbn in *; lia).
    replace (b - (seg_size s + length (layout s1)))%nat
      with (b - seg_size s - length (layout s1))%nat by lia.
    repeat case_decide; try done; try lia.
Qed.

Lemma starts_free n b : starts (replicate n Free) b = 0%nat.
Proof. revert b. induction n as [|n IH]; intros b; [done|]. cbn. repeat case_decide; auto. Qed.

(** Taking or giving back a run of blocks changes the entry of its first block only. *)
Lemma starts_used s1 n s2 b : Forall seg_ok s1 → (0 < n)%nat →
  starts (s1 ++ Used n :: s2) b =
  if decide (b = length (layout s1)) then n else starts (s1 ++ replicate n Free ++ s2) b.
Proof.
  intros Hs Hn. rewrite !starts_app, starts_free, layout_free, length_replicate
    by (try done; by apply Forall_replicate).
  cbn [starts seg_used seg_size]. repeat case_decide; try done; lia.
Qed.

Lemma starts_freed s1 n s2 : Forall seg_ok s1 → (0 < n)%nat →
  starts (s1 ++ replicate n Free ++ s2) (length (layout s1)) = 0%nat.
Proof.
  intros Hs Hn. rewrite !starts_app, starts_free, layout_free, length_replicate
    by (try done; by apply Forall_replicate). rewrite decide_False by lia. by rewrite decide_True by lia.
Qed.

(** ** Memory apart from the table *)

(** [a .. a + n] and [b .. b + c] have no address in common. *)
Definition apart (a n b c : Z) : Prop := a + n ≤ b ∨ b + c ≤ a.

(** [m'] is [m] but for the [n] bytes at [a]. *)
Definition changes (a n : Z) (m m' : mem) : Prop := ∀ x, ¬ (a ≤ x < a + n) → m' !! x = m !! x.

Lemma changes_write m a l b n : b ≤ a → a + Z.of_nat (length l) ≤ b + n → changes b n m (write_bytes m a l).
Proof. intros H1 H2 x Hx. apply write_bytes_lookup_out. lia. Qed.

Lemma changes_trans a n m m' m'' : changes a n m m' → changes a n m' m'' → changes a n m m''.
Proof. intros H1 H2 x Hx. by rewrite H2, H1. Qed.

Lemma changes_wider a n b c m m' : changes a n m m' → b ≤ a → a + n ≤ b + c → changes b c m m'.
Proof. intros H H1 H2 x Hx. apply H. lia. Qed.

Lemma changes_bytes a n m m' p l : changes a n m m' → apart p (Z.of_nat (length l)) a n →
  bytes_at m p l → bytes_at m' p l.
Proof.
  unfold apart. intros H Hd Hb i x Hi. pose proof (lookup_lt_Some _ _ _ Hi). rewrite H by lia. by apply Hb.
Qed.

Lemma changes_load a n m m' p : changes a n m m' → apart p 4 a n → load32 m' p = load32 m p.
Proof. unfold apart. intros H Hd. apply load32_ext. intros x Hx. apply H. lia. Qed.

(** A string that stays where the checker writes nothing. *)
Definition cstr_apart (m : mem) (a : Z) (s : list Z) (b n : Z) : Prop :=
  cstr m a s ∧ apart a (Z.of_nat (length s) + 1) b n.

Lemma changes_cstr a n m m' p s : changes a n m m' → cstr_apart m p s a n → cstr m' p s.
Proof.
  intros H [[Hs Hb] Hd]. split; [|done]. eapply changes_bytes; [exact H| |exact Hs].
  rewrite length_app. cbn [length]. by rewrite Nat2Z.inj_add.
Qed.

(** What a [char [50]] holds of a string, padded with NULs. *)
Definition name_field (s : list Z) : list Z := take 50 s ++ replicate (50 - length s) 0.

Lemma name_field_length s : length (name_field s) = 50%nat.
Proof. unfold name_field. rewrite length_app, length_take, length_replicate. lia. Qed.

Lemma name_field_bytes s : Forall (λ b, 0 < b < 256) s → Forall is_byte (name_field s).
Proof.
  intros Hs. apply Forall_app. split.
  - apply Forall_take. eapply Forall_impl; [exact Hs|]. unfold is_byte. lia.
  - apply Forall_replicate. unfold is_byte. lia.
Qed.

Section tracking.
Context (allocation_table : Z).
Abbreviation entry := (entry allocation_table).

(** An entry: the members [memcheck_allocate] sets. *)
Record recorded (m : mem) (b : nat) (blocks ptr : Z) (filename function : list Z) (line : Z) : Prop := Recorded {
  rec_blocks : load32 m (entry (Z.of_nat b) + me_blocks) = Ok blocks;
  rec_ptr : load32 m (entry (Z.of_nat b) + me_ptr) = Ok ptr;
  rec_filename : bytes_at m (entry (Z.of_nat b) + me_filename) (name_field filename);
  rec_function : bytes_at m (entry (Z.of_nat b) + me_function) (name_field function);
  rec_line : load32 m (entry (Z.of_nat b) + me_line) = Ok line
}.

(** The writes of [memcheck_allocate] to an entry at [e]. *)
Definition entry_writes (m : mem) (e blocks ptr : Z) (filename function : list Z) (line : Z) : mem :=
  write_bytes (write_bytes (write_bytes (write_bytes (write_bytes m (e + me_blocks) (split4 blocks))
    (e + me_line) (split4 line)) (e + me_ptr) (split4 ptr))
    (e + me_filename) (name_field filename)) (e + me_function) (name_field function).

Lemma entry_writes_changes m e blocks ptr f g line :
  changes e SIZEOF_MEMCHECK_ENTRY m (entry_writes m e blocks ptr f g line).
Proof.
  unfold entry_writes, SIZEOF_MEMCHECK_ENTRY, me_blocks, me_ptr, me_filename, me_function, me_line.
  repeat (eapply changes_trans; [|apply changes_write; rewrite ?name_field_length; cbn [split4 length]; lia]).
  done.
Qed.

Lemma entry_writes_recorded m b blocks ptr f g line :
  0 ≤ blocks < 2 ^ 32 → 0 ≤ ptr < 2 ^ 32 → 0 ≤ line < 2 ^ 32 →
  recorded (entry_writes m (entry (Z.of_nat b)) blocks ptr f g line) b blocks ptr f g line.
Proof.
  intros Hb Hp Hl. set (e := entry (Z.of_nat b)).
  unfold entry_writes, me_blocks, me_ptr, me_filename, me_function, me_line in *.
  pose proof (name_field_length f) as Lf. pose proof (name_field_length g) as Lg.
  split; fold e; unfold me_blocks, me_ptr, me_filename, me_function, me_line.
  - rewrite 4!load32_write_other by (rewrite ?Lf, ?Lg; cbn [split4 length]; lia). by apply load32_write_same.
  - rewrite 2!load32_write_other by (rewrite ?Lf, ?Lg; cbn [split4 length]; lia). by apply load32_write_same.
  - apply bytes_at_write_other; [rewrite Lf; lia|]. apply bytes_at_write.
  - apply bytes_at_write.
  - rewrite 3!load32_write_other by (rewrite ?Lf, ?Lg; cbn [split4 length]; lia).
    by apply load32_write_same.
Qed.

(** Writing an entry stays within mapped memory and keeps bytes bytes. *)
Lemma entry_writes_wf m e blocks ptr f g line : wf_mem m →
  Forall (λ b, 0 < b < 256) f → Forall (λ b, 0 < b < 256) g → wf_mem (entry_writes m e blocks ptr f g line).
Proof. intros Hm Hf Hg. repeat (apply wf_write_bytes; [|by auto using name_field_bytes with avocado]). done. Qed.

Lemma entry_writes_mapped m e blocks ptr f g line a n :
  mapped m a n → mapped (entry_writes m e blocks ptr f g line) a n.
Proof. intros. by repeat apply mapped_write_mono. Qed.

Lemma rounded_up size : 0 < size ≤ 2 ^ 32 - 4096 →
  u32 (size + KERNEL_HEAP_BLOCK_SIZE - 1) / KERNEL_HEAP_BLOCK_SIZE = size_to_nblocks size.
Proof.
  intros Hs. unfold size_to_nblocks, KERNEL_HEAP_BLOCK_SIZE. rewrite u32_id by lia.
  case_decide; Z.div_mod_to_equations; lia.
Qed.

(** The address of a block of the heap. *)
Definition block_addr (k : kernel) (b : nat) : Z :=
  base_addr (kernel_heap k) + KERNEL_HEAP_BLOCK_SIZE * Z.of_nat b.

(** The whole heap [kheap_init] makes is below the end of memory. *)
Definition heap_fits (k : kernel) : Prop :=
  0 < base_addr (kernel_heap k) ∧ base_addr (kernel_heap k) + KERNEL_HEAP_SIZE < 2 ^ 32.

Lemma addr_block k p : heap_fits k → 0 ≤ p - base_addr (kernel_heap k) < KERNEL_HEAP_SIZE →
  kheap_addr_to_block k p = (p - base_addr (kernel_heap k)) / KERNEL_HEAP_BLOCK_SIZE ∧
  0 ≤ kheap_addr_to_block k p < ALLOCATIONS.
Proof.
  unfold heap_fits, kheap_addr_to_block, heap_addr_to_block, ALLOCATIONS, KERNEL_HEAP_SIZE, KERNEL_HEAP_BLOCK_SIZE.
  intros [H1 H2] Hp. rewrite u32_id by lia. split; [done|]. change (0x1000000 / 4096) with 4096.
  Z.div_mod_to_equations. lia.
Qed.

Lemma block_block k b : heap_fits k → (b < 4096)%nat → kheap_addr_to_block k (block_addr k b) = Z.of_nat b.
Proof.
  intros Hf Hb. unfold block_addr. destruct (addr_block k (block_addr k b) Hf) as [E _];
    unfold block_addr, KERNEL_HEAP_SIZE, KERNEL_HEAP_BLOCK_SIZE in *; [lia|].
  rewrite E. Z.div_mod_to_equations. lia.
Qed.

Lemma memcheck_allocate_ok k b size filename function line f g :
  heap_fits k → (b < 4096)%nat → mapped (kmem k) (entry (Z.of_nat b)) SIZEOF_MEMCHECK_ENTRY →
  0 < size ≤ 2 ^ 32 - 4096 →
  cstr_apart (kmem k) filename f (entry (Z.of_nat b)) SIZEOF_MEMCHECK_ENTRY →
  cstr_apart (kmem k) function g (entry (Z.of_nat b)) SIZEOF_MEMCHECK_ENTRY →
  memcheck_allocate allocation_table k (block_addr k b) size filename function line =
  Ok (Kernel (entry_writes (kmem k) (entry (Z.of_nat b)) (size_to_nblocks size) (block_addr k b) f g line)
        (kernel_heap k)).
Proof.
  intros Hf Hb Hm Hs Cf Cg. unfold memcheck_allocate. rewrite rounded_up by done. cbn zeta.
  rewrite decide_False.
  2: { destruct Hf. unfold block_addr, KERNEL_HEAP_SIZE, KERNEL_HEAP_BLOCK_SIZE in *. rewrite u32_id by lia. lia. }
  rewrite block_block by done. rewrite decide_True by (change ALLOCATIONS with 4096; lia).
  set (e := entry (Z.of_nat b)) in *. unfold entry_writes.
  unfold SIZEOF_MEMCHECK_ENTRY, me_blocks, me_ptr, me_filename, me_function, me_line in *.
  assert (Hsub : ∀ m o n, mapped m e 112 → 0 ≤ o → o + n ≤ 112 → mapped m (e + o) n)
    by (intros m o n ???; eapply mapped_sub; [done|lia|lia]).
  assert (Hstr : ∀ m q s o, cstr_apart (kmem k) q s e 112 → changes e 112 (kmem k) m → mapped m e 112 → 0 ≤ o → o + 50 ≤ 112 →
    strncpy m (e + o) q NAME_SIZE = Ok (write_bytes m (e + o) (name_field s))).
  { intros m q s o C X Hm' Ho Ho'. rewrite (strncpy_ok m (e + o) q s NAME_SIZE); [done|by apply (changes_cstr e 112 (kmem k))|done|by apply Hsub|].
    destruct C as [_ D]. unfold apart, NAME_SIZE in *. lia. }
  repeat (rewrite store32_ok, bind_Ok by (apply Hsub; [by repeat apply mapped_write_mono|lia|lia])).
  pose proof (name_field_length f) as Lf.
  rewrite (Hstr _ filename f 8 Cf), bind_Ok; [|..|by repeat apply mapped_write_mono|lia|lia].
  2: { repeat (eapply changes_trans; [|apply changes_write; cbn [split4 length]; lia]). done. }
  rewrite (Hstr _ function g 58 Cg), bind_Ok; [done|..|by repeat apply mapped_write_mono|lia|lia].
  repeat (eapply changes_trans; [|apply changes_write; rewrite ?Lf; cbn [split4 length]; lia]). done.
Qed.

(** The numbers of blocks in the entries. *)
Definition table_holds (m : mem) (blocks : nat → nat) : Prop :=
  ∀ b, (b < 4096)%nat → load32 m (entry (Z.of_nat b) + me_blocks) = Ok (Z.of_nat (blocks b)).

Lemma table_holds_changes a n m m' blocks : changes a n m m' →
  apart allocation_table (SIZEOF_MEMCHECK_ENTRY * ALLOCATIONS) a n → table_holds m blocks → table_holds m' blocks.
Proof.
  intros H Hd Ht b Hb. rewrite (changes_load a n m); [by apply Ht|done|]. change ALLOCATIONS with 4096 in Hd.
  unfold apart, MemCheck.entry, me_blocks, SIZEOF_MEMCHECK_ENTRY in *. lia.
Qed.

Lemma table_holds_entry m m' blocks b c : changes (entry (Z.of_nat b)) SIZEOF_MEMCHECK_ENTRY m m' →
  load32 m' (entry (Z.of_nat b) + me_blocks) = Ok (Z.of_nat c) → table_holds m blocks →
  table_holds m' (λ b', if decide (b' = b) then c else blocks b').
Proof.
  intros H Hc Ht b' Hb'. case_decide as Hne; [by subst|].
  rewrite (changes_load (entry (Z.of_nat b)) SIZEOF_MEMCHECK_ENTRY m); [by apply Ht|done|].
  unfold apart, MemCheck.entry, me_blocks, SIZEOF_MEMCHECK_ENTRY. lia.
Qed.

Lemma table_holds_ext m f g : (∀ b, f b = g b) → table_holds m f → table_holds m g.
Proof. intros E Ht b Hb. by rewrite <- E, Ht. Qed.

(** The entries follow the heap laid out as [segs]; the array is apart from it. *)
Record tracked (k : kernel) (segs : list seg) : Prop := Tracked {
  tr_ok : kernel_ok k segs;
  tr_fits : heap_fits k;
  tr_mapped : mapped (kmem k) allocation_table (SIZEOF_MEMCHECK_ENTRY * ALLOCATIONS);
  tr_apart : apart allocation_table (SIZEOF_MEMCHECK_ENTRY * ALLOCATIONS) (base_addr (kernel_heap k)) KERNEL_HEAP_SIZE;
  tr_entry : table_holds (kmem k) (starts segs)
}.

Lemma entry_in_table m b : mapped m allocation_table (SIZEOF_MEMCHECK_ENTRY * ALLOCATIONS) → (b < 4096)%nat →
  mapped m (entry (Z.of_nat b)) SIZEOF_MEMCHECK_ENTRY.
Proof.
  intros Hm Hb. change ALLOCATIONS with 4096 in Hm. unfold MemCheck.entry, SIZEOF_MEMCHECK_ENTRY in *.
  eapply mapped_sub; [exact Hm|lia|lia].
Qed.

(** Memory may change away from the array and within the heap. *)
Lemma tracked_changes k segs a n m' : tracked k segs → changes a n (kmem k) m' →
  apart allocation_table (SIZEOF_MEMCHECK_ENTRY * ALLOCATIONS) a n →
  (∀ x, is_Some (kmem k !! x) → is_Some (m' !! x)) → wf_mem m' → tracked (Kernel m' (kernel_heap k)) segs.
Proof.
  intros [(Hh & Hl & Hwf & Hmap) Hf Hm Ha Ht] Hc Hd Hmono Hwf'. split; cbn [kmem kernel_heap]; try done.
  - split; [done|]. split; [done|]. split; [done|]. intros x Hx. apply Hmono, Hmap, Hx.
  - intros x Hx. apply Hmono, Hm, Hx.
  - by eapply table_holds_changes.
Qed.

Lemma kzalloc_runs k segs size p h : kernel_ok k segs → 0 < size < 2 ^ 32 →
  heap_malloc kernel_fuel (kernel_heap k) size = Ok (p, h) → ∃ k', __kzalloc kernel_fuel k size = Ok (p, k').
Proof.
  intros Hk Hs E. unfold __kzalloc. rewrite E, bind_Ok. case_decide as Hp; [rewrite Hp; by eexists|].
  destruct (malloc_region _ _ _ _ _ Hk Hs E Hp) as [_ ->]. rewrite bind_Ok. by eexists.
Qed.

(** A granted request and its entry keep the table in step with the heap. *)
Lemma tracked_taken k k' s1 s2 n size line f g : tracked k (s1 ++ replicate n Free ++ s2) → (0 < n)%nat →
  n = Z.to_nat (size_to_nblocks size) → 0 < size < 2 ^ 32 → 0 ≤ line < 2 ^ 32 →
  Forall (λ b, 0 < b < 256) f → Forall (λ b, 0 < b < 256) g →
  kernel_ok k' (s1 ++ Used n :: s2) → base_addr (kernel_heap k') = base_addr (kernel_heap k) →
  mapped (kmem k') allocation_table (SIZEOF_MEMCHECK_ENTRY * ALLOCATIONS) →
  table_holds (kmem k') (starts (s1 ++ replicate n Free ++ s2)) →
  let b := length (layout s1) in
  let m := entry_writes (kmem k') (entry (Z.of_nat b)) (size_to_nblocks size) (block_addr k b) f g line in
  (b < 4096)%nat ∧ tracked (Kernel m (kernel_heap k')) (s1 ++ Used n :: s2) ∧
  recorded m b (size_to_nblocks size) (block_addr k b) f g line.
Proof.
  intros [Hk Hf _ Ha _] Hn En Hs Hline Bf Bg Hk' Hb Hm Ht b m. pose proof (size_to_nblocks_range size Hs) as [Hr _].
  assert (Hs1 : Forall seg_ok s1) by (destruct Hk as (Hh & _); pose proof (ok_segs _ _ Hh) as Hx; by apply Forall_app in Hx as [? _]).
  assert (Hlen : (b + n ≤ 4096)%nat).
  { destruct Hk as (Hh & Hl & _). rewrite (ok_len _ _ Hh) in Hl. change (KERNEL_HEAP_SIZE / KERNEL_HEAP_BLOCK_SIZE) with 4096 in Hl.
    rewrite !layout_app, layout_free, !length_app, length_replicate in Hl. subst b. lia. }
  split; [lia|].
  assert (Hp : 0 ≤ block_addr k b < 2 ^ 32)
    by (destruct Hf; unfold block_addr, KERNEL_HEAP_SIZE, KERNEL_HEAP_BLOCK_SIZE in *; lia).
  assert (R : recorded m b (size_to_nblocks size) (block_addr k b) f g line) by (apply entry_writes_recorded; lia || done).
  split; [|exact R]. split; cbn [kmem kernel_heap].
  - destruct Hk' as (? & ? & ? & ?). split; [done|]. split; [done|]. split; [by apply entry_writes_wf|by apply entry_writes_mapped].
  - unfold heap_fits. cbn [kernel_heap]. by rewrite Hb.
  - by apply entry_writes_mapped.
  - by rewrite Hb.
  - eapply table_holds_ext; [intros b'; symmetry; by apply starts_used|].
    eapply (table_holds_entry (kmem k')); [apply entry_writes_changes| |done].
    etrans; [exact (rec_blocks _ _ _ _ _ _ _ R)|]. f_equal. lia.
Qed.
End tracking.

Section wrappers.
Context (allocation_table asd : Z) (counter : Z → Z).
Abbreviation entry := (entry allocation_table).
Abbreviation tracked := (tracked allocation_table).

(** ** Releasing *)

(** The entry after [memcheck_free]. *)
Definition entry_cleared (m : mem) (e : Z) : mem :=
  write_bytes (write_bytes m e (replicate (Z.to_nat SIZEOF_MEMCHECK_ENTRY) 0)) (e + me_line) (split4 (-1)).

Lemma entry_cleared_changes m e : changes e SIZEOF_MEMCHECK_ENTRY m (entry_cleared m e).
Proof.
  unfold entry_cleared, me_line, SIZEOF_MEMCHECK_ENTRY.
  eapply changes_trans; apply changes_write; rewrite ?length_replicate; cbn [split4 length]; lia.
Qed.

Lemma memcheck_free_ok k segs p : tracked k segs → 0 ≤ p - base_addr (kernel_heap k) < KERNEL_HEAP_SIZE →
  let b := Z.to_nat ((p - base_addr (kernel_heap k)) / KERNEL_HEAP_BLOCK_SIZE) in
  memcheck_free allocation_table k p =
  if decide (starts segs b = 0%nat) then Panic "DOUBLE FREE"
  else Ok (Kernel (entry_cleared (kmem k) (entry (Z.of_nat b))) (kernel_heap k)).
Proof.
  intros [Hk Hf Hm Ha Ht] Hp b. destruct (addr_block k p Hf Hp) as [E Hr].
  assert (Eb : kheap_addr_to_block k p = Z.of_nat b) by (subst b; lia).
  change ALLOCATIONS with 4096 in Hr. assert (Hb : (b < 4096)%nat) by lia.
  unfold memcheck_free. rewrite Eb. change ALLOCATIONS with 4096. rewrite decide_True by lia. rewrite (Ht b Hb), bind_Ok.
  pose proof (entry_in_table allocation_table _ _ Hm Hb) as He. repeat case_decide; try lia; [done|].
  rewrite memset_ok, memset_bytes_good, bind_Ok by (done || (right; by left)). change (u8 0) with 0.
  rewrite store32_ok, bind_Ok; [done|]. apply mapped_write_mono.
  unfold me_line, SIZEOF_MEMCHECK_ENTRY in *. eapply mapped_sub; [exact He|lia|lia].
Qed.

Lemma tracked_released k k' s1 n s2 : tracked k (s1 ++ Used n :: s2) → (0 < n)%nat →
  let b := length (layout s1) in
  kernel_ok k' (s1 ++ replicate n Free ++ s2) → base_addr (kernel_heap k') = base_addr (kernel_heap k) →
  (b < 4096)%nat →
  kmem k' = write_bytes (entry_cleared (kmem k) (entry (Z.of_nat b))) (block_addr k b) (replicate 4096 255) →
  tracked k' (s1 ++ replicate n Free ++ s2).
Proof.
  intros [Hk Hf Hm Ha Ht] Hn b Hk' Hb Hlt Hmem.
  assert (Hs1 : Forall seg_ok s1) by (destruct Hk as (Hh & _); pose proof (ok_segs _ _ Hh) as Hx; by apply Forall_app in Hx as [? _]).
  assert (Hc : changes (base_addr (kernel_heap k)) KERNEL_HEAP_SIZE (entry_cleared (kmem k) (entry (Z.of_nat b))) (kmem k')).
  { rewrite Hmem. apply changes_write; rewrite ?length_replicate; unfold block_addr, KERNEL_HEAP_SIZE, KERNEL_HEAP_BLOCK_SIZE in *; lia. }
  split; [exact Hk'|unfold heap_fits; by rewrite Hb| |by rewrite Hb|].
  - rewrite Hmem. by repeat apply mapped_write_mono.
  - eapply table_holds_changes; [exact Hc|done|].
    eapply (table_holds_ext _ _ (λ b', if decide (b' = b) then 0%nat else starts (s1 ++ Used n :: s2) b')).
    { intros b'. case_decide as E; [subst b'; by rewrite starts_freed|]. rewrite starts_used, decide_False by done. done. }
    eapply table_holds_entry; [apply entry_cleared_changes| |exact Ht].
    unfold entry_cleared, me_blocks, me_line. rewrite load32_write_other by (cbn [split4 length]; lia).
    apply load32_zeroed; unfold SIZEOF_MEMCHECK_ENTRY; lia.
Qed.

Lemma tracked_start k s1 n s2 : tracked k (s1 ++ Used n :: s2) →
  (0 < n)%nat ∧ (length (layout s1) < 4096)%nat ∧ starts (s1 ++ Used n :: s2) (length (layout s1)) = n ∧
  0 ≤ block_addr k (length (layout s1)) - base_addr (kernel_heap k) < KERNEL_HEAP_SIZE ∧
  Z.to_nat ((block_addr k (length (layout s1)) - base_addr (kernel_heap k)) / KERNEL_HEAP_BLOCK_SIZE) = length (layout s1).
Proof.
  intros [(Hh & Hl & _) Hf _ _ _]. pose proof (ok_segs _ _ Hh) as Hs.
  rewrite Forall_app, Forall_cons in Hs. destruct Hs as (Hs1 & Hn & _). cbn in Hn. split; [done|].
  rewrite (ok_len _ _ Hh), layout_app, layout_cons, !length_app, seg_bytes_length in Hl.
  change (KERNEL_HEAP_SIZE / KERNEL_HEAP_BLOCK_SIZE) with 4096 in Hl. cbn [seg_size] in Hl. split; [lia|]. split.
  - rewrite starts_used, decide_True by done. done.
  - unfold block_addr, KERNEL_HEAP_SIZE, KERNEL_HEAP_BLOCK_SIZE.
    replace (base_addr (kernel_heap k) + 4096 * Z.of_nat (length (layout s1)) - base_addr (kernel_heap k))
      with (Z.of_nat (length (layout s1)) * 4096) by lia.
    rewrite Z.div_mul by lia. lia.
Qed.

(** [kfree] of a live allocation, unless it is the heap's last. *)
Lemma memcheck_kfree_spec s s1 n s2 : tracked (kern s) (s1 ++ Used n :: s2) → s2 ≠ [] →
  ∃ s', __memcheck_kfree allocation_table s (block_addr (kern s) (length (layout s1))) = Ok s' ∧
    tracked (kern s') (s1 ++ replicate n Free ++ s2) ∧
    base_addr (kernel_heap (kern s')) = base_addr (kernel_heap (kern s)).
Proof.
  intros T Hs2. destruct (tracked_start _ _ _ _ T) as (Hn & Hb & Est & Hr & Ei).
  unfold __memcheck_kfree. rewrite (memcheck_free_ok _ _ _ T Hr). cbn zeta. rewrite Ei, Est, decide_False, bind_Ok by lia.
  set (b := length (layout s1)) in *. set (k1 := Kernel _ _).
  pose proof (entry_in_table allocation_table _ _ (tr_mapped _ _ _ T) Hb) as He.
  assert (Hk1 : kernel_ok k1 (s1 ++ Used n :: s2)).
  { destruct T as [(Hh & Hl & Hwf & Hmap) _ _ _ _]. split; [exact Hh|]. split; [exact Hl|]. subst k1. cbn [kmem kernel_heap].
    split; [|by repeat apply mapped_write_mono]. apply wf_write_bytes; [|auto with avocado].
    apply wf_write_bytes; [done|]. apply Forall_replicate. by unfold is_byte. }
  destruct (kfree_ok _ _ _ _ Hk1 Hs2) as (k' & E). change (base_addr (kernel_heap k1)) with (base_addr (kernel_heap (kern s))) in E.
  destruct (kfree_cases _ _ _ _ _ Hk1 E) as (Hk' & Hb' & Hm' & _).
  unfold block_addr. fold b in E. rewrite E, bind_Ok. eexists. split; [done|]. cbn [kern]. split; [|done].
  by apply (tracked_released (kern s)).
Qed.

(** ** Allocating *)

(** Where the checker and the heap write: the buffer [asd], the array, the heap. *)
Record buffer_ok (k : kernel) : Prop := BufferOk {
  buf_mapped : mapped (kmem k) asd 20;
  buf_heap : apart asd 20 (base_addr (kernel_heap k)) KERNEL_HEAP_SIZE;
  buf_table : apart asd 20 allocation_table (SIZEOF_MEMCHECK_ENTRY * ALLOCATIONS)
}.

(** A literal of the caller, [__FILE__] or [__FUNCTION__]. *)
Record literal (k : kernel) (a : Z) (s : list Z) : Prop := Literal {
  lit_buffer : cstr_apart (kmem k) a s asd 20;
  lit_heap : cstr_apart (kmem k) a s (base_addr (kernel_heap k)) KERNEL_HEAP_SIZE;
  lit_table : cstr_apart (kmem k) a s allocation_table (SIZEOF_MEMCHECK_ENTRY * ALLOCATIONS)
}.

Lemma literal_cstr k m h a s b : literal k a s → cstr m a s → (b < 4096)%nat →
  cstr_apart (kmem (Kernel m h)) a s (entry (Z.of_nat b)) SIZEOF_MEMCHECK_ENTRY.
Proof.
  intros [_ _ [_ D]] Hc Hb. split; [done|]. change ALLOCATIONS with 4096 in D.
  unfold apart, MemCheck.entry, SIZEOF_MEMCHECK_ENTRY in *. lia.
Qed.

(** Printing a number in the buffer. *)
Definition in_buffer (m : mem) (c : Z) : mem := write_bytes m asd (itoa_text (s32 c) ++ [0]).

Lemma in_buffer_changes m c : changes asd 20 m (in_buffer m c).
Proof. pose proof (itoa_text_length c). apply changes_write; [|rewrite length_app; cbn [length]]; lia. Qed.

Lemma in_buffer_cstr m c : cstr (in_buffer m c) asd (itoa_text (s32 c)).
Proof. split; [apply bytes_at_write|apply itoa_text_bytes]. Qed.

Lemma in_buffer_wf m c : wf_mem m → wf_mem (in_buffer m c).
Proof.
  intros Hm. apply wf_write_bytes; [done|]. apply Forall_app. split; [|repeat constructor; unfold is_byte; lia].
  eapply Forall_impl; [apply itoa_text_bytes|]. unfold is_byte. cbn. lia.
Qed.

Lemma buffer_print fuel m c t : mapped m asd 20 → s32 c ≠ - 2 ^ 31 → (11 < fuel)%nat →
  itoa m c asd = Ok (in_buffer m c) ∧
  print fuel (in_buffer m c) t asd = Ok (print_literal t (itoa_text (s32 c))).
Proof.
  intros Hm Hc Hf. pose proof (itoa_text_length c). split.
  - apply itoa_ok; [done|]. eapply mapped_sub; [exact Hm|lia|lia].
  - apply put_str_fold; [apply in_buffer_cstr|lia].
Qed.

(** What [__memcheck_kzalloc] prints. *)
Definition kzalloc_report (t : terminal) (n ptr : Z) : terminal :=
  print_literal t (text "Allocations->>>>>>>" ++ itoa_text (s32 n) ++ text "<<<<<<<<<" ++
    itoa_text (s32 ptr) ++ text "<<<<<<<<<" ++ [10]).

Lemma buffer_ok_tracked k segs c : tracked k segs → buffer_ok k →
  tracked (Kernel (in_buffer (kmem k) c) (kernel_heap k)) segs.
Proof.
  intros T [Hm Hh Ht]. eapply tracked_changes; [done|apply in_buffer_changes| | |].
  - destruct Ht; [by right|by left].
  - intros x Hx. by apply write_bytes_some.
  - apply in_buffer_wf. destruct T as [(_ & _ & Hwf & _) _ _ _ _]. done.
Qed.

(** The wrapper up to [memcheck_allocate], for any result of the heap. *)
Lemma memcheck_kzalloc_start fuel s segs size filename function line p k :
  tracked (kern s) segs → buffer_ok (kern s) → (11 < fuel)%nat →
  s32 (n_allocations s) ≠ - 2 ^ 31 → s32 p ≠ - 2 ^ 31 →
  __kzalloc kernel_fuel (Kernel (in_buffer (kmem (kern s)) (n_allocations s)) (kernel_heap (kern s))) size = Ok (p, k) →
  changes (base_addr (kernel_heap (kern s))) KERNEL_HEAP_SIZE (in_buffer (kmem (kern s)) (n_allocations s)) (kmem k) →
  mapped (kmem k) asd 20 →
  __memcheck_kzalloc allocation_table asd counter fuel s size filename function line =
  (k ← memcheck_allocate allocation_table (Kernel (in_buffer (kmem k) p) (kernel_heap k)) p size filename function line;
   Ok (p, Checked k (kzalloc_report (screen s) (n_allocations s) p) (counter (n_allocations s + size)))).
Proof.
  intros T [Hm Hh Ht] Hf Hn Hp E Hc Hm'. unfold __memcheck_kzalloc.
  destruct (buffer_print fuel _ (n_allocations s) (print_literal (screen s) (text "Allocations->>>>>>>")) Hm Hn Hf) as [-> _].
  rewrite bind_Ok, E, bind_Ok.
  unfold print. rewrite (put_str_fold fuel _ _ _ (itoa_text (s32 (n_allocations s)))), bind_Ok.
  2: { split; [|apply itoa_text_bytes]. eapply changes_bytes; [exact Hc| |apply bytes_at_write].
       pose proof (itoa_text_length (n_allocations s)). rewrite length_app. cbn [length]. unfold apart in *. lia. }
  2: { pose proof (itoa_text_length (n_allocations s)). lia. }
  set (t := print_literal (foldl _ _ _) _).
  destruct (buffer_print fuel (kmem k) p t Hm' Hp Hf) as [-> Hpr]. rewrite bind_Ok. unfold print in Hpr. rewrite Hpr, bind_Ok.
  subst t. unfold kzalloc_report, print_literal. by rewrite !foldl_app.
Qed.

Lemma taken_bound k s1 n s2 : kernel_ok k (s1 ++ Used n :: s2) → (length (layout s1) + n ≤ 4096)%nat.
Proof.
  intros (Hh & Hl & _). rewrite (ok_len _ _ Hh), layout_app, layout_cons, !length_app, seg_bytes_length in Hl.
  change (KERNEL_HEAP_SIZE / KERNEL_HEAP_BLOCK_SIZE) with 4096 in Hl. cbn [seg_size] in Hl. lia.
Qed.

(** Clearing what was granted changes the heap's memory only. *)
Lemma grant_changes k k' s1 n s2 m size : kernel_ok k' (s1 ++ Used n :: s2) →
  size ≤ KERNEL_HEAP_BLOCK_SIZE * Z.of_nat n →
  changes (base_addr (kernel_heap k)) KERNEL_HEAP_SIZE m
    (write_bytes m (block_addr k (length (layout s1))) (replicate (Z.to_nat size) 0)).
Proof.
  intros Hk Hs. pose proof (taken_bound _ _ _ _ Hk). apply changes_write; rewrite ?length_replicate;
    unfold block_addr, KERNEL_HEAP_SIZE, KERNEL_HEAP_BLOCK_SIZE in *; lia.
Qed.

(** The caller's strings outlast the buffer's and the heap's writes. *)
Lemma literal_kept k m c c' a l :
  changes (base_addr (kernel_heap k)) KERNEL_HEAP_SIZE (in_buffer (kmem k) c) m →
  literal k a l → cstr (in_buffer m c') a l.
Proof.
  intros Hc [L1 L2 L3]. apply (changes_cstr asd 20 m); [apply in_buffer_changes|]. split; [|apply L1].
  apply (changes_cstr (base_addr (kernel_heap k)) KERNEL_HEAP_SIZE (in_buffer (kmem k) c)); [done|]. split; [|apply L2].
  apply (changes_cstr asd 20 (kmem k)); [apply in_buffer_changes|done].
Qed.

(** The wrapper on a tracked heap, for whatever the search of the heap returned. *)
Lemma memcheck_kzalloc_spec fuel s segs size filename function line f g p h :
  tracked (kern s) segs → buffer_ok (kern s) → literal (kern s) filename f → literal (kern s) function g →
  0 < size ≤ 2 ^ 32 - 4096 → 0 ≤ line < 2 ^ 31 → (11 < fuel)%nat →
  s32 (n_allocations s) ≠ - 2 ^ 31 → s32 p ≠ - 2 ^ 31 →
  heap_malloc kernel_fuel (kernel_heap (kern s)) size = Ok (p, h) →
  (p = 0 ∧ __memcheck_kzalloc allocation_table asd counter fuel s size filename function line =
     Panic "WRONG POINTER: Too low or too high") ∨
  ∃ s1 n s2 s', segs = s1 ++ replicate n Free ++ s2 ∧ p = block_addr (kern s) (length (layout s1)) ∧
    __memcheck_kzalloc allocation_table asd counter fuel s size filename function line = Ok (p, s') ∧
    tracked (kern s') (s1 ++ Used n :: s2) ∧
    recorded allocation_table (kmem (kern s')) (length (layout s1)) (size_to_nblocks size) p f g line ∧
    screen s' = kzalloc_report (screen s) (n_allocations s) p ∧ n_allocations s' = counter (n_allocations s + size).
Proof.
  intros T B F G Hs Hline Hf Hn Hp E. pose proof (buffer_ok_tracked _ _ (n_allocations s) T B) as T1.
  set (k1 := Kernel _ _) in T1. destruct (kzalloc_runs k1 segs size p h (tr_ok _ _ _ T1)) as (k' & Ek); [lia|done|].
  assert (Hsz : 0 < size < 2 ^ 32) by lia.
  assert (Bm : ∀ m, (∀ x, is_Some (kmem k1 !! x) → is_Some (m !! x)) → mapped m asd 20).
  { intros m Hmono x Hx. apply Hmono. apply write_bytes_some. by apply (buf_mapped _ B). }
  destruct (kzalloc_cases _ _ _ _ _ (tr_ok _ _ _ T1) Hsz Ek)
    as [(-> & Hm & Hk' & Hb)|(s1 & s2 & n & Hn0 & -> & Hk' & Hfit & Ep & Hb & Hm & En)].
  - left. split; [done|]. rewrite (memcheck_kzalloc_start _ _ _ _ _ _ _ _ _ T B Hf Hn Hp Ek); [|by rewrite Hm|by apply Bm; rewrite Hm].
    unfold memcheck_allocate. cbn zeta. rewrite decide_True; [done|]. left. cbn [kernel_heap]. rewrite Hb.
    apply (tr_fits _ _ _ T1).
  - right. change (base_addr (kernel_heap k1)) with (base_addr (kernel_heap (kern s))) in *.
    set (b := length (layout s1)) in *. change (_ + _) with (block_addr (kern s) b) in Ep. rewrite Ep in Hm.
    pose proof (grant_changes (kern s) _ _ _ _ (kmem k1) size Hk' Hfit) as Hc. fold b in Hc. rewrite <- Hm in Hc.
    assert (Hmono : ∀ x, is_Some (kmem k1 !! x) → is_Some (in_buffer (kmem k') p !! x)).
    { intros x Hx. apply write_bytes_some. rewrite Hm. by apply write_bytes_some. }
    rewrite (memcheck_kzalloc_start _ _ _ _ _ _ _ _ _ T B Hf Hn Hp Ek Hc)
      by (apply Bm; intros x Hx; rewrite Hm; by apply write_bytes_some).
    set (k2 := Kernel _ _).
    pose proof (λ a l, literal_kept (kern s) _ _ p a l Hc) as Hs12.
    assert (Hk2 : kernel_ok k2 (s1 ++ Used n :: s2)).
    { destruct Hk' as (Hh & Hl & Hwf & Hmap). split; [exact Hh|]. split; [exact Hl|]. split; [by apply in_buffer_wf|].
      by apply mapped_write_mono. }
    destruct (tracked_taken _ k1 k2 s1 s2 n size line f g T1) as (Hb4 & T2 & R);
      [done|done|done|lia|apply F|apply G|done|done|intros x Hx; apply Hmono; by apply (tr_mapped _ _ _ T1)| |].
    { eapply table_holds_changes; [apply in_buffer_changes|destruct (buf_table _ B); [by right|by left]|].
      eapply table_holds_changes; [exact Hc|apply (tr_apart _ _ _ T1)|apply T1]. }
    fold b in T2, R. change (block_addr k1 b) with (block_addr (kern s) b) in *.
    assert (Hk2b : block_addr k2 b = block_addr (kern s) b) by (unfold block_addr; by rewrite <- Hb).
    pose proof (memcheck_allocate_ok allocation_table k2 b size filename function line f g) as Ea.
    rewrite Hk2b, <- Ep in Ea. rewrite Ea, bind_Ok.
    + exists s1, n, s2. eexists. split; [done|]. split; [done|]. split; [done|]. cbn [kern screen n_allocations].
      rewrite <- Ep in T2, R. done.
    + unfold heap_fits. cbn [k2 kernel_heap]. rewrite Hb. apply (tr_fits _ _ _ T).
    + done.
    + apply entry_in_table; [|done]. intros x Hx. apply Hmono. by apply (tr_mapped _ _ _ T1).
    + done.
    + by apply (literal_cstr (kern s)); [|apply Hs12|].
    + by apply (literal_cstr (kern s)); [|apply Hs12|].
Qed.
End wrappers.

(** ** The report *)

Lemma cmp_strings_zero s1 s2 : Forall (λ b, 0 < b < 256) s1 → Forall (λ b, 0 < b < 256) s2 →
  cmp_bytes (s1 ++ [0]) (s2 ++ [0]) = 0 ↔ s1 = s2.
Proof.
  intros H1. revert s2. induction H1 as [|x s1 Hx _ IH]; intros s2 H2.
  - destruct H2 as [|y s2 Hy _]; [done|]. cbn [app cmp_bytes]. rewrite decide_False by tauto.
    split; [|discriminate]. intros E. assert (0 = y); [apply s8_inj|lia]; unfold is_byte; try lia.
  - destruct H2 as [|y s2 Hy H2]; cbn [app cmp_bytes].
    + rewrite decide_False by lia. split; [|discriminate]. intros E.
      assert (x = 0); [apply s8_inj|lia]; unfold is_byte; try lia.
    + case_decide as Hc.
      * destruct Hc as [_ ->]. rewrite IH by done. split; [by intros ->|by intros [= ->]].
      * split; [|intros [= -> ->]; destruct Hc; split; [lia|done]].
        intros E. destruct Hc. split; [lia|]. apply s8_inj; unfold is_byte; lia.
Qed.

(** What an allocation's entry holds, and the line [memcheck_check] prints for it. *)
Record allocation := Allocation { al_ptr : Z; al_filename : list Z; al_function : list Z; al_line : Z }.

Definition report_line (skip : list Z) (o : option allocation) : list Z :=
  match o with
  | Some a =>
      if decide (al_function a = skip) then []
      else text "alloc: " ++ al_filename a ++ [58] ++ al_function a ++ [58] ++ itoa_text (s32 (al_line a)) ++
        text " addr: " ++ itoa_text (s32 (al_ptr a)) ++ [10]
  | None => []
  end.

Section report.
Context (allocation_table buffer skip : Z).
Abbreviation entry := (entry allocation_table).

(** The whole array, as the allocations it records: a name is terminated in its field. *)
Record reports (m : mem) (b : nat) (o : option allocation) : Prop := Reports {
  rep_blocks : match o with
    | Some a => ∃ blocks, blocks ≠ 0 ∧ recorded allocation_table m b blocks (al_ptr a) (al_filename a) (al_function a) (al_line a)
    | None => load32 m (entry (Z.of_nat b) + me_blocks) = Ok 0
    end;
  rep_names : match o with
    | Some a => Forall (λ b, 0 < b < 256) (al_filename a) ∧ Forall (λ b, 0 < b < 256) (al_function a) ∧
        (length (al_filename a) < 50)%nat ∧ (length (al_function a) < 50)%nat ∧
        s32 (al_ptr a) ≠ - 2 ^ 31 ∧ s32 (al_line a) ≠ - 2 ^ 31
    | None => True
    end
}.

Lemma name_field_cstr m a s : Forall (λ b, 0 < b < 256) s → (length s < 50)%nat → bytes_at m a (name_field s) → cstr m a s.
Proof.
  intros Hs Hl Hb. split; [|done]. unfold name_field in Hb. rewrite take_ge in Hb by lia.
  replace (50 - length s)%nat with (S (49 - length s)) in Hb by lia. rewrite replicate_S in Hb.
  change (s ++ 0 :: ?l) with (s ++ [0] ++ l) in Hb. rewrite app_assoc in Hb. by apply bytes_at_app in Hb as [Hb _].
Qed.

Lemma recorded_changes a n m m' b blocks ptr f g line : changes a n m m' →
  apart (entry (Z.of_nat b)) SIZEOF_MEMCHECK_ENTRY a n →
  recorded allocation_table m b blocks ptr f g line → recorded allocation_table m' b blocks ptr f g line.
Proof.
  unfold apart, SIZEOF_MEMCHECK_ENTRY. intros Hc Hd [R1 R2 R3 R4 R5].
  unfold me_blocks, me_ptr, me_filename, me_function, me_line in *.
  split; unfold me_blocks, me_ptr, me_filename, me_function, me_line;
    [rewrite (changes_load a n m)|rewrite (changes_load a n m)|eapply changes_bytes|eapply changes_bytes|rewrite (changes_load a n m)];
    try done; unfold apart; rewrite ?name_field_length; lia.
Qed.

Lemma reports_changes a n m m' b o : changes a n m m' → (b < 4096)%nat →
  apart allocation_table (SIZEOF_MEMCHECK_ENTRY * ALLOCATIONS) a n → reports m b o → reports m' b o.
Proof.
  intros Hc Hb Hd [Hr Hn]. change ALLOCATIONS with 4096 in Hd.
  assert (Hd' : apart (entry (Z.of_nat b)) SIZEOF_MEMCHECK_ENTRY a n)
    by (unfold apart, MemCheck.entry, SIZEOF_MEMCHECK_ENTRY in *; lia).
  split; [|done]. destruct o as [al|].
  - destruct Hr as (blocks & Hz & Hr). exists blocks. split; [done|]. by eapply recorded_changes.
  - rewrite (changes_load a n m); [done..|]. unfold apart, me_blocks, SIZEOF_MEMCHECK_ENTRY in *. lia.
Qed.

(** One entry prints its line; only the buffer changes. *)
Lemma check_entry_spec fuel m t b o sk : reports m b o → (b < 4096)%nat → (50 < fuel)%nat →
  cstr m skip sk → mapped m buffer 100 →
  apart allocation_table (SIZEOF_MEMCHECK_ENTRY * ALLOCATIONS) buffer 100 →
  ∃ m', check_entry allocation_table fuel buffer skip (Z.of_nat b) (m, t) =
      Ok (m', print_literal t (report_line sk o)) ∧ changes buffer 100 m m' ∧ mapped m' buffer 100.
Proof.
  intros [Hr Hn] Hb Hf Hsk Hm Hd. unfold check_entry. rewrite decide_True by (change ALLOCATIONS with 4096; lia).
  destruct o as [a|]; [|exists m; rewrite Hr, bind_Ok, decide_True by done; done].
  destruct Hr as (blocks & Hz & R). destruct Hn as (Bf & Bg & Lf & Lg & Hp & Hl).
  rewrite (rec_blocks _ _ _ _ _ _ _ _ R), bind_Ok, decide_False by done.
  pose proof (name_field_cstr _ _ _ Bf Lf (rec_filename _ _ _ _ _ _ _ _ R)) as Cf.
  pose proof (name_field_cstr _ _ _ Bg Lg (rec_function _ _ _ _ _ _ _ _ R)) as Cg.
  rewrite (strcmp_ok fuel m _ _ _ _ Cg Hsk), bind_Ok by lia. cbn [report_line].
  destruct (decide (al_function a = sk)) as [E|E].
  { rewrite decide_True; [by exists m|]. apply cmp_strings_zero; [done|apply Hsk|done]. }
  rewrite decide_False by (rewrite cmp_strings_zero; [done|done|apply Hsk]).
  assert (Hd' : apart (entry (Z.of_nat b)) SIZEOF_MEMCHECK_ENTRY buffer 20).
  { change ALLOCATIONS with 4096 in Hd. unfold apart, MemCheck.entry, SIZEOF_MEMCHECK_ENTRY in *. lia. }
  assert (Hbuf : ∀ m', mapped m' buffer 100 → mapped m' buffer 20) by (intros m' H; eapply mapped_sub; [exact H|lia|lia]).
  assert (Hln : s32 (s32 (al_line a)) = s32 (al_line a)) by (apply s32_id, s32_range).
  unfold print. rewrite (put_str_fold fuel _ _ _ _ _ Cf), bind_Ok, (put_str_fold fuel _ _ _ _ _ Cg), bind_Ok by lia.
  rewrite (rec_line _ _ _ _ _ _ _ _ R), bind_Ok.
  destruct (buffer_print buffer fuel m (s32 (al_line a)) t (Hbuf _ Hm)) as [E1 _]; [by rewrite Hln|lia|].
  rewrite E1, bind_Ok. set (m1 := in_buffer buffer m (s32 (al_line a))).
  pose proof (in_buffer_cstr buffer m (s32 (al_line a))) as C1. fold m1 in C1. rewrite Hln in C1.
  pose proof (itoa_text_length (al_line a)) as L1. pose proof (itoa_text_length (al_ptr a)) as L2.
  rewrite (put_str_fold fuel _ _ _ _ _ C1), bind_Ok by lia.
  pose proof (recorded_changes buffer 20 m m1 _ _ _ _ _ _ (in_buffer_changes _ _ _) Hd' R) as R1.
  rewrite (rec_ptr _ _ _ _ _ _ _ _ R1), bind_Ok.
  assert (Hm1 : mapped m1 buffer 100) by by apply mapped_write_mono.
  destruct (buffer_print buffer fuel m1 (al_ptr a) t (Hbuf _ Hm1) Hp) as [E2 _]; [lia|]. rewrite E2, bind_Ok.
  rewrite (put_str_fold fuel _ _ _ _ _ (in_buffer_cstr buffer m1 (al_ptr a))), bind_Ok by lia.
  eexists. split; [|split; [|by apply mapped_write_mono]].
  2: { apply (changes_trans _ _ _ m1); (eapply changes_wider; [apply (in_buffer_changes buffer)|lia|lia]). }
  unfold print_literal, print_char. rewrite !foldl_app. done.
Qed.

(** [memcheck_check] prints a line for every allocation that is live, in the order of
    the blocks, but for those of the function to skip. *)
Lemma memcheck_check_spec fuel m t (al : nat → option allocation) sk :
  (∀ b, (b < 4096)%nat → reports m b (al b)) → (50 < fuel)%nat → cstr_apart m skip sk buffer 100 →
  mapped m buffer 100 → apart allocation_table (SIZEOF_MEMCHECK_ENTRY * ALLOCATIONS) buffer 100 →
  ∃ m', memcheck_check allocation_table fuel memcheck_table_init buffer skip m t =
    Ok (m', print_literal t (10 :: concat ((λ b, report_line sk (al b)) <$> seq 0 4096))) ∧
    changes buffer 100 m m'.
Proof.
  intros Hr Hf Hsk Hm Hd. unfold memcheck_check.
  destruct (for_loop_ok (λ i (mt : mem * terminal), changes buffer 100 m mt.1 ∧ mapped mt.1 buffer 100 ∧
      mt.2 = print_literal t (10 :: concat ((λ b, report_line sk (al b)) <$> seq 0 (Z.to_nat i))))
    (check_entry allocation_table fuel buffer skip) (Z.to_nat memcheck_table_init) 0 (m, print_char t 10))
    as ([m' t'] & -> & Hc & _ & Ht).
  - intros i [m1 t1] Hi (Hc & Hm1 & Ht). cbn [fst snd] in *. change (Z.of_nat (Z.to_nat memcheck_table_init)) with 4096 in Hi.
    destruct (check_entry_spec fuel m1 t1 (Z.to_nat i) (al (Z.to_nat i)) sk) as (m2 & E & Hc2 & Hm2); try done; [|lia| |].
    + eapply reports_changes; [exact Hc|lia|exact Hd|apply Hr; lia].
    + by eapply changes_cstr.
    + rewrite Z2Nat.id in E by lia. rewrite E. eexists. split; [done|]. cbn [fst snd]. split; [by eapply changes_trans|]. split; [done|].
      replace (Z.to_nat (i + 1)) with (S (Z.to_nat i)) by lia. rewrite seq_S, fmap_app, concat_app, Ht. cbn [fmap list_fmap concat].
      rewrite app_nil_r, app_comm_cons. unfold print_literal. by rewrite foldl_app.
  - done.
  - exists m'. split; [|exact Hc]. cbn [snd] in Ht. by rewrite Ht.
Qed.
End report.

(** ** The start *)

(** A heap with nothing allocated and an array of zeros, as the start of the kernel
    leaves them, are in step. *)
Lemma tracked_init allocation_table k n : kernel_ok k (replicate n Free) → heap_fits k →
  apart allocation_table (SIZEOF_MEMCHECK_ENTRY * ALLOCATIONS) (base_addr (kernel_heap k)) KERNEL_HEAP_SIZE →
  bytes_at (kmem k) allocation_table (replicate (Z.to_nat (SIZEOF_MEMCHECK_ENTRY * ALLOCATIONS)) 0) →
  tracked allocation_table k (replicate n Free).
Proof.
  intros Hk Hf Ha Hz. split; try done.
  - apply bytes_at_mapped in Hz. rewrite length_replicate in Hz. exact Hz.
  - intros b Hb. rewrite starts_free. apply (load32_split4 _ _ 0); [lia|]. intros i x Hi.
    change (split4 0) with (replicate 4 0) in Hi. apply lookup_replicate in Hi as [-> Hlt].
    assert (Hin : replicate (Z.to_nat (SIZEOF_MEMCHECK_ENTRY * ALLOCATIONS)) 0 !! (112 * b + i)%nat = Some 0)
      by (apply lookup_replicate_2; change (SIZEOF_MEMCHECK_ENTRY * ALLOCATIONS) with 458752; lia).
    apply Hz in Hin. rewrite <- Hin. f_equal. unfold entry, me_blocks, SIZEOF_MEMCHECK_ENTRY. lia.
Qed.

(** * Properties *)

(** What a pointer that is not the start of a live allocation gets. *)
Lemma memcheck_kfree_stale allocation_table s segs p : tracked allocation_table (kern s) segs →
  0 ≤ p - base_addr (kernel_heap (kern s)) < KERNEL_HEAP_SIZE →
  starts segs (Z.to_nat ((p - base_addr (kernel_heap (kern s))) / KERNEL_HEAP_BLOCK_SIZE)) = 0%nat →
  __memcheck_kfree allocation_table s p = Panic "DOUBLE FREE".
Proof.
  intros T Hp Hz. unfold __memcheck_kfree. rewrite (memcheck_free_ok _ _ _ _ T Hp). cbn zeta. by rewrite decide_True.
Qed.

Definition witness_table : Z := 0x2000000.
Definition witness_buffer : Z := 0x3001000.
Definition witness_strings : mem :=
  write_bytes (write_bytes (write_bytes ∅ witness_buffer (replicate 20 7)) 0x3000000 (text "fat16.c" ++ [0]))
    0x3000100 (text "fat16_open" ++ [0]).
Definition witness_blank : mem :=
  write_bytes (write_bytes witness_strings 0x10000 (replicate (Z.to_nat 12288) 7))
    witness_table (replicate (Z.to_nat (SIZEOF_MEMCHECK_ENTRY * ALLOCATIONS)) 0).
Definition witness_checked : checked :=
  Checked (Kernel (write_bytes witness_blank (entry witness_table 0 + me_blocks) (split4 1)) (small_heap [Used 1; Free; Free] 0))
    (Terminal ∅ 0 0) 5.

(** The heap's first block taken, and its entry set. *)
Lemma small_tracked m : tracked witness_table (Kernel m (small_heap [Free; Free; Free] 0)) [Free; Free; Free] →
  tracked witness_table (Kernel (write_bytes m (entry witness_table 0 + me_blocks) (split4 1)) (small_heap [Used 1; Free; Free] 0))
    [Used 1; Free; Free].
Proof.
  intros [(_ & _ & Hwf & Hmap) Hf Hm Ha Ht]. split; [|exact Hf|by apply mapped_write_mono|exact Ha|].
  - split; [by apply small_heap_ok; repeat constructor|]. split; [by vm_compute|]. split.
    + apply wf_write_bytes; [exact Hwf|auto with avocado].
    + by apply mapped_write_mono.
  - eapply (table_holds_ext _ _ (λ b', if decide (b' = 0%nat) then 1%nat else starts [Free; Free; Free] b')).
    { intros [|[|[|[|b]]]]; reflexivity. }
    eapply (table_holds_entry _ m _ _ 0); [| |exact Ht].
    + apply changes_write; unfold me_blocks, SIZEOF_MEMCHECK_ENTRY; cbn [split4 length]; change (Z.of_nat 0) with 0; lia.
    + by apply load32_write_same.
Qed.

Lemma witness_tracked : tracked witness_table (kern witness_checked) [Used 1; Free; Free].
Proof.
  assert (Hw : wf_mem witness_strings) by (apply wf_mem_check; vm_compute; reflexivity).
  apply small_tracked. apply (tracked_init _ _ 3).
  - split; [by apply small_heap_ok; repeat constructor|]. split; [by vm_compute|]. split.
    + unfold witness_blank. cbn [kmem]. repeat (apply wf_write_bytes; [|apply Forall_replicate; by unfold is_byte]). exact Hw.
    + apply mapped_write_mono, (mapped_fill _ _ 12288).
  - by split.
  - by right.
  - apply bytes_at_write.
Qed.

(** An address in a block where no live allocation starts is reported before the heap
    is touched, and so is the second of two releases. *)
(** C20: a second release is caught: with the checker on, [kfree] of a live allocation
    releases it and clears its entry, the table still follows the heap, and releasing
    the same address again panics with "DOUBLE FREE". *)
Theorem memcheck_kfree_once allocation_table s s1 n s2 :
  tracked allocation_table (kern s) (s1 ++ Used n :: s2) → s2 ≠ [] →
  let p := block_addr (kern s) (length (layout s1)) in
  ∃ s', __memcheck_kfree allocation_table s p = Ok s' ∧
    tracked allocation_table (kern s') (s1 ++ replicate n Free ++ s2) ∧
    __memcheck_kfree allocation_table s' p = Panic "DOUBLE FREE".
Proof.
  intros T Hs2 p. destruct (tracked_start _ _ _ _ _ T) as (Hn & _ & _ & Hr & Ei).
  destruct (memcheck_kfree_spec _ _ _ _ _ T Hs2) as (s' & E & T' & Hb). exists s'. split; [done|]. split; [done|].
  apply (memcheck_kfree_stale _ _ _ _ T'); rewrite Hb; [done|]. subst p. rewrite Ei. apply starts_freed; [|done].
  destruct T as [(Hh & _) _ _ _ _]. pose proof (ok_segs _ _ Hh) as Hx. by apply Forall_app in Hx as [? _].
Qed.

Lemma memcheck_kfree_once_witness :
  ∃ s', __memcheck_kfree witness_table witness_checked 0x10000 = Ok s' ∧
    tracked witness_table (kern s') [Free; Free; Free] ∧
    __memcheck_kfree witness_table s' 0x10000 = Panic "DOUBLE FREE".
Proof.
  apply (memcheck_kfree_once witness_table witness_checked [] 1 [Free; Free]); [exact witness_tracked|discriminate].
Defined.

(** C26: the checker records every allocation: when the heap grants a request, the
    wrapper of [kzalloc] returns the same address, leaves an entry with the blocks,
    the address, the caller's file and function and the line, prints its two numbers,
    and the table still follows the heap; when the heap is full it panics. *)
Theorem memcheck_kzalloc_records allocation_table asd counter fuel s segs size filename function line f g p h :
  tracked allocation_table (kern s) segs → buffer_ok allocation_table asd (kern s) →
  literal allocation_table asd (kern s) filename f → literal allocation_table asd (kern s) function g →
  0 < size ≤ 2 ^ 32 - 4096 → 0 ≤ line < 2 ^ 31 → (11 < fuel)%nat →
  s32 (n_allocations s) ≠ - 2 ^ 31 → s32 p ≠ - 2 ^ 31 →
  heap_malloc kernel_fuel (kernel_heap (kern s)) size = Ok (p, h) →
  let r := __memcheck_kzalloc allocation_table asd counter fuel s size filename function line in
  (p = 0 → r = Panic "WRONG POINTER: Too low or too high") ∧
  (p ≠ 0 → ∃ s1 n s2 s', segs = s1 ++ replicate n Free ++ s2 ∧ p = block_addr (kern s) (length (layout s1)) ∧
     r = Ok (p, s') ∧ tracked allocation_table (kern s') (s1 ++ Used n :: s2) ∧
     recorded allocation_table (kmem (kern s')) (length (layout s1)) (size_to_nblocks size) p f g line ∧
     screen s' = kzalloc_report (screen s) (n_allocations s) p ∧ n_allocations s' = counter (n_allocations s + size)).
Proof.
  intros T B F G Hs Hl Hf Hn Hp E r.
  destruct (memcheck_kzalloc_spec allocation_table asd counter fuel s segs size filename function line f g p h T B F G Hs Hl Hf Hn Hp E)
    as [[-> R]|(s1 & n & s2 & s' & H1 & H2 & H3)]; [by split|]. split.
  - intros Hz. destruct (tr_fits _ _ _ T). rewrite H2 in Hz. unfold block_addr, KERNEL_HEAP_BLOCK_SIZE in Hz. lia.
  - intros _. by exists s1, n, s2, s'.
Qed.

Lemma witness_literal a l : (a = 0x3000000 ∧ l = text "fat16.c") ∨ (a = 0x3000100 ∧ l = text "fat16_open") →
  literal witness_table witness_buffer (kern witness_checked) a l.
Proof.
  intros Ha.
  assert (Hm : ∀ a l, cstr witness_strings a l → 0x3000000 ≤ a →
    cstr (kmem (kern witness_checked)) a l).
  { intros b s [Hs Hb] Hlt. split; [|done]. pose proof (length_replicate (Z.to_nat (SIZEOF_MEMCHECK_ENTRY * ALLOCATIONS)) 0).
    pose proof (length_replicate (Z.to_nat 12288) 7). change (SIZEOF_MEMCHECK_ENTRY * ALLOCATIONS) with 458752 in *.
    apply bytes_at_write_other; [right; cbn [split4 length]; unfold entry, witness_table, me_blocks, SIZEOF_MEMCHECK_ENTRY; lia|].
    apply bytes_at_write_other; [right; unfold witness_table; change (SIZEOF_MEMCHECK_ENTRY * ALLOCATIONS) with 458752; lia|].
    apply bytes_at_write_other; [right; lia|done]. }
  assert (Hc : cstr witness_strings a l).
  { destruct Ha as [[-> ->]|[-> ->]]; (split; [apply bytes_at_check; vm_compute; reflexivity|decide_by_compute]). }
  apply Hm in Hc; [|destruct Ha as [[-> _]|[-> _]]; lia].
  split; (split; [exact Hc|]); unfold apart; destruct Ha as [[-> ->]|[-> ->]]; vm_compute; by (left + right).
Qed.

Lemma memcheck_kzalloc_records_witness : ∃ s1 n s2 s',
  [Used 1; Free; Free] = s1 ++ replicate n Free ++ s2 ∧ 0x11000 = block_addr (kern witness_checked) (length (layout s1)) ∧
  __memcheck_kzalloc witness_table witness_buffer u32 20 witness_checked 5000 0x3000000 0x3000100 120 = Ok (0x11000, s') ∧
  tracked witness_table (kern s') (s1 ++ Used n :: s2) ∧
  recorded witness_table (kmem (kern s')) (length (layout s1)) 2 0x11000 (text "fat16.c") (text "fat16_open") 120 ∧
  screen s' = kzalloc_report (Terminal ∅ 0 0) 5 0x11000 ∧ n_allocations s' = 5005.
Proof.
  apply (memcheck_kzalloc_records witness_table witness_buffer u32 20 witness_checked [Used 1; Free; Free] 5000 0x3000000 0x3000100 120
    (text "fat16.c") (text "fat16_open") 0x11000
    (result_or (heap_malloc kernel_fuel (kernel_heap (kern witness_checked)) 5000) (kernel_heap (kern witness_checked)))).
  - exact witness_tracked.
  - split.
    + do 2 apply mapped_write_mono. apply mapped_write_mono. apply mapped_check. vm_compute. reflexivity.
    + right. vm_compute. discriminate.
    + right. vm_compute. discriminate.
  - apply witness_literal. by left.
  - apply witness_literal. by right.
  - lia.
  - lia.
  - lia.
  - by vm_compute.
  - by vm_compute.
  - apply run_result. vm_compute. reflexivity.
  - lia.
Defined.
