(* ===== verification/Disk.v ===== *)
(** [src/disk/disk.c] and [disk.h]: the ATA driver, and the block device
    interface the file systems read through.

    The port instructions of [src/io/io.asm] are the parameter [Ports], the drive
    behind them is described by the laws of [AtaDrive] (what the ATA standard says
    of a PIO READ SECTORS in LBA mode), which [drive] at the end of the file
    implements. A buffer the driver fills is the list of the bytes it stores. *)
From S2P Require Import Prelude Mem Heap.

Definition BUSY_BIT : Z := 0x80.
Definition DRQ_BIT : Z := 0x08.
Definition DISK_TYPE_PHYSICAL : Z := 0.
Definition DISK_SECTOR_SIZE : Z := 512.
Definition ATA_MASTER : Z := 0xE0.
Definition ATA_COMMAND_READ_SECTORS : Z := 0x20.
Definition ATA_PRIMARY_IO_BASE_REGISTER : Z := 0x1F0.
Definition ATA_PRIMARY_CONTROL_BASE_REGISTER : Z := 0x3F6.
Definition ENOMEDIUM : Z := 123.

Record ata_ports_t := AtaPorts {
  data_register : Z;
  features_error_register : Z;
  sector_count_register : Z;
  sector_number_register : Z;
  cylinder_low_register : Z;
  cylinder_high_register : Z;
  drive_head_register : Z;
  status_command_register : Z;
  device_control_alternate_status_register : Z;
  drive_address_register : Z
}.

Definition ATA_PORTS_PRIMARY : ata_ports_t := {|
  data_register := ATA_PRIMARY_IO_BASE_REGISTER;
  features_error_register := ATA_PRIMARY_IO_BASE_REGISTER + 1;
  sector_count_register := ATA_PRIMARY_IO_BASE_REGISTER + 2;
  sector_number_register := ATA_PRIMARY_IO_BASE_REGISTER + 3;
  cylinder_low_register := ATA_PRIMARY_IO_BASE_REGISTER + 4;
  cylinder_high_register := ATA_PRIMARY_IO_BASE_REGISTER + 5;
  drive_head_register := ATA_PRIMARY_IO_BASE_REGISTER + 6;
  status_command_register := ATA_PRIMARY_IO_BASE_REGISTER + 7;
  device_control_alternate_status_register := ATA_PRIMARY_CONTROL_BASE_REGISTER;
  drive_address_register := ATA_PRIMARY_CONTROL_BASE_REGISTER + 1
|}.

(** [P] is what [fs_private] points to; [fs_operations] is an address. *)
Record disk_t (P : Type) := Disk {
  type : Z;
  sector_size : Z;
  master_slave_flag : Z;
  id : Z;
  fs_operations : Z;
  fs_private : option P;
  ata_ports : option ata_ports_t
}.
Arguments Disk {P}.
Arguments type {P}.
Arguments sector_size {P}.
Arguments master_slave_flag {P}.
Arguments id {P}.
Arguments fs_operations {P}.
Arguments fs_private {P}.
Arguments ata_ports {P}.

(** A [struct disk_t *]: NULL or an element of the array [disks]. *)
Inductive disk_ref := NullDisk | DiskAt (i : nat).
#[export] Instance disk_ref_eq_dec : EqDecision disk_ref.
Proof. solve_decision. Defined.

(** The port instructions. *)
Class Ports (D : Type) := {
  outb : D → Z → Z → D;
  insb : D → Z → Z * D;
  insw : D → Z → Z * D
}.

Section driver.
Context {D : Type} `{Ports D} {P : Type}.

Definition poll_data (fuel : nat) (port : Z) (d : D) : outcome D :=
  while_loop fuel (λ d, let '(status, d) := insb d port in
    if decide (Z.land status BUSY_BIT ≠ 0 ∨ Z.land status DRQ_BIT = 0) then Ok (inl d)
    else Ok (inr d)) d.

Definition poll_idle (fuel : nat) (port : Z) (d : D) : outcome D :=
  while_loop fuel (λ d, let '(status, d) := insb d port in
    if decide (Z.land status BUSY_BIT ≠ 0) then Ok (inl d) else Ok (inr d)) d.

(** [*ptr++ = insw(data_register)]. *)
Definition read_word (port : Z) (s : list Z * D) : list Z * D :=
  let '(buf, d) := s in
  let '(w, d) := insw d port in
  (buf ++ [u8 w; u8 (Z.shiftr w 8)], d).

Definition disk_read_sector (fuel : nat) (d : D) (disk : disk_t P) (lba n : Z) :
    outcome (Z * list Z * D) :=
  ports ← or_ub (ata_ports disk);
  let d := outb d (device_control_alternate_status_register ports) (u8 0x2) in
  let d := outb d (drive_head_register ports) (u8 (Z.lor (Z.shiftr lba 24) (master_slave_flag disk))) in
  let d := outb d (sector_count_register ports) (u8 n) in
  let d := outb d (sector_number_register ports) (u8 (Z.land lba 0xFF)) in
  let d := outb d (cylinder_low_register ports) (u8 (Z.shiftr lba 8)) in
  let d := outb d (cylinder_high_register ports) (u8 (Z.shiftr lba 16)) in
  let d := outb d (status_command_register ports) ATA_COMMAND_READ_SECTORS in
  bd ← for_loop (Z.to_nat n) 0 (λ block s, let '(buf, d) := s in
         d ← poll_data fuel (status_command_register ports) d;
         for_loop 256 0 (λ i s, Ok (read_word (data_register ports) s)) (buf, d)) ([], d);
  let '(buf, d) := bd in
  d ← poll_idle fuel (device_control_alternate_status_register ports) d;
  Ok (0, buf, d).

(** The [disks] array has one element. [fs_probe_fs] is an argument, with the state it
    acts on: it is called last, on a disk that is set up but for its file system. *)
Definition disk_init {S} (fs_probe_fs : S → disk_t P → outcome (Z * disk_t P * S)) (s : S) : outcome (disk_t P * S) :=
  let disk := Disk DISK_TYPE_PHYSICAL DISK_SECTOR_SIZE ATA_MASTER 0 0 None (Some ATA_PORTS_PRIMARY) in
  r ← fs_probe_fs s disk;
  let '(ops, disk, s) := r in
  Ok (Disk (type disk) (sector_size disk) (master_slave_flag disk) (id disk) ops
        (fs_private disk) (ata_ports disk), s).

Definition disk_get (disk_index : Z) : Z * disk_ref :=
  if decide (disk_index ≠ 0) then (- ENOMEDIUM, NullDisk) else (0, DiskAt 0).

(** [lba] is [unsigned] here and an [int] in [disk_read_sector]. *)
Definition disk_read_block (fuel : nat) (d : D) (disks : disk_t P) (disk : disk_ref) (lba n : Z) :
    outcome (Z * list Z * D) :=
  if decide (disk ≠ DiskAt 0) then Ok (- ENOMEDIUM, [], d)
  else disk_read_sector fuel d disks (s32 lba) n.
End driver.

(** * The block device interface *)

Class BlockDevice (W : Type) := {
  block_read : W → disk_ref → Z → Z → outcome (Z * list Z * W)
}.

(** [block_count] sectors of [DISK_SECTOR_SIZE] bytes, which do not change. *)
Class BlockDeviceLaws (W : Type) `{BlockDevice W} := {
  block_ready : W → Prop;
  block : Z → list Z;
  block_count : Z;
  block_count_max : 0 < block_count ≤ 2 ^ 28;
  block_length : ∀ l, 0 ≤ l < block_count → Z.of_nat (length (block l)) = DISK_SECTOR_SIZE;
  block_bytes : ∀ l, 0 ≤ l < block_count → Forall is_byte (block l);
  block_read_law : ∀ w l n, block_ready w → 0 ≤ l → 0 < n < 256 → l + n ≤ block_count →
    ∃ w', block_read w (DiskAt 0) l n = Ok (0, concat (block <$> seqZ l n), w') ∧ block_ready w';
  block_read_other : ∀ w r l n, r ≠ DiskAt 0 → block_read w r l n = Ok (- ENOMEDIUM, [], w)
}.

(** * The drive *)

(** The LBA the four address registers hold. *)
Definition lba28 (reg : Z → Z) : Z :=
  reg 0x1F3 + 2 ^ 8 * reg 0x1F4 + 2 ^ 16 * reg 0x1F5 + 2 ^ 24 * Z.land (reg 0x1F6) 0xF.

Class AtaDrive (D : Type) `{Ports D} := {
  reg : D → Z → Z;
  idle : D → Prop;
  (** [reading d l n]: [n] sectors to deliver, the next is [l]. *)
  reading : D → Z → Z → Prop;
  (** [transferring d l n i]: delivering sector [l], word [i] next; [n] sectors with this one. *)
  transferring : D → Z → Z → nat → Prop;
  (** How often the status may still read busy. *)
  polls : D → nat;
  max_polls : nat;
  sector_words : Z → list Z;
  sector_count : Z;

  sector_count_max : 0 < sector_count ≤ 2 ^ 28;
  sector_words_length : ∀ l, 0 ≤ l < sector_count → length (sector_words l) = 256%nat;
  polls_max : ∀ d l n, reading d l n → (polls d ≤ max_polls)%nat;
  write_register : ∀ d p v, idle d → p ≠ 0x1F7 → is_byte v →
    idle (outb d p v) ∧ ∀ q, reg (outb d p v) q = if decide (q = p) then v else reg d q;
  read_command : ∀ d, idle d → Z.land (reg d 0x1F6) 0xF0 = 0xE0 →
    reading (outb d 0x1F7 ATA_COMMAND_READ_SECTORS) (lba28 (reg d))
      (if decide (reg d 0x1F2 = 0) then 256 else reg d 0x1F2);
  (** BSY clears and DRQ comes up before each sector. *)
  status_reading : ∀ d l n, reading d l n → 0 < n →
    let '(status, d') := insb d 0x1F7 in
    ((Z.land status BUSY_BIT ≠ 0 ∨ Z.land status DRQ_BIT = 0) ∧ reading d' l n ∧ (polls d' < polls d)%nat) ∨
    (Z.land status BUSY_BIT = 0 ∧ Z.land status DRQ_BIT ≠ 0 ∧ transferring d' l n 0);
  read_data : ∀ d l n i w, transferring d l n i → sector_words l !! i = Some w →
    fst (insw d 0x1F0) = w ∧
    (if decide (i = 255)%nat then reading (snd (insw d 0x1F0)) (l + 1) (n - 1)
     else transferring (snd (insw d 0x1F0)) l n (S i));
  (** After the last sector BSY clears. *)
  status_done : ∀ d l, reading d l 0 →
    let '(status, d') := insb d 0x3F6 in
    (Z.land status BUSY_BIT ≠ 0 ∧ reading d' l 0 ∧ (polls d' < polls d)%nat) ∨
    (Z.land status BUSY_BIT = 0 ∧ idle d')
}.

Definition word_bytes (w : Z) : list Z := [u8 w; u8 (Z.shiftr w 8)].

Section ata.
Context {D : Type} `{AtaDrive D} {P : Type}.

Definition sector_bytes (l : Z) : list Z := concat (word_bytes <$> sector_words l).

Lemma sector_bytes_length l : 0 ≤ l < sector_count →
  Z.of_nat (length (sector_bytes l)) = DISK_SECTOR_SIZE.
Proof.
  intros Hl. unfold sector_bytes.
  assert (Hc : ∀ ws, length (concat (word_bytes <$> ws)) = (2 * length ws)%nat).
  { intros ws. induction ws as [|w ws IH]; [done|]. cbn [fmap list_fmap concat].
    rewrite length_app, IH. cbn [word_bytes length]. lia. }
  rewrite Hc, sector_words_length by done. done.
Qed.

Lemma poll_data_ok fuel d l n : reading d l n → 0 < n → (max_polls < fuel)%nat →
  ∃ d', poll_data fuel 0x1F7 d = Ok d' ∧ transferring d' l n 0.
Proof.
  intros Hr Hn Hf. apply (while_total _ (λ d, reading d l n) polls); [done| |].
  - pose proof (polls_max d l n Hr). lia.
  - intros d1 Hr1. pose proof (status_reading d1 l n Hr1 Hn) as Hs.
    destruct (insb d1 0x1F7) as [st d2]. destruct Hs as [(Hb & Hr2 & Hlt)|(Hb & Hd & Ht)].
    + left. exists d2. by rewrite decide_True.
    + right. exists d2. split; [|done]. rewrite decide_False; [done|]. tauto.
Qed.

Lemma poll_idle_ok fuel d l : reading d l 0 → (max_polls < fuel)%nat →
  ∃ d', poll_idle fuel 0x3F6 d = Ok d' ∧ idle d'.
Proof.
  intros Hr Hf. apply (while_total _ (λ d, reading d l 0) polls); [done| |].
  - pose proof (polls_max d l 0 Hr). lia.
  - intros d1 Hr1. pose proof (status_done d1 l Hr1) as Hs.
    destruct (insb d1 0x3F6) as [st d2]. destruct Hs as [(Hb & Hr2 & Hlt)|(Hb & Hi)].
    + left. exists d2. by rewrite decide_True.
    + right. exists d2. split; [|done]. by rewrite decide_False by tauto.
Qed.

(** The 256 words of a sector. *)
Lemma read_words_ok l n d buf : 0 ≤ l < sector_count → transferring d l n 0 →
  ∃ d', for_loop 256 0 (λ i s, Ok (read_word 0x1F0 s)) (buf, d) =
    Ok (buf ++ sector_bytes l, d') ∧ reading d' (l + 1) (n - 1).
Proof.
  intros Hl Ht. pose proof (sector_words_length l Hl) as Hlen.
  enough (Hgen : ∀ k i j buf d, (i + k = 256)%nat → (0 < k)%nat → transferring d l n i →
    ∃ d', for_loop k j (λ _ s, Ok (read_word 0x1F0 s)) (buf, d) =
      Ok (buf ++ concat (word_bytes <$> drop i (sector_words l)), d') ∧ reading d' (l + 1) (n - 1))
    by (apply (Hgen 256%nat 0%nat); [done|lia|done]).
  clear d buf Ht. intros k. induction k as [|k IH]; intros i j buf d Hik Hk Ht; [lia|].
  destruct (lookup_lt_is_Some_2 (sector_words l) i) as [w Hw]; [lia|].
  destruct (read_data d l n i w Ht Hw) as [Hfst Hnext].
  assert (Hrw : read_word 0x1F0 (buf, d) = (buf ++ word_bytes w, snd (insw d 0x1F0))).
  { unfold read_word. destruct (insw d 0x1F0) as [w' d'] eqn:E. cbn [fst] in Hfst. by subst w'. }
  cbn [for_loop]. rewrite bind_Ok, Hrw. set (d' := snd (insw d 0x1F0)) in *.
  rewrite (drop_S _ w i Hw). change (concat (word_bytes <$> w :: ?r)) with
    (word_bytes w ++ concat (word_bytes <$> r)).
  case_decide as Hi.
  - subst i. assert (k = 0%nat) as -> by lia. exists d'. split; [|done].
    cbn [for_loop]. rewrite (drop_ge (sector_words l)) by lia. change (concat (word_bytes <$> [])) with (@nil Z).
    by rewrite app_nil_r.
  - destruct (IH (S i) (j + 1) (buf ++ word_bytes w) d') as (d2 & E2 & Hr2); [lia|lia|done|].
    exists d2. split; [|done]. by rewrite app_assoc, <- E2.
Qed.

Lemma read_sectors_ok fuel l n d :
  0 ≤ l → l + Z.of_nat n ≤ sector_count → (max_polls < fuel)%nat → reading d l (Z.of_nat n) →
  ∃ d', for_loop n 0 (λ block s, let '(buf, d) := s in
      d ← poll_data fuel 0x1F7 d;
      for_loop 256 0 (λ i s, Ok (read_word 0x1F0 s)) (buf, d)) ([], d) =
    Ok (concat (sector_bytes <$> seqZ l (Z.of_nat n)), d') ∧ reading d' (l + Z.of_nat n) 0.
Proof.
  intros Hl Hln Hf Hr.
  destruct (for_loop_ok (λ (k : Z) s, fst s = concat (sector_bytes <$> seqZ l k) ∧
      reading (snd s) (l + k) (Z.of_nat n - k))
    (λ block s, let '(buf, d) := s in
      d ← poll_data fuel 0x1F7 d;
      for_loop 256 0 (λ i s, Ok (read_word 0x1F0 s)) (buf, d)) n 0 ([], d))
    as ([buf d'] & E & Hb & Hr').
  - intros k [buf d1] Hk (Hb & Hr1). cbn [fst snd] in *.
    destruct (poll_data_ok fuel d1 (l + k) (Z.of_nat n - k) Hr1 ltac:(lia) Hf) as (d2 & -> & Ht).
    rewrite bind_Ok.
    destruct (read_words_ok (l + k) _ d2 buf ltac:(lia) Ht) as (d3 & E3 & Hr3).
    exists (buf ++ sector_bytes (l + k), d3). split; [exact E3|]. cbn [fst snd]. split.
    + rewrite Hb, seqZ_app, fmap_app, concat_app by lia. f_equal.
      change (seqZ (l + k) 1) with [l + k]. cbn [fmap list_fmap concat]. by rewrite app_nil_r.
    + replace (l + (k + 1)) with (l + k + 1) by lia.
      by replace (Z.of_nat n - (k + 1)) with (Z.of_nat n - k - 1) by lia.
  - cbn [fst snd]. split; [done|]. by rewrite Z.add_0_r, Z.sub_0_r.
  - exists d'. rewrite E. cbn [fst snd] in *. rewrite Z.add_0_l in *. split; [by rewrite Hb|].
    by rewrite Z.sub_diag in Hr'.
Qed.

(** The address registers hold the sector number. *)
Lemma head_register lba : 0 ≤ lba < 2 ^ 28 →
  let h := u8 (Z.lor (Z.shiftr lba 24) ATA_MASTER) in
  Z.land h 0xF0 = 0xE0 ∧ Z.land h 0xF = Z.shiftr lba 24.
Proof.
  intros Hlba. cbn zeta. rewrite Z.shiftr_div_pow2 by lia.
  assert (Hq : 0 ≤ lba / 2 ^ 24 < 16) by (split; [apply Z.div_pos|apply Z.div_lt_upper_bound]; lia).
  generalize dependent (lba / 2 ^ 24). intros q Hq.
  assert (q ∈ seqZ 0 16) as Hin by (apply elem_of_seqZ; lia).
  revert q Hin Hq. refine (proj1 (Forall_forall _ _) _). cbv. repeat constructor.
Qed.

Lemma lba28_programmed lba r :
  0 ≤ lba < 2 ^ 28 → r 0x1F3 = u8 (Z.land lba 0xFF) → r 0x1F4 = u8 (Z.shiftr lba 8) →
  r 0x1F5 = u8 (Z.shiftr lba 16) → r 0x1F6 = u8 (Z.lor (Z.shiftr lba 24) ATA_MASTER) →
  lba28 r = lba.
Proof.
  intros Hlba H3 H4 H5 H6. unfold lba28. destruct (head_register lba Hlba) as [_ Hh].
  rewrite H3, H4, H5, H6, Hh. change 0xFF with (2 ^ 8 - 1). rewrite land_mask by lia.
  unfold u8. rewrite Z.mod_mod by lia. rewrite <- (combine4_split4 lba) at 5 by lia.
  unfold combine4, u8. do 2 f_equal. rewrite Z.mod_small; [done|].
  rewrite Z.shiftr_div_pow2 by lia. split; [apply Z.div_pos|apply Z.div_lt_upper_bound]; lia.
Qed.

(** Reading sectors: the driver's whole protocol. *)
Lemma disk_read_sector_spec fuel d (disk : disk_t P) lba n :
  idle d → ata_ports disk = Some ATA_PORTS_PRIMARY → master_slave_flag disk = ATA_MASTER →
  0 ≤ lba → 0 < n < 256 → lba + n ≤ sector_count → (max_polls < fuel)%nat →
  ∃ d', disk_read_sector fuel d disk lba n =
    Ok (0, concat (sector_bytes <$> seqZ lba n), d') ∧ idle d'.
Proof.
  intros Hi Hp Hm Hlba Hn Hend Hf. pose proof sector_count_max.
  unfold disk_read_sector. rewrite Hp, Hm. cbn [or_ub]. rewrite bind_Ok.
  cbn [ATA_PORTS_PRIMARY data_register sector_count_register sector_number_register
    cylinder_low_register cylinder_high_register drive_head_register status_command_register
    device_control_alternate_status_register].
  change ATA_PRIMARY_CONTROL_BASE_REGISTER with 0x3F6. change (ATA_PRIMARY_IO_BASE_REGISTER) with 0x1F0.
  change (0x1F0 + 2) with 0x1F2. change (0x1F0 + 3) with 0x1F3. change (0x1F0 + 4) with 0x1F4.
  change (0x1F0 + 5) with 0x1F5. change (0x1F0 + 6) with 0x1F6. change (0x1F0 + 7) with 0x1F7.
  cbn zeta.
  destruct (write_register d 0x3F6 (u8 2) Hi ltac:(lia) (u8_byte _)) as [Hi1 R1]. set (d1 := outb d _ _) in *.
  destruct (write_register d1 0x1F6 (u8 (Z.lor (Z.shiftr lba 24) ATA_MASTER)) Hi1 ltac:(lia) (u8_byte _)) as [Hi2 R2].
  set (d2 := outb d1 _ _) in *.
  destruct (write_register d2 0x1F2 (u8 n) Hi2 ltac:(lia) (u8_byte _)) as [Hi3 R3]. set (d3 := outb d2 _ _) in *.
  destruct (write_register d3 0x1F3 (u8 (Z.land lba 0xFF)) Hi3 ltac:(lia) (u8_byte _)) as [Hi4 R4].
  set (d4 := outb d3 _ _) in *.
  destruct (write_register d4 0x1F4 (u8 (Z.shiftr lba 8)) Hi4 ltac:(lia) (u8_byte _)) as [Hi5 R5].
  set (d5 := outb d4 _ _) in *.
  destruct (write_register d5 0x1F5 (u8 (Z.shiftr lba 16)) Hi5 ltac:(lia) (u8_byte _)) as [Hi6 R6].
  set (d6 := outb d5 _ _) in *.
  assert (H2 : reg d6 0x1F2 = n) by (rewrite R6, R5, R4, R3; change (u8 n = n); apply u8_id; lia).
  assert (H6 : reg d6 0x1F6 = u8 (Z.lor (Z.shiftr lba 24) ATA_MASTER)) by (rewrite R6, R5, R4, R3, R2; reflexivity).
  pose proof (read_command d6 Hi6) as Hr. rewrite H6, H2, decide_False in Hr by lia.
  rewrite (lba28_programmed lba) in Hr; [|lia|rewrite R6, R5, R4; reflexivity|rewrite R6, R5; reflexivity|rewrite R6; reflexivity|done].
  specialize (Hr (proj1 (head_register lba ltac:(lia)))).
  replace n with (Z.of_nat (Z.to_nat n)) in Hr at 1 by lia.
  destruct (read_sectors_ok fuel lba (Z.to_nat n) _ ltac:(lia) ltac:(lia) Hf Hr) as (d7 & E & Hr7).
  rewrite E, bind_Ok. destruct (poll_idle_ok fuel d7 _ Hr7 Hf) as (d8 & E8 & Hi8).
  rewrite E8, bind_Ok. exists d8. by rewrite Z2Nat.id by lia.
Qed.

(** ** The driver is a block device *)

Definition ata_block_device (fuel : nat) (disks : disk_t P) : BlockDevice D := {|
  block_read d disk lba n := disk_read_block fuel d disks disk lba n
|}.

Lemma disk_read_block_spec fuel d (disk : disk_t P) lba n :
  idle d → ata_ports disk = Some ATA_PORTS_PRIMARY → master_slave_flag disk = ATA_MASTER →
  0 ≤ lba → 0 < n < 256 → lba + n ≤ sector_count → (max_polls < fuel)%nat →
  ∃ d', disk_read_block fuel d disk (DiskAt 0) lba n =
    Ok (0, concat (sector_bytes <$> seqZ lba n), d') ∧ idle d'.
Proof.
  intros ?????? ?. pose proof sector_count_max. unfold disk_read_block.
  rewrite decide_False by (intros E; by apply E). rewrite s32_id by lia.
  by apply disk_read_sector_spec.
Qed.

Lemma sector_bytes_bytes l : Forall is_byte (sector_bytes l).
Proof.
  unfold sector_bytes. induction (sector_words l) as [|w ws IH]; [constructor|].
  cbn [fmap list_fmap concat]. apply Forall_app. split; [|done].
  repeat constructor; apply u8_range.
Qed.

Definition ata_block_laws (fuel : nat) (disk : disk_t P)
    (Hp : ata_ports disk = Some ATA_PORTS_PRIMARY) (Hm : master_slave_flag disk = ATA_MASTER)
    (Hf : (max_polls < fuel)%nat) : @BlockDeviceLaws D (ata_block_device fuel disk).
Proof.
  unshelve refine (@Build_BlockDeviceLaws D (ata_block_device fuel disk) idle sector_bytes sector_count
    sector_count_max sector_bytes_length (λ l _, sector_bytes_bytes l) _ _).
  - intros. by apply disk_read_block_spec.
  - intros w r l n Hr. cbn. unfold disk_read_block. by rewrite decide_True.
Defined.
End ata.

(** * A drive that follows the protocol *)

Inductive drive_phase :=
  | Idle
  | Reading (l n : Z) (busy : nat)
  | Transferring (l n : Z) (i : nat).

Record drive := Drive { registers : gmap Z Z; phase : drive_phase }.

Section simulated.
Context (contents : Z → list Z) (sectors : Z).
Context (Hsectors : 0 < sectors ≤ 2 ^ 28).
Context (Hcontents : ∀ l, 0 ≤ l < sectors → length (contents l) = 256%nat).

Definition drive_reg (d : drive) (p : Z) : Z := default 0 (registers d !! p).

#[local] Instance drive_ports : Ports drive := {
  outb d p v :=
    if decide (p = 0x1F7) then
      Drive (registers d) (Reading (lba28 (drive_reg d))
        (if decide (drive_reg d 0x1F2 = 0) then 256 else drive_reg d 0x1F2) 2)
    else Drive (<[p := v]> (registers d)) (phase d);
  insb d p :=
    match phase d with
    | Idle => (0x40, d)
    | Reading l n (S k) => (0x80, Drive (registers d) (Reading l n k))
    | Reading l n O =>
        if decide (n ≤ 0) then (0x40, Drive (registers d) Idle)
        else (0x48, Drive (registers d) (Transferring l n 0))
    | Transferring l n i => (0x48, d)
    end;
  insw d p :=
    match phase d with
    | Transferring l n i =>
        (default 0 (contents l !! i),
         Drive (registers d) (if decide (i = 255)%nat then Reading (l + 1) (n - 1) 2
                              else Transferring l n (S i)))
    | _ => (0, d)
    end
}.

Definition phase_polls (d : drive) : nat := match phase d with Reading _ _ k => k | _ => 0 end.

#[local] Program Instance drive_ata : AtaDrive drive := {
  reg := drive_reg;
  idle d := phase d = Idle ∧ wf_mem (registers d);
  reading d l n := 0 ≤ n ∧ wf_mem (registers d) ∧ ∃ k, (k ≤ 2)%nat ∧ phase d = Reading l n k;
  transferring d l n i := 0 < n ∧ wf_mem (registers d) ∧ phase d = Transferring l n i;
  polls := phase_polls;
  max_polls := 2;
  sector_words := contents;
  sector_count := sectors
}.
Next Obligation. exact Hsectors. Qed.
Next Obligation. exact Hcontents. Qed.
Next Obligation. intros d l n (_ & _ & k & Hk & E). unfold phase_polls. by rewrite E. Qed.
Next Obligation.
  intros d p v [Hd Hw] Hp Hv. cbn. rewrite decide_False by done. split.
  - split; [done|]. by apply map_Forall_insert_2.
  - intros q. unfold drive_reg. cbn. case_decide as Hq.
    + subst. by rewrite lookup_insert_eq.
    + by rewrite lookup_insert_ne by done.
Qed.
Next Obligation.
  intros d [Hd Hw] Hh. cbn. split; [|split; [done|by exists 2%nat]].
  case_decide; [lia|]. unfold drive_reg. destruct (registers d !! 0x1F2) as [v|] eqn:E; [|done].
  apply Hw in E. cbn in *. lia.
Qed.
Next Obligation.
  intros d l n (Hn & Hw & k & Hk & E) Hpos. cbn. rewrite E. destruct k as [|k].
  - rewrite decide_False by lia. right. done.
  - left. split; [by left|]. split; [split; [done|split; [done|exists k; split; [lia|done]]]|].
    unfold phase_polls. rewrite E. cbn. lia.
Qed.
Next Obligation.
  intros d l n i w (Hn & Hw & E) Hi. cbn. rewrite E. cbn [fst snd]. rewrite Hi. split; [done|].
  case_decide; cbn [registers phase]; [|done]. split; [lia|]. split; [done|]. by exists 2%nat.
Qed.
Next Obligation.
  intros d l (Hn & Hw & k & Hk & E). cbn. rewrite E. destruct k as [|k].
  - rewrite decide_True by lia. right. done.
  - left. split; [done|]. split; [split; [done|split; [done|exists k; split; [lia|done]]]|].
    unfold phase_polls. rewrite E. cbn. lia.
Qed.
End simulated.

(** C18: the ATA protocol works: for a drive that answers as the standard says,
    with sectors [lba] to [lba + n - 1] on it, [disk_read_block] programs the
    sector's address and count, waits for each sector, terminates, returns 0 and
    stores exactly those sectors' bytes, and leaves the drive idle. *)
Theorem disk_read_block_reads {D P} `{AtaDrive D} fuel d (disk : disk_t P) lba n :
  idle d → ata_ports disk = Some ATA_PORTS_PRIMARY → master_slave_flag disk = ATA_MASTER →
  0 ≤ lba → 0 < n < 256 → lba + n ≤ sector_count → (max_polls < fuel)%nat →
  ∃ d', disk_read_block fuel d disk (DiskAt 0) lba n =
    Ok (0, concat (sector_bytes <$> seqZ lba n), d') ∧ idle d'.
Proof. apply disk_read_block_spec. Qed.

(** A drive of 3000 sectors, each filled with its number. *)
Definition witness_contents (l : Z) : list Z := replicate 256 (u16 l).
Lemma witness_contents_length l : 0 ≤ l < 3000 → length (witness_contents l) = 256%nat.
Proof. intros _. apply length_replicate. Qed.
Definition witness_drive : AtaDrive drive :=
  drive_ata witness_contents 3000 ltac:(lia) witness_contents_length.
Definition witness_disk : disk_t unit :=
  Disk DISK_TYPE_PHYSICAL DISK_SECTOR_SIZE ATA_MASTER 0 0 None (Some ATA_PORTS_PRIMARY).

Lemma disk_read_block_reads_witness :
  ∃ d', @disk_read_block drive (drive_ports witness_contents) unit 4 (Drive ∅ Idle) witness_disk
      (DiskAt 0) 258 3 =
    Ok (0, concat (@sector_bytes drive _ witness_drive <$> seqZ 258 3), d') ∧
    @idle drive _ witness_drive d'.
Proof.
  apply (@disk_read_block_reads drive unit _ witness_drive 4 (Drive ∅ Idle) witness_disk 258 3).
  - split; [done|]. apply map_Forall_empty.
  - done.
  - done.
  - lia.
  - lia.
  - cbn. lia.
  - cbn. lia.
Defined.
