(* ===== verification/DiskStream.v ===== *)
(** [src/disk/disk_stream.c]: byte streams over the sectors of a disk.

    A [struct disk_stream] is the record [disk_stream]; the bytes
    [diskstream_read] stores at [buffer] are the list it returns. Sectors come
    from the [BlockDevice] interface, the struct's memory from [Allocator]. *)
From S2P Require Import Prelude Mem Heap Kheap Disk.

Record disk_stream := DiskStream { ppos : Z; disk : disk_ref }.

Definition SIZEOF_DISK_STREAM : Z := 8.

Definition diskstream_seek (stream : disk_stream) (p : Z) : Z * disk_stream :=
  (s32 p, DiskStream p (disk stream)).

(** The new stream with its address, or NULL; writing [stream->disk] through the
    NULL of a failed [kzalloc] is undefined. *)
Definition diskstream_new {K} `{Allocator K} (k : K) (disk_id : Z) :
    outcome (option (Z * disk_stream) * K) :=
  let '(res, disk) := disk_get disk_id in
  if decide (res ≠ 0) then Ok (None, k)
  else
    pk ← kzalloc k SIZEOF_DISK_STREAM;
    let '(stream, k) := pk in
    if decide (stream = 0) then Ub else Ok (Some (stream, DiskStream 0 disk), k).

Definition diskstream_close {K} `{Allocator K} (k : K) (stream : Z) : outcome K := kfree k stream.

Section read.
Context {W : Type} `{BlockDevice W}.

(** One round of the loop on [(read_so_far, sector, offset, buffer, device)]. *)
Definition read_round (stream : disk_stream) (len : Z) (s : Z * Z * Z * list Z * W) :
    outcome ((Z * Z * Z * list Z * W) + (Z * list Z * disk_stream * W)) :=
  let '(read_so_far, sector, offset, buffer, w) := s in
  if decide (read_so_far < len) then
    r ← block_read w (disk stream) (u32 sector) 1;
    let '(ret, sector_buffer, w) := r in
    if decide (ret ≠ 0) then Ok (inr (ret, buffer, stream, w))
    else
      let remaining := s32 (len - read_so_far) in
      let to_copy := u32 (if decide (remaining < DISK_SECTOR_SIZE - offset) then remaining
                          else DISK_SECTOR_SIZE - offset) in
      bytes ← arr_slice sector_buffer offset to_copy;
      Ok (inl (s32 (read_so_far + to_copy), s32 (sector + 1), 0, buffer ++ bytes, w))
  else
    Ok (inr (read_so_far, buffer, DiskStream (u32 (ppos stream + read_so_far)) (disk stream), w)).

Definition diskstream_read (fuel : nat) (w : W) (stream : disk_stream) (len : Z) :
    outcome (Z * list Z * disk_stream * W) :=
  while_loop fuel (read_round stream len)
    (0, s32 (ppos stream / DISK_SECTOR_SIZE), s32 (ppos stream mod DISK_SECTOR_SIZE), [], w).
End read.

(** ** The disk as one array of bytes *)

Section slice.
Context {W : Type} `{BlockDeviceLaws W}.

Definition disk_byte (x : Z) : option Z := block (x / DISK_SECTOR_SIZE) !! Z.to_nat (x mod DISK_SECTOR_SIZE).

(** The [n] bytes of the disk from [pos] on. *)
Definition disk_slice (pos n : Z) : list Z := (λ x, default 0 (disk_byte x)) <$> seqZ pos n.

Definition disk_size : Z := block_count * DISK_SECTOR_SIZE.

Lemma disk_slice_length pos n : 0 ≤ n → Z.of_nat (length (disk_slice pos n)) = n.
Proof. intros. unfold disk_slice. rewrite length_fmap, length_seqZ. lia. Qed.

Lemma disk_slice_app pos n1 n2 : 0 ≤ n1 → 0 ≤ n2 →
  disk_slice pos (n1 + n2) = disk_slice pos n1 ++ disk_slice (pos + n1) n2.
Proof. intros. unfold disk_slice. by rewrite seqZ_app, fmap_app. Qed.

Lemma disk_slice_lookup pos n i : 0 ≤ i < n →
  disk_slice pos n !! Z.to_nat i = Some (default 0 (disk_byte (pos + i))).
Proof.
  intros Hi. unfold disk_slice. rewrite list_lookup_fmap, lookup_seqZ_lt by lia. cbn [fmap option_fmap option_map].
  do 3 f_equal. lia.
Qed.

(** A piece of one sector. *)
Lemma sector_slice l o n : 0 ≤ l < block_count → 0 ≤ o → 0 ≤ n → o + n ≤ DISK_SECTOR_SIZE →
  arr_slice (block l) o n = Ok (disk_slice (l * DISK_SECTOR_SIZE + o) n).
Proof.
  intros Hl Ho Hn Hon. pose proof (block_length l Hl) as Hlen.
  rewrite arr_slice_in by lia. f_equal. apply list_eq. intros i.
  destruct (decide (Z.of_nat i < n)) as [Hi|Hi].
  - rewrite lookup_take_lt by lia. rewrite lookup_drop.
    rewrite <- (Nat2Z.id i), disk_slice_lookup by lia. unfold disk_byte.
    unfold DISK_SECTOR_SIZE in *.
    replace ((l * 512 + o + Z.of_nat i) / 512) with l by (Z.div_mod_to_equations; lia).
    replace ((l * 512 + o + Z.of_nat i) mod 512) with (o + Z.of_nat i) by (Z.div_mod_to_equations; lia).
    replace (Z.to_nat o + Z.to_nat (Z.of_nat i))%nat with (Z.to_nat (o + Z.of_nat i)) by lia.
    destruct (lookup_lt_is_Some_2 (block l) (Z.to_nat (o + Z.of_nat i))) as [b Hb]; [lia|].
    by rewrite Hb.
  - rewrite lookup_ge_None_2 by (rewrite length_take; lia).
    symmetry. apply lookup_ge_None_2. pose proof (disk_slice_length (l * DISK_SECTOR_SIZE + o) n). lia.
Qed.

Lemma disk_slice_bytes pos n : 0 ≤ pos → 0 ≤ n → pos + n ≤ disk_size → Forall is_byte (disk_slice pos n).
Proof.
  intros Hp Hn Hs. apply Forall_fmap, Forall_forall. intros x Hx. apply elem_of_seqZ in Hx. cbn.
  unfold disk_byte, disk_size, DISK_SECTOR_SIZE in *.
  assert (Hl : 0 ≤ x / 512 < block_count) by (split; [apply Z.div_pos|apply Z.div_lt_upper_bound]; lia).
  destruct (block (x / 512) !! _) as [b|] eqn:E; [|by unfold is_byte; cbn].
  apply (Forall_lookup_1 _ _ _ _ (block_bytes _ Hl) E).
Qed.

Lemma seek_spec stream p : diskstream_seek stream p = (s32 p, DiskStream p (disk stream)).
Proof. reflexivity. Qed.

(** What the loop knows: the bytes so far are the slice, and while there is
    more to read the next byte is at [offset] in [sector]. *)
Definition read_inv (pos len : Z) (s : Z * Z * Z * list Z * W) : Prop :=
  let '(n, sector, offset, buffer, w) := s in
  0 ≤ n ≤ len ∧ buffer = disk_slice pos n ∧ block_ready w ∧
  (n < len → sector = (pos + n) / DISK_SECTOR_SIZE ∧ offset = (pos + n) mod DISK_SECTOR_SIZE).

Lemma read_round_ok stream len n sector offset buffer w :
  disk stream = DiskAt 0 → 0 ≤ ppos stream → len < 2 ^ 31 → ppos stream + len < 2 ^ 32 →
  ppos stream + len ≤ disk_size → n < len →
  read_inv (ppos stream) len (n, sector, offset, buffer, w) →
  ∃ s', read_round stream len (n, sector, offset, buffer, w) = Ok (inl s') ∧
    read_inv (ppos stream) len s' ∧ n < fst (fst (fst (fst s'))).
Proof.
  intros Hd Hp Hlen Hpl Hsize Hn (Hn0 & Hb & Hw & Hpos). destruct (Hpos Hn) as [Es Eo].
  set (pos := ppos stream) in *. unfold disk_size, DISK_SECTOR_SIZE in *.
  assert (Ho : 0 ≤ offset < 512) by (subst offset; apply Z.mod_pos_bound; lia).
  assert (Hl : 0 ≤ sector < block_count)
    by (subst sector; split; [apply Z.div_pos|apply Z.div_lt_upper_bound]; lia).
  assert (Hso : sector * 512 + offset = pos + n) by (subst; Z.div_mod_to_equations; lia).
  pose proof block_count_max.
  destruct (block_read_law w sector 1 Hw) as (w' & E & Hw'); [lia..|].
  unfold read_round. rewrite decide_True, Hd, (u32_id sector), E, bind_Ok by lia.
  rewrite decide_False by (intros Hf; by apply Hf).
  change (seqZ sector 1) with [sector]. cbn [fmap list_fmap concat]. rewrite app_nil_r.
  rewrite (s32_id (len - n)) by lia. unfold DISK_SECTOR_SIZE.
  set (c := if decide _ then len - n else 512 - offset).
  assert (Hc : 0 < c ∧ offset + c ≤ 512 ∧ n + c ≤ len ∧ (n + c < len → c = 512 - offset))
    by (subst c; case_decide; lia).
  rewrite (u32_id c), sector_slice, bind_Ok by (unfold DISK_SECTOR_SIZE; lia).
  unfold DISK_SECTOR_SIZE. rewrite Hso. eexists. split; [reflexivity|].
  rewrite (s32_id (n + c)), (s32_id (sector + 1)) by lia. cbn [fst]. split; [|lia]. split; [lia|].
  split; [by rewrite disk_slice_app, <- Hb by lia|]. split; [done|].
  intros Hlt. unfold DISK_SECTOR_SIZE. Z.div_mod_to_equations. lia.
Qed.

Lemma diskstream_read_spec fuel w stream len :
  block_ready w → disk stream = DiskAt 0 → 0 ≤ ppos stream → 0 ≤ len < 2 ^ 31 →
  ppos stream + len < 2 ^ 32 → ppos stream + len ≤ disk_size → (Z.to_nat len < fuel)%nat →
  ∃ w', diskstream_read fuel w stream len =
    Ok (len, disk_slice (ppos stream) len, DiskStream (ppos stream + len) (DiskAt 0), w') ∧
    block_ready w'.
Proof.
  intros Hw Hd Hp Hlen Hpl Hsize Hf. unfold diskstream_read.
  destruct (while_total (read_round stream len) (read_inv (ppos stream) len)
    (λ s, Z.to_nat (len - fst (fst (fst (fst s)))))
    (λ r, ∃ w', r = (len, disk_slice (ppos stream) len, DiskStream (ppos stream + len) (DiskAt 0), w') ∧
      block_ready w') fuel
    (0, s32 (ppos stream / DISK_SECTOR_SIZE), s32 (ppos stream mod DISK_SECTOR_SIZE), [], w))
    as (r & E & w' & -> & Hw'); [| | |by exists w'].
  - split; [lia|]. split; [done|]. split; [done|]. intros _. rewrite Z.add_0_r.
    unfold DISK_SECTOR_SIZE. pose proof (Z.mod_pos_bound (ppos stream) 512).
    assert (0 ≤ ppos stream / 512 < 2 ^ 31)
      by (split; [apply Z.div_pos|apply Z.div_lt_upper_bound]; lia).
    rewrite !s32_id by lia. done.
  - cbn [fst]. lia.
  - intros [[[[n sector] offset] buffer] w1] Hinv. destruct (decide (n < len)) as [Hn|Hn].
    + left. destruct (read_round_ok stream len n sector offset buffer w1) as (s' & E & Hinv' & Hlt);
        try done; [lia|]. exists s'. split; [done|]. split; [done|]. cbn [fst] in *.
      destruct s' as [[[[n' ?] ?] ?] ?]. cbn [fst] in *. destruct Hinv' as (? & _). lia.
    + right. destruct Hinv as (Hn0 & -> & Hw1 & _). assert (n = len) as -> by lia.
      eexists. unfold read_round. rewrite decide_False by lia. split; [reflexivity|].
      exists w1. rewrite u32_id, Hd by lia. done.
Qed.
End slice.

(** C17: a stream reads the disk as one array of bytes: [diskstream_read] of [len]
    bytes at [ppos], anywhere in the disk and across any number of sector
    boundaries, terminates, stores exactly the bytes [ppos .. ppos + len - 1],
    returns [len] and advances [ppos] by it. *)
Theorem diskstream_read_slice {W} `{BlockDeviceLaws W} fuel w stream len :
  block_ready w → disk stream = DiskAt 0 → 0 ≤ ppos stream → 0 ≤ len < 2 ^ 31 →
  ppos stream + len < 2 ^ 32 → ppos stream + len ≤ disk_size → (Z.to_nat len < fuel)%nat →
  ∃ w', diskstream_read fuel w stream len =
    Ok (len, disk_slice (ppos stream) len, DiskStream (ppos stream + len) (DiskAt 0), w') ∧
    block_ready w'.
Proof. apply diskstream_read_spec. Qed.

(** A ready-made device for the witnesses: byte [x] of the disk is [contents x]. *)
Section memory_disk.
Context (contents : Z → Z).

Definition memory_block (l : Z) : list Z :=
  (λ x, u8 (contents x)) <$> seqZ (DISK_SECTOR_SIZE * l) DISK_SECTOR_SIZE.

Definition memory_disk : BlockDevice unit := {|
  block_read w r l n :=
    if decide (r = DiskAt 0) then Ok (0, concat (memory_block <$> seqZ l n), w)
    else Ok (- ENOMEDIUM, [], w)
|}.

Lemma memory_block_length l : Z.of_nat (length (memory_block l)) = DISK_SECTOR_SIZE.
Proof. unfold memory_block. by rewrite length_fmap, length_seqZ. Qed.

Lemma memory_block_bytes l : Forall is_byte (memory_block l).
Proof. apply Forall_fmap, Forall_forall. intros x _. apply u8_byte. Qed.

Definition memory_disk_laws : @BlockDeviceLaws unit memory_disk.
Proof.
  unshelve refine (@Build_BlockDeviceLaws unit memory_disk (λ _, True) memory_block 1000 _
    (λ l _, memory_block_length l) (λ l _, memory_block_bytes l) _ _).
  - lia.
  - intros [] l n _ _ _ _. exists tt. split; [|done]. cbn. by rewrite decide_True.
  - intros [] r l n Hr. cbn. by rewrite decide_False.
Defined.
End memory_disk.

#[local] Instance plain_disk : BlockDevice unit := memory_disk (λ x, x).
#[local] Instance plain_disk_laws : BlockDeviceLaws unit := memory_disk_laws (λ x, x).

Lemma diskstream_read_slice_witness :
  ∃ w', diskstream_read 2000 tt (DiskStream 700 (DiskAt 0)) 1500 =
    Ok (1500, disk_slice 700 1500, DiskStream (700 + 1500) (DiskAt 0), w') ∧ block_ready w'.
Proof.
  apply (diskstream_read_slice 2000 tt (DiskStream 700 (DiskAt 0)) 1500).
  - done.
  - done.
  - cbn. lia.
  - lia.
  - cbn. lia.
  - by vm_compute.
  - lia.
Defined.
