(* ===== verification/Paging.v ===== *)
(** [src/memory/paging.c] and [paging.h]: page directories and tables.

    Directories and tables live in memory: a [struct page_directory_handle] at
    [h] is the pointer [directory] at [h] and the array [directory_virtual] of
    1024 pointers at [h + 4]. [machine] is the state the functions share: the
    allocator with its memory, [current_directory], the control registers the
    [asm] statements touch, the page bitmap and the terminal the mapping trace
    is printed on. *)
From S2P Require Import Prelude Mem CString Heap Kheap Store Termio.

Definition PAGING_WRITABLE_PAGE : Z := 2.
Definition PAGING_PRESENT : Z := 1.
Definition PSE_BIT : Z := 0x10.
Definition PAGING_PAGE_SIZE : Z := 4096.
Definition ADDR_MASK : Z := 0xfffff000.
Definition KERNEL_VIRTUAL_BASE : Z := 0xC0000000.
Definition SIZEOF_PAGE_DIRECTORY_HANDLE : Z := 4100.

Definition V_ADDR_PAGEDIR_INDEX (vaddr : Z) : Z := Z.shiftr vaddr 22.
Definition V_ADDR_PAGETBL_INDEX (vaddr : Z) : Z := Z.land (Z.shiftr vaddr 12) 0x3ff.
Definition V_ADDR_PAGEFRAME_INDEX (vaddr : Z) : Z := Z.land vaddr 0xfff.
Definition V_ADDR_PAGEFRAME_INDEX_PSE (vaddr : Z) : Z := Z.land vaddr 0x3fffff.
Definition PAGE_ENTRY_PSE_BIT (e : Z) : Z := Z.land e 0x80.
Definition PAGE_ENTRY_ADDR (e : Z) : Z := Z.land e ADDR_MASK.
Definition PAGE_ENTRY_FLAGS (e : Z) : Z := Z.land e (Z.lxor ADDR_MASK 0xffffffff).

Definition paging_addr_is_page_aligned (addr : Z) : bool :=
  bool_decide (Z.land addr (PAGING_PAGE_SIZE - 1) = 0).

Definition paging_align_address (addr : Z) : Z :=
  u32 (PAGING_PAGE_SIZE * (u32 (addr + (PAGING_PAGE_SIZE - 1)) / PAGING_PAGE_SIZE)).

Record machine (K : Type) := Machine {
  kheap : K;
  current_directory : Z;
  cr0 : Z; cr3 : Z; cr4 : Z;
  bitmap_begin : Z; bitmap_end : Z;
  console : terminal
}.
Arguments Machine {K}.
Arguments kheap {K}.
Arguments current_directory {K}.
Arguments cr0 {K}.
Arguments cr3 {K}.
Arguments cr4 {K}.
Arguments bitmap_begin {K}.
Arguments bitmap_end {K}.
Arguments console {K}.

Definition set_kheap {K} (s : machine K) (k : K) : machine K :=
  Machine k (current_directory s) (cr0 s) (cr3 s) (cr4 s) (bitmap_begin s) (bitmap_end s) (console s).
Definition set_current {K} (s : machine K) (d : Z) : machine K :=
  Machine (kheap s) d (cr0 s) (cr3 s) (cr4 s) (bitmap_begin s) (bitmap_end s) (console s).
Definition set_cr {K} (s : machine K) (c0 c3 c4 : Z) : machine K :=
  Machine (kheap s) (current_directory s) c0 c3 c4 (bitmap_begin s) (bitmap_end s) (console s).
Definition set_bitmap {K} (s : machine K) (b e : Z) : machine K :=
  Machine (kheap s) (current_directory s) (cr0 s) (cr3 s) (cr4 s) b e (console s).
Definition set_console {K} (s : machine K) (t : terminal) : machine K :=
  Machine (kheap s) (current_directory s) (cr0 s) (cr3 s) (cr4 s) (bitmap_begin s) (bitmap_end s) t.

(** The text [itoa] leaves in a [char [size]] on the stack. *)
Definition itoa_string (size c : Z) : outcome (list Z) :=
  m ← itoa (write_bytes ∅ 0 (replicate (Z.to_nat size) 0)) c 0;
  n ← strlen (S (Z.to_nat size)) m 0;
  Ok ((λ i, default 0 (m !! i)) <$> seqZ 0 n).

Definition print_bytes {K} (s : machine K) (l : list Z) : machine K :=
  set_console s (foldl (λ t b, terminal_put_char t b 15) (console s) l).

Section paging.
Context {K : Type} `{Allocator K}.

Definition ram (s : machine K) : mem := memory (kheap s).

Definition read (s : machine K) (a : Z) : outcome Z := kread (kheap s) a.

Definition write (s : machine K) (a v : Z) : outcome (machine K) :=
  k ← kwrite (kheap s) a v; Ok (set_kheap s k).

Definition alloc (s : machine K) (size : Z) : outcome (Z * machine K) :=
  pk ← kzalloc (kheap s) size; let '(p, k) := pk in Ok (p, set_kheap s k).

(** [memset] and [memcpy]. *)
Definition fill (s : machine K) (a c n : Z) : outcome (machine K) :=
  k ← kset (kheap s) a c n; Ok (set_kheap s k).
Definition copy (s : machine K) (dest source n : Z) : outcome (machine K) :=
  k ← kcopy (kheap s) dest source n; Ok (set_kheap s k).

(** [&h->directory_virtual[i]]. *)
Definition directory_virtual_at (h i : Z) : Z := h + 4 + 4 * i.

(** [h->directory[i]]. *)
Definition directory_entry (s : machine K) (h i : Z) : outcome Z :=
  d ← read s h; read s (d + 4 * i).
Definition set_directory_entry (s : machine K) (h i v : Z) : outcome (machine K) :=
  d ← read s h; write s (d + 4 * i) v.

Definition virtual_to_physical_addr (s : machine K) (handle virtual_addr : Z) : outcome Z :=
  page_directory_entry ← directory_entry s handle (V_ADDR_PAGEDIR_INDEX virtual_addr);
  if decide (PAGE_ENTRY_PSE_BIT page_directory_entry ≠ 0) then
    if decide (Z.land (cr4 s) PSE_BIT = 0) then Panic "PSE directory entry found, but PSE is OFF"
    else Ok (u32 (PAGE_ENTRY_ADDR page_directory_entry + V_ADDR_PAGEFRAME_INDEX_PSE virtual_addr))
  else
    page_table ← read s (directory_virtual_at handle (V_ADDR_PAGEDIR_INDEX virtual_addr));
    page_table_entry ← read s (page_table + 4 * V_ADDR_PAGETBL_INDEX virtual_addr);
    Ok (u32 (PAGE_ENTRY_ADDR page_table_entry + V_ADDR_PAGEFRAME_INDEX virtual_addr)).

Definition init_page_bitmap (s : machine K) (number_of_pages : Z) : outcome (machine K) :=
  ps ← alloc s number_of_pages; let '(b, s) := ps in
  if negb (paging_addr_is_page_aligned b) then
    Panic "early_kmalloc: paging_addr_is_page_aligned: false "
  else
    let s := set_bitmap s b (u32 (b + number_of_pages)) in
    fill s b 1 (Z.shiftr number_of_pages 12).

(** Loading [cr3]: [paging_load_directory] of [paging.asm]. *)
Definition paging_switch_directory (s : machine K) (handle : Z) : outcome (machine K) :=
  e ← directory_entry s handle 1023;
  Ok (set_current (set_cr s (cr0 s) (PAGE_ENTRY_ADDR e) (cr4 s)) handle).

(** The trace [paging_map_page] prints. *)
Definition print_mapping (s : machine K) (handle directory_index table_index page_ptr : Z) :
    outcome (machine K) :=
  e ← directory_entry s handle 1023;
  directory_ptr_str ← itoa_string 100 (PAGE_ENTRY_ADDR e);
  directory_index_str ← itoa_string 100 directory_index;
  t ← directory_entry s handle directory_index;
  page_table_str ← itoa_string 100 t;
  table_index_str ← itoa_string 100 table_index;
  page_ptr_str ← itoa_string 100 page_ptr;
  Ok (print_bytes s (text "*(" ++ directory_ptr_str ++ text ")[" ++ directory_index_str ++
    text "] -> (*" ++ page_table_str ++ text ")[" ++ table_index_str ++ text "] -> " ++
    page_ptr_str ++ [10])).

(** The page table for [directory_index], allocated if there is none. *)
Definition ensure_table (s : machine K) (handle directory_index flags : Z) : outcome (machine K) :=
  t ← read s (directory_virtual_at handle directory_index);
  if decide (t ≠ 0) then Ok s
  else
    ps ← alloc s PAGING_PAGE_SIZE; let '(p, s) := ps in
    s ← write s (directory_virtual_at handle directory_index) p;
    physical ← virtual_to_physical_addr s (current_directory s) p;
    set_directory_entry s handle directory_index (Z.lor physical flags).

(** The second test for a missing table, which retries the allocation alone. *)
Definition retry_table (s : machine K) (handle directory_index : Z) : outcome (machine K) :=
  t ← read s (directory_virtual_at handle directory_index);
  if decide (t ≠ 0) then Ok s
  else
    ps ← alloc s PAGING_PAGE_SIZE; let '(p, s) := ps in
    write s (directory_virtual_at handle directory_index) p.

Definition paging_map_page (s : machine K) (handle virt_addr page_ptr flags : Z) :
    outcome (Z * machine K) :=
  if negb (paging_addr_is_page_aligned virt_addr) || negb (paging_addr_is_page_aligned page_ptr) then
    Ok (- EINVAL, s)
  else
    let directory_index := V_ADDR_PAGEDIR_INDEX virt_addr in
    let table_index := V_ADDR_PAGETBL_INDEX virt_addr in
    s ← ensure_table s handle directory_index flags;
    s ← retry_table s handle directory_index;
    t ← read s (directory_virtual_at handle directory_index);
    s ← write s (t + 4 * table_index) (Z.lor page_ptr flags);
    s ← print_mapping s handle directory_index table_index page_ptr;
    Ok (0, s).

(** [for (i = 0; i < count; ++i)], [remaining] iterations left; [flags] is
    converted to [uint16_t] at the call. *)
Fixpoint map_pages (remaining : nat) (s : machine K) (handle virt_addr phys_addr flags : Z) :
    outcome (Z * machine K) :=
  match remaining with
  | O => Ok (0, s)
  | S remaining =>
      rs ← paging_map_page s handle virt_addr phys_addr (u16 flags);
      let '(res, s) := rs in
      if decide (res ≠ 0) then Ok (res, s)
      else map_pages remaining s handle (u32 (virt_addr + PAGING_PAGE_SIZE))
             (u32 (phys_addr + PAGING_PAGE_SIZE)) flags
  end.

Definition paging_map_range (s : machine K) (handle virt_addr phys_addr count flags : Z) :
    outcome (Z * machine K) :=
  if negb (paging_addr_is_page_aligned virt_addr) || negb (paging_addr_is_page_aligned phys_addr) then
    Ok (- EINVAL, s)
  else map_pages (Z.to_nat count) s handle virt_addr phys_addr flags.

Definition paging_map_from_to (s : machine K) (handle virt_addr phys_begin phys_end flags : Z) :
    outcome (Z * machine K) :=
  if negb (paging_addr_is_page_aligned virt_addr) || negb (paging_addr_is_page_aligned phys_begin) then
    Ok (- EINVAL, s)
  else if negb (paging_addr_is_page_aligned phys_end) then Ok (- EINVAL, s)
  else if decide (phys_end < phys_begin) then Ok (- EINVAL, s)
  else
    let total_pages := (phys_end - phys_begin) / PAGING_PAGE_SIZE in
    paging_map_range s handle virt_addr phys_begin total_pages flags.

(** A round of the loop of [paging_clone_directory] for a table of the kernel's, which
    is shared. *)
Definition share_table (kernel_page_directory copy_ i ke : Z) (s : machine K) : outcome (machine K) :=
  s ← set_directory_entry s copy_ i ke;
  kt ← read s (directory_virtual_at kernel_page_directory i);
  write s (directory_virtual_at copy_ i) kt.

(** The round for another table. *)
Definition clone_table (source copy_ i : Z) (s : machine K) : outcome (machine K) :=
  ps ← alloc s PAGING_PAGE_SIZE; let '(p, s) := ps in
  s ← write s (directory_virtual_at copy_ i) p;
  t ← read s (directory_virtual_at source i);
  s ← copy s p t PAGING_PAGE_SIZE;
  physical ← virtual_to_physical_addr s (current_directory s) p;
  s ← set_directory_entry s copy_ i physical;
  e ← directory_entry s source i;
  ce ← directory_entry s copy_ i;
  set_directory_entry s copy_ i (Z.lor ce (PAGE_ENTRY_FLAGS e)).

Definition clone_entry (kernel_page_directory source copy_ : Z) (i : Z) (s : machine K) :
    outcome (machine K) :=
  e ← directory_entry s source i;
  if decide (e = 0) then Ok s
  else
    ke ← directory_entry s kernel_page_directory i;
    if decide (ke = e) then share_table kernel_page_directory copy_ i ke s
    else clone_table source copy_ i s.

(** [h->directory[1023]] gets the physical address of the page [t] with the flags. *)
Definition map_itself (s : machine K) (h t : Z) : outcome (machine K) :=
  physical ← virtual_to_physical_addr s (current_directory s) t;
  s ← set_directory_entry s h 1023 physical;
  e ← directory_entry s h 1023;
  set_directory_entry s h 1023 (Z.lor e (Z.lor PAGING_WRITABLE_PAGE PAGING_PRESENT)).

(** The statements before the loop. *)
Definition new_directory (s : machine K) : outcome (Z * machine K) :=
  ps ← alloc s SIZEOF_PAGE_DIRECTORY_HANDLE; let '(copy_, s) := ps in
  ps ← alloc s PAGING_PAGE_SIZE; let '(d, s) := ps in
  s ← write s copy_ d;
  s ← fill s (directory_virtual_at copy_ 0) 0 (4 * 1024);
  Ok (copy_, s).

Definition paging_clone_directory (s : machine K) (kernel_page_directory source : Z) :
    outcome (Z * machine K) :=
  ps ← new_directory s; let '(copy_, s) := ps in
  s ← for_loop 1023 0 (clone_entry kernel_page_directory source copy_) s;
  d ← read s copy_;
  s ← write s (directory_virtual_at copy_ 1023) d;
  t ← read s (directory_virtual_at copy_ 1023);
  s ← map_itself s copy_ t;
  Ok (copy_, s).

(** [paging_init], in four parts. [kernel_page_directory] is the handle's address,
    [BOOT_PAGE_DIRECTORY] the symbol's. First a handle on the directory the boot code
    made. *)
Definition use_boot_directory (s : machine K) (BOOT_PAGE_DIRECTORY : Z) : outcome (machine K) :=
  let number_of_pages := (KERNEL_HEAP_SIZE + PAGING_PAGE_SIZE - 1) / PAGING_PAGE_SIZE in
  s ← init_page_bitmap s number_of_pages;
  ps ← alloc s SIZEOF_PAGE_DIRECTORY_HANDLE; let '(boot, s) := ps in
  let s := set_current s boot in
  write s boot BOOT_PAGE_DIRECTORY.

(** An empty directory that maps itself. *)
Definition empty_directory (s : machine K) (kernel_page_directory : Z) : outcome (machine K) :=
  s ← fill s kernel_page_directory 0 SIZEOF_PAGE_DIRECTORY_HANDLE;
  ps ← alloc s PAGING_PAGE_SIZE; let '(d, s) := ps in
  s ← write s kernel_page_directory d;
  s ← map_itself s kernel_page_directory d;
  s ← write s (directory_virtual_at kernel_page_directory 1023) d;
  physical ← virtual_to_physical_addr s (current_directory s) d;
  if decide (Z.land physical (Z.lxor ADDR_MASK 0xffffffff) ≠ 0) then
    Panic "Page directory is not 4K aligned"
  else Ok s.

(** The first four megabytes, twice. *)
Definition map_kernel (s : machine K) (kernel_page_directory : Z) : outcome (machine K) :=
  let flags := Z.lor PAGING_WRITABLE_PAGE PAGING_PRESENT in
  rs ← paging_map_from_to s kernel_page_directory 0 0 0x400000 flags; let '(res, s) := rs in
  if decide (res ≠ 0) then Panic "BAD ADDRESS"
  else
    rs ← paging_map_from_to s kernel_page_directory KERNEL_VIRTUAL_BASE 0 0x400000 flags;
    let '(res, s) := rs in
    if decide (res ≠ 0) then Panic "BAD ADDRESS" else Ok s.

(** The control registers, and the new directory in place of the boot one. *)
Definition use_kernel_directory (s : machine K) (kernel_page_directory : Z) : outcome (machine K) :=
  e ← directory_entry s kernel_page_directory 1023;
  let s := set_cr s (cr0 s) (PAGE_ENTRY_ADDR e) (cr4 s) in
  let s := set_cr s (cr0 s) (cr3 s) (Z.land (cr4 s) (Z.lnot PSE_BIT)) in
  let s := set_cr s (Z.lor (cr0 s) 0x80000000) (cr3 s) (cr4 s) in
  k ← kfree (kheap s) (current_directory s);
  Ok (set_current (set_kheap s k) kernel_page_directory).

Definition paging_init (s : machine K) (kernel_page_directory BOOT_PAGE_DIRECTORY : Z) :
    outcome (machine K) :=
  s ← use_boot_directory s BOOT_PAGE_DIRECTORY;
  s ← empty_directory s kernel_page_directory;
  s ← map_kernel s kernel_page_directory;
  use_kernel_directory s kernel_page_directory.
End paging.

(** * Numbers and addresses *)

Lemma itoa_string_ok size c : size = 100 ∨ size = 20 → ∃ l, itoa_string size c = Ok l.
Proof.
  intros Hsize. unfold itoa_string. set (scratch := write_bytes ∅ 0 (replicate (Z.to_nat size) 0)).
  destruct (decide (s32 c = - 2 ^ 31)) as [Hc|Hc].
  - assert (E : itoa scratch c 0 = itoa scratch (- 2 ^ 31) 0).
    { unfold itoa. rewrite Hc. change (s32 (- 2 ^ 31)) with (- 2 ^ 31).
      rewrite (bool_decide_eq_true_2 (- 2 ^ 31 < 0)) by lia. cbn zeta.
      enough (Es : s32 (s64 (- c)) = s32 (s64 (- - 2 ^ 31))) by (by rewrite Es).
      rewrite !s32_s64. destruct (s32_repr c) as [k Hk]. rewrite Hc in Hk. rewrite Hk.
      replace (- (- 2 ^ 31 + k * 2 ^ 32)) with (- - 2 ^ 31 + (- k) * 2 ^ 32) by lia.
      by rewrite s32_add_mul. }
    rewrite E. unfold scratch. destruct Hsize as [-> | ->]; eexists; vm_compute; reflexivity.
  - pose proof (itoa_text_length c) as Hl.
    rewrite itoa_ok, bind_Ok; [|done|].
    2: { eapply mapped_sub; [apply (mapped_fill ∅ 0 size 0)|lia|lia]. }
    rewrite (strlen_ok (S (Z.to_nat size)) _ _ (itoa_text (s32 c))), bind_Ok; [by eexists| |lia|lia].
    split; [apply bytes_at_write|apply itoa_text_bytes].
Qed.

Lemma aligned_iff a : paging_addr_is_page_aligned a = true ↔ a mod 4096 = 0.
Proof.
  unfold paging_addr_is_page_aligned. rewrite bool_decide_eq_true.
  change (PAGING_PAGE_SIZE - 1) with (2 ^ 12 - 1). by rewrite land_mask by lia.
Qed.

Lemma pagedir_index va : V_ADDR_PAGEDIR_INDEX va = va / 2 ^ 22.
Proof. unfold V_ADDR_PAGEDIR_INDEX. by rewrite Z.shiftr_div_pow2. Qed.

Lemma pagetbl_index va : V_ADDR_PAGETBL_INDEX va = va / 4096 mod 1024.
Proof.
  unfold V_ADDR_PAGETBL_INDEX. rewrite Z.shiftr_div_pow2 by lia. change 0x3ff with (2 ^ 10 - 1).
  by rewrite land_mask by lia.
Qed.

Lemma pageframe_index va : V_ADDR_PAGEFRAME_INDEX va = va mod 4096.
Proof. unfold V_ADDR_PAGEFRAME_INDEX. change 0xfff with (2 ^ 12 - 1). by rewrite land_mask by lia. Qed.

Lemma entry_addr e : 0 ≤ e < 2 ^ 32 → PAGE_ENTRY_ADDR e = e - e mod 4096.
Proof.
  intros He. unfold PAGE_ENTRY_ADDR. change ADDR_MASK with (Z.land (Z.lnot (2 ^ 12 - 1)) (2 ^ 32 - 1)).
  rewrite Z.land_assoc, land_lnot_mask, land_mask by lia. change (2 ^ 12) with 4096.
  rewrite Z.mod_small; [done|]. pose proof (Z.mod_pos_bound e 4096).
  pose proof (Z.mod_le e 4096). lia.
Qed.

Lemma entry_addr_page e : 0 ≤ e < 2 ^ 32 → 0 ≤ PAGE_ENTRY_ADDR e < 2 ^ 32 ∧ PAGE_ENTRY_ADDR e mod 4096 = 0.
Proof.
  intros He. rewrite entry_addr by done. pose proof (Z.mod_le e 4096). pose proof (Z.mod_pos_bound e 4096).
  split; [lia|]. Z.div_mod_to_equations. lia.
Qed.

(** An entry is a page address and twelve flag bits. *)
Lemma lor_flags a f : a mod 4096 = 0 → 0 ≤ f < 4096 → 0 ≤ a → Z.lor a f = a + f.
Proof.
  intros Ha Hf Ha0. rewrite <- Z.add_lor_land.
  assert (Hz : Z.land a f = 0).
  { apply Z.bits_inj'. intros n Hn. rewrite Z.land_spec, Z.bits_0.
    assert (E : a = a / 4096 * 2 ^ 12) by (change (2 ^ 12) with 4096; Z.div_mod_to_equations; lia).
    destruct (decide (n < 12)).
    - rewrite E, Z.mul_pow2_bits_low; done.
    - rewrite (Z.bits_above_log2 f), andb_false_r; [done|lia|].
      destruct (decide (f = 0)) as [->|]; [cbn; lia|].
      assert (Z.log2 f < 12) by (apply Z.log2_lt_pow2; lia). lia. }
  by rewrite Hz, Z.add_0_r.
Qed.

Lemma entry_addr_lor a f : a mod 4096 = 0 → 0 ≤ f < 4096 → 0 ≤ a < 2 ^ 32 →
  0 ≤ Z.lor a f < 2 ^ 32 ∧ PAGE_ENTRY_ADDR (Z.lor a f) = a.
Proof.
  intros Ha Hf Hr. rewrite lor_flags by lia.
  assert (Hm : (a + f) mod 4096 = f) by (Z.div_mod_to_equations; lia).
  assert (0 ≤ a + f < 2 ^ 32) by (Z.div_mod_to_equations; lia).
  split; [done|]. rewrite entry_addr by done. lia.
Qed.

Lemma pse_lor a f : a mod 4096 = 0 → PAGE_ENTRY_PSE_BIT f = 0 → PAGE_ENTRY_PSE_BIT (Z.lor a f) = 0.
Proof.
  unfold PAGE_ENTRY_PSE_BIT. intros Ha Hf. rewrite Z.land_lor_distr_l, Hf, Z.lor_0_r.
  apply Z.bits_inj'. intros n Hn. rewrite Z.land_spec, Z.bits_0. change 0x80 with (2 ^ 7).
  rewrite Z.pow2_bits_eqb by lia. destruct (Z.eqb_spec 7 n) as [<-|]; [|apply andb_false_r].
  assert (E : a = a / 4096 * 2 ^ 12) by (change (2 ^ 12) with 4096; Z.div_mod_to_equations; lia).
  rewrite E, Z.mul_pow2_bits_low by lia. done.
Qed.

(** * Directories in memory *)

Section directories.
Context {K : Type} `{AllocatorLaws K}.
Implicit Type s : machine K.

Definition owned s (a n : Z) : Prop := kowned (kheap s) a n.

(** What every step of the mapping functions keeps. *)
Record keeps s s' : Prop := Keeps {
  keeps_current : current_directory s' = current_directory s;
  keeps_cr : (cr0 s', cr3 s', cr4 s') = (cr0 s, cr3 s, cr4 s);
  keeps_kheap : kkeeps (kheap s) (kheap s')
}.

Lemma keeps_inv s s' : keeps s s' → alloc_inv (kheap s').
Proof. intros [_ _ Hk]. apply (kkeeps_inv _ _ Hk). Qed.
Lemma keeps_owned s s' : keeps s s' → ∀ a n, 0 < n → owned s a n → owned s' a n.
Proof. intros [_ _ Hk]. apply (kkeeps_owned _ _ Hk). Qed.
Lemma keeps_cr4 s s' : keeps s s' → cr4 s' = cr4 s.
Proof. intros [_ E _]. by injection E. Qed.

Lemma keeps_refl s : alloc_inv (kheap s) → keeps s s.
Proof. intros Hi. split; [done|done|by apply kkeeps_refl]. Qed.

Lemma keeps_trans s1 s2 s3 : keeps s1 s2 → keeps s2 s3 → keeps s1 s3.
Proof. intros [A1 A2 A3] [B1 B2 B3]. split; [congruence..|by eapply kkeeps_trans]. Qed.

Lemma owned_sub s a n b m : owned s a n → a ≤ b → b + m ≤ a + n → owned s b m.
Proof. apply kowned_sub. Qed.

Lemma write_ok s a v : alloc_inv (kheap s) → owned s a 4 → 0 ≤ v < 2 ^ 32 →
  ∃ s', write s a v = Ok s' ∧ keeps s s' ∧ modifies [(a, 4)] (kheap s) (kheap s') ∧
    same_heap (kheap s) (kheap s') ∧ read s' a = Ok v ∧ ∀ b, apart b 4 a 4 → read s' b = read s b.
Proof.
  intros Hi Ho Hv. destruct (kwrite_ok (kheap s) a v Hi Ho Hv) as (k' & E & Hk & -> & Hr & Hother).
  destruct (bytes_step (Q := λ _, True) [] (kheap s) a (split4 v) Hi (proj1 Ho) (split4_bytes v) (λ _ _ _, I)) as (M & _).
  unfold write. rewrite E, bind_Ok. eexists. split; [reflexivity|]. split; [by split|]. split; [exact M|].
  split; [|done]. apply same_heap_write; [done|apply Ho|apply split4_bytes].
Qed.

Lemma alloc_ok s size p k' : alloc_inv (kheap s) → 0 < size < 2 ^ 32 →
  kzalloc (kheap s) size = Ok (p, k') → p ≠ 0 →
  alloc s size = Ok (p, set_kheap s k') ∧ keeps s (set_kheap s k') ∧ modifies [] (kheap s) k' ∧
    owned (set_kheap s k') p size ∧ live k' p size ∧
    0 < p ∧ p + size < 2 ^ 32 ∧ p mod 4096 = 0 ∧ (∀ a n, 0 < n → owned s a n → apart a n p size) ∧
    (∀ a, p ≤ a → a + 4 ≤ p + size → kread k' a = Ok 0) ∧
    (∀ a, apart a 4 p size → kread k' a = read s a).
Proof.
  intros Hi Hs E Hp.
  destruct (kalloc_ok _ _ _ _ Hi Hs E Hp) as (Hk & Ho & H1 & H2 & H3 & Hm & _ & Hap & Hz & Hr).
  unfold alloc. rewrite E, bind_Ok. split; [reflexivity|]. split; [by split|]. split; [split; [done|]|].
  { intros a n Hn Ha _ x Hx. pose proof (Hap a n Hn Ha) as Hx'. unfold apart in Hx'.
    rewrite Hm. apply write_bytes_lookup_out. rewrite length_replicate. lia. }
  destruct (kzalloc_law _ _ _ _ Hi Hs E) as (_ & _ & _ & [[? _]|(Hl & _)]); [done|]. done.
Qed.

(** The handle at [h]: directory [d], page tables [tbl] (0 for none). Entry 1023
    points back at the directory and is not a table of its own. This is the shape alone:
    the specifications state the words of the directory and of the tables, by
    [directory_entry] and [table_word]. *)
Record dir_ok s (h d : Z) (tbl : Z → Z) : Prop := DirOk {
  dir_ptr : read s h = Ok d;
  dir_tbl : ∀ i, 0 ≤ i < 1024 → read s (directory_virtual_at h i) = Ok (tbl i);
  dir_handle : owned s h SIZEOF_PAGE_DIRECTORY_HANDLE;
  dir_page : owned s d 4096;
  dir_apart : apart h SIZEOF_PAGE_DIRECTORY_HANDLE d 4096;
  dir_pde : ∀ i, 0 ≤ i < 1024 → ∃ e, read s (d + 4 * i) = Ok e ∧ PAGE_ENTRY_PSE_BIT e = 0;
  dir_table : ∀ i, 0 ≤ i < 1023 → tbl i ≠ 0 → owned s (tbl i) 4096 ∧
    apart h SIZEOF_PAGE_DIRECTORY_HANDLE (tbl i) 4096 ∧ apart d 4096 (tbl i) 4096;
  dir_tables_apart : ∀ i j, 0 ≤ i < 1023 → 0 ≤ j < 1023 → i ≠ j → tbl i ≠ 0 → tbl j ≠ 0 →
    apart (tbl i) 4096 (tbl j) 4096
}.

(** Entry [k] of table [i]. *)
Definition table_entry s (tbl : Z → Z) (i k : Z) : outcome Z := read s (tbl i + 4 * k).

(** The same from memory alone: [h->directory_virtual[i][k]]. With the word of the
    directory, [h->directory[i]], it is all the processor reads of a page. *)
Definition table_word s (h i k : Z) : outcome Z :=
  t ← read s (directory_virtual_at h i); read s (t + 4 * k).

Lemma table_word_entry s h d tbl i k : dir_ok s h d tbl → 0 ≤ i < 1024 → table_word s h i k = table_entry s tbl i k.
Proof. intros Hd Hi. unfold table_word. by rewrite (dir_tbl _ _ _ _ Hd), bind_Ok. Qed.

(** The entry, or the 0 a table to come starts with. *)
Definition old_entry s (tbl : Z → Z) (i k : Z) : outcome Z :=
  if decide (tbl i = 0) then Ok 0 else table_entry s tbl i k.

Lemma indices va : 0 ≤ va < 2 ^ 32 →
  0 ≤ V_ADDR_PAGEDIR_INDEX va < 1024 ∧ 0 ≤ V_ADDR_PAGETBL_INDEX va < 1024.
Proof.
  intros Hva. rewrite pagedir_index, pagetbl_index. change (2 ^ 22) with 4194304.
  split; [|apply Z.mod_pos_bound; lia].
  split; [apply Z.div_pos|apply Z.div_lt_upper_bound]; lia.
Qed.

(** Translation through a well-formed directory reads one table entry. *)
Lemma translate s h d tbl va : dir_ok s h d tbl → 0 ≤ va < 2 ^ 32 →
  V_ADDR_PAGEDIR_INDEX va < 1023 →
  virtual_to_physical_addr s h va =
  (e ← table_entry s tbl (V_ADDR_PAGEDIR_INDEX va) (V_ADDR_PAGETBL_INDEX va);
   Ok (u32 (PAGE_ENTRY_ADDR e + va mod 4096))).
Proof.
  intros Hd Hva Hi. destruct (indices va Hva) as [Hdi _].
  unfold virtual_to_physical_addr, directory_entry. rewrite (dir_ptr _ _ _ _ Hd), bind_Ok.
  destruct (dir_pde _ _ _ _ Hd (V_ADDR_PAGEDIR_INDEX va)) as (e & -> & He); [lia|]. rewrite bind_Ok.
  rewrite decide_False by lia. rewrite (dir_tbl _ _ _ _ Hd) by lia. rewrite bind_Ok.
  by rewrite pageframe_index.
Qed.

Lemma read_word s a v : alloc_inv (kheap s) → read s a = Ok v → 0 ≤ v < 2 ^ 32.
Proof. apply kread_range. Qed.

(** A step that spares the handle and the directory keeps the structure. *)
Lemma dir_ok_frame s s' h d tbl : dir_ok s h d tbl → keeps s s' →
  (∀ a, h ≤ a → a + 4 ≤ h + SIZEOF_PAGE_DIRECTORY_HANDLE → read s' a = read s a) →
  (∀ a, d ≤ a → a + 4 ≤ d + 4096 → read s' a = read s a) → dir_ok s' h d tbl.
Proof.
  intros [Hp Ht Hh Hg Ha Hpde Htab Hsep] Hk Hfh Hfd. unfold SIZEOF_PAGE_DIRECTORY_HANDLE in *.
  split; try done.
  - by rewrite Hfh by lia.
  - intros i Hi. rewrite Hfh; [by apply Ht|unfold directory_virtual_at; lia..].
  - by apply (keeps_owned _ _ Hk).
  - by apply (keeps_owned _ _ Hk).
  - intros i Hi. rewrite Hfd by lia. by apply Hpde.
  - intros i Hi Hne. destruct (Htab i Hi Hne) as (Ho & ? & ?). split; [|done].
    by apply (keeps_owned _ _ Hk).
Qed.

(** [translates_by s c x words physical]: the directory at [c] translates [x], by the
    words at [words] and [cr4]. *)
Definition translates_by s (c x : Z) (words : list Z) (physical : Z) : Prop :=
  ∀ s', cr4 s' = cr4 s → Forall (λ a, read s' a = read s a) words →
    virtual_to_physical_addr s' c x = Ok physical.

Lemma translates_now s c x words physical : translates_by s c x words physical →
  virtual_to_physical_addr s c x = Ok physical.
Proof. intros Ht. apply Ht; [done|]. by apply Forall_forall. Qed.

(** By a page table. *)
Lemma translates_by_table s c x d e t pte :
  read s c = Ok d → read s (d + 4 * V_ADDR_PAGEDIR_INDEX x) = Ok e → PAGE_ENTRY_PSE_BIT e = 0 →
  read s (directory_virtual_at c (V_ADDR_PAGEDIR_INDEX x)) = Ok t →
  read s (t + 4 * V_ADDR_PAGETBL_INDEX x) = Ok pte →
  translates_by s c x [c; d + 4 * V_ADDR_PAGEDIR_INDEX x; directory_virtual_at c (V_ADDR_PAGEDIR_INDEX x);
    t + 4 * V_ADDR_PAGETBL_INDEX x] (u32 (PAGE_ENTRY_ADDR pte + V_ADDR_PAGEFRAME_INDEX x)).
Proof.
  intros H1 H2 H3 H4 H5 s' _ Hf. rewrite !Forall_cons in Hf. destruct Hf as (E1 & E2 & E3 & E4 & _).
  unfold virtual_to_physical_addr, directory_entry. rewrite E1, H1, bind_Ok, E2, H2, bind_Ok.
  rewrite decide_False by lia. by rewrite E3, H4, bind_Ok, E4, H5, bind_Ok.
Qed.

(** By a large page. *)
Lemma translates_by_pse s c x d e :
  read s c = Ok d → read s (d + 4 * V_ADDR_PAGEDIR_INDEX x) = Ok e → PAGE_ENTRY_PSE_BIT e ≠ 0 →
  Z.land (cr4 s) PSE_BIT ≠ 0 →
  translates_by s c x [c; d + 4 * V_ADDR_PAGEDIR_INDEX x]
    (u32 (PAGE_ENTRY_ADDR e + V_ADDR_PAGEFRAME_INDEX_PSE x)).
Proof.
  intros H1 H2 H3 H4 s' Hc Hf. rewrite !Forall_cons in Hf. destruct Hf as (E1 & E2 & _).
  unfold virtual_to_physical_addr, directory_entry. rewrite E1, H1, bind_Ok, E2, H2, bind_Ok.
  rewrite decide_True by done. by rewrite Hc, decide_False.
Qed.

(** [walkable s c cs x]: [c] translates the page [x], whatever happens to the memory
    that is not owned and to the regions [cs]. *)
Definition walkable s (c : Z) (cs : list (Z * Z)) (x : Z) : Prop :=
  ∃ words physical, translates_by s c x words physical ∧ 0 ≤ physical < 2 ^ 32 ∧ physical mod 4096 = 0 ∧
    Forall (λ a, owned s a 4 ∧ apart_all cs a 4) words.

Lemma walk s s' c cs x : walkable s c cs x → cr4 s' = cr4 s →
  (∀ a, owned s a 4 → apart_all cs a 4 → read s' a = read s a) →
  ∃ physical, virtual_to_physical_addr s c x = Ok physical ∧ virtual_to_physical_addr s' c x = Ok physical ∧
    0 ≤ physical < 2 ^ 32 ∧ physical mod 4096 = 0.
Proof.
  intros (words & physical & Ht & Hr & Ha & Hf) Hc Hsame. exists physical.
  split; [by eapply translates_now|]. split; [|done]. apply Ht; [done|].
  eapply Forall_impl; [exact Hf|]. intros a [Ho Hap]. by apply Hsame.
Qed.

(** Room for a page table, in heap memory the current directory maps. *)
Definition table_room s (slot p : Z) : Prop :=
  (∃ k', kzalloc (kheap s) PAGING_PAGE_SIZE = Ok (p, k')) ∧ p ≠ 0 ∧
  walkable s (current_directory s) [(slot, 4)] p.

(** [tables_same s s' tbl]: the entries of the tables there were are unchanged. *)
Definition tables_same s s' (tbl : Z → Z) : Prop :=
  ∀ i k, 0 ≤ i < 1023 → tbl i ≠ 0 → 0 ≤ k < 1024 → table_entry s' tbl i k = table_entry s tbl i k.

(** And those of a new table are 0. *)
Definition tables_kept s s' (tbl tbl' : Z → Z) : Prop :=
  ∀ i k, 0 ≤ i < 1023 → tbl' i ≠ 0 → 0 ≤ k < 1024 → table_entry s' tbl' i k = old_entry s tbl i k.

Lemma ensure_present s h d tbl i flags : dir_ok s h d tbl → 0 ≤ i < 1024 → tbl i ≠ 0 →
  ensure_table s h i flags = Ok s ∧ retry_table s h i = Ok s.
Proof.
  intros Hd Hi Hne. unfold ensure_table, retry_table.
  rewrite (dir_tbl _ _ _ _ Hd) by done. rewrite !bind_Ok. by rewrite !decide_True.
Qed.

(** Recording a new table [p], apart from everything, in slot [i]. *)
Lemma dir_ok_add s s' h d tbl i p : dir_ok s h d tbl → keeps s s' → 0 ≤ i < 1023 →
  owned s' p 4096 → apart h SIZEOF_PAGE_DIRECTORY_HANDLE p 4096 → apart d 4096 p 4096 →
  (∀ j, 0 ≤ j < 1023 → tbl j ≠ 0 → apart (tbl j) 4096 p 4096) →
  read s' h = Ok d → read s' (directory_virtual_at h i) = Ok p →
  (∀ j, 0 ≤ j < 1024 → j ≠ i →
     read s' (directory_virtual_at h j) = read s (directory_virtual_at h j) ∧
     read s' (d + 4 * j) = read s (d + 4 * j)) →
  (∃ e, read s' (d + 4 * i) = Ok e ∧ PAGE_ENTRY_PSE_BIT e = 0) →
  dir_ok s' h d (λ j, if decide (j = i) then p else tbl j).
Proof.
  intros [Hp Ht Hh Hg Ha Hpde Htab Hsep] Hk Hi Hop Hhp Hdp Hsepp Hrh Hslot Hsame He.
  split; try done.
  - intros j Hj. case_decide as Hji; [by subst|]. destruct (Hsame j Hj Hji) as [-> _]. by apply Ht.
  - apply (keeps_owned _ _ Hk); [done|exact Hh].
  - apply (keeps_owned _ _ Hk); [done|exact Hg].
  - intros j Hj. destruct (decide (j = i)) as [->|Hji]; [done|].
    destruct (Hsame j Hj Hji) as [_ ->]. by apply Hpde.
  - intros j Hj. case_decide as Hji; [done|]. intros Hne. destruct (Htab j Hj Hne) as (Ho & ? & ?).
    split; [|done]. by apply (keeps_owned _ _ Hk).
  - intros j k Hj Hk' Hjk. unfold apart in *. repeat case_decide; subst; intros Hn1 Hn2; auto; try lia.
    + destruct (Hsepp k Hk' Hn2); lia.
Qed.

(** Where the table of slot [i] comes from: it was there, or one was allocated, and
    its address as the current directory translates it entered with the flags. *)
Definition supplied s s' (d : Z) (tbl tbl' : Z → Z) (i flags : Z) : Prop :=
  (tbl i ≠ 0 ∧ same_heap (kheap s) (kheap s')) ∨
  (tbl i = 0 ∧ ∃ k' physical, kzalloc (kheap s) PAGING_PAGE_SIZE = Ok (tbl' i, k') ∧
     same_heap k' (kheap s') ∧ live (kheap s') (tbl' i) PAGING_PAGE_SIZE ∧
     virtual_to_physical_addr s (current_directory s) (tbl' i) = Ok physical ∧
     PAGE_ENTRY_ADDR (Z.lor physical flags) = physical ∧ read s' (d + 4 * i) = Ok (Z.lor physical flags)).

(** From [s] to [s'] the directory got a table in slot [i], if it had none, and the
    rest of memory stayed. *)
Record table_in s s' (h d : Z) (tbl tbl' : Z → Z) (i flags : Z) : Prop := TableIn {
  ti_keeps : keeps s s';
  ti_dir : dir_ok s' h d tbl';
  ti_table : tbl' i ≠ 0;
  ti_others : ∀ j, tbl j ≠ 0 ∨ j ≠ i → tbl' j = tbl j;
  ti_frame : modifies [(h, SIZEOF_PAGE_DIRECTORY_HANDLE); (d, 4096); (tbl' i, 4096)] (kheap s) (kheap s');
  ti_pde : ∀ j, 0 ≤ j < 1024 → j ≠ i ∨ tbl i ≠ 0 → read s' (d + 4 * j) = read s (d + 4 * j);
  ti_supply : supplied s s' d tbl tbl' i flags
}.

Lemma table_in_trans s1 s2 s3 h d tbl1 tbl2 tbl3 i flags : 0 ≤ i < 1024 →
  table_in s1 s2 h d tbl1 tbl2 i flags → table_in s2 s3 h d tbl2 tbl3 i flags →
  table_in s1 s3 h d tbl1 tbl3 i flags.
Proof.
  intros Hir [K1 D1 T1 O1 F1 P1 S1] [K2 D2 T2 O2 F2 P2 S2].
  assert (Ei : tbl3 i = tbl2 i) by (apply O2; by left). rewrite Ei in F2.
  assert (Hs : same_heap (kheap s2) (kheap s3)) by (by destruct S2 as [[_ ?]|[? _]]).
  split; [by eapply keeps_trans|done|congruence| | | |].
  - intros j Hj. rewrite O2, O1; [done|done|]. destruct (decide (j = i)) as [-> | ]; [by left|by right].
  - rewrite Ei. by eapply modifies_step.
  - intros j Hj Hij. rewrite P2, P1; [done|done|done|done|by right].
  - destruct S1 as [[Hne Hsh]|(Hz & k' & ph & E & Hsh & Hl & Ev & Ea & Er)]; [left|right].
    + split; [done|]. by eapply same_heap_trans.
    + split; [done|]. exists k', ph. rewrite Ei. split; [done|]. split; [by eapply same_heap_trans|].
      split; [by apply (kkeeps_live _ _ (keeps_kheap _ _ K2))|]. split; [done|]. split; [done|]. by rewrite P2 by (done || by right).
Qed.

(** A new table [p], recorded by writes to the slot and to the directory entry. *)
Lemma table_recorded s s1 s' h d tbl i p e : dir_ok s h d tbl → 0 ≤ i < 1023 → tbl i = 0 →
  let slot := directory_virtual_at h i in
  keeps s s1 → keeps s1 s' → modifies [] (kheap s) (kheap s1) →
  modifies [(slot, 4); (d + 4 * i, 4)] (kheap s1) (kheap s') → owned s1 p 4096 →
  (∀ a n, 0 < n → owned s a n → apart a n p 4096) →
  read s' slot = Ok p → read s' (d + 4 * i) = Ok e → PAGE_ENTRY_PSE_BIT e = 0 →
  dir_ok s' h d (λ j, if decide (j = i) then p else tbl j) ∧ tables_same s s' tbl ∧
  modifies [(slot, 4); (d + 4 * i, 4)] (kheap s) (kheap s') ∧
  ∀ j, 0 ≤ j < 1024 → j ≠ i → read s' (d + 4 * j) = read s (d + 4 * j).
Proof.
  intros Hd Hir Hz slot K1 K2 M1 M2 Ho Hap Rs Re Hpse.
  pose proof (dir_handle _ _ _ _ Hd) as Hh. pose proof (dir_page _ _ _ _ Hd) as Hg.
  pose proof (dir_apart _ _ _ _ Hd) as Hhd. pose proof (Hap h SIZEOF_PAGE_DIRECTORY_HANDLE ltac:(done) Hh) as Hhp.
  pose proof (Hap d 4096 ltac:(done) Hg) as Hgp. unfold SIZEOF_PAGE_DIRECTORY_HANDLE, apart in *.
  assert (Hslot : h + 4 ≤ slot ∧ slot + 4 ≤ h + 4100) by (subst slot; unfold directory_virtual_at; lia).
  assert (M : modifies [(slot, 4); (d + 4 * i, 4)] (kheap s) (kheap s')).
  { eapply modifies_step; [|exact M2|done]. apply (modifies_sub _ _ _ _ M1). constructor. }
  assert (Hfar : ∀ a, owned s a 4 → apart a 4 slot 4 → apart a 4 (d + 4 * i) 4 → read s' a = read s a).
  { intros a Ha H1 H2. apply (modifies_read _ _ _ _ M Ha). apply Forall_cons. split; [done|by apply Forall_singleton]. }
  assert (Hpde : ∀ j, 0 ≤ j < 1024 → j ≠ i → read s' (d + 4 * j) = read s (d + 4 * j)).
  { intros j Hj Hji. apply Hfar; [apply (owned_sub _ _ _ _ _ Hg); lia|unfold apart; lia..]. }
  split; [|split; [|done]].
  - apply (dir_ok_add s s' h d tbl i p Hd); try done; try (unfold apart, SIZEOF_PAGE_DIRECTORY_HANDLE; lia).
    + by eapply keeps_trans.
    + by apply (keeps_owned _ _ K2).
    + intros j Hj Hne. destruct (dir_table _ _ _ _ Hd j Hj Hne) as (Hoj & _). by apply Hap.
    + rewrite Hfar; [apply (dir_ptr _ _ _ _ Hd)| |unfold apart; lia..]. apply (owned_sub _ _ _ _ _ Hh); lia.
    + intros j Hj Hji. split; [|by apply Hpde]. unfold slot, directory_virtual_at in *.
      apply Hfar; [apply (owned_sub _ _ _ _ _ Hh)|..]; unfold apart; lia.
    + by exists e.
  - intros j k Hj Hne Hk. unfold table_entry. destruct (dir_table _ _ _ _ Hd j Hj Hne) as (Hoj & A1 & A2).
    unfold apart, SIZEOF_PAGE_DIRECTORY_HANDLE in A1, A2.
    apply Hfar; [apply (owned_sub _ _ _ _ _ Hoj); lia|unfold apart; lia..].
Qed.

(** A missing table is allocated, zeroed, recorded and entered in the directory. *)
Lemma ensure_missing s h d tbl i flags p : alloc_inv (kheap s) → dir_ok s h d tbl →
  0 ≤ i < 1023 → tbl i = 0 → table_room s (directory_virtual_at h i) p →
  0 ≤ flags < 4096 → PAGE_ENTRY_PSE_BIT flags = 0 →
  let tbl' := λ j, if decide (j = i) then p else tbl j in
  ∃ s', ensure_table s h i flags = Ok s' ∧ tables_kept s s' tbl tbl' ∧ table_in s s' h d tbl tbl' i flags.
Proof.
  intros Hi Hd Hir Hz ([k1 E] & Hp & Hwalk) Hfl Hpse tbl'.
  pose proof (dir_handle _ _ _ _ Hd) as Hh. pose proof (dir_page _ _ _ _ Hd) as Hg.
  pose proof (dir_apart _ _ _ _ Hd) as Hhd.
  destruct (alloc_ok s PAGING_PAGE_SIZE p k1 Hi) as
    (E1 & K1 & M1 & Ho1 & Hl1 & Hp0 & Hp1 & Hal & Hap & Hzero & R1); [by vm_compute|done|done|].
  change PAGING_PAGE_SIZE with 4096 in *. set (s1 := set_kheap s k1) in *.
  set (slot := directory_virtual_at h i) in *. unfold SIZEOF_PAGE_DIRECTORY_HANDLE, apart in Hhd.
  assert (Hslot : h + 4 ≤ slot ∧ slot + 4 ≤ h + 4100) by (subst slot; unfold directory_virtual_at; lia).
  destruct (write_ok s1 slot p) as (s2 & E2 & K2 & M2 & S2 & Rs & R2);
    [apply (keeps_inv _ _ K1)|apply (keeps_owned _ _ K1); [lia|]; apply (owned_sub _ _ _ _ _ Hh);
      unfold SIZEOF_PAGE_DIRECTORY_HANDLE; lia|lia|].
  assert (Hcur : current_directory s2 = current_directory s) by exact (keeps_current _ _ K2).
  destruct (walk s s2 _ _ p Hwalk) as (ph & Ev & Ev2 & Hphr & Hph);
    [exact (keeps_cr4 _ _ K2)|intros a Ha Haps; unfold apart_all in Haps; rewrite Forall_singleton in Haps; rewrite R2 by exact Haps; apply R1; by apply (Hap a 4)|].
  destruct (entry_addr_lor ph flags Hph Hfl Hphr) as [Hlr Hla].
  assert (Rh2 : read s2 h = Ok d).
  { assert (Hh4 : owned s h 4) by (apply (owned_sub _ _ _ _ _ Hh); unfold SIZEOF_PAGE_DIRECTORY_HANDLE; lia).
    rewrite R2 by (unfold apart; lia). change (kread k1 h = Ok d). rewrite R1; [apply (dir_ptr _ _ _ _ Hd)|].
    apply Hap; [lia|done]. }
  destruct (write_ok s2 (d + 4 * i) (Z.lor ph flags)) as (s3 & E3 & K3 & M3 & S3 & Re & R3);
    [apply (keeps_inv _ _ K2)|apply (keeps_owned _ _ K2); [lia|]; apply (keeps_owned _ _ K1); [lia|];
      apply (owned_sub _ _ _ _ _ Hg); lia|done|].
  assert (M23 : modifies [(slot, 4); (d + 4 * i, 4)] (kheap s1) (kheap s3)).
  { eapply modifies_step; [apply (modifies_sub _ _ _ _ M2)|exact M3|];
      intros a n _ _ Ha; apply Forall_cons in Ha as [? Ha]; [by apply Forall_singleton|done]. }
  destruct (table_recorded s s1 s3 h d tbl i p (Z.lor ph flags)) as (D3 & T3 & M & P3); try done.
  { by eapply keeps_trans. }
  { rewrite R3; [done|unfold apart; lia]. }
  { by apply pse_lor. }
  exists s3. unfold ensure_table. rewrite (dir_tbl _ _ _ _ Hd), bind_Ok by lia. fold slot.
  rewrite decide_False by lia. change PAGING_PAGE_SIZE with 4096.
  rewrite E1, bind_Ok, E2, bind_Ok, Hcur, Ev2, bind_Ok.
  unfold set_directory_entry. rewrite Rh2, bind_Ok. split; [done|]. unfold tbl'. split.
  { intros j k Hj Hne Hk. unfold old_entry, table_entry. pose proof (T3 j k Hj) as Hsame. unfold table_entry in Hsame.
    destruct (decide (j = i)) as [-> | Hji]; [|by rewrite decide_False; [apply Hsame|]]. rewrite decide_True by done.
    pose proof (Hap h SIZEOF_PAGE_DIRECTORY_HANDLE ltac:(done) Hh) as Hhp. pose proof (Hap d 4096 ltac:(lia) Hg) as Hgp.
    unfold SIZEOF_PAGE_DIRECTORY_HANDLE, apart in Hhp, Hgp. rewrite R3, R2 by (unfold apart; lia). apply Hzero; lia. }
  split; [eapply keeps_trans; [exact K1|by eapply keeps_trans]|done|by rewrite decide_True| | | |].
  - intros j Hj. case_decide; [|done]. subst. by destruct Hj.
  - apply (modifies_sub _ _ _ _ M). intros a n Hn Ha Haps. unfold apart_all, apart in *.
    rewrite !Forall_cons in *. cbn [fst snd] in *. unfold SIZEOF_PAGE_DIRECTORY_HANDLE in Haps.
    split; [lia|]. split; [lia|constructor].
  - intros j Hj Hji. apply P3; [done|]. destruct Hji; [done|congruence].
  - right. split; [done|]. exists k1, ph. rewrite decide_True by done. change PAGING_PAGE_SIZE with 4096.
    split; [done|]. split; [by eapply same_heap_trans|]. split; [|done].
    apply (kkeeps_live _ _ (keeps_kheap _ _ K3)). by apply (kkeeps_live _ _ (keeps_kheap _ _ K2)).
Qed.

(** A table is there, or there is room for one. *)
Definition table_or_room s (h : Z) (tbl : Z → Z) (i : Z) : Prop :=
  tbl i ≠ 0 ∨ ∃ p, table_room s (directory_virtual_at h i) p.

Lemma table_in_same s s' h d tbl i flags : 0 ≤ i < 1023 → dir_ok s h d tbl → dir_ok s' h d tbl → tbl i ≠ 0 → keeps s s' →
  modifies [(tbl i, 4096)] (kheap s) (kheap s') → same_heap (kheap s) (kheap s') →
  table_in s s' h d tbl tbl i flags.
Proof.
  intros Hir Hd Hd' Hne Hk M Hs. destruct (dir_table _ _ _ _ Hd i Hir Hne) as (_ & _ & Ha).
  split; [done|done|done|done| | |by left].
  - apply (modifies_sub _ _ _ _ M). intros a n _ _ Haps. unfold apart_all in *. rewrite !Forall_cons in *.
    destruct Haps as (_ & _ & ? & _). by split.
  - intros j Hj _. apply (modifies_read _ _ _ _ M).
    + apply (owned_sub _ _ _ _ _ (dir_page _ _ _ _ Hd)); lia.
    + apply Forall_singleton. unfold apart in *. cbn [fst snd]. lia.
Qed.

Lemma ensure_ok s h d tbl i flags : alloc_inv (kheap s) → dir_ok s h d tbl →
  0 ≤ i < 1023 → table_or_room s h tbl i → 0 ≤ flags < 4096 → PAGE_ENTRY_PSE_BIT flags = 0 →
  ∃ s' tbl', ensure_table s h i flags = Ok s' ∧ tables_kept s s' tbl tbl' ∧ table_in s s' h d tbl tbl' i flags.
Proof.
  intros Hi Hd Hir Hroom Hfl Hpse. destruct (decide (tbl i = 0)) as [Hz|Hnz].
  - destruct Hroom as [|[p Hroom]]; [done|].
    destruct (ensure_missing s h d tbl i flags p Hi Hd Hir Hz Hroom Hfl Hpse) as (s' & E & Hsame & Hin).
    by exists s', (λ j, if decide (j = i) then p else tbl j).
  - destruct (ensure_present s h d tbl i flags Hd ltac:(lia) Hnz) as [-> _].
    exists s, tbl. split; [done|]. split; [intros j k _ Hne _; unfold old_entry; by rewrite decide_False|].
    apply table_in_same; try done; first [by apply keeps_refl|by apply modifies_refl|by apply same_heap_refl].
Qed.

Lemma print_mapping_ok s h d tbl i t page : dir_ok s h d tbl → 0 ≤ i < 1024 →
  ∃ out, print_mapping s h i t page = Ok (set_console s out).
Proof.
  intros Hd Hi. unfold print_mapping, directory_entry. rewrite (dir_ptr _ _ _ _ Hd), !bind_Ok.
  destruct (dir_pde _ _ _ _ Hd 1023) as (e1 & -> & _); [lia|].
  destruct (dir_pde _ _ _ _ Hd i) as (e2 & -> & _); [lia|]. rewrite !bind_Ok.
  destruct (itoa_string_ok 100 (PAGE_ENTRY_ADDR e1) ltac:(by left)) as [l1 ->]. rewrite bind_Ok.
  destruct (itoa_string_ok 100 i ltac:(by left)) as [l2 ->]. rewrite !bind_Ok.
  destruct (itoa_string_ok 100 e2 ltac:(by left)) as [l3 ->]. rewrite bind_Ok.
  destruct (itoa_string_ok 100 t ltac:(by left)) as [l4 ->]. rewrite bind_Ok.
  destruct (itoa_string_ok 100 page ltac:(by left)) as [l5 ->]. rewrite bind_Ok. by eexists.
Qed.

Lemma keeps_console s t : alloc_inv (kheap s) → keeps s (set_console s t).
Proof. intros Hi. split; [done|done|by apply kkeeps_refl]. Qed.

Lemma dir_ok_console s h d tbl t : alloc_inv (kheap s) → dir_ok s h d tbl → dir_ok (set_console s t) h d tbl.
Proof. intros Hi Hd. apply (dir_ok_frame s); [done|by apply keeps_console|done..]. Qed.

Lemma map_page_spec s h d tbl virt phys flags :
  alloc_inv (kheap s) → dir_ok s h d tbl → 0 ≤ virt < 2 ^ 32 → 0 ≤ phys < 2 ^ 32 →
  virt mod 4096 = 0 → phys mod 4096 = 0 → V_ADDR_PAGEDIR_INDEX virt < 1023 →
  table_or_room s h tbl (V_ADDR_PAGEDIR_INDEX virt) →
  0 ≤ flags < 4096 → PAGE_ENTRY_PSE_BIT flags = 0 →
  ∃ s' tbl', paging_map_page s h virt phys flags = Ok (0, s') ∧
    table_in s s' h d tbl tbl' (V_ADDR_PAGEDIR_INDEX virt) flags ∧
    table_entry s' tbl' (V_ADDR_PAGEDIR_INDEX virt) (V_ADDR_PAGETBL_INDEX virt) = Ok (Z.lor phys flags) ∧
    ∀ i k, 0 ≤ i < 1023 → tbl' i ≠ 0 → 0 ≤ k < 1024 →
      i ≠ V_ADDR_PAGEDIR_INDEX virt ∨ k ≠ V_ADDR_PAGETBL_INDEX virt →
      table_entry s' tbl' i k = old_entry s tbl i k.
Proof.
  intros Hi Hd Hv Hp Hva Hpa Hdi Hroom Hfl Hpse. destruct (indices virt Hv) as [Hir Hkr].
  unfold paging_map_page. rewrite (proj2 (aligned_iff virt) Hva), (proj2 (aligned_iff phys) Hpa).
  cbn [negb orb]. cbn zeta.
  set (i := V_ADDR_PAGEDIR_INDEX virt) in *. set (k := V_ADDR_PAGETBL_INDEX virt) in *.
  destruct (ensure_ok s h d tbl i flags Hi Hd ltac:(lia) Hroom Hfl Hpse) as (s1 & tbl1 & -> & Hsame & T1).
  rewrite bind_Ok. pose proof T1 as [K1 Hd1 Hne1 Hext _ _ _].
  destruct (ensure_present s1 h d tbl1 i flags Hd1 Hir Hne1) as [_ ->]. rewrite bind_Ok.
  rewrite (dir_tbl _ _ _ _ Hd1), bind_Ok by lia.
  destruct (dir_table _ _ _ _ Hd1 i ltac:(lia) Hne1) as (Hot & Hht & Hdt).
  unfold SIZEOF_PAGE_DIRECTORY_HANDLE, apart in Hht, Hdt.
  destruct (write_ok s1 (tbl1 i + 4 * k) (Z.lor phys flags)) as (s2 & -> & K2 & M2 & S2 & Rw & R2);
    [apply (keeps_inv _ _ K1)|apply (owned_sub _ _ _ _ _ Hot); lia|by apply entry_addr_lor|].
  rewrite bind_Ok.
  assert (Hd2 : dir_ok s2 h d tbl1).
  { apply (dir_ok_frame s1); [done|done| |]; intros a Ha1 Ha2; apply R2;
      unfold apart, SIZEOF_PAGE_DIRECTORY_HANDLE in *; lia. }
  destruct (print_mapping_ok s2 h d tbl1 i k phys Hd2 Hir) as [out ->]. rewrite bind_Ok.
  exists (set_console s2 out), tbl1. split; [done|]. pose proof (keeps_inv _ _ K2) as Hi2. split; [|split; [exact Rw|]].
  - eapply table_in_trans; [lia|exact T1|]. apply table_in_same; try done; [lia|by apply dir_ok_console| |].
    + eapply keeps_trans; [exact K2|by apply keeps_console].
    + apply (modifies_sub _ _ _ _ M2). intros a n _ _ Ha. unfold apart_all, apart in *.
      rewrite !Forall_cons in *. cbn [fst snd] in *. split; [lia|constructor].
  - intros j l Hj Hne Hl Hjl. rewrite <- (Hsame j l Hj Hne Hl).
    change (table_entry (set_console s2 out) tbl1 j l) with (read s2 (tbl1 j + 4 * l)).
    unfold table_entry. apply R2. unfold apart. destruct (decide (j = i)) as [->|Hji]; [lia|].
    destruct (dir_tables_apart _ _ _ _ Hd1 j i Hj ltac:(lia) Hji Hne Hne1); lia.
Qed.

(** Two addresses of one page share their entry; those of two pages do not. *)
Lemma indices_page va : 0 ≤ va →
  V_ADDR_PAGEDIR_INDEX va * 1024 + V_ADDR_PAGETBL_INDEX va = va / 4096.
Proof.
  intros Hva. rewrite pagedir_index, pagetbl_index.
  change (2 ^ 22) with (4096 * 1024). rewrite <- Z.div_div by lia.
  pose proof (Z.div_mod (va / 4096) 1024). lia.
Qed.

(** Mapped addresses translate to the frame they were mapped to. *)
Lemma translate_mapped s h d tbl va virt phys flags : dir_ok s h d tbl →
  0 ≤ va < 2 ^ 32 → 0 ≤ phys < 2 ^ 32 → phys mod 4096 = 0 → V_ADDR_PAGEDIR_INDEX va < 1023 →
  0 ≤ flags < 4096 → 0 ≤ virt → va / 4096 = virt / 4096 →
  table_entry s tbl (V_ADDR_PAGEDIR_INDEX virt) (V_ADDR_PAGETBL_INDEX virt) = Ok (Z.lor phys flags) →
  virtual_to_physical_addr s h va = Ok (phys + va mod 4096).
Proof.
  intros Hd Hva Hp Hpa Hi Hfl Hv0 Hpg He. destruct (indices va Hva) as [Hir Hkr].
  assert (V_ADDR_PAGEDIR_INDEX virt = V_ADDR_PAGEDIR_INDEX va ∧
          V_ADDR_PAGETBL_INDEX virt = V_ADDR_PAGETBL_INDEX va) as [E1 E2].
  { rewrite !pagedir_index, !pagetbl_index, Hpg. split; [|done].
    change (2 ^ 22) with (4096 * 1024). by rewrite <- !Z.div_div, Hpg by lia. }
  rewrite (translate s h d tbl va Hd Hva Hi). rewrite E1, E2 in He. rewrite He, bind_Ok.
  destruct (entry_addr_lor phys flags Hpa Hfl Hp) as [_ ->]. rewrite u32_id; [done|].
  Z.div_mod_to_equations. lia.
Qed.

Lemma map_pages_S n s h virt phys flags : map_pages (S n) s h virt phys flags =
  (rs ← paging_map_page s h virt phys (u16 flags);
   let '(res, s) := rs in
   if decide (res ≠ 0) then Ok (res, s)
   else map_pages n s h (u32 (virt + PAGING_PAGE_SIZE)) (u32 (phys + PAGING_PAGE_SIZE)) flags).
Proof. reflexivity. Qed.

(** The loop of [paging_map_range] within one table, for at least one page. *)
Lemma map_pages_spec n s h d tbl virt phys flags :
  alloc_inv (kheap s) → dir_ok s h d tbl → 0 ≤ virt → 0 ≤ phys →
  virt + 4096 * Z.of_nat (S n) ≤ 2 ^ 32 → phys + 4096 * Z.of_nat (S n) ≤ 2 ^ 32 →
  virt mod 4096 = 0 → phys mod 4096 = 0 → V_ADDR_PAGEDIR_INDEX virt < 1023 →
  (∀ j, 0 ≤ j < Z.of_nat (S n) → V_ADDR_PAGEDIR_INDEX (virt + 4096 * j) = V_ADDR_PAGEDIR_INDEX virt) →
  table_or_room s h tbl (V_ADDR_PAGEDIR_INDEX virt) →
  0 ≤ flags < 4096 → PAGE_ENTRY_PSE_BIT flags = 0 →
  ∃ s' tbl', map_pages (S n) s h virt phys flags = Ok (0, s') ∧
    table_in s s' h d tbl tbl' (V_ADDR_PAGEDIR_INDEX virt) flags ∧
    (∀ j, 0 ≤ j < Z.of_nat (S n) →
       table_entry s' tbl' (V_ADDR_PAGEDIR_INDEX (virt + 4096 * j))
         (V_ADDR_PAGETBL_INDEX (virt + 4096 * j)) = Ok (Z.lor (phys + 4096 * j) flags)) ∧
    (∀ i k, 0 ≤ i < 1023 → tbl' i ≠ 0 → 0 ≤ k < 1024 →
       (∀ j, 0 ≤ j < Z.of_nat (S n) → i * 1024 + k ≠ virt / 4096 + j) →
       table_entry s' tbl' i k = old_entry s tbl i k).
Proof.
  revert s tbl virt phys. induction n as [|n IH]; intros s tbl virt phys Hi Hd Hv Hp Hve Hpe Hva Hpa Hdi
    Hone Hroom Hfl Hpse;
    (destruct (map_page_spec s h d tbl virt phys flags) as (s1 & tbl1 & E1 & T1 & He1 & Hs1); try done; [lia..|]);
    rewrite map_pages_S, u16_id, E1, bind_Ok, decide_False by lia.
  { exists s1, tbl1. split; [done|]. split; [done|]. split.
    - intros j Hj. assert (j = 0) as -> by lia. change (4096 * 0) with 0. by rewrite !Z.add_0_r.
    - intros i k Hir Hne Hk Hj. apply Hs1; try done. specialize (Hj 0 ltac:(lia)).
      rewrite <- indices_page in Hj by done. lia. }
  destruct (indices virt ltac:(lia)) as [Hdr Hkr]. pose proof T1 as [K1 Hd1 Hne1 Hext1 _ _ _].
  assert (Hin : V_ADDR_PAGEDIR_INDEX (virt + 4096) = V_ADDR_PAGEDIR_INDEX virt) by (apply (Hone 1); lia).
  assert (Hvd : (virt + 4096) / 4096 = virt / 4096 + 1) by (Z.div_mod_to_equations; lia).
  unfold PAGING_PAGE_SIZE. rewrite (u32_id (virt + 4096)), (u32_id (phys + 4096)) by lia.
  destruct (IH s1 tbl1 (virt + 4096) (phys + 4096)) as (s2 & tbl2 & -> & T2 & He2 & Hs2); try done; try lia.
  - apply (keeps_inv _ _ K1).
  - Z.div_mod_to_equations. lia.
  - Z.div_mod_to_equations. lia.
  - intros j Hj. rewrite Hin, <- (Hone (j + 1)) by lia. f_equal. lia.
  - left. by rewrite Hin.
  - rewrite Hin in T2. exists s2, tbl2. split; [done|]. split; [by eapply table_in_trans|].
    assert (Hs12 : ∀ i k, 0 ≤ i < 1023 → tbl2 i ≠ 0 → 0 ≤ k < 1024 →
      (∀ j, 0 ≤ j < Z.of_nat (S n) → i * 1024 + k ≠ (virt + 4096) / 4096 + j) →
      tbl1 i ≠ 0 ∧ table_entry s2 tbl2 i k = table_entry s1 tbl1 i k).
    { intros i k Hir Hne Hk Hj. rewrite (Hs2 i k Hir Hne Hk Hj). unfold old_entry. case_decide as Hz; [|done].
      destruct (decide (i = V_ADDR_PAGEDIR_INDEX virt)) as [-> | Hii]; [done|]. destruct Hne.
      rewrite <- Hz. apply (ti_others _ _ _ _ _ _ _ _ T2). by right. }
    split.
    + intros j Hj. destruct (decide (j = 0)) as [->|Hj0].
      * change (4096 * 0) with 0. rewrite !Z.add_0_r.
        assert (Hne2 : tbl2 (V_ADDR_PAGEDIR_INDEX virt) ≠ 0) by apply T2.
        destruct (Hs12 (V_ADDR_PAGEDIR_INDEX virt) (V_ADDR_PAGETBL_INDEX virt)) as [_ ->]; [lia|done|lia| |done].
        intros j Hj'. rewrite indices_page by done. lia.
      * specialize (He2 (j - 1) ltac:(lia)).
        replace (virt + 4096 + 4096 * (j - 1)) with (virt + 4096 * j) in He2 by lia.
        by replace (phys + 4096 + 4096 * (j - 1)) with (phys + 4096 * j) in He2 by lia.
    + intros i k Hir Hne Hk Hj. destruct (Hs12 i k Hir Hne Hk) as [Hne' ->].
      * intros j Hj'. specialize (Hj (j + 1) ltac:(lia)). lia.
      * apply Hs1; try done. specialize (Hj 0 ltac:(lia)). rewrite <- indices_page in Hj by done. lia.
Qed.

(** What every table holds once [n] pages from [virt] on are mapped to frames from
    [phys] on: a page of the range has its frame and the flags, any other entry is what
    it was. *)
Definition entries_after s s' (tbl tbl' : Z → Z) (virt phys n flags : Z) : Prop :=
  ∀ i k, 0 ≤ i < 1023 → tbl' i ≠ 0 → 0 ≤ k < 1024 →
    let j := i * 1024 + k - virt / 4096 in
    table_entry s' tbl' i k = if decide (0 ≤ j < n) then Ok (Z.lor (phys + 4096 * j) flags) else old_entry s tbl i k.

Lemma indices_unique va i k : 0 ≤ va → 0 ≤ k < 1024 → i * 1024 + k = va / 4096 →
  V_ADDR_PAGEDIR_INDEX va = i ∧ V_ADDR_PAGETBL_INDEX va = k.
Proof.
  intros Hva Hk E. rewrite pagedir_index, pagetbl_index, <- E. change (2 ^ 22) with (4096 * 1024).
  rewrite <- Z.div_div, <- E by lia. Z.div_mod_to_equations. lia.
Qed.

(** [paging_map_from_to] on a range that is not empty, within one table. *)
Lemma map_from_to_spec s h d tbl virt phys phys_end flags :
  alloc_inv (kheap s) → dir_ok s h d tbl → 0 ≤ virt → 0 ≤ phys < phys_end → phys_end < 2 ^ 32 →
  virt mod 4096 = 0 → phys mod 4096 = 0 → phys_end mod 4096 = 0 →
  V_ADDR_PAGEDIR_INDEX virt < 1023 →
  (∀ x, 0 ≤ x < phys_end - phys → V_ADDR_PAGEDIR_INDEX (virt + x) = V_ADDR_PAGEDIR_INDEX virt) →
  table_or_room s h tbl (V_ADDR_PAGEDIR_INDEX virt) →
  0 ≤ flags < 4096 → PAGE_ENTRY_PSE_BIT flags = 0 →
  ∃ s' tbl', paging_map_from_to s h virt phys phys_end flags = Ok (0, s') ∧
    table_in s s' h d tbl tbl' (V_ADDR_PAGEDIR_INDEX virt) flags ∧
    entries_after s s' tbl tbl' virt phys ((phys_end - phys) / 4096) flags ∧
    (∀ x, 0 ≤ x < phys_end - phys → virtual_to_physical_addr s' h (virt + x) = Ok (phys + x)) ∧
    (∀ va, 0 ≤ va < 2 ^ 32 → V_ADDR_PAGEDIR_INDEX va < 1023 → tbl (V_ADDR_PAGEDIR_INDEX va) ≠ 0 →
       ¬ virt ≤ va < virt + (phys_end - phys) →
       virtual_to_physical_addr s' h va = virtual_to_physical_addr s h va).
Proof.
  intros Hi Hd Hv Hp Hpe Hva Hpa Hea Hdi Hone Hroom Hfl Hpse.
  set (n := Z.to_nat ((phys_end - phys) / 4096 - 1)).
  assert (Hn : 4096 * Z.of_nat (S n) = phys_end - phys) by (subst n; Z.div_mod_to_equations; lia).
  assert (Hend : virt + 4096 * Z.of_nat (S n) < 2 ^ 32).
  { specialize (Hone (phys_end - phys - 1) ltac:(lia)). rewrite !pagedir_index in *.
    change (2 ^ 22) with 4194304 in *. Z.div_mod_to_equations. lia. }
  destruct (map_pages_spec n s h d tbl virt phys flags) as (s' & tbl' & E & T & He & Hs);
    try done; [lia..|intros j Hj; apply Hone; lia|]. pose proof T as [Hk Hd' _ Hext _ _ _].
  assert (Hfrom : paging_map_from_to s h virt phys phys_end flags = Ok (0, s')).
  { unfold paging_map_from_to, paging_map_range.
    rewrite !(proj2 (aligned_iff _)) by done. cbn [negb orb]. rewrite decide_False by lia.
    replace (Z.to_nat _) with (S n) by (subst n; unfold PAGING_PAGE_SIZE; Z.div_mod_to_equations; lia). exact E. }
  exists s', tbl'. split; [done|]. split; [done|]. split; [|split].
  - intros i k Hir Hne Hkr j. case_decide as Hj.
    + assert (Hn' : (phys_end - phys) / 4096 = Z.of_nat (S n)) by (Z.div_mod_to_equations; lia). rewrite Hn' in Hj.
      specialize (He _ Hj). destruct (indices_unique (virt + 4096 * j) i k) as [Ei Ek]; [lia|done| |].
      { unfold j. Z.div_mod_to_equations. lia. }
      by rewrite Ei, Ek in He.
    + apply Hs; try done. intros j' Hj'. unfold j in Hj. Z.div_mod_to_equations. lia.
  - intros x Hx. assert (Hj : 0 ≤ x / 4096 < Z.of_nat (S n)) by (Z.div_mod_to_equations; lia).
    specialize (He (x / 4096) Hj).
    pose proof (Z.div_mod x 4096 ltac:(lia)). pose proof (Z.mod_pos_bound x 4096 ltac:(lia)).
    assert (Hvx : (virt + x) mod 4096 = x mod 4096) by (Z.div_mod_to_equations; lia).
    replace (phys + x) with (phys + 4096 * (x / 4096) + (virt + x) mod 4096) by lia.
    eapply translate_mapped; try exact He; try done; try lia.
    + Z.div_mod_to_equations. lia.
    + rewrite Hone by lia. done.
    + Z.div_mod_to_equations. lia.
  - intros va Hr Hiv Htv Hout. destruct (indices va Hr) as [Hir Hkr].
    rewrite (translate s' h d tbl' va), (translate s h d tbl va) by done.
    rewrite Hs; [unfold old_entry; by rewrite decide_False|lia|by rewrite Hext by (by left)|done|].
    + intros j Hj. rewrite indices_page by lia. Z.div_mod_to_equations. lia.
Qed.
End directories.

(** C12: [paging_map_page] maps: on a well-formed directory, with a page table in
    the address's slot or room to allocate one, mapping a page returns 0 and keeps
    the directory well-formed. The page's entry becomes its frame with the flags; every
    other entry is as before, and 0 in a new table. A new table is entered in the
    directory by its physical address with the flags; no other word of the directory
    changes. So every address of the page translates to its frame, and no other
    address that had a table is affected. *)
Theorem map_page_translates {K} `{AllocatorLaws K} (s : machine K) h d tbl virt phys flags :
  alloc_inv (kheap s) → dir_ok s h d tbl → 0 ≤ virt < 2 ^ 32 → 0 ≤ phys < 2 ^ 32 →
  virt mod 4096 = 0 → phys mod 4096 = 0 → V_ADDR_PAGEDIR_INDEX virt < 1023 →
  table_or_room s h tbl (V_ADDR_PAGEDIR_INDEX virt) →
  0 ≤ flags < 4096 → PAGE_ENTRY_PSE_BIT flags = 0 →
  let i := V_ADDR_PAGEDIR_INDEX virt in
  ∃ s' tbl', paging_map_page s h virt phys flags = Ok (0, s') ∧ alloc_inv (kheap s') ∧ dir_ok s' h d tbl' ∧
    table_word s' h i (V_ADDR_PAGETBL_INDEX virt) = Ok (Z.lor phys flags) ∧
    (∀ j k, 0 ≤ j < 1023 → tbl' j ≠ 0 → 0 ≤ k < 1024 → j ≠ i ∨ k ≠ V_ADDR_PAGETBL_INDEX virt →
       table_word s' h j k = if decide (tbl j = 0) then Ok 0 else table_word s h j k) ∧
    (∀ j, j ≠ i ∨ tbl i ≠ 0 → tbl' j = tbl j) ∧
    (∀ j, 0 ≤ j < 1024 → j ≠ i ∨ tbl i ≠ 0 → directory_entry s' h j = directory_entry s h j) ∧
    (tbl i = 0 → tbl' i ≠ 0 ∧ ∃ physical, virtual_to_physical_addr s (current_directory s) (tbl' i) = Ok physical ∧
       PAGE_ENTRY_ADDR (Z.lor physical flags) = physical ∧ directory_entry s' h i = Ok (Z.lor physical flags)) ∧
    (∀ x, 0 ≤ x < 4096 → virtual_to_physical_addr s' h (virt + x) = Ok (phys + x)) ∧
    (∀ va, 0 ≤ va < 2 ^ 32 → V_ADDR_PAGEDIR_INDEX va < 1023 → tbl (V_ADDR_PAGEDIR_INDEX va) ≠ 0 →
       va / 4096 ≠ virt / 4096 → virtual_to_physical_addr s' h va = virtual_to_physical_addr s h va).
Proof.
  intros Hi Hd Hv Hp Hva Hpa Hdi Hroom Hfl Hpse i. destruct (indices virt Hv) as [Hvi Hvk].
  destruct (map_page_spec s h d tbl virt phys flags Hi Hd Hv Hp Hva Hpa Hdi Hroom Hfl Hpse)
    as (s' & tbl' & E & [Hk Hd' Hne Hext _ Hpde Hsup] & He & Hs).
  exists s', tbl'. split; [done|]. split; [apply (keeps_inv _ _ Hk)|]. split; [done|].
  split; [by rewrite (table_word_entry s' h d tbl')|]. split; [|split; [|split; [|split; [|split]]]].
  - intros j k Hj Hnj Hkr Hjk. rewrite (table_word_entry s' h d tbl'), (table_word_entry s h d tbl) by (done || lia). by apply Hs.
  - intros j [Hj | Hj]; [apply Hext; by right|]. apply Hext. destruct (decide (j = i)) as [-> | ]; [by left|by right].
  - intros j Hj Hji. unfold directory_entry. rewrite (dir_ptr _ _ _ _ Hd), (dir_ptr _ _ _ _ Hd'), !bind_Ok. by apply Hpde.
  - intros Hz. split; [done|]. destruct Hsup as [[? _]|(_ & _ & ph & _ & _ & _ & Ev & Ea & Er)]; [done|]. exists ph.
    unfold directory_entry. by rewrite (dir_ptr _ _ _ _ Hd'), bind_Ok.
  - intros x Hx. assert (Hvx : (virt + x) / 4096 = virt / 4096 ∧ (virt + x) mod 4096 = x ∧ virt + x < 2 ^ 32)
      by (Z.div_mod_to_equations; lia). destruct Hvx as (Hpg & Hm & Hr).
    rewrite <- Hm at 2. eapply translate_mapped; try exact He; try done; try lia.
    rewrite pagedir_index in *. change (2 ^ 22) with (4096 * 1024) in *.
    rewrite <- Z.div_div, Hpg, Z.div_div by lia. done.
  - intros va Hr Hiv Htv Hpg. destruct (indices va Hr) as [Hir Hkr].
    rewrite (translate s' h d tbl' va), (translate s h d tbl va) by done.
    rewrite Hs; [unfold old_entry; by rewrite decide_False|lia|by rewrite Hext by (by left)|done|].
    rewrite <- !indices_page in Hpg by lia. lia.
Qed.

(** [paging_map_from_to] maps a physical range, of any number of pages within
    one page table's 4 MiB: every address of the range translates to its place in
    the physical range, and no other address that had a table is affected. *)
Theorem map_from_to_translates {K} `{AllocatorLaws K} (s : machine K) h d tbl virt phys phys_end flags :
  alloc_inv (kheap s) → dir_ok s h d tbl → 0 ≤ virt → 0 ≤ phys ≤ phys_end → phys_end < 2 ^ 32 →
  virt mod 4096 = 0 → phys mod 4096 = 0 → phys_end mod 4096 = 0 →
  V_ADDR_PAGEDIR_INDEX virt < 1023 →
  (∀ x, 0 ≤ x < phys_end - phys → V_ADDR_PAGEDIR_INDEX (virt + x) = V_ADDR_PAGEDIR_INDEX virt) →
  table_or_room s h tbl (V_ADDR_PAGEDIR_INDEX virt) →
  0 ≤ flags < 4096 → PAGE_ENTRY_PSE_BIT flags = 0 →
  ∃ s' tbl', paging_map_from_to s h virt phys phys_end flags = Ok (0, s') ∧
    alloc_inv (kheap s') ∧ dir_ok s' h d tbl' ∧
    (∀ x, 0 ≤ x < phys_end - phys → virtual_to_physical_addr s' h (virt + x) = Ok (phys + x)) ∧
    (∀ va, 0 ≤ va < 2 ^ 32 → V_ADDR_PAGEDIR_INDEX va < 1023 → tbl (V_ADDR_PAGEDIR_INDEX va) ≠ 0 →
       ¬ virt ≤ va < virt + (phys_end - phys) →
       virtual_to_physical_addr s' h va = virtual_to_physical_addr s h va).
Proof.
  intros Hi Hd Hv Hp Hpe Hva Hpa Hea Hdi Hone Hroom Hfl Hpse.
  destruct (decide (phys = phys_end)) as [-> | Hne].
  { exists s, tbl. unfold paging_map_from_to, paging_map_range.
    rewrite !(proj2 (aligned_iff _)) by done. cbn [negb orb]. rewrite decide_False, Z.sub_diag by lia.
    split; [done|]. split; [done|]. split; [done|]. split; [intros; lia|done]. }
  destruct (map_from_to_spec s h d tbl virt phys phys_end flags) as (s' & tbl' & E & [Hk Hd' _ _ _ _ _] & _ & Ht & Hs);
    try done; [lia|]. exists s', tbl'. split; [done|]. split; [apply (keeps_inv _ _ Hk)|]. done.
Qed.

(** ** A machine for the witnesses

    The heap starts at 0x10000: the handle (two blocks), its directory, the page
    table of the first 4 MiB, which maps the heap to itself, and two free blocks. *)
Definition witness_layout : list seg := [Used 2; Used 1; Used 1; Free; Free].

Definition witness_words : list (Z * Z) :=
  [(0x10000, 0x12000); (0x10004, 0x13000); (0x12000, 0x13003)] ++
  ((λ i, (0x13000 + 4 * i, 4096 * i + 3)) <$> seqZ 0x10 6).

Definition witness_ram : mem :=
  foldr (λ av m, write_bytes m av.1 (split4 av.2))
    (write_bytes ∅ 0x10000 (replicate (Z.to_nat 24576) 0)) witness_words.

Definition witness_kernel_ram : kernel := Kernel witness_ram (small_heap witness_layout 0).
Definition witness_machine : machine kernel :=
  Machine witness_kernel_ram 0x10000 0 0 0 0 0 (Terminal ∅ 0 0).
Definition witness_tbl (i : Z) : Z := if decide (i = 0) then 0x13000 else 0.

Lemma witness_ram_ok : kernel_ok witness_kernel_ram witness_layout.
Proof.
  split; [by apply small_heap_ok; [repeat constructor|..]|]. split; [by vm_compute|]. split.
  - assert (Hw : ∀ l m, wf_mem m → wf_mem (foldr (λ av m, write_bytes m av.1 (split4 av.2)) m l)).
    { intros l m Hm. induction l as [|av l IH]; [done|]. apply wf_write_bytes; [done|apply split4_bytes]. }
    apply Hw, wf_write_bytes; [apply map_Forall_empty|]. by apply Forall_replicate.
  - assert (Hw : ∀ l m, mapped m 0x10000 24576 →
      mapped (foldr (λ av m, write_bytes m av.1 (split4 av.2)) m l) 0x10000 24576).
    { intros l m Hm. induction l as [|av l IH]; [done|]. by apply mapped_write_mono. }
    apply Hw, mapped_fill.
Qed.

#[local] Opaque witness_ram.

Lemma witness_inv : alloc_inv (kheap witness_machine).
Proof. exists witness_layout. exact witness_ram_ok. Qed.

Lemma witness_owned b c a n : live_in witness_layout b c →
  0x10000 + 4096 * Z.of_nat b ≤ a → a + n ≤ 0x10000 + 4096 * Z.of_nat (b + c) → (0 < c)%nat →
  owned witness_machine a n.
Proof.
  intros Hl Ha Hn Hc.
  pose proof (kernel_live_intro _ _ b c (4096 * Z.of_nat c) witness_ram_ok Hl) as Hlive.
  unfold KERNEL_HEAP_BLOCK_SIZE in Hlive. specialize (Hlive ltac:(lia)).
  change (base_addr (kernel_heap witness_kernel_ram)) with 0x10000 in Hlive. split.
  - eapply mapped_sub; [apply (live_mapped _ _ _ witness_inv Hlive)|lia|lia].
  - left. eexists _, _. split; [exact Hlive|]. lia.
Qed.

Lemma witness_handle : owned witness_machine 0x10000 8192.
Proof. apply (witness_owned 0 2); [by left|lia..]. Qed.
Lemma witness_directory : owned witness_machine 0x12000 4096.
Proof. apply (witness_owned 2 1); [right; split; [cbn; lia|by left]|lia..]. Qed.
Lemma witness_table : owned witness_machine 0x13000 4096.
Proof.
  apply (witness_owned 3 1); [|lia..].
  right. split; [cbn; lia|]. right. split; [cbn; lia|]. by left.
Qed.

Definition words_check (p : Z → bool) : bool := forallb p (seqZ 0 1024).
Lemma words_check_spec p i : words_check p = true → 0 ≤ i < 1024 → p i = true.
Proof.
  unfold words_check. rewrite forallb_forall. intros Hp Hi. apply Hp.
  rewrite <- list_elem_of_In. apply elem_of_seqZ. lia.
Qed.

Lemma witness_dir_ok : dir_ok witness_machine 0x10000 0x12000 witness_tbl.
Proof.
  split.
  - by vm_compute.
  - intros i Hi.
    assert (Hc : words_check (λ i, bool_decide
      (read witness_machine (directory_virtual_at 0x10000 i) = Ok (witness_tbl i))) = true) by by vm_compute.
    apply (words_check_spec _ i Hc) in Hi. by apply bool_decide_eq_true_1 in Hi.
  - eapply owned_sub; [exact witness_handle|lia|]. unfold SIZEOF_PAGE_DIRECTORY_HANDLE. lia.
  - exact witness_directory.
  - unfold apart, SIZEOF_PAGE_DIRECTORY_HANDLE. lia.
  - intros i Hi.
    assert (Hc : words_check (λ i, match read witness_machine (0x12000 + 4 * i) with
      | Ok e => bool_decide (PAGE_ENTRY_PSE_BIT e = 0) | _ => false end) = true) by by vm_compute.
    apply (words_check_spec _ i Hc) in Hi.
    clear Hc. revert Hi. generalize (read witness_machine (0x12000 + 4 * i)).
    intros [e| | |] Hi; [|discriminate Hi..]. exists e. split; [reflexivity|].
    exact (bool_decide_eq_true_1 _ Hi).
  - intros i Hi Hne. unfold witness_tbl in *. case_decide; [|done].
    split; [exact witness_table|]. unfold apart, SIZEOF_PAGE_DIRECTORY_HANDLE. lia.
  - intros i j Hi Hj Hij Hni Hnj. unfold witness_tbl in *. repeat case_decide; [lia|done..].
Qed.

Lemma witness_walkable x : 0x10000 ≤ x < 0x16000 → x mod 4096 = 0 →
  walkable witness_machine 0x10000 [(directory_virtual_at 0x10000 1, 4)] x.
Proof.
  intros Hr Hx. assert (Hi : V_ADDR_PAGEDIR_INDEX x = 0).
  { rewrite pagedir_index. apply Z.div_small. change (2 ^ 22) with 4194304. lia. }
  destruct (indices x ltac:(lia)) as [_ Hk].
  assert (Ho : owned witness_machine (0x13000 + 4 * V_ADDR_PAGETBL_INDEX x) 4)
    by (eapply owned_sub; [exact witness_table|lia..]).
  destruct (mapped_load32 witness_ram (0x13000 + 4 * V_ADDR_PAGETBL_INDEX x)) as (pte & Hp & Hpr);
    [apply witness_ram_ok|apply Ho|].
  eexists _, _. split.
  { apply (translates_by_table _ _ _ 0x12000 0x13003 0x13000 pte); rewrite ?Hi; [..|exact Hp]; by vm_compute. }
  destruct (entry_addr_page pte Hpr) as [Hpa Hpm]. rewrite pageframe_index, Hx, Z.add_0_r, u32_id by exact Hpa.
  split; [exact Hpa|]. split; [exact Hpm|]. rewrite Hi. unfold directory_virtual_at, apart_all, apart.
  repeat (apply Forall_cons; split; [split; [|apply Forall_singleton; cbn [fst snd]; lia]|]); [..|constructor].
  - apply (owned_sub _ _ _ _ _ witness_handle); lia.
  - apply (owned_sub _ _ _ _ _ witness_directory); lia.
  - apply (owned_sub _ _ _ _ _ witness_handle); lia.
  - exact Ho.
Qed.

Lemma witness_room : table_or_room witness_machine 0x10000 witness_tbl 1.
Proof.
  right. exists 0x14000. split; [|split; [lia|apply witness_walkable; [lia|done]]].
  exists (result_or (kzalloc witness_kernel_ram PAGING_PAGE_SIZE) witness_kernel_ram).
  apply run_result. vm_compute. reflexivity.
Qed.

(** Both map into the empty second slot, so a page table is allocated. *)
Lemma map_page_translates_witness :
  ∃ s' tbl', paging_map_page witness_machine 0x10000 0x403000 0x7000 3 = Ok (0, s') ∧
    alloc_inv (kheap s') ∧ dir_ok s' 0x10000 0x12000 tbl' ∧
    table_word s' 0x10000 1 3 = Ok 0x7003 ∧
    (∀ j k, 0 ≤ j < 1023 → tbl' j ≠ 0 → 0 ≤ k < 1024 → j ≠ 1 ∨ k ≠ 3 →
       table_word s' 0x10000 j k = if decide (witness_tbl j = 0) then Ok 0 else table_word witness_machine 0x10000 j k) ∧
    (∀ j, j ≠ 1 ∨ witness_tbl 1 ≠ 0 → tbl' j = witness_tbl j) ∧
    (∀ j, 0 ≤ j < 1024 → j ≠ 1 ∨ witness_tbl 1 ≠ 0 → directory_entry s' 0x10000 j = directory_entry witness_machine 0x10000 j) ∧
    (witness_tbl 1 = 0 → tbl' 1 ≠ 0 ∧ ∃ physical, virtual_to_physical_addr witness_machine 0x10000 (tbl' 1) = Ok physical ∧
       PAGE_ENTRY_ADDR (Z.lor physical 3) = physical ∧ directory_entry s' 0x10000 1 = Ok (Z.lor physical 3)) ∧
    (∀ x, 0 ≤ x < 4096 → virtual_to_physical_addr s' 0x10000 (0x403000 + x) = Ok (0x7000 + x)) ∧
    (∀ va, 0 ≤ va < 2 ^ 32 → V_ADDR_PAGEDIR_INDEX va < 1023 → witness_tbl (V_ADDR_PAGEDIR_INDEX va) ≠ 0 →
       va / 4096 ≠ 0x403000 / 4096 →
       virtual_to_physical_addr s' 0x10000 va = virtual_to_physical_addr witness_machine 0x10000 va).
Proof.
  apply (map_page_translates witness_machine 0x10000 0x12000 witness_tbl 0x403000 0x7000 3).
  - exact witness_inv.
  - exact witness_dir_ok.
  - lia.
  - lia.
  - done.
  - done.
  - by vm_compute.
  - exact witness_room.
  - lia.
  - done.
Defined.

Lemma map_from_to_translates_witness :
  ∃ s' tbl', paging_map_from_to witness_machine 0x10000 0x403000 0x7000 0xa000 3 = Ok (0, s') ∧
    alloc_inv (kheap s') ∧ dir_ok s' 0x10000 0x12000 tbl' ∧
    (∀ x, 0 ≤ x < 0xa000 - 0x7000 →
       virtual_to_physical_addr s' 0x10000 (0x403000 + x) = Ok (0x7000 + x)) ∧
    (∀ va, 0 ≤ va < 2 ^ 32 → V_ADDR_PAGEDIR_INDEX va < 1023 → witness_tbl (V_ADDR_PAGEDIR_INDEX va) ≠ 0 →
       ¬ 0x403000 ≤ va < 0x403000 + (0xa000 - 0x7000) →
       virtual_to_physical_addr s' 0x10000 va = virtual_to_physical_addr witness_machine 0x10000 va).
Proof.
  apply (map_from_to_translates witness_machine 0x10000 0x12000 witness_tbl 0x403000 0x7000 0xa000 3).
  - exact witness_inv.
  - exact witness_dir_ok.
  - lia.
  - lia.
  - lia.
  - done.
  - done.
  - done.
  - by vm_compute.
  - intros x Hx. rewrite !pagedir_index. change (2 ^ 22) with 4194304. Z.div_mod_to_equations. lia.
  - exact witness_room.
  - lia.
  - done.
Defined.
