(* ===== verification/AddressSpace.v ===== *)
(** [src/memory/paging.c], whole directories: the one [paging_init] makes and loads,
    and the copies [paging_clone_directory] makes of one. [Paging] has the
    definitions and the mapping of ranges. *)
From S2P Require Import Prelude Mem CString Heap Kheap Store Termio Paging.

(** * Steps on a machine *)

Section steps.
Context {K : Type} `{AllocatorLaws K}.
Context {Q : K → Prop}.
Implicit Type s : machine K.

(** A region no allocation can contain. *)
Definition global s (a n : Z) : Prop :=
  mapped (ram s) a n ∧ ∀ x, a ≤ x < a + n → ¬ arena (kheap s) x.

Lemma global_owned s a n : global s a n → owned s a n.
Proof. intros [Hm Ha]. split; [done|by right]. Qed.

Lemma global_keeps s s' a n : kkeeps (kheap s) (kheap s') → global s a n → global s' a n.
Proof.
  intros Hk [Hm Ha]. split.
  - intros x Hx. apply (kkeeps_mapped _ _ Hk), Hm, Hx.
  - intros x Hx. rewrite (kkeeps_arena _ _ Hk). by apply Ha.
Qed.

(** The next allocation. *)
Lemma alloc_next s size p l : alloc_inv (kheap s) → 0 < size < 2 ^ 32 → allots Q ((size, p) :: l) (kheap s) →
  ∃ k', alloc s size = Ok (p, set_kheap s k') ∧ allots Q l k' ∧ keeps s (set_kheap s k') ∧
    modifies [] (kheap s) k' ∧ owned (set_kheap s k') p size ∧ live k' p size ∧
    0 < p ∧ p + size < 2 ^ 32 ∧ p mod 4096 = 0 ∧ (∀ a n, 0 < n → owned s a n → apart a n p size) ∧
    (∀ a, p ≤ a → a + 4 ≤ p + size → kread k' a = Ok 0).
Proof.
  intros Hi Hs Ha. destruct (Ha (kheap s)) as (k' & E & Hp & Hl); [by apply same_heap_refl|].
  exists k'. destruct (alloc_ok s size p k' Hi Hs E Hp) as (? & ? & ? & ? & ? & ? & ? & ? & ? & ? & _). done.
Qed.

(** A word stored, with the allocations to come. *)
Lemma write_next s a v l : alloc_inv (kheap s) → owned s a 4 → 0 ≤ v < 2 ^ 32 → allots Q l (kheap s) →
  ∃ s', write s a v = Ok s' ∧ keeps s s' ∧ modifies [(a, 4)] (kheap s) (kheap s') ∧
    allots Q l (kheap s') ∧ read s' a = Ok v ∧ ∀ b, apart b 4 a 4 → read s' b = read s b.
Proof.
  intros Hi Ho Hv Hl. destruct (write_ok s a v Hi Ho Hv) as (s' & E & Hk & M & Hs & R & R').
  exists s'. split; [done|]. split; [done|]. split; [done|]. split; [by eapply allots_same|done].
Qed.

Lemma bytes_next s a l al : alloc_inv (kheap s) → owned s a (Z.of_nat (length l)) → Forall is_byte l →
  allots Q al (kheap s) →
  let k' := with_memory (kheap s) (write_bytes (ram s) a l) in
  keeps s (set_kheap s k') ∧ modifies [(a, Z.of_nat (length l))] (kheap s) k' ∧ allots Q al k' ∧
  bytes_at (memory k') a l.
Proof.
  intros Hi [Hm _] Hl Ha k'. destruct (bytes_step (Q := λ _, True) [] (kheap s) a l Hi Hm Hl (λ _ _ _, I)) as (M & _ & B).
  split; [split; [done|done|apply (modifies_keeps _ _ _ M)]|]. split; [done|]. split; [|done].
  eapply allots_same; [|exact Ha]. by apply same_heap_write.
Qed.

(** [memset] with a byte below 128. *)
Lemma fill_next s a c n al : alloc_inv (kheap s) → owned s a n → 0 ≤ c < 128 → 0 ≤ n → allots Q al (kheap s) →
  ∃ k', fill s a c n = Ok (set_kheap s k') ∧ keeps s (set_kheap s k') ∧ modifies [(a, n)] (kheap s) k' ∧
    allots Q al k' ∧ bytes_at (memory k') a (replicate (Z.to_nat n) c).
Proof.
  intros Hi Ho Hc Hn Ha.
  assert (El : Z.of_nat (length (replicate (Z.to_nat n) c)) = n) by (rewrite length_replicate; lia).
  destruct (bytes_next s a (replicate (Z.to_nat n) c) al Hi) as (K1 & M1 & A1 & B1);
    [by rewrite El|apply Forall_replicate; unfold is_byte; lia|done|]. rewrite El in M1.
  eexists. unfold fill, kset. rewrite memset_ok by (done || apply Ho).
  rewrite memset_bytes_good; [|done|right; left]; rewrite u8_id by lia; [|lia].
  rewrite !bind_Ok. done.
Qed.

(** [memcpy] of a page. *)
Lemma copy_page s p t al : alloc_inv (kheap s) → owned s t 4096 → owned s p 4096 → apart t 4096 p 4096 →
  allots Q al (kheap s) →
  ∃ k', copy s p t 4096 = Ok (set_kheap s k') ∧ keeps s (set_kheap s k') ∧ modifies [(p, 4096)] (kheap s) k' ∧
    allots Q al k' ∧ ∀ i, 0 ≤ i < 1024 → kread k' (p + 4 * i) = read s (t + 4 * i).
Proof.
  intros Hi [Hmt _] Hp Ha Hal. destruct (mapped_bytes (ram s) t 4096 ltac:(lia) Hmt) as (l & Hl & Hb).
  pose proof (bytes_at_byte _ _ _ (kfree_with_memory_wf _ Hi) Hb) as Hby.
  destruct (bytes_next s p l al Hi) as (K1 & M1 & A1 & B1); [by rewrite Hl|done|done|]. rewrite Hl in M1.
  eexists. unfold copy. rewrite <- Hl at 1. rewrite (kcopy_ok _ _ _ l) by (rewrite ?Hl; done || apply Hp). rewrite bind_Ok.
  split; [done|]. split; [done|]. split; [done|]. split; [done|]. intros i Hir.
  apply load32_shift. intros j Hj.
  destruct (lookup_lt_is_Some_2 l (Z.to_nat (4 * i + j))) as [b Hlb]; [lia|].
  pose proof (B1 _ _ Hlb) as E1. pose proof (Hb _ _ Hlb) as E2. rewrite Z2Nat.id in E1, E2 by lia.
  replace (p + 4 * i + j) with (p + (4 * i + j)) by lia. replace (t + 4 * i + j) with (t + (4 * i + j)) by lia.
  etransitivity; [exact E1|symmetry; exact E2].
Qed.
End steps.

(** * Through the boot directory *)

(** The boot directory at [BOOT] maps [x] by a large page. *)
Definition boot_maps {K} `{Allocator K} (s : machine K) (BOOT x : Z) : Prop :=
  ∃ e, read s (BOOT + 4 * V_ADDR_PAGEDIR_INDEX x) = Ok e ∧ PAGE_ENTRY_PSE_BIT e ≠ 0 ∧
    PAGE_ENTRY_ADDR e mod 2 ^ 22 = 0.

(** Where it maps it. *)
Definition boot_physical {K} `{Allocator K} (s : machine K) (BOOT x : Z) : outcome Z :=
  e ← read s (BOOT + 4 * V_ADDR_PAGEDIR_INDEX x); Ok (u32 (PAGE_ENTRY_ADDR e + V_ADDR_PAGEFRAME_INDEX_PSE x)).

(** An address that can start a page. *)
Definition page (x : Z) : Prop := 0 ≤ x < 2 ^ 32 ∧ x mod 4096 = 0.

Section boot.
Context {K : Type} `{AllocatorLaws K}.
Context {Q : K → Prop}.
Implicit Type s : machine K.

(** The current directory is the boot directory, by the handle [boot]; it maps [xs]. *)
Record on_boot s (boot BOOT : Z) (xs : list Z) : Prop := OnBoot {
  ob_current : current_directory s = boot;
  ob_pse : Z.land (cr4 s) PSE_BIT ≠ 0;
  ob_ptr : read s boot = Ok BOOT;
  ob_handle : owned s boot 4;
  ob_directory : owned s BOOT 4096;
  ob_maps : Forall (λ x, page x ∧ boot_maps s BOOT x) xs
}.

Lemma boot_maps_frame s s' BOOT x cs : page x → modifies cs (kheap s) (kheap s') → owned s BOOT 4096 →
  apart_all cs BOOT 4096 → boot_maps s BOOT x → boot_maps s' BOOT x.
Proof.
  intros [Hx _] M Ho Ha (e & Hr & He). exists e. split; [|done]. rewrite <- Hr.
  destruct (indices x Hx). apply (modifies_load _ _ _ _ _ M Ho Ha); lia.
Qed.

Lemma on_boot_frame s s' boot BOOT xs cs : on_boot s boot BOOT xs → keeps s s' →
  modifies cs (kheap s) (kheap s') → apart_all cs boot 4 → apart_all cs BOOT 4096 → on_boot s' boot BOOT xs.
Proof.
  intros [Hc Hp Hr Hh Hd Hm] Hk M Hb HB. split.
  - by rewrite (keeps_current _ _ Hk).
  - by rewrite (keeps_cr4 _ _ Hk).
  - rewrite <- Hr. by apply (modifies_read _ _ _ _ M).
  - by apply (keeps_owned _ _ Hk).
  - by apply (keeps_owned _ _ Hk).
  - eapply Forall_impl; [exact Hm|]. intros x [Hx Hbm]. split; [done|].
    by apply (boot_maps_frame s s' BOOT x cs).
Qed.

Lemma pse_index x : V_ADDR_PAGEFRAME_INDEX_PSE x = x mod 2 ^ 22.
Proof. unfold V_ADDR_PAGEFRAME_INDEX_PSE. change 0x3fffff with (2 ^ 22 - 1). by rewrite land_mask by lia. Qed.

Lemma large_page e x : 0 ≤ e < 2 ^ 32 → PAGE_ENTRY_ADDR e mod 2 ^ 22 = 0 → page x →
  page (u32 (PAGE_ENTRY_ADDR e + V_ADDR_PAGEFRAME_INDEX_PSE x)).
Proof.
  intros He Hm [_ Hx]. destruct (entry_addr_page e He) as [Hr _]. rewrite pse_index. unfold page.
  change (2 ^ 22) with 4194304 in *. revert Hr Hm. generalize (PAGE_ENTRY_ADDR e). intros a Hr Hm.
  assert (Hs : 0 ≤ a + x mod 4194304 < 2 ^ 32) by (Z.div_mod_to_equations; lia).
  rewrite u32_id by done. split; [done|]. Z.div_mod_to_equations. lia.
Qed.

Lemma on_boot_translates s boot BOOT xs x e : on_boot s boot BOOT xs → x ∈ xs →
  read s (BOOT + 4 * V_ADDR_PAGEDIR_INDEX x) = Ok e →
  virtual_to_physical_addr s boot x = Ok (u32 (PAGE_ENTRY_ADDR e + V_ADDR_PAGEFRAME_INDEX_PSE x)).
Proof.
  intros [Hc Hp Hr Hh Hd Hm] Hx He. rewrite Forall_forall in Hm. destruct (Hm x Hx) as [_ (e' & He' & Hpse & _)].
  rewrite He in He'. injection He' as <-. by eapply translates_now, translates_by_pse.
Qed.

Lemma on_boot_physical s boot BOOT xs x : on_boot s boot BOOT xs → x ∈ xs →
  virtual_to_physical_addr s boot x = boot_physical s BOOT x.
Proof.
  intros Hb Hx. pose proof (ob_maps _ _ _ _ Hb) as Hm. rewrite Forall_forall in Hm. destruct (Hm x Hx) as [_ (e & He & _)].
  unfold boot_physical. by rewrite (on_boot_translates s boot BOOT xs x e Hb Hx He), He, bind_Ok.
Qed.

Lemma boot_physical_frame s s' BOOT x cs : page x → modifies cs (kheap s) (kheap s') → owned s BOOT 4096 →
  apart_all cs BOOT 4096 → boot_physical s' BOOT x = boot_physical s BOOT x.
Proof.
  intros [Hx _] M Ho Ha. unfold boot_physical, read. destruct (indices x Hx).
  by rewrite (modifies_load _ _ _ _ _ M Ho Ha) by lia.
Qed.

Lemma on_boot_walkable s boot BOOT xs cs x : alloc_inv (kheap s) → on_boot s boot BOOT xs → x ∈ xs →
  apart_all cs boot 4 → apart_all cs BOOT 4096 → walkable s (current_directory s) cs x.
Proof.
  intros Hi [Hc Hp Hr Hh Hd Hm] Hx Hab HaB. rewrite Hc. rewrite Forall_forall in Hm.
  destruct (Hm x Hx) as [Hpg (e & He & Hpse & Hal)]. pose proof (proj1 Hpg) as Hxr.
  destruct (indices x Hxr) as [Hix _]. pose proof (read_word _ _ _ Hi He) as Her.
  eexists _, _. split; [by apply translates_by_pse|].
  destruct (large_page e x Her Hal Hpg) as [H1 H2]. split; [done|]. split; [done|].
  apply Forall_cons. split; [done|]. apply Forall_singleton. split; [apply (owned_sub _ _ _ _ _ Hd); lia|].
  eapply Forall_impl; [exact HaB|]. intros c Hac. unfold apart in *. lia.
Qed.

Lemma init_page_bitmap_spec s pb al : alloc_inv (kheap s) → allots Q ((4096, pb) :: al) (kheap s) →
  ∃ k', init_page_bitmap s 4096 = Ok (set_bitmap (set_kheap s k') pb (u32 (pb + 4096))) ∧
    keeps s (set_kheap s k') ∧ modifies [] (kheap s) k' ∧ allots Q al k' ∧ live k' pb 4096.
Proof.
  intros Hi Ha. destruct (alloc_next (Q := Q) s 4096 pb al Hi ltac:(done) Ha)
    as (k1 & E1 & A1 & K1 & M1 & O1 & L1 & P1 & P2 & P3 & Hap & _).
  set (s1 := set_bitmap (set_kheap s k1) pb (u32 (pb + 4096))).
  destruct (fill_next (Q := Q) s1 pb 1 1 al) as (k2 & E2 & K2 & M2 & A2 & _);
    [apply (keeps_inv _ _ K1)|apply (owned_sub _ _ _ _ _ O1); lia|lia|lia|done|].
  exists k2. unfold init_page_bitmap. rewrite E1, bind_Ok, (proj2 (aligned_iff pb)) by done. cbn [negb].
  change (Z.shiftr 4096 12) with 1. fold s1. rewrite E2. split; [done|].
  split; [eapply keeps_trans; [exact K1|by split; [..|apply (modifies_keeps _ _ _ M2)]]|]. split; [|split; [done|]].
  - eapply modifies_step; [exact M1|exact M2|]. intros a n Hn Ho _. apply Forall_singleton.
    pose proof (Hap a n Hn Ho). unfold apart in *. cbn [fst snd]. lia.
  - by apply (kkeeps_live _ _ (modifies_keeps _ _ _ M2)).
Qed.

Lemma use_boot_directory_spec s BOOT pb boot al xs : alloc_inv (kheap s) → 0 ≤ BOOT < 2 ^ 32 →
  global s BOOT 4096 → Z.land (cr4 s) PSE_BIT ≠ 0 → Forall (λ x, page x ∧ boot_maps s BOOT x) xs →
  allots Q ((4096, pb) :: (SIZEOF_PAGE_DIRECTORY_HANDLE, boot) :: al) (kheap s) →
  ∃ s', use_boot_directory s BOOT = Ok s' ∧ on_boot s' boot BOOT xs ∧ modifies [] (kheap s) (kheap s') ∧
    allots Q al (kheap s') ∧ live (kheap s') boot SIZEOF_PAGE_DIRECTORY_HANDLE ∧
    (cr0 s', cr3 s', cr4 s') = (cr0 s, cr3 s, cr4 s) ∧
    bitmap_begin s' = pb ∧ bitmap_end s' = u32 (pb + 4096) ∧
    (∀ a n, 0 < n → owned s a n → apart a n boot SIZEOF_PAGE_DIRECTORY_HANDLE).
Proof.
  intros Hi HB HBg Hp Hxs Ha. destruct (init_page_bitmap_spec s pb _ Hi Ha) as (k1 & E1 & K1 & M1 & A1 & L1).
  set (s1 := set_bitmap (set_kheap s k1) pb (u32 (pb + 4096))) in *.
  destruct (alloc_next (Q := Q) s1 SIZEOF_PAGE_DIRECTORY_HANDLE boot al (keeps_inv _ _ K1) ltac:(done) A1)
    as (k2 & E2 & A2 & K2 & M2 & O2 & L2 & P1 & P2 & P3 & Hap & _).
  set (s2 := set_current (set_kheap s1 k2) boot).
  assert (Ob : owned s2 boot 4) by (apply (owned_sub _ _ _ _ _ O2); unfold SIZEOF_PAGE_DIRECTORY_HANDLE; lia).
  destruct (write_next (Q := Q) s2 boot BOOT al (keeps_inv _ _ K2) Ob HB A2) as (s3 & E3 & K3 & M3 & A3 & R3 & _).
  assert (Hapb : ∀ a n, 0 < n → owned s a n → apart a n boot SIZEOF_PAGE_DIRECTORY_HANDLE).
  { intros a n Hn Ho. apply Hap; [done|]. by apply (keeps_owned _ _ K1). }
  assert (M : modifies [] (kheap s) (kheap s3)).
  { eapply modifies_step; [eapply modifies_step; [exact M1|exact M2|done]|exact M3|].
    intros a n Hn Ho _. apply Forall_singleton. pose proof (Hapb a n Hn Ho).
    unfold apart, SIZEOF_PAGE_DIRECTORY_HANDLE in *. cbn [fst snd]. lia. }
  assert (Hcr : (cr0 s3, cr3 s3, cr4 s3) = (cr0 s, cr3 s, cr4 s)) by exact (keeps_cr _ _ K3).
  pose proof (global_owned _ _ _ HBg) as HBo. exists s3.
  unfold use_boot_directory. change ((KERNEL_HEAP_SIZE + PAGING_PAGE_SIZE - 1) / PAGING_PAGE_SIZE) with 4096.
  cbn zeta. rewrite E1, bind_Ok. fold s1. rewrite E2, bind_Ok. fold s2. split; [done|]. split.
  - split.
    + exact (keeps_current _ _ K3).
    + assert (cr4 s3 = cr4 s) as -> by (by injection Hcr). done.
    + done.
    + by apply (keeps_owned _ _ K3).
    + apply (modifies_owned _ _ _ _ _ M); [done|lia].
    + eapply Forall_impl; [exact Hxs|]. intros x [Hx Hm]. split; [done|].
      apply (boot_maps_frame s s3 BOOT x []); try done. constructor.
  - split; [done|]. split; [done|]. split; [by apply (kkeeps_live _ _ (keeps_kheap _ _ K3))|]. split; [done|].
    unfold write in E3. apply bind_Ok_inv in E3 as (k3 & _ & E3). injection E3 as <-. done.
Qed.
End boot.

(** * The kernel's directory *)

Section kernel_directory.
Context {K : Type} `{AllocatorLaws K}.
Context {Q : K → Prop}.
Implicit Type s : machine K.

(** The flags [PAGING_WRITABLE_PAGE | PAGING_PRESENT]. *)
Lemma page_flags a : page a → 0 ≤ Z.lor a 3 < 2 ^ 32 ∧ PAGE_ENTRY_ADDR (Z.lor a 3) = a ∧
  PAGE_ENTRY_PSE_BIT (Z.lor a 3) = 0.
Proof.
  intros [Hr Ha]. destruct (entry_addr_lor a 3 Ha ltac:(lia) Hr) as [H1 H2].
  split; [done|]. split; [done|]. by apply pse_lor.
Qed.

(** The page [t] entered, with the flags, as the last entry of the directory [d]. *)
Lemma map_itself_spec s h d t physical al : alloc_inv (kheap s) → read s h = Ok d → owned s (d + 4 * 1023) 4 →
  apart h 4 (d + 4 * 1023) 4 → virtual_to_physical_addr s (current_directory s) t = Ok physical →
  page physical → allots Q al (kheap s) →
  ∃ s', map_itself s h t = Ok s' ∧ keeps s s' ∧ modifies [(d + 4 * 1023, 4)] (kheap s) (kheap s') ∧
    allots Q al (kheap s') ∧ read s' (d + 4 * 1023) = Ok (Z.lor physical 3) ∧
    ∀ b, apart b 4 (d + 4 * 1023) 4 → read s' b = read s b.
Proof.
  intros Hi Hr Ho Hap Ev Hp Ha. destruct (page_flags physical Hp) as (Hl & _).
  destruct (write_next (Q := Q) s (d + 4 * 1023) physical al Hi Ho (proj1 Hp) Ha) as (s1 & E1 & K1 & M1 & A1 & R1 & O1).
  destruct (write_next (Q := Q) s1 (d + 4 * 1023) (Z.lor physical 3) al (keeps_inv _ _ K1)
    (keeps_owned _ _ K1 _ 4 ltac:(lia) Ho) Hl A1) as (s2 & E2 & K2 & M2 & A2 & R2 & O2).
  exists s2. unfold map_itself, set_directory_entry, directory_entry. rewrite Ev, bind_Ok, Hr, bind_Ok, E1, bind_Ok.
  rewrite O1, Hr, bind_Ok by done. rewrite R1, bind_Ok. split; [exact E2|].
  split; [by eapply keeps_trans|]. split; [by eapply modifies_step|]. split; [done|]. split; [done|].
  intros b Hb. by rewrite O2, O1.
Qed.

(** No tables; the last slot is the directory's own. *)
Definition no_tables (d i : Z) : Z := if decide (i = 1023) then d else 0.

(** A zeroed handle and a zeroed directory, but for what maps the directory. *)
Lemma dir_ok_empty s h d e : read s h = Ok d → read s (directory_virtual_at h 1023) = Ok d →
  (∀ i, 0 ≤ i < 1023 → read s (directory_virtual_at h i) = Ok 0 ∧ read s (d + 4 * i) = Ok 0) →
  read s (d + 4 * 1023) = Ok e → PAGE_ENTRY_PSE_BIT e = 0 →
  owned s h SIZEOF_PAGE_DIRECTORY_HANDLE → owned s d 4096 → apart h SIZEOF_PAGE_DIRECTORY_HANDLE d 4096 →
  dir_ok s h d (no_tables d).
Proof.
  intros Hp Hl Hz He Hpse Hh Hd Ha. split; try done.
  - intros i Hi. unfold no_tables. case_decide as Hi'; [by subst|]. apply Hz. lia.
  - intros i Hi. destruct (decide (i = 1023)) as [-> | Hi']; [by exists e|].
    exists 0. split; [apply Hz; lia|done].
  - intros i Hi. unfold no_tables. rewrite decide_False by lia. done.
  - intros i j Hi Hj _. unfold no_tables. rewrite decide_False by lia. done.
Qed.

(** [empty_directory] up to the directory's entry for itself: the handle and the
    directory are zero but for the two pointers. *)
Lemma empty_directory_zero s kpd d al : alloc_inv (kheap s) → owned s kpd SIZEOF_PAGE_DIRECTORY_HANDLE →
  allots Q ((4096, d) :: al) (kheap s) →
  ∃ s1 k2 s3, fill s kpd 0 SIZEOF_PAGE_DIRECTORY_HANDLE = Ok s1 ∧ alloc s1 PAGING_PAGE_SIZE = Ok (d, set_kheap s1 k2) ∧
    write (set_kheap s1 k2) kpd d = Ok s3 ∧ keeps s s3 ∧
    modifies [(kpd, SIZEOF_PAGE_DIRECTORY_HANDLE)] (kheap s) (kheap s3) ∧ allots Q al (kheap s3) ∧
    live (kheap s3) d 4096 ∧ owned s3 d 4096 ∧ (∀ a n, 0 < n → owned s a n → apart a n d 4096) ∧
    read s3 kpd = Ok d ∧
    ∀ i, 0 ≤ i < 1024 → read s3 (directory_virtual_at kpd i) = Ok 0 ∧ read s3 (d + 4 * i) = Ok 0.
Proof.
  intros Hi Ho Ha.
  destruct (fill_next (Q := Q) s kpd 0 SIZEOF_PAGE_DIRECTORY_HANDLE _ Hi Ho ltac:(lia) ltac:(done) Ha)
    as (k1 & E1 & K1 & M1 & A1 & B1).
  destruct (alloc_next (set_kheap s k1) 4096 d al (keeps_inv _ _ K1) ltac:(done) A1)
    as (k2 & E2 & A2 & K2 & M2 & O2 & L2 & P1 & P2 & _ & Hap & Z2).
  pose proof (keeps_owned _ _ K1 kpd SIZEOF_PAGE_DIRECTORY_HANDLE ltac:(done) Ho) as Ho1.
  pose proof (keeps_owned _ _ K2 kpd SIZEOF_PAGE_DIRECTORY_HANDLE ltac:(done) Ho1) as Ho2.
  pose proof (Hap kpd SIZEOF_PAGE_DIRECTORY_HANDLE ltac:(done) Ho1) as Hkd.
  set (s2 := set_kheap (set_kheap s k1) k2) in *.
  unfold SIZEOF_PAGE_DIRECTORY_HANDLE, apart in Hkd.
  destruct (write_next (Q := Q) s2 kpd d al (keeps_inv _ _ K2)) as (s3 & E3 & K3 & M3 & A3 & R3 & O3);
    [apply (owned_sub _ _ _ _ _ Ho2); unfold SIZEOF_PAGE_DIRECTORY_HANDLE; lia|lia|done|].
  exists (set_kheap s k1), k2, s3. split; [done|]. split; [done|]. split; [done|].
  split; [eapply keeps_trans; [exact K1|by eapply keeps_trans]|]. split.
  { eapply modifies_step; [eapply modifies_step; [exact M1|exact M2|constructor]|exact M3|].
    intros a n _ _ Hx. apply Forall_cons in Hx as [Hx _]. apply Forall_singleton.
    unfold apart, SIZEOF_PAGE_DIRECTORY_HANDLE in *. cbn [fst snd] in *. lia. }
  split; [done|]. split; [by apply (kkeeps_live _ _ (keeps_kheap _ _ K3))|].
  split; [by apply (keeps_owned _ _ K3)|].
  split; [intros a n Hn Hoa; apply Hap; [done|]; by apply (keeps_owned _ _ K1)|]. split; [done|].
  intros i Hi'. unfold directory_virtual_at. rewrite !O3 by (unfold apart; lia). split.
  - etransitivity; [|apply (zeroed_read k1 kpd SIZEOF_PAGE_DIRECTORY_HANDLE (kpd + 4 + 4 * i) B1); unfold SIZEOF_PAGE_DIRECTORY_HANDLE; lia].
    apply (modifies_load [] k1 k2 kpd SIZEOF_PAGE_DIRECTORY_HANDLE M2 Ho1);
      [constructor|unfold SIZEOF_PAGE_DIRECTORY_HANDLE; lia..].
  - apply Z2; lia.
Qed.

Lemma page_mask a : page a → Z.land a (Z.lxor ADDR_MASK 0xffffffff) = 0.
Proof.
  intros [_ Ha]. change (Z.lxor ADDR_MASK 0xffffffff) with (2 ^ 12 - 1). by rewrite land_mask.
Qed.

Lemma empty_directory_spec s kpd boot BOOT d xs al : alloc_inv (kheap s) → on_boot s boot BOOT xs → d ∈ xs →
  owned s kpd SIZEOF_PAGE_DIRECTORY_HANDLE → apart boot 4 kpd SIZEOF_PAGE_DIRECTORY_HANDLE →
  apart BOOT 4096 kpd SIZEOF_PAGE_DIRECTORY_HANDLE → allots Q ((4096, d) :: al) (kheap s) →
  ∃ s' physical, empty_directory s kpd = Ok s' ∧ keeps s s' ∧
    modifies [(kpd, SIZEOF_PAGE_DIRECTORY_HANDLE)] (kheap s) (kheap s') ∧ allots Q al (kheap s') ∧
    live (kheap s') d 4096 ∧ dir_ok s' kpd d (no_tables d) ∧ page physical ∧
    virtual_to_physical_addr s boot d = Ok physical ∧ read s' (d + 4 * 1023) = Ok (Z.lor physical 3) ∧
    (∀ a n, 0 < n → owned s a n → apart a n d 4096) ∧ ∀ i, 0 ≤ i < 1023 → read s' (d + 4 * i) = Ok 0.
Proof.
  intros Hi Hb Hd Ho Hbk HBk Ha.
  destruct (empty_directory_zero s kpd d al Hi Ho Ha)
    as (s1 & k2 & s3 & E1 & E2 & E3 & K3 & M3 & A3 & L3 & O3 & Hap & R3 & Z3).
  pose proof (Hap kpd SIZEOF_PAGE_DIRECTORY_HANDLE ltac:(done) Ho) as Hkd.
  pose proof (Hap boot 4 ltac:(lia) (ob_handle _ _ _ _ Hb)) as Hbd.
  pose proof (Hap BOOT 4096 ltac:(lia) (ob_directory _ _ _ _ Hb)) as HBd.
  pose proof (keeps_owned _ _ K3 kpd SIZEOF_PAGE_DIRECTORY_HANDLE ltac:(done) Ho) as Ho3.
  assert (Hw : walkable s (current_directory s) [(kpd, SIZEOF_PAGE_DIRECTORY_HANDLE); (d, 4096)] d).
  { apply (on_boot_walkable s boot BOOT xs); [done..| |]; apply Forall_cons; split; try done; by apply Forall_singleton. }
  unfold SIZEOF_PAGE_DIRECTORY_HANDLE, apart in Hkd.
  assert (Hsame : ∀ s' cs, modifies cs (kheap s) (kheap s') → (∀ a n, apart a n kpd SIZEOF_PAGE_DIRECTORY_HANDLE →
    apart a n d 4096 → apart_all cs a n) → ∀ a, owned s a 4 →
    apart_all [(kpd, SIZEOF_PAGE_DIRECTORY_HANDLE); (d, 4096)] a 4 → read s' a = read s a).
  { intros s' cs M Hcs a Hoa Hx. unfold apart_all in Hx. rewrite !Forall_cons in Hx. destruct Hx as (H1 & H2 & _).
    apply (modifies_read _ _ _ _ M Hoa). by apply Hcs. }
  destruct (walk s s3 _ _ d Hw (keeps_cr4 _ _ K3)) as (physical & Ev & Ev3 & Hp);
    [apply (Hsame s3 _ M3); intros a n H1 _; by apply Forall_singleton|].
  rewrite <- (keeps_current _ _ K3) in Ev3.
  destruct (map_itself_spec s3 kpd d d physical al (keeps_inv _ _ K3)) as (s4 & E4 & K4 & M4 & A4 & R4 & S4);
    try done; [apply (owned_sub _ _ _ _ _ O3); lia|unfold apart; lia|].
  destruct (page_flags physical Hp) as (_ & _ & Hpse).
  destruct (write_next (Q := Q) s4 (directory_virtual_at kpd 1023) d al (keeps_inv _ _ K4)) as (s5 & E5 & K5 & M5 & A5 & R5 & S5);
    [apply (keeps_owned _ _ K4); [lia|]; apply (owned_sub _ _ _ _ _ Ho3);
      unfold directory_virtual_at, SIZEOF_PAGE_DIRECTORY_HANDLE; lia
    |destruct (live_nonnull _ _ _ (keeps_inv _ _ K3) L3); lia|done|].
  unfold directory_virtual_at in M5, S5.
  assert (K5s : keeps s s5) by (eapply keeps_trans; [exact K3|by eapply keeps_trans]).
  assert (M : modifies [(kpd, SIZEOF_PAGE_DIRECTORY_HANDLE)] (kheap s) (kheap s5)).
  { eapply modifies_step; [eapply modifies_step; [exact M3|exact M4|]|exact M5|];
      intros a n Hn Hoa Hx; apply Forall_cons in Hx as [Hx _]; apply Forall_singleton;
      pose proof (Hap a n Hn Hoa); unfold apart, SIZEOF_PAGE_DIRECTORY_HANDLE in *; cbn [fst snd] in *; lia. }
  destruct (walk s s5 _ _ d Hw (keeps_cr4 _ _ K5s)) as (physical' & Ev' & Ev5 & _);
    [apply (Hsame s5 _ M); intros a n H1 _; by apply Forall_singleton|].
  rewrite Ev in Ev'. injection Ev' as <-. rewrite <- (keeps_current _ _ K5s) in Ev5.
  exists s5, physical. unfold empty_directory. rewrite E1, bind_Ok, E2, bind_Ok, E3, bind_Ok, E4, bind_Ok, E5, bind_Ok.
  rewrite Ev5, bind_Ok, decide_False by (intros Hx; by apply Hx, page_mask). split; [done|]. split; [done|]. split; [done|].
  split; [done|]. split; [apply (kkeeps_live _ _ (keeps_kheap _ _ K5)); by apply (kkeeps_live _ _ (keeps_kheap _ _ K4))|].
  assert (Rl : read s5 (d + 4 * 1023) = Ok (Z.lor physical 3)) by (rewrite S5; [done|unfold apart; lia]).
  assert (Hz : ∀ i, 0 ≤ i < 1023 → read s5 (directory_virtual_at kpd i) = Ok 0 ∧ read s5 (d + 4 * i) = Ok 0).
  { intros i Hi'. unfold directory_virtual_at in *. rewrite !S5, !S4 by (unfold apart; lia). apply Z3. lia. }
  rewrite (ob_current _ _ _ _ Hb) in Ev. split; [|do 4 (split; [done|]); intros i Hi'; by apply Hz].
  apply (dir_ok_empty _ _ _ (Z.lor physical 3)); try done.
  - rewrite S5, S4; [done|unfold apart; lia..].
  - by apply (keeps_owned _ _ K5s).
  - apply (keeps_owned _ _ K5); [lia|]. by apply (keeps_owned _ _ K4).
Qed.
End kernel_directory.

(** * [paging_init] *)

Section paging_init.
Context {K : Type} `{AllocatorLaws K}.
Context {Q : K → Prop}.
Implicit Type s : machine K.

(** The addresses [kzalloc] will give are pages. *)
Lemma allots_pages l : ∀ k, alloc_inv k → Forall (λ sp, 0 < sp.1 < 2 ^ 32) l → allots Q l k →
  Forall (λ sp, page sp.2) l.
Proof.
  induction l as [|[size p] l IH]; intros k Hi Hl Ha; [constructor|]. apply Forall_cons in Hl as [Hs Hl].
  destruct (Ha k) as (k' & E & Hp & Ha'); [by apply same_heap_refl|].
  destruct (kalloc_ok k size p k' Hi Hs E Hp) as (Hk & _ & H1 & H2 & H3 & _). cbn [fst snd] in *.
  apply Forall_cons. split; [split; [cbn [snd]; lia|done]|]. by apply (IH k' (kkeeps_inv _ _ Hk)).
Qed.

Lemma allots_room_table s slot t al cs : alloc_inv (kheap s) → allots Q ((4096, t) :: al) (kheap s) →
  walkable s (current_directory s) ((slot, 4) :: cs) t → table_room s slot t.
Proof.
  intros Hi Ha Hw. destruct (Ha (kheap s)) as (k' & E & Hp & _); [by apply same_heap_refl|].
  split; [by exists k'|]. split; [done|]. destruct Hw as (words & ph & Ht & Hr & Hm & Hf). exists words, ph.
  split; [done|]. split; [done|]. split; [done|]. eapply Forall_impl; [exact Hf|]. intros a [Ho Hx].
  split; [done|]. apply Forall_cons in Hx as [Hx _]. by apply Forall_singleton.
Qed.

(** The table a mapping allocated is the next one to be allotted. *)
Lemma supplied_next s s' h d tbl tbl' i flags t al : alloc_inv (kheap s) →
  table_in s s' h d tbl tbl' i flags → tbl i = 0 → allots Q ((4096, t) :: al) (kheap s) →
  tbl' i = t ∧ allots Q al (kheap s') ∧ live (kheap s') t 4096 ∧
  (∀ a n, 0 < n → owned s a n → apart a n t 4096) ∧
  ∃ physical, virtual_to_physical_addr s (current_directory s) t = Ok physical ∧
    read s' (d + 4 * i) = Ok (Z.lor physical flags).
Proof.
  intros Hi [_ _ _ _ _ _ [[? _]|(_ & k' & ph & E & Hs & Hl & Ev & _ & Er)]] Hz Ha; [done|].
  destruct (Ha (kheap s)) as (k2 & E2 & Hp & Ha2); [by apply same_heap_refl|].
  change PAGING_PAGE_SIZE with 4096 in *. rewrite E in E2. injection E2 as Et ->. rewrite Et in *.
  split; [done|]. split; [by eapply allots_same|]. split; [done|]. split; [|by exists ph].
  assert (Hs4 : 0 < 4096 < 2 ^ 32) by lia.
  by destruct (kalloc_ok (kheap s) 4096 _ _ Hi Hs4 E Hp) as (_ & _ & _ & _ & _ & _ & _ & Hap & _).
Qed.

(** One of the two calls of [paging_map_from_to]: four megabytes from the start of
    slot [i], which has no table yet. *)
Lemma map_megabytes s kpd boot BOOT d xs tbl i t al :
  alloc_inv (kheap s) → on_boot s boot BOOT xs → t ∈ xs → dir_ok s kpd d tbl → 0 ≤ i < 1023 → tbl i = 0 →
  apart boot 4 kpd SIZEOF_PAGE_DIRECTORY_HANDLE → apart BOOT 4096 kpd SIZEOF_PAGE_DIRECTORY_HANDLE →
  apart boot 4 d 4096 → apart BOOT 4096 d 4096 → allots Q ((4096, t) :: al) (kheap s) →
  ∃ s' tbl', paging_map_from_to s kpd (i * 2 ^ 22) 0 0x400000 3 = Ok (0, s') ∧
    on_boot s' boot BOOT xs ∧ keeps s s' ∧ dir_ok s' kpd d tbl' ∧ allots Q al (kheap s') ∧ live (kheap s') t 4096 ∧
    tbl' i = t ∧ (∀ j, j ≠ i → tbl' j = tbl j) ∧
    modifies [(kpd, SIZEOF_PAGE_DIRECTORY_HANDLE); (d, 4096)] (kheap s) (kheap s') ∧
    (∀ j, 0 ≤ j < 1024 → j ≠ i → read s' (d + 4 * j) = read s (d + 4 * j)) ∧
    (∀ x, 0 ≤ x < 0x400000 → virtual_to_physical_addr s' kpd (i * 2 ^ 22 + x) = Ok x) ∧
    (∀ va, 0 ≤ va < 2 ^ 32 → V_ADDR_PAGEDIR_INDEX va < 1023 → tbl (V_ADDR_PAGEDIR_INDEX va) ≠ 0 →
       V_ADDR_PAGEDIR_INDEX va ≠ i →
       virtual_to_physical_addr s' kpd va = virtual_to_physical_addr s kpd va) ∧
    (∃ physical, boot_physical s BOOT t = Ok physical ∧ read s' (d + 4 * i) = Ok (Z.lor physical 3)) ∧
    (∀ j k, 0 ≤ j < 1023 → tbl' j ≠ 0 → 0 ≤ k < 1024 →
       table_entry s' tbl' j k = if decide (j = i) then Ok (Z.lor (4096 * k) 3) else table_entry s tbl j k) ∧
    (∀ a n, 0 < n → owned s a n → apart a n t 4096).
Proof.
  intros Hi Hb Ht Hd Hir Hz Hbk HBk Hbd HBd Ha.
  assert (Hidx : ∀ x, 0 ≤ x < 0x400000 → V_ADDR_PAGEDIR_INDEX (i * 2 ^ 22 + x) = i).
  { intros x Hx. rewrite pagedir_index, Z.div_add_l by lia. rewrite Z.div_small by (change (2 ^ 22) with 0x400000; lia). lia. }
  pose proof (Hidx 0 ltac:(lia)) as Hi0. rewrite Z.add_0_r in Hi0.
  assert (Hslot : kpd + 4 ≤ directory_virtual_at kpd i ≤ kpd + 4096) by (unfold directory_virtual_at; lia).
  unfold SIZEOF_PAGE_DIRECTORY_HANDLE, apart in Hbk, HBk.
  assert (Hroom : table_or_room s kpd tbl (V_ADDR_PAGEDIR_INDEX (i * 2 ^ 22))).
  { right. exists t. rewrite Hi0. apply (allots_room_table _ _ _ al []); [done..|].
    apply (on_boot_walkable s boot BOOT xs); [done..| |]; apply Forall_singleton; unfold apart; cbn [fst snd]; lia. }
  destruct (map_from_to_spec s kpd d tbl (i * 2 ^ 22) 0 0x400000 3) as (s' & tbl' & E & T & Hent & Htr & Hoth);
    try done; try lia.
  { change (2 ^ 22) with (1024 * 4096). rewrite Z.mul_assoc. apply Z.mod_mul. lia. }
  { intros x Hx. rewrite Hi0. apply Hidx. lia. }
  rewrite Hi0 in T. destruct (supplied_next _ _ _ _ _ _ _ _ t al Hi T Hz Ha) as (Et & Ha' & Hl & Hap & Hph).
  pose proof T as [Hk Hd' _ Hext M P _]. rewrite Et in M.
  pose proof (Hap boot 4 ltac:(lia) (ob_handle _ _ _ _ Hb)) as Hbt.
  pose proof (Hap BOOT 4096 ltac:(lia) (ob_directory _ _ _ _ Hb)) as HBt.
  assert (M' : modifies [(kpd, SIZEOF_PAGE_DIRECTORY_HANDLE); (d, 4096)] (kheap s) (kheap s')).
  { apply (modifies_sub _ _ _ _ M). intros a n Hn Ho Hx. unfold apart_all in *. rewrite !Forall_cons in *.
    destruct Hx as (H1 & H2 & _). split; [done|]. split; [done|]. split; [by apply Hap|constructor]. }
  exists s', tbl'. split; [done|]. split.
  { eapply (on_boot_frame s s'); [done|done|exact M'|..]; unfold apart_all; rewrite !Forall_cons;
      unfold apart, SIZEOF_PAGE_DIRECTORY_HANDLE in *; cbn [fst snd]; (split; [lia|]; split; [lia|constructor]). }
  split; [done|]. split; [done|]. split; [done|]. split; [done|]. split; [done|].
  split; [intros j Hj; apply Hext; by right|]. split; [done|]. split; [intros j Hj Hji; apply P; [done|by left]|].
  split; [intros x Hx; rewrite Htr by lia; f_equal; lia|]. rewrite (ob_current _ _ _ _ Hb), (on_boot_physical _ _ _ _ _ Hb Ht) in Hph.
  split; [|split; [done|split; [|done]]].
  - intros va Hva Hiv Htv Hne. apply Hoth; [done..|]. intros Hin. apply Hne.
    rewrite <- (Hidx (va - i * 2 ^ 22)) by lia. f_equal. lia.
  - intros j k Hj Hnj Hkr. specialize (Hent j k Hj Hnj Hkr). cbv zeta in Hent.
    assert (Ev : i * 2 ^ 22 / 4096 = i * 1024) by (change (2 ^ 22) with (1024 * 4096); rewrite Z.mul_assoc; by apply Z.div_mul).
    rewrite Ev in Hent. change ((0x400000 - 0) / 4096) with 1024 in Hent. rewrite Hent. destruct (decide (j = i)) as [-> | Hji].
    + rewrite decide_True by lia. do 2 f_equal. lia.
    + rewrite decide_False by lia. unfold old_entry. rewrite decide_False; [done|]. rewrite <- Hext; [done|by right].
Qed.

(** What [map_kernel] leaves: tables [t0] and [t1] in slots 0 and 768. *)
Definition kernel_tables (d t0 t1 i : Z) : Z :=
  if decide (i = 768) then t1 else if decide (i = 0) then t0 else no_tables d i.

Lemma dir_ok_ext s h d tbl tbl' : (∀ i, tbl' i = tbl i) → dir_ok s h d tbl → dir_ok s h d tbl'.
Proof.
  intros Ht [Hp Hs Hh Hg Ha Hpde Htab Hsep].
  split; try done; intros i; [|intros Hi|intros j Hi Hj Hij]; rewrite ?Ht; auto.
Qed.

(** Every kernel address below four megabytes, and its higher-half alias. *)
Definition kernel_mapped s (h : Z) : Prop :=
  ∀ x, 0 ≤ x < 0x400000 → virtual_to_physical_addr s h x = Ok x ∧
    virtual_to_physical_addr s h (KERNEL_VIRTUAL_BASE + x) = Ok x.

(** The words of the kernel's directory: the directory itself at [pd], the tables at [p0]
    and [p1], each writable and present; and of its tables: the first four megabytes. *)
Definition kernel_pde (pd p0 p1 j : Z) : Z :=
  if decide (j = 1023) then Z.lor pd 3 else if decide (j = 768) then Z.lor p1 3 else if decide (j = 0) then Z.lor p0 3 else 0.

Record kernel_entries s (h pd p0 p1 : Z) : Prop := KernelEntries {
  ke_directory : ∀ j, 0 ≤ j < 1024 → directory_entry s h j = Ok (kernel_pde pd p0 p1 j);
  ke_tables : ∀ i k, i = 0 ∨ i = 768 → 0 ≤ k < 1024 → table_word s h i k = Ok (Z.lor (4096 * k) 3)
}.

Lemma map_kernel_spec s kpd boot BOOT d xs t0 t1 al :
  alloc_inv (kheap s) → on_boot s boot BOOT xs → t0 ∈ xs → t1 ∈ xs → dir_ok s kpd d (no_tables d) →
  apart boot 4 kpd SIZEOF_PAGE_DIRECTORY_HANDLE → apart BOOT 4096 kpd SIZEOF_PAGE_DIRECTORY_HANDLE →
  apart boot 4 d 4096 → apart BOOT 4096 d 4096 → allots Q ((4096, t0) :: (4096, t1) :: al) (kheap s) →
  ∃ s', map_kernel s kpd = Ok s' ∧ keeps s s' ∧ dir_ok s' kpd d (kernel_tables d t0 t1) ∧ kernel_mapped s' kpd ∧
    live (kheap s') t0 4096 ∧ live (kheap s') t1 4096 ∧
    modifies [(kpd, SIZEOF_PAGE_DIRECTORY_HANDLE); (d, 4096)] (kheap s) (kheap s') ∧ allots Q al (kheap s') ∧
    read s' (d + 4 * 1023) = read s (d + 4 * 1023) ∧
    (∀ a n, 0 < n → owned s a n → apart a n t0 4096 ∧ apart a n t1 4096) ∧
    (∀ j, 0 ≤ j < 1023 → j ≠ 0 → j ≠ 768 → read s' (d + 4 * j) = read s (d + 4 * j)) ∧
    (∀ i k, i = 0 ∨ i = 768 → 0 ≤ k < 1024 → table_word s' kpd i k = Ok (Z.lor (4096 * k) 3)) ∧
    ∃ p0 p1, boot_physical s BOOT t0 = Ok p0 ∧ boot_physical s BOOT t1 = Ok p1 ∧
      read s' (d + 4 * 0) = Ok (Z.lor p0 3) ∧ read s' (d + 4 * 768) = Ok (Z.lor p1 3).
Proof.
  intros Hi Hb Ht0 Ht1 Hd Hbk HBk Hbd HBd Ha.
  destruct (map_megabytes s kpd boot BOOT d xs (no_tables d) 0 t0 ((4096, t1) :: al) Hi Hb Ht0 Hd ltac:(lia) eq_refl Hbk HBk Hbd HBd Ha)
    as (s1 & tbl1 & E1 & B1 & K1 & D1 & A1 & L1 & T1 & O1 & M1 & P1 & V1 & _ & (p0 & Ep0 & R0) & W1 & F1).
  assert (Hz : tbl1 768 = 0) by (by rewrite O1).
  destruct (map_megabytes s1 kpd boot BOOT d xs tbl1 768 t1 al (keeps_inv _ _ K1) B1 Ht1 D1 ltac:(lia) Hz Hbk HBk Hbd HBd A1)
    as (s2 & tbl2 & E2 & B2 & K2 & D2 & A2 & L2 & T2 & O2 & M2 & P2 & V2 & U2 & (p1 & Ep1 & R1) & W2 & F2).
  exists s2. unfold map_kernel. cbn zeta. change (Z.lor PAGING_WRITABLE_PAGE PAGING_PRESENT) with 3.
  change (0 * 2 ^ 22) with 0 in *. change (768 * 2 ^ 22) with KERNEL_VIRTUAL_BASE in *.
  rewrite E1, bind_Ok, decide_False, E2, bind_Ok, decide_False by (intros Hx; by apply Hx).
  split; [done|]. split; [by eapply keeps_trans|]. split; [|split; [|split; [|split; [done|split]]]].
  - apply (dir_ok_ext _ _ _ tbl2); [|done]. intros i. unfold kernel_tables. repeat case_decide; subst.
    + done.
    + by rewrite O2.
    + by rewrite O2, O1.
  - intros x Hx. split; [|by apply V2]. specialize (V1 x Hx). rewrite Z.add_0_l in V1.
    assert (Hx0 : V_ADDR_PAGEDIR_INDEX x = 0) by (rewrite pagedir_index; by apply Z.div_small).
    rewrite U2, V1; [done|lia|rewrite Hx0; lia| |rewrite Hx0; lia]. rewrite Hx0, T1.
    destruct (live_nonnull _ _ _ (keeps_inv _ _ K1) L1). lia.
  - by apply (kkeeps_live _ _ (keeps_kheap _ _ K2)).
  - by eapply modifies_step.
  - split; [done|]. rewrite P2, P1 by lia. split; [done|]. split; [|split; [|split]].
    + intros a n Hn Ho. split; [by apply F1|]. apply F2; [done|]. by apply (keeps_owned _ _ K1).
    + intros j Hj H0j H768. by rewrite P2, P1 by lia.
    + assert (Hn0 : tbl2 0 ≠ 0) by (rewrite O2, T1 by done; destruct (live_nonnull _ _ _ (keeps_inv _ _ K1) L1); lia).
      assert (Hn1 : tbl2 768 ≠ 0) by (rewrite T2; destruct (live_nonnull _ _ _ (keeps_inv _ _ K2) L2); lia).
      intros i k [-> | ->] Hk; rewrite (table_word_entry s2 kpd d tbl2), W2 by (done || lia); [|done].
      rewrite decide_False, W1 by (done || lia || by rewrite <- O2). done.
    + exists p0, p1. split; [done|]. split; [|split; [rewrite P2 by lia; exact R0|exact R1]].
      rewrite <- Ep1. symmetry. pose proof (ob_maps _ _ _ _ Hb) as Hm. rewrite Forall_forall in Hm.
      apply (boot_physical_frame s s1 BOOT t1 _ (proj1 (Hm t1 Ht1)) M1 (ob_directory _ _ _ _ Hb)).
      apply Forall_cons. split; [done|by apply Forall_singleton].
Qed.

(** A directory whose memory is still there is the same directory. *)
Lemma dir_ok_moved s s' h d tbl : dir_ok s h d tbl → owned s' h SIZEOF_PAGE_DIRECTORY_HANDLE → owned s' d 4096 →
  (∀ i, 0 ≤ i < 1023 → tbl i ≠ 0 → owned s' (tbl i) 4096) →
  (∀ a, h ≤ a → a + 4 ≤ h + SIZEOF_PAGE_DIRECTORY_HANDLE → read s' a = read s a) →
  (∀ a, d ≤ a → a + 4 ≤ d + 4096 → read s' a = read s a) → dir_ok s' h d tbl.
Proof.
  intros [Hp Ht Hh Hg Ha Hpde Htab Hsep] Hh' Hd' Ht' Hfh Hfd. unfold SIZEOF_PAGE_DIRECTORY_HANDLE in *.
  split; try done.
  - by rewrite Hfh by lia.
  - intros i Hi. rewrite Hfh; [by apply Ht|unfold directory_virtual_at; lia..].
  - intros i Hi. rewrite Hfd by lia. by apply Hpde.
  - intros i Hi Hne. destruct (Htab i Hi Hne) as (_ & ? & ?). split; [|done]. by apply Ht'.
Qed.

(** Changes apart from a directory and its tables leave it, and the addresses it
    translates. *)
Lemma dir_modifies s s' h d tbl cs : dir_ok s h d tbl → modifies cs (kheap s) (kheap s') →
  apart_all cs h SIZEOF_PAGE_DIRECTORY_HANDLE → apart_all cs d 4096 →
  (∀ i, 0 ≤ i < 1023 → tbl i ≠ 0 → apart_all cs (tbl i) 4096) →
  dir_ok s' h d tbl ∧
  ∀ va, 0 ≤ va < 2 ^ 32 → V_ADDR_PAGEDIR_INDEX va < 1023 → tbl (V_ADDR_PAGEDIR_INDEX va) ≠ 0 →
    virtual_to_physical_addr s' h va = virtual_to_physical_addr s h va.
Proof.
  intros D M Hh Hd Ht. pose proof (dir_handle _ _ _ _ D) as Oh. pose proof (dir_page _ _ _ _ D) as Od.
  assert (D' : dir_ok s' h d tbl).
  { apply (dir_ok_moved s); [done|by apply (modifies_owned _ _ _ _ _ M)..| | |].
    - intros i Hi Hne. apply (modifies_owned _ _ _ _ _ M); [by apply (dir_table _ _ _ _ D)|done].
    - intros a H1 H2. by apply (modifies_load _ _ _ _ _ M Oh Hh); [unfold SIZEOF_PAGE_DIRECTORY_HANDLE|..].
    - intros a H1 H2. by apply (modifies_load _ _ _ _ _ M Od Hd); [lia|..]. }
  split; [done|]. intros va Hva Hiv Hne. destruct (indices va Hva) as [Hi1 Hi2].
  rewrite (translate s' h d tbl va), (translate s h d tbl va) by done. unfold table_entry, read.
  destruct (dir_table _ _ _ _ D (V_ADDR_PAGEDIR_INDEX va) ltac:(lia) Hne) as (Ho & _).
  rewrite (modifies_load _ _ _ _ _ M Ho (Ht (V_ADDR_PAGEDIR_INDEX va) ltac:(lia) Hne)) by lia. done.
Qed.

(** So are the words the processor reads. *)
Lemma dir_words s s' h d tbl cs : dir_ok s h d tbl → modifies cs (kheap s) (kheap s') →
  apart_all cs h SIZEOF_PAGE_DIRECTORY_HANDLE → apart_all cs d 4096 →
  (∀ i, 0 ≤ i < 1023 → tbl i ≠ 0 → apart_all cs (tbl i) 4096) →
  (∀ i, 0 ≤ i < 1024 → directory_entry s' h i = directory_entry s h i) ∧
  ∀ i k, 0 ≤ i < 1023 → tbl i ≠ 0 → 0 ≤ k < 1024 → table_word s' h i k = table_word s h i k.
Proof.
  intros D M Hh Hd Ht. destruct (dir_modifies s s' h d tbl cs D M Hh Hd Ht) as [D' _]. split.
  - intros i Hi. unfold directory_entry. rewrite (dir_ptr _ _ _ _ D), (dir_ptr _ _ _ _ D'), !bind_Ok.
    apply (modifies_load _ _ _ _ _ M (dir_page _ _ _ _ D) Hd); lia.
  - intros i k Hi Hne Hk. rewrite (table_word_entry s' h d tbl), (table_word_entry s h d tbl) by (done || lia).
    destruct (dir_table _ _ _ _ D i Hi Hne) as (Ho & _). apply (modifies_load _ _ _ _ _ M Ho (Ht i Hi Hne)); lia.
Qed.

Lemma use_kernel_directory_spec s kpd boot d tbl physical :
  alloc_inv (kheap s) → current_directory s = boot → live (kheap s) boot SIZEOF_PAGE_DIRECTORY_HANDLE →
  dir_ok s kpd d tbl → global s kpd SIZEOF_PAGE_DIRECTORY_HANDLE → live (kheap s) d 4096 → boot < d →
  (∀ i, 0 ≤ i < 1023 → tbl i ≠ 0 → live (kheap s) (tbl i) 4096 ∧ tbl i ≠ boot) →
  page physical → read s (d + 4 * 1023) = Ok (Z.lor physical 3) →
  ∃ s', use_kernel_directory s kpd = Ok s' ∧ kfree (kheap s) boot = Ok (kheap s') ∧ alloc_inv (kheap s') ∧
    current_directory s' = kpd ∧ cr0 s' = Z.lor (cr0 s) 0x80000000 ∧ cr3 s' = physical ∧ cr4 s' = Z.land (cr4 s) (Z.lnot PSE_BIT) ∧
    dir_ok s' kpd d tbl ∧
    (∀ va, 0 ≤ va < 2 ^ 32 → V_ADDR_PAGEDIR_INDEX va < 1023 → tbl (V_ADDR_PAGEDIR_INDEX va) ≠ 0 →
       virtual_to_physical_addr s' kpd va = virtual_to_physical_addr s kpd va) ∧
    (∀ a n, 0 < n → stays (kheap s) boot a n → owned s' a n ∧ ∀ x, a ≤ x < a + n → ram s' !! x = ram s !! x) ∧
    (∀ a, d ≤ a → a + 4 ≤ d + 4096 → read s' a = read s a) ∧
    ∀ i k, 0 ≤ i < 1023 → tbl i ≠ 0 → 0 ≤ k < 1024 → table_word s' kpd i k = table_word s kpd i k.
Proof.
  intros Hi Hc Hl Hd Hg Hld Hbd Ht Hp Hr.
  destruct (free_step (kheap s) boot SIZEOF_PAGE_DIRECTORY_HANDLE d 4096 Hi Hl) as (k' & E & Hi' & Hst);
    [done|done|lia|done|]. destruct (page_flags physical Hp) as (_ & He & _).
  eexists. unfold use_kernel_directory, directory_entry. rewrite (dir_ptr _ _ _ _ Hd), bind_Ok, Hr, bind_Ok, He.
  cbn [set_cr current_directory kheap cr0 cr3 cr4]. rewrite Hc, E, bind_Ok. split; [done|].
  set (s' := set_current _ _).
  assert (Hsame : ∀ a n, 4 ≤ n → stays (kheap s) boot a n → owned s' a n ∧
    ∀ b, a ≤ b → b + 4 ≤ a + n → read s' b = read s b).
  { intros a n Hn Hs. destruct (Hst a n ltac:(lia) Hs) as [Ho Hb]. split; [done|]. intros b Hb1 Hb2.
    apply load32_ext. intros x Hx. apply Hb. lia. }
  assert (Hsk : stays (kheap s) boot kpd SIZEOF_PAGE_DIRECTORY_HANDLE) by (destruct Hg; split; [done|by right]).
  assert (Hsd : stays (kheap s) boot d 4096) by (apply stays_live; try done; lia).
  assert (Hstab : ∀ i, 0 ≤ i < 1023 → tbl i ≠ 0 → stays (kheap s) boot (tbl i) 4096).
  { intros i Hir Hne. destruct (Ht i Hir Hne). by apply stays_live. }
  destruct (Hsame kpd SIZEOF_PAGE_DIRECTORY_HANDLE ltac:(done) Hsk) as [Hok Hrk]. destruct (Hsame d 4096 ltac:(lia) Hsd) as [Hod Hrd].
  assert (Hd' : dir_ok s' kpd d tbl).
  { apply (dir_ok_moved s); try done. intros i Hir Hne.
    apply (Hsame (tbl i) 4096 ltac:(lia) (Hstab i Hir Hne)). }
  split; [done|]. split; [exact Hi'|]. split; [done|]. split; [done|]. split; [done|]. split; [done|]. split; [done|].
  assert (Hw : ∀ i k, 0 ≤ i < 1023 → tbl i ≠ 0 → 0 ≤ k < 1024 → table_entry s' tbl i k = table_entry s tbl i k).
  { intros i k Hir Hne Hk. destruct (Hsame (tbl i) 4096 ltac:(lia) (Hstab i Hir Hne)) as [_ Hx]. apply Hx; lia. }
  split; [|split; [exact Hst|split; [exact Hrd|]]].
  2: { intros i k Hir Hne Hk. rewrite (table_word_entry s' kpd d tbl), (table_word_entry s kpd d tbl) by (done || lia). by apply Hw. }
  intros va Hva Hiv Hne. destruct (indices va Hva) as [Hi1 Hi2].
  rewrite (translate s' kpd d tbl va), (translate s kpd d tbl va) by done. by rewrite Hw by (done || lia).
Qed.

Lemma kernel_mapped_moved s s' kpd d t0 t1 : t0 ≠ 0 → t1 ≠ 0 → kernel_mapped s kpd →
  (∀ va, 0 ≤ va < 2 ^ 32 → V_ADDR_PAGEDIR_INDEX va < 1023 → kernel_tables d t0 t1 (V_ADDR_PAGEDIR_INDEX va) ≠ 0 →
     virtual_to_physical_addr s' kpd va = virtual_to_physical_addr s kpd va) → kernel_mapped s' kpd.
Proof.
  intros Ht0 Ht1 Hm Hv x Hx. destruct (Hm x Hx) as [E1 E2]. unfold KERNEL_VIRTUAL_BASE in *.
  assert (Hx0 : V_ADDR_PAGEDIR_INDEX x = 0) by (rewrite pagedir_index; by apply Z.div_small).
  assert (Hx1 : V_ADDR_PAGEDIR_INDEX (0xC0000000 + x) = 768).
  { rewrite pagedir_index. change 0xC0000000 with (768 * 2 ^ 22). rewrite Z.div_add_l, Z.div_small by done. done. }
  rewrite !Hv; [done|lia|rewrite Hx1; lia|by rewrite Hx1|lia|rewrite Hx0; lia|by rewrite Hx0].
Qed.

(** What an allocation to come does not meet stays when that one is freed. *)
Lemma owned_stays s s' a n boot size : alloc_inv (kheap s) → kkeeps (kheap s) (kheap s') → owned s a n → 0 < n →
  0 < size → (∀ a n, 0 < n → owned s a n → apart a n boot size) → stays (kheap s') boot a n.
Proof.
  intros Hi Hk Ho Hn Hs Hap. pose proof (kkeeps_owned _ _ Hk a n Hn Ho) as [Hm _]. split; [done|].
  destruct Ho as [_ [(q & c & Hq & H1 & H2 & H3)|Hno]].
  - left. exists q, c. split; [by apply (kkeeps_live _ _ Hk)|]. split; [|lia]. intros ->.
    assert (Hoc : owned s boot c) by (split; [by apply live_mapped|left; exists boot, c; split; [done|lia]]).
    destruct (Hap boot c H3 Hoc); lia.
  - right. intros x Hx. rewrite (kkeeps_arena _ _ Hk). by apply Hno.
Qed.

Lemma paging_init_spec s kpd BOOT pb boot d t0 t1 e :
  alloc_inv (kheap s) → global s kpd SIZEOF_PAGE_DIRECTORY_HANDLE → global s BOOT 4096 →
  apart BOOT 4096 kpd SIZEOF_PAGE_DIRECTORY_HANDLE → 0 ≤ BOOT < 2 ^ 32 → Z.land (cr4 s) PSE_BIT ≠ 0 →
  Forall (boot_maps s BOOT) [d; t0; t1] → read s (BOOT + 4 * V_ADDR_PAGEDIR_INDEX d) = Ok e →
  allots Q [(4096, pb); (SIZEOF_PAGE_DIRECTORY_HANDLE, boot); (4096, d); (4096, t0); (4096, t1)] (kheap s) → boot < d →
  ∃ s', paging_init s kpd BOOT = Ok s' ∧ alloc_inv (kheap s') ∧ current_directory s' = kpd ∧
    cr0 s' = Z.lor (cr0 s) 0x80000000 ∧ cr3 s' = u32 (PAGE_ENTRY_ADDR e + V_ADDR_PAGEFRAME_INDEX_PSE d) ∧
    cr4 s' = Z.land (cr4 s) (Z.lnot PSE_BIT) ∧
    dir_ok s' kpd d (kernel_tables d t0 t1) ∧ kernel_mapped s' kpd ∧
    (∀ a n, 0 < n → owned s a n → apart a n kpd SIZEOF_PAGE_DIRECTORY_HANDLE →
       owned s' a n ∧ ∀ x, a ≤ x < a + n → ram s' !! x = ram s !! x) ∧
    (∃ p0 p1, boot_physical s BOOT t0 = Ok p0 ∧ boot_physical s BOOT t1 = Ok p1 ∧ kernel_entries s' kpd (cr3 s') p0 p1) ∧
    ∃ k, Q k ∧ kfree k boot = Ok (kheap s').
Proof.
  intros Hi Hkg HBg HBk HBr Hpse Hmaps He Ha Hbd.
  assert (Hpg : Forall (λ sp, page sp.2)
    [(4096, pb); (SIZEOF_PAGE_DIRECTORY_HANDLE, boot); (4096, d); (4096, t0); (4096, t1)]).
  { apply (allots_pages _ _ Hi); [repeat (constructor; [done|]); constructor|done]. }
  rewrite !Forall_cons in Hpg. cbn [snd] in Hpg. destruct Hpg as (_ & _ & Hpd & Hp0 & Hp1 & _).
  assert (Hmaps' : Forall (λ x, page x ∧ boot_maps s BOOT x) [d; t0; t1]).
  { rewrite !Forall_cons in Hmaps |- *. destruct Hmaps as (? & ? & ? & _).
    split; [done|]. split; [done|]. split; [done|constructor]. }
  destruct (use_boot_directory_spec s BOOT pb boot _ [d; t0; t1] Hi HBr HBg Hpse Hmaps' Ha)
    as (s1 & E1 & B1 & M1 & A1 & L1 & C1 & _ & _ & Hap1).
  pose proof (global_owned _ _ _ Hkg) as Hko. pose proof (global_owned _ _ _ HBg) as HBo.
  pose proof (Hap1 kpd SIZEOF_PAGE_DIRECTORY_HANDLE ltac:(done) Hko) as Hkb.
  assert (Hk1 : owned s1 kpd SIZEOF_PAGE_DIRECTORY_HANDLE) by (by apply (modifies_owned _ _ _ _ _ M1 Hko)).
  assert (Hb4 : apart boot 4 kpd SIZEOF_PAGE_DIRECTORY_HANDLE) by (unfold apart, SIZEOF_PAGE_DIRECTORY_HANDLE in *; lia).
  destruct (empty_directory_spec (Q := Q) s1 kpd boot BOOT d [d; t0; t1] _ (modifies_inv _ _ _ M1) B1 ltac:(by left) Hk1 Hb4 HBk A1)
    as (s2 & ph & E2 & K2 & M2 & A2 & L2 & D2 & Hph & Ev & R2 & Hap2 & Z2).
  assert (B2 : on_boot s2 boot BOOT [d; t0; t1]) by (apply (on_boot_frame s1 s2 _ _ _ _ B1 K2 M2); by apply Forall_singleton).
  destruct (map_kernel_spec s2 kpd boot BOOT d [d; t0; t1] t0 t1 [] (keeps_inv _ _ K2) B2)
    as (s3 & E3 & K3 & D3 & V3 & L30 & L31 & M3 & A3 & R3 & Hap3 & Z3 & W3 & p0 & p1 & Ep0 & Ep1 & R30 & R31); try done; [by right; left|by right; right; left| | |].
  { apply Hap2; [lia|apply (ob_handle _ _ _ _ B1)]. }
  { apply Hap2; [lia|apply (ob_directory _ _ _ _ B1)]. }
  assert (K23 : keeps s1 s3) by (by eapply keeps_trans). pose proof (keeps_kheap _ _ K23) as KK.
  assert (K03 : kkeeps (kheap s) (kheap s3)) by (eapply kkeeps_trans; [apply (modifies_keeps _ _ _ M1)|done]).
  destruct (Hap3 boot 4 ltac:(lia) (ob_handle _ _ _ _ B2)) as [Hn0 Hn1].
  destruct (use_kernel_directory_spec s3 kpd boot d (kernel_tables d t0 t1) ph (keeps_inv _ _ K3))
    as (s4 & E4 & F4 & I4 & C4 & Q0 & Q3 & Q4 & D4 & V4 & S4 & Rd4 & W4); try done.
  { rewrite (keeps_current _ _ K23). apply B1. }
  { by apply (kkeeps_live _ _ KK). }
  { by apply (global_keeps s). }
  { by apply (kkeeps_live _ _ (keeps_kheap _ _ K3)). }
  { intros i Hir. unfold kernel_tables, no_tables. repeat case_decide; intros Hne; try lia.
    - split; [done|]. unfold apart in Hn1. lia.
    - split; [done|]. unfold apart in Hn0. lia. }
  { by rewrite R3. }
  assert (Hcr : (cr0 s3, cr3 s3, cr4 s3) = (cr0 s, cr3 s, cr4 s)) by (by rewrite (keeps_cr _ _ K23)).
  injection Hcr as Hcr0 Hcr3 Hcr4. exists s4. unfold paging_init.
  rewrite E1, bind_Ok, E2, bind_Ok, E3, bind_Ok, E4. split; [done|]. split; [done|]. split; [done|].
  split; [by rewrite Q0, Hcr0|]. split; [|split; [by rewrite Q4, Hcr4|split; [done|split]]].
  - rewrite (on_boot_translates s1 boot BOOT [d; t0; t1] d e) in Ev; [by injection Ev as <-|done|by left|].
    destruct (indices d (proj1 Hpd)). rewrite <- He. apply (modifies_load _ _ _ _ _ M1 HBo); [constructor|lia..].
  - by apply (kernel_mapped_moved s3 s4 kpd d t0 t1); [destruct (live_nonnull _ _ _ (keeps_inv _ _ K3) L30); lia
      |destruct (live_nonnull _ _ _ (keeps_inv _ _ K3) L31); lia|..].
  - split; [|split; [|exists (kheap s3); split; [apply A3; by apply same_heap_refl, (keeps_inv _ _ K3)|done]]].
    2: { exists p0, p1. assert (Hbp : ∀ x, page x → apart_all [(kpd, SIZEOF_PAGE_DIRECTORY_HANDLE)] BOOT 4096 →
           boot_physical s2 BOOT x = boot_physical s BOOT x).
         { intros x Hx Hax. rewrite (boot_physical_frame s1 s2 BOOT x _ Hx M2 (ob_directory _ _ _ _ B1) Hax).
           apply (boot_physical_frame s s1 BOOT x [] Hx M1 HBo). constructor. }
         rewrite <- !Hbp by (done || by apply Forall_singleton). split; [done|]. split; [done|]. split.
         - intros j Hj. unfold directory_entry. rewrite (dir_ptr _ _ _ _ D4), bind_Ok, Rd4, Q3 by lia. unfold kernel_pde.
           repeat case_decide; subst; [by rewrite R3|exact R31|exact R30|]. rewrite Z3, Z2 by lia. done.
         - intros i k Hik Hk. rewrite W4; [by apply W3|lia| |done]. unfold kernel_tables.
           destruct (live_nonnull _ _ _ (keeps_inv _ _ K3) L30), (live_nonnull _ _ _ (keeps_inv _ _ K3) L31).
           destruct Hik as [-> | ->]; repeat case_decide; lia. }
    intros a n Hn Ho Hak. destruct (S4 a n Hn) as [Ho4 Hb].
    { by apply (owned_stays s s3 a n boot SIZEOF_PAGE_DIRECTORY_HANDLE). }
    split; [done|]. intros x Hx. rewrite Hb by done.
    pose proof (modifies_owned _ _ _ _ _ M1 Ho Hn) as Ho1. pose proof (modifies_owned _ _ _ _ _ M2 Ho1 Hn) as Ho2.
    etransitivity; [apply (modifies_bytes _ _ _ M3 a n Hn Ho2); [|done]|].
    { apply Forall_cons. split; [done|]. apply Forall_singleton. by apply Hap2. }
    etransitivity; [apply (modifies_bytes _ _ _ M2 a n Hn Ho1); [by apply Forall_singleton|done]|].
    apply (modifies_bytes _ _ _ M1 a n Hn Ho); [constructor|done].
Qed.
End paging_init.

Lemma walkable_physical {K} `{AllocatorLaws K} (s : machine K) c cs x p : walkable s c cs x →
  virtual_to_physical_addr s c x = Ok p → page p.
Proof.
  intros (words & p' & Ht & Hr & Hm & _) E. rewrite (translates_now _ _ _ _ _ Ht) in E. injection E as <-. by split.
Qed.

(** * [paging_clone_directory] *)

Section clone.
Context {K : Type} `{AllocatorLaws K}.

(** The machine at the start; the kernel's directory [kd] with handle [kpd], the
    source's [sd] with handle [source], the entries of both; the copy's handle [c] and
    directory [d], and the pages the copied tables will get. *)
Variable s : machine K.
Variables kpd kd source sd c d : Z.
Variables ktbl stbl kent ent pages : Z → Z.
(** The allocations that come after, and what holds then. *)
Context {Q : K → Prop}.
Variable rest : list (Z * Z).

(** Entry [j] is copied, not shared with the kernel's directory. *)
Definition copied (j : Z) : Prop := ent j ≠ 0 ∧ kent j ≠ ent j.

#[local] Instance copied_dec j : Decision (copied j).
Proof. unfold copied. apply _. Defined.

(** The allocations from round [i] of the loop on. *)
Definition to_copy (i : Z) : list (Z * Z) :=
  ((λ j, (4096, pages j)) <$> filter copied (seqZ i (1023 - i))) ++ rest.

(** The tables of the copy after [i] rounds. *)
Definition clone_tbl (i j : Z) : Z :=
  if decide (0 ≤ j < i ∧ ent j ≠ 0) then if decide (kent j = ent j) then ktbl j else pages j else 0.

(** Both directories are well-formed; an entry that is not 0 has a table, and an
    entry shared with the kernel is for the same one. *)
Record clone_source : Prop := CloneSource {
  cs_inv : alloc_inv (kheap s);
  cs_kernel : dir_ok s kpd kd ktbl;
  cs_source : dir_ok s source sd stbl;
  cs_kent : ∀ i, 0 ≤ i < 1023 → read s (kd + 4 * i) = Ok (kent i);
  cs_ent : ∀ i, 0 ≤ i < 1023 → read s (sd + 4 * i) = Ok (ent i);
  cs_table : ∀ i, 0 ≤ i < 1023 → ent i ≠ 0 → stbl i ≠ 0;
  cs_shared : ∀ i, 0 ≤ i < 1023 → ent i ≠ 0 → kent i = ent i → stbl i = ktbl i
}.
Hypothesis Hsource : clone_source.
Hypothesis Hwalk : ∀ i, 0 ≤ i < 1023 → copied i → walkable s (current_directory s) [] (pages i).

(** What the rounds before [i] have put in entry [j]. *)
Definition clone_pde (t : machine K) (j : Z) : Prop :=
  if decide (ent j = 0) then read t (d + 4 * j) = Ok 0
  else if decide (kent j = ent j) then read t (d + 4 * j) = Ok (ent j)
  else ∃ physical, virtual_to_physical_addr s (current_directory s) (pages j) = Ok physical ∧
    read t (d + 4 * j) = Ok (Z.lor physical (PAGE_ENTRY_FLAGS (ent j))).

(** A copied table is new, and holds what the source's holds. *)
Definition copied_page (t : machine K) (j : Z) : Prop :=
  0 < pages j ∧ (∀ a n, 0 < n → owned s a n → apart a n (pages j) 4096) ∧
  ∀ k, 0 ≤ k < 1024 → read t (pages j + 4 * k) = read s (stbl j + 4 * k).

Record cloning (i : Z) (t : machine K) : Prop := Cloning {
  cl_keeps : keeps s t;
  cl_frame : modifies [] (kheap s) (kheap t);
  cl_allots : allots Q (to_copy i) (kheap t);
  cl_dir : dir_ok t c d (clone_tbl i);
  cl_new : ∀ a n, 0 < n → owned s a n → apart a n c SIZEOF_PAGE_DIRECTORY_HANDLE ∧ apart a n d 4096;
  cl_copied : ∀ j, 0 ≤ j < i → copied j → copied_page t j;
  cl_pde : ∀ j, 0 ≤ j < i → clone_pde t j;
  cl_zero : ∀ j, i ≤ j < 1024 → read t (d + 4 * j) = Ok 0
}.

(** What was owned reads the same. *)
Lemma frame_read t a n b : modifies [] (kheap s) (kheap t) → owned s a n → 4 ≤ n → a ≤ b → b + 4 ≤ a + n →
  read t b = read s b.
Proof. intros M Ho Hn Hb Hbn. apply (modifies_load [] _ _ a n M Ho); [constructor|done..]. Qed.

Lemma to_copy_skip i : 0 ≤ i < 1023 → ¬ copied i → to_copy i = to_copy (i + 1).
Proof.
  intros Hi Hc. unfold to_copy. rewrite seqZ_cons, filter_cons_False by (done || lia).
  do 4 f_equal; lia.
Qed.

Lemma to_copy_next i : 0 ≤ i < 1023 → copied i → to_copy i = (4096, pages i) :: to_copy (i + 1).
Proof.
  intros Hi Hc. unfold to_copy. rewrite seqZ_cons, filter_cons_True by (done || lia).
  cbn [fmap list_fmap app]. do 5 f_equal; lia.
Qed.

Lemma clone_tbl_skip i j : ent i = 0 → clone_tbl (i + 1) j = clone_tbl i j.
Proof.
  intros Hz. unfold clone_tbl. repeat case_decide; try done; try lia.
  all: destruct (decide (j = i)) as [-> | ]; [lia|lia].
Qed.

Lemma cloning_skip i t : 0 ≤ i < 1023 → ent i = 0 → cloning i t → cloning (i + 1) t.
Proof.
  intros Hi Hz [Hk M A D N F P Hzero]. assert (Hc : ¬ copied i) by (by intros []).
  split; try done.
  - by rewrite <- to_copy_skip.
  - apply (dir_ok_ext _ _ _ (clone_tbl i)); [|done]. intros j. by apply clone_tbl_skip.
  - intros j Hj Hcj. apply F; [|done]. destruct (decide (j = i)) as [-> | ]; [done|lia].
  - intros j Hj. destruct (decide (j = i)) as [-> | ]; [|apply P; lia].
    unfold clone_pde. rewrite decide_True by done. apply Hzero. lia.
  - intros j Hj. apply Hzero. lia.
Qed.

Lemma clone_pde_same t t' j : read t' (d + 4 * j) = read t (d + 4 * j) → clone_pde t j → clone_pde t' j.
Proof. intros E. unfold clone_pde. by rewrite E. Qed.

Lemma clone_tbl_add i j : 0 ≤ i → clone_tbl (i + 1) j = if decide (j = i) then clone_tbl (i + 1) i else clone_tbl i j.
Proof. intros Hi. case_decide; [by subst|]. unfold clone_tbl. repeat case_decide; try done; lia. Qed.

Lemma copied_page_step i t t' j : cloning i t → 0 ≤ i < 1023 → copied j →
  modifies [(directory_virtual_at c i, 4); (d + 4 * i, 4)] (kheap t) (kheap t') → 0 ≤ j < i → copied_page t' j.
Proof.
  intros [Hk M A D N F P Hzero] Hi Hcj M' Hj. destruct (F j Hj Hcj) as (Hp & Hf & He). split; [done|]. split; [done|].
  assert (Ej : clone_tbl i j = pages j) by (destruct Hcj; unfold clone_tbl; rewrite decide_True, decide_False by done; done).
  destruct (dir_table _ _ _ _ D j) as (Ho & H1 & H2); [lia|rewrite Ej; lia|]. rewrite Ej in *.
  intros k Hk'. rewrite <- He by done. apply (modifies_load _ _ _ _ _ M' Ho); [|lia..].
  unfold apart_all, apart, directory_virtual_at, SIZEOF_PAGE_DIRECTORY_HANDLE in *. rewrite !Forall_cons. cbn [fst snd].
  split; [lia|]. split; [lia|constructor].
Qed.

(** A round leaves everything that was there. *)
Lemma round_frame i t t' : 0 ≤ i < 1023 → cloning i t →
  modifies [(directory_virtual_at c i, 4); (d + 4 * i, 4)] (kheap t) (kheap t') → modifies [] (kheap s) (kheap t').
Proof.
  intros Hi [Hk M A D N F P Hzero] M'. eapply modifies_step; [exact M|exact M'|]. intros a n Hn Ha _.
  destruct (N a n Hn Ha) as [H1 H2]. unfold directory_virtual_at.
  unfold apart_all, apart, SIZEOF_PAGE_DIRECTORY_HANDLE in *. rewrite !Forall_cons. cbn [fst snd].
  split; [lia|]. split; [lia|constructor].
Qed.

(** A round that records the table [p] in slot [i] and the entry [e]. *)
Lemma cloning_step i t t' p e : 0 ≤ i < 1023 → cloning i t → keeps t t' →
  modifies [(directory_virtual_at c i, 4); (d + 4 * i, 4)] (kheap t) (kheap t') → allots Q (to_copy (i + 1)) (kheap t') →
  p = clone_tbl (i + 1) i → owned t' p 4096 → apart c SIZEOF_PAGE_DIRECTORY_HANDLE p 4096 → apart d 4096 p 4096 →
  (∀ j, 0 ≤ j < i → clone_tbl i j ≠ 0 → apart (clone_tbl i j) 4096 p 4096) →
  read t' (directory_virtual_at c i) = Ok p → read t' (d + 4 * i) = Ok e → PAGE_ENTRY_PSE_BIT e = 0 → clone_pde t' i →
  (copied i → copied_page t' i) → cloning (i + 1) t'.
Proof.
  intros Hi Hcl K' M' A' Hp Ho Hcp Hdp Hsep Rs Re Hpse Hpde Hcop. pose proof Hcl as [Hk M A D N F P Hzero].
  pose proof (dir_handle _ _ _ _ D) as Hoc. pose proof (dir_page _ _ _ _ D) as Hod.
  pose proof (dir_apart _ _ _ _ D) as Hcd. unfold SIZEOF_PAGE_DIRECTORY_HANDLE, apart in Hcd.
  set (slot := directory_virtual_at c i) in *.
  assert (Hslot : c + 4 ≤ slot ∧ slot + 4 ≤ c + 4100) by (subst slot; unfold directory_virtual_at; lia).
  assert (Hfar : ∀ a, owned t a 4 → apart a 4 slot 4 → apart a 4 (d + 4 * i) 4 → read t' a = read t a).
  { intros a Ha H1 H2. apply (modifies_read _ _ _ _ M' Ha). apply Forall_cons. split; [done|by apply Forall_singleton]. }
  assert (Hdirs : ∀ j, 0 ≤ j < 1024 → j ≠ i → read t' (directory_virtual_at c j) = read t (directory_virtual_at c j) ∧
    read t' (d + 4 * j) = read t (d + 4 * j)).
  { intros j Hj Hji. unfold slot, directory_virtual_at in *. split; apply Hfar; unfold apart; try lia.
    - apply (owned_sub _ _ _ _ _ Hoc); unfold SIZEOF_PAGE_DIRECTORY_HANDLE; lia.
    - apply (owned_sub _ _ _ _ _ Hod); lia. }
  split.
  - by eapply keeps_trans.
  - by apply (round_frame i t).
  - done.
  - apply (dir_ok_ext _ _ _ (λ j, if decide (j = i) then p else clone_tbl i j));
      [intros j; rewrite Hp; apply clone_tbl_add; lia|].
    apply (dir_ok_add t t' c d (clone_tbl i) i p D K' Hi Ho Hcp Hdp); try done.
    + intros j Hj Hne. apply Hsep; [|done]. unfold clone_tbl in Hne. case_decide; [lia|done].
    + rewrite Hfar; [apply (dir_ptr _ _ _ _ D)| |unfold apart; lia..].
      apply (owned_sub _ _ _ _ _ Hoc); unfold SIZEOF_PAGE_DIRECTORY_HANDLE; lia.
    + by exists e.
  - done.
  - intros j Hj Hcj. destruct (decide (j = i)) as [-> | Hji]; [by apply Hcop|].
    apply (copied_page_step i t t' j Hcl); [lia|done|exact M'|lia].
  - intros j Hj. destruct (decide (j = i)) as [-> | Hji]; [done|].
    apply (clone_pde_same t); [apply Hdirs; lia|apply P; lia].
  - intros j Hj. destruct (Hdirs j ltac:(lia) ltac:(lia)) as [_ ->]. apply Hzero. lia.
Qed.

Lemma apart_sym a n b m : apart a n b m → apart b m a n.
Proof. unfold apart. lia. Qed.

(** The two directories as a round sees them. *)
Lemma round_reads i t : 0 ≤ i < 1023 → modifies [] (kheap s) (kheap t) →
  directory_entry t source i = Ok (ent i) ∧ directory_entry t kpd i = Ok (kent i) ∧
  read t (directory_virtual_at source i) = Ok (stbl i) ∧ read t (directory_virtual_at kpd i) = Ok (ktbl i).
Proof.
  intros Hi M. destruct Hsource as [_ Hk Hs Hke He _ _].
  assert (Hh : ∀ h d' tbl, dir_ok s h d' tbl → read t h = Ok d' ∧ (∀ i, 0 ≤ i < 1024 → read t (d' + 4 * i) = read s (d' + 4 * i)) ∧
    ∀ i, 0 ≤ i < 1024 → read t (directory_virtual_at h i) = Ok (tbl i)).
  { intros h d' tbl Hd. pose proof (dir_handle _ _ _ _ Hd) as Ho. split; [|split].
    - rewrite (frame_read t h SIZEOF_PAGE_DIRECTORY_HANDLE h M Ho) by (unfold SIZEOF_PAGE_DIRECTORY_HANDLE; lia). apply Hd.
    - intros j Hj. apply (frame_read t d' 4096 _ M (dir_page _ _ _ _ Hd)); lia.
    - intros j Hj. unfold directory_virtual_at.
      rewrite (frame_read t h SIZEOF_PAGE_DIRECTORY_HANDLE _ M Ho) by (unfold SIZEOF_PAGE_DIRECTORY_HANDLE; lia). by apply Hd. }
  destruct (Hh _ _ _ Hk) as (E1 & E2 & E3). destruct (Hh _ _ _ Hs) as (F1 & F2 & F3).
  unfold directory_entry. rewrite E1, F1, !bind_Ok, E2, F2 by lia.
  split; [by apply He|]. split; [by apply Hke|]. split; [apply F3|apply E3]; lia.
Qed.

Lemma entry_flags e : PAGE_ENTRY_PSE_BIT e = 0 → 0 ≤ PAGE_ENTRY_FLAGS e < 4096 ∧ PAGE_ENTRY_PSE_BIT (PAGE_ENTRY_FLAGS e) = 0.
Proof.
  unfold PAGE_ENTRY_FLAGS, PAGE_ENTRY_PSE_BIT. intros Hpse. change (Z.lxor ADDR_MASK 0xffffffff) with (2 ^ 12 - 1).
  rewrite <- Z.land_assoc, (Z.land_comm (2 ^ 12 - 1)), Z.land_assoc, Hpse. split; [|done].
  rewrite land_mask by lia. apply Z.mod_pos_bound. lia.
Qed.

Lemma get_entry t h d' i : read t h = Ok d' → directory_entry t h i = read t (d' + 4 * i).
Proof. intros E. unfold directory_entry. by rewrite E, bind_Ok. Qed.

Lemma set_entry t h d' i v : read t h = Ok d' → set_directory_entry t h i v = write t (d' + 4 * i) v.
Proof. intros E. unfold set_directory_entry. by rewrite E, bind_Ok. Qed.

(** Regions of the round, and those apart from them. *)
Lemma round_sub i t t' cs : (∀ a n, apart a n (directory_virtual_at c i) 4 → apart a n (d + 4 * i) 4 → apart_all cs a n) →
  modifies cs (kheap t) (kheap t') → modifies [(directory_virtual_at c i, 4); (d + 4 * i, 4)] (kheap t) (kheap t').
Proof.
  intros Hcs M. apply (modifies_sub _ _ _ _ M). intros a n _ _ Ha. unfold apart_all in Ha. rewrite !Forall_cons in Ha.
  destruct Ha as (H1 & H2 & _). by apply Hcs.
Qed.

Lemma round_then i t1 t2 t3 cs : (∀ a n, apart a n (directory_virtual_at c i) 4 → apart a n (d + 4 * i) 4 → apart_all cs a n) →
  modifies [(directory_virtual_at c i, 4); (d + 4 * i, 4)] (kheap t1) (kheap t2) → modifies cs (kheap t2) (kheap t3) →
  modifies [(directory_virtual_at c i, 4); (d + 4 * i, 4)] (kheap t1) (kheap t3).
Proof.
  intros Hcs M1 M2. eapply modifies_step; [exact M1|exact M2|]. intros a n _ _ Ha. unfold apart_all in Ha. rewrite !Forall_cons in Ha.
  destruct Ha as (H1 & H2 & _). by apply Hcs.
Qed.

Lemma entry_facts i : 0 ≤ i < 1023 → 0 ≤ ent i < 2 ^ 32 ∧ PAGE_ENTRY_PSE_BIT (ent i) = 0.
Proof.
  intros Hi. pose proof (cs_ent Hsource i Hi) as He. split; [apply (read_word _ _ _ (cs_inv Hsource) He)|].
  destruct (dir_pde _ _ _ _ (cs_source Hsource) i ltac:(lia)) as (e & He' & Hp). rewrite He in He'. by injection He' as <-.
Qed.

Lemma share_round i t : 0 ≤ i < 1023 → cloning i t → ent i ≠ 0 → kent i = ent i →
  ∃ t', clone_entry kpd source c i t = Ok t' ∧ cloning (i + 1) t'.
Proof.
  intros Hi Hcl Hne Heq. pose proof Hcl as [Hk M A D N F P Hzero].
  destruct (round_reads i t Hi M) as (R1 & R2 & _ & R4). destruct (entry_facts i Hi) as [Her Hpse].
  pose proof (dir_handle _ _ _ _ D) as Hoc. pose proof (dir_page _ _ _ _ D) as Hod.
  pose proof (dir_apart _ _ _ _ D) as Hcd.
  assert (Hkn : ktbl i ≠ 0) by (rewrite <- (cs_shared Hsource i Hi Hne Heq); by apply (cs_table Hsource)).
  destruct (dir_table _ _ _ _ (cs_kernel Hsource) i Hi Hkn) as (Hot & _ & _).
  pose proof (dir_handle _ _ _ _ (cs_kernel Hsource)) as Hkh.
  destruct (N kpd SIZEOF_PAGE_DIRECTORY_HANDLE ltac:(done) Hkh) as [Hk1 Hk2].
  destruct (N (ktbl i) 4096 ltac:(lia) Hot) as [Ht1 Ht2].
  unfold SIZEOF_PAGE_DIRECTORY_HANDLE, apart in Hcd, Hk1, Hk2, Ht1, Ht2.
  destruct (write_next (Q := Q) t (d + 4 * i) (ent i) (to_copy i) (keeps_inv _ _ Hk)) as (t1 & E1 & K1 & M1 & A1 & W1 & O1);
    [apply (owned_sub _ _ _ _ _ Hod); lia|done|exact A|].
  assert (R4' : read t1 (directory_virtual_at kpd i) = Ok (ktbl i)).
  { rewrite O1; [done|]. unfold apart, directory_virtual_at. lia. }
  destruct (write_next (Q := Q) t1 (directory_virtual_at c i) (ktbl i) (to_copy i) (keeps_inv _ _ K1)) as (t2 & E2 & K2 & M2 & A2 & W2 & O2);
    [apply (keeps_owned _ _ K1); [lia|]; apply (owned_sub _ _ _ _ _ Hoc); unfold directory_virtual_at, SIZEOF_PAGE_DIRECTORY_HANDLE; lia
    |apply (read_word _ _ _ (keeps_inv _ _ K1) R4')|exact A1|].
  assert (W : read t2 (d + 4 * i) = Ok (ent i)) by (rewrite O2; [done|unfold apart, directory_virtual_at; lia]).
  exists t2. unfold clone_entry, share_table, set_directory_entry. rewrite R1, bind_Ok, decide_False by done.
  rewrite R2, bind_Ok, decide_True by done. rewrite (dir_ptr _ _ _ _ D), bind_Ok, Heq, E1, bind_Ok, R4', bind_Ok.
  split; [done|]. assert (Hnc : ¬ copied i) by (by intros [_ ?]).
  apply (cloning_step i t t2 (ktbl i) (ent i) Hi Hcl); try done.
  - by eapply keeps_trans.
  - apply (round_then i t t1 t2 [(directory_virtual_at c i, 4)]); [intros; by apply Forall_singleton| |exact M2].
    apply (round_sub i t t1 [(d + 4 * i, 4)]); [intros; by apply Forall_singleton|exact M1].
  - by rewrite <- to_copy_skip.
  - unfold clone_tbl. rewrite decide_True by (split; [lia|done]). by rewrite decide_True.
  - apply (keeps_owned _ _ K2); [lia|]. apply (keeps_owned _ _ K1); [lia|]. by apply (keeps_owned _ _ Hk).
  - unfold apart, SIZEOF_PAGE_DIRECTORY_HANDLE. lia.
  - unfold apart. lia.
  - intros j Hj. unfold clone_tbl. case_decide as Hc; [|done]. case_decide as Hs; intros Hjn.
    + apply (dir_tables_apart _ _ _ _ (cs_kernel Hsource)); [lia|done|lia|done|done].
    + apply apart_sym. destruct (F j Hj) as (_ & Hf & _); [split; [apply Hc|done]|]. by apply Hf.
  - unfold clone_pde. by rewrite decide_False, decide_True.
Qed.

(** The round of a copied entry, up to the copy. *)
Lemma copy_start i t : 0 ≤ i < 1023 → cloning i t → copied i →
  ∃ t1 t2 t3, alloc t PAGING_PAGE_SIZE = Ok (pages i, t1) ∧ write t1 (directory_virtual_at c i) (pages i) = Ok t2 ∧
    read t2 (directory_virtual_at source i) = Ok (stbl i) ∧ copy t2 (pages i) (stbl i) PAGING_PAGE_SIZE = Ok t3 ∧
    keeps t t3 ∧ modifies [(directory_virtual_at c i, 4)] (kheap t) (kheap t3) ∧ allots Q (to_copy (i + 1)) (kheap t3) ∧
    owned t3 (pages i) 4096 ∧ 0 < pages i ∧ (∀ a n, 0 < n → owned t a n → apart a n (pages i) 4096) ∧
    read t3 (directory_virtual_at c i) = Ok (pages i) ∧
    ∀ k, 0 ≤ k < 1024 → read t3 (pages i + 4 * k) = read s (stbl i + 4 * k).
Proof.
  intros Hi Hcl Hc. pose proof Hcl as [Hk M A D N F P Hzero]. rewrite to_copy_next in A by done.
  pose proof (dir_handle _ _ _ _ D) as Hoc. set (p := pages i) in *. set (slot := directory_virtual_at c i) in *.
  assert (Hslot : c + 4 ≤ slot ∧ slot + 4 ≤ c + 4100) by (subst slot; unfold directory_virtual_at; lia).
  destruct (alloc_next (Q := Q) t 4096 p (to_copy (i + 1)) (keeps_inv _ _ Hk) ltac:(lia) A)
    as (k1 & E1 & A1 & K1 & M1 & O1 & L1 & P1 & P2 & P3 & Hap & Z1). set (t1 := set_kheap t k1) in *.
  pose proof (Hap c SIZEOF_PAGE_DIRECTORY_HANDLE ltac:(done) Hoc) as Hcp. unfold SIZEOF_PAGE_DIRECTORY_HANDLE, apart in Hcp.
  destruct (write_next (Q := Q) t1 slot p (to_copy (i + 1)) (keeps_inv _ _ K1)) as (t2 & E2 & K2 & M2 & A2 & W2 & O2);
    [apply (keeps_owned _ _ K1); [lia|]; apply (owned_sub _ _ _ _ _ Hoc); unfold SIZEOF_PAGE_DIRECTORY_HANDLE; lia|lia|exact A1|].
  assert (M12 : modifies [(slot, 4); (d + 4 * i, 4)] (kheap t) (kheap t2)).
  { apply (round_then i t t1 t2 [(slot, 4)]); [intros; by apply Forall_singleton| |exact M2].
    apply (round_sub i t t1 []); [constructor|exact M1]. }
  pose proof (round_frame i t t2 Hi Hcl M12) as Ms2. destruct (round_reads i t2 Hi Ms2) as (_ & _ & R3 & _).
  destruct (dir_table _ _ _ _ (cs_source Hsource) i Hi (cs_table Hsource i Hi (proj1 Hc))) as (Hot & _ & _).
  pose proof (modifies_owned _ _ _ _ _ M Hot ltac:(lia)) as Hott.
  destruct (copy_page (Q := Q) t2 p (stbl i) (to_copy (i + 1)) (keeps_inv _ _ K2)) as (k3 & E3 & K3 & M3 & A3 & C3);
    [apply (modifies_owned _ _ _ _ _ Ms2 Hot); lia|by apply (keeps_owned _ _ K2)|by apply Hap|exact A2|].
  exists t1, t2, (set_kheap t2 k3). change PAGING_PAGE_SIZE with 4096.
  split; [done|]. split; [done|]. split; [done|]. split; [done|].
  split; [eapply keeps_trans; [exact K1|by eapply keeps_trans]|]. split.
  { eapply modifies_step; [eapply modifies_step; [apply (modifies_sub _ _ _ _ M1); constructor|exact M2|done]|exact M3|].
    intros a n Hn Ha _. apply Forall_singleton. by apply Hap. }
  split; [done|]. split; [by apply (keeps_owned _ _ K3), (keeps_owned _ _ K2)|]. split; [done|]. split; [done|]. split.
  - rewrite <- W2. apply (modifies_read _ _ _ _ M3).
    + apply (keeps_owned _ _ K2); [lia|]. apply (keeps_owned _ _ K1); [lia|]. apply (owned_sub _ _ _ _ _ Hoc);
        unfold SIZEOF_PAGE_DIRECTORY_HANDLE; lia.
    + apply Forall_singleton. unfold apart. cbn [fst snd]. lia.
  - intros k Hkr. etransitivity; [by apply C3|]. apply (frame_read t2 (stbl i) 4096 _ Ms2 Hot); lia.
Qed.

(** The entry: the address as the current directory translates it, then the flags. *)
Lemma copy_round i t : 0 ≤ i < 1023 → cloning i t → copied i →
  ∃ t', clone_entry kpd source c i t = Ok t' ∧ cloning (i + 1) t'.
Proof.
  intros Hi Hcl Hc. pose proof Hcl as [Hk M A D N F P Hzero].
  destruct (copy_start i t Hi Hcl Hc) as (t1 & t2 & t3 & E1 & E2 & R2 & E3 & K3 & M3 & A3 & O3 & P3 & Hap & W3 & C3).
  destruct (round_reads i t Hi M) as (R1 & R1k & _). destruct (entry_facts i Hi) as [Her Hpse].
  pose proof (dir_handle _ _ _ _ D) as Hoc. pose proof (dir_page _ _ _ _ D) as Hod. pose proof (dir_apart _ _ _ _ D) as Hcd.
  pose proof (Hap c SIZEOF_PAGE_DIRECTORY_HANDLE ltac:(done) Hoc) as Hcp. pose proof (Hap d 4096 ltac:(lia) Hod) as Hdp.
  set (p := pages i) in *. unfold SIZEOF_PAGE_DIRECTORY_HANDLE, apart in Hcd, Hcp, Hdp.
  assert (Mt3 : modifies [(directory_virtual_at c i, 4); (d + 4 * i, 4)] (kheap t) (kheap t3))
    by (apply (round_sub i t t3 [(directory_virtual_at c i, 4)]); [intros; by apply Forall_singleton|exact M3]).
  destruct (walk s t3 _ _ p (Hwalk i Hi Hc)) as (ph & Ev & Ev3 & Hph);
    [rewrite (keeps_cr4 _ _ K3); apply (keeps_cr4 _ _ Hk)
    |intros a Ha _; apply (frame_read t3 a 4 a (round_frame i t t3 Hi Hcl Mt3) Ha); lia|].
  rewrite <- (keeps_current _ _ Hk), <- (keeps_current _ _ K3) in Ev3.
  destruct (entry_flags (ent i) Hpse) as [Hfl Hfp]. destruct (entry_addr_lor ph _ (proj2 Hph) Hfl (proj1 Hph)) as [Hlr _].
  assert (Hr3 : read t3 c = Ok d).
  { rewrite <- (dir_ptr _ _ _ _ D). apply (modifies_read _ _ _ _ M3).
    - apply (owned_sub _ _ _ _ _ Hoc); unfold SIZEOF_PAGE_DIRECTORY_HANDLE; lia.
    - apply Forall_singleton. unfold apart, directory_virtual_at. cbn [fst snd]. lia. }
  destruct (write_next (Q := Q) t3 (d + 4 * i) ph (to_copy (i + 1)) (keeps_inv _ _ K3)) as (t4 & E4 & K4 & M4 & A4 & W4 & O4);
    [apply (keeps_owned _ _ K3); [lia|]; apply (owned_sub _ _ _ _ _ Hod); lia|apply Hph|exact A3|].
  assert (Mt4 : modifies [(directory_virtual_at c i, 4); (d + 4 * i, 4)] (kheap t) (kheap t4))
    by (apply (round_then i t t3 t4 [(d + 4 * i, 4)]); [intros; by apply Forall_singleton|done|done]).
  destruct (round_reads i t4 Hi (round_frame i t t4 Hi Hcl Mt4)) as (R4 & _).
  destruct (write_next (Q := Q) t4 (d + 4 * i) (Z.lor ph (PAGE_ENTRY_FLAGS (ent i))) (to_copy (i + 1)) (keeps_inv _ _ K4))
    as (t5 & E5 & K5 & M5 & A5 & W5 & O5);
    [apply (keeps_owned _ _ K4); [lia|]; apply (keeps_owned _ _ K3); [lia|]; apply (owned_sub _ _ _ _ _ Hod); lia|done|exact A4|].
  assert (Hr4 : read t4 c = Ok d) by (rewrite O4; [done|unfold apart; lia]).
  exists t5. unfold clone_entry, clone_table. rewrite R1, bind_Ok, decide_False by apply Hc.
  rewrite R1k, bind_Ok, decide_False by apply Hc. rewrite E1, bind_Ok, E2, bind_Ok, R2, bind_Ok, E3, bind_Ok, Ev3, bind_Ok.
  rewrite (set_entry t3 c d) by done. rewrite E4, bind_Ok, R4, bind_Ok, (get_entry t4 c d), W4, bind_Ok by done.
  rewrite (set_entry t4 c d), E5 by done. split; [done|].
  apply (cloning_step i t t5 p (Z.lor ph (PAGE_ENTRY_FLAGS (ent i))) Hi Hcl); try done.
  - eapply keeps_trans; [exact K3|by eapply keeps_trans].
  - apply (round_then i t t4 t5 [(d + 4 * i, 4)]); [intros; by apply Forall_singleton|done|done].
  - unfold clone_tbl. rewrite decide_True by (split; [lia|apply Hc]). by rewrite decide_False by apply Hc.
  - by apply (keeps_owned _ _ K5), (keeps_owned _ _ K4).
  - intros j Hj Hne. apply Hap; [lia|]. apply (dir_table _ _ _ _ D j); [lia|done].
  - rewrite O5, O4; [done|unfold apart, directory_virtual_at; lia..].
  - by apply pse_lor; [apply Hph|].
  - unfold clone_pde. rewrite !decide_False by apply Hc. by exists ph.
  - intros _. split; [done|]. split; [intros a n Hn Ha; apply Hap; [done|]; by apply (modifies_owned _ _ _ _ _ M)|].
    intros k Hkr. rewrite O5, O4 by (unfold apart; lia). by apply C3.
Qed.

(** The loop. *)
Lemma clone_loop n i t : 0 ≤ i → i + Z.of_nat n = 1023 → cloning i t →
  ∃ t', for_loop n i (clone_entry kpd source c) t = Ok t' ∧ cloning 1023 t'.
Proof.
  intros Hi Hn Hcl. rewrite <- Hn. apply for_loop_ok; [|done]. intros j t1 Hj Hcl1.
  destruct (decide (ent j = 0)) as [Hz|Hnz].
  - exists t1. split; [|by apply cloning_skip; [lia|..]]. destruct (round_reads j t1) as (R & _); [lia|apply Hcl1|].
    unfold clone_entry. by rewrite R, bind_Ok, decide_True.
  - destruct (decide (kent j = ent j)); [apply share_round|apply copy_round]; try done; try lia.
Qed.

(** A fresh handle and directory. *)
Lemma new_directory_spec al : alloc_inv (kheap s) →
  allots Q ((SIZEOF_PAGE_DIRECTORY_HANDLE, c) :: (4096, d) :: al) (kheap s) →
  ∃ t, new_directory s = Ok (c, t) ∧ keeps s t ∧ modifies [] (kheap s) (kheap t) ∧ allots Q al (kheap t) ∧
    dir_ok t c d (λ _, 0) ∧ (∀ j, 0 ≤ j < 1024 → read t (d + 4 * j) = Ok 0) ∧
    (∀ a n, 0 < n → owned s a n → apart a n c SIZEOF_PAGE_DIRECTORY_HANDLE ∧ apart a n d 4096).
Proof.
  intros Hi Ha.
  destruct (alloc_next (Q := Q) s SIZEOF_PAGE_DIRECTORY_HANDLE c _ Hi ltac:(done) Ha)
    as (k1 & E1 & A1 & K1 & M1 & O1 & _ & P1 & _ & _ & Hap1 & _).
  destruct (alloc_next (set_kheap s k1) 4096 d al (keeps_inv _ _ K1) ltac:(done) A1)
    as (k2 & E2 & A2 & K2 & M2 & O2 & _ & P2 & Q2 & _ & Hap2 & Z2). set (t2 := set_kheap (set_kheap s k1) k2) in *.
  pose proof (Hap2 c SIZEOF_PAGE_DIRECTORY_HANDLE ltac:(done) O1) as Hcd.
  pose proof (keeps_owned _ _ K2 c SIZEOF_PAGE_DIRECTORY_HANDLE ltac:(done) O1) as Oc2.
  unfold SIZEOF_PAGE_DIRECTORY_HANDLE, apart in Hcd.
  destruct (write_next (Q := Q) t2 c d al (keeps_inv _ _ K2)) as (t3 & E3 & K3 & M3 & A3 & W3 & O3);
    [apply (owned_sub _ _ _ _ _ Oc2); unfold SIZEOF_PAGE_DIRECTORY_HANDLE; lia|lia|exact A2|].
  pose proof (keeps_owned _ _ K3 c SIZEOF_PAGE_DIRECTORY_HANDLE ltac:(done) Oc2) as Oc3.
  destruct (fill_next (Q := Q) t3 (c + 4) 0 4096 al (keeps_inv _ _ K3)) as (k4 & E4 & K4 & M4 & A4 & B4);
    [apply (owned_sub _ _ _ _ _ Oc3); unfold SIZEOF_PAGE_DIRECTORY_HANDLE; lia|lia|lia|done|].
  assert (Hnew : ∀ a n, 0 < n → owned s a n → apart a n c SIZEOF_PAGE_DIRECTORY_HANDLE ∧ apart a n d 4096).
  { intros a n Hn Ho. split; [by apply Hap1|]. apply Hap2; [done|]. by apply (keeps_owned _ _ K1). }
  assert (Hz : ∀ j, 0 ≤ j < 1024 → kread k4 (d + 4 * j) = Ok 0).
  { intros j Hj. rewrite <- (Z2 (d + 4 * j)) by lia. change (kread k2) with (read t2). rewrite <- O3 by (unfold apart; lia).
    apply (modifies_load _ _ _ d 4096 M4); [by apply (keeps_owned _ _ K3)| |lia..].
    apply Forall_singleton. unfold apart. cbn [fst snd]. lia. }
  exists (set_kheap t3 k4). unfold new_directory. change PAGING_PAGE_SIZE with 4096. rewrite E1, bind_Ok, E2, bind_Ok, E3, bind_Ok.
  unfold directory_virtual_at. rewrite Z.add_0_r. change (4 * 1024) with 4096. rewrite E4, bind_Ok. split; [done|].
  split; [eapply keeps_trans; [exact K1|eapply keeps_trans; [exact K2|by eapply keeps_trans]]|]. split.
  { eapply modifies_step; [eapply modifies_step; [eapply modifies_step; [exact M1|exact M2|done]|exact M3|]|exact M4|];
      intros a n Hn Ho _; apply Forall_singleton; destruct (Hnew a n Hn Ho) as [H1 _];
      unfold apart, SIZEOF_PAGE_DIRECTORY_HANDLE in *; cbn [fst snd]; lia. }
  split; [done|]. split; [|split; [exact Hz|done]]. split; try done.
  - rewrite <- W3. apply (modifies_read _ _ _ _ M4); [apply (owned_sub _ _ _ _ _ Oc3); unfold SIZEOF_PAGE_DIRECTORY_HANDLE; lia|].
    apply Forall_singleton. unfold apart. cbn [fst snd]. lia.
  - intros j Hj. unfold directory_virtual_at. apply (zeroed_read k4 (c + 4) 4096 _ B4); lia.
  - by apply (keeps_owned _ _ K4).
  - by apply (keeps_owned _ _ K4), (keeps_owned _ _ K3).
  - intros j Hj. exists 0. split; [by apply Hz|done].
Qed.

(** The last slot of a directory and its last entry. *)
Lemma dir_ok_last t t' h d' tbl x e : dir_ok t h d' tbl → keeps t t' →
  modifies [(directory_virtual_at h 1023, 4); (d' + 4 * 1023, 4)] (kheap t) (kheap t') →
  read t' (directory_virtual_at h 1023) = Ok x → read t' (d' + 4 * 1023) = Ok e → PAGE_ENTRY_PSE_BIT e = 0 →
  dir_ok t' h d' (λ j, if decide (j = 1023) then x else tbl j) ∧
  ∀ j, 0 ≤ j < 1023 → read t' (d' + 4 * j) = read t (d' + 4 * j).
Proof.
  intros [Hp Ht Hh Hg Ha Hpde Htab Hsep] Hk M Rx Re Hpse. unfold apart, SIZEOF_PAGE_DIRECTORY_HANDLE in Ha.
  assert (Hfar : ∀ a, owned t a 4 → apart a 4 (directory_virtual_at h 1023) 4 → apart a 4 (d' + 4 * 1023) 4 → read t' a = read t a).
  { intros a Ho H1 H2. apply (modifies_read _ _ _ _ M Ho). apply Forall_cons. split; [done|by apply Forall_singleton]. }
  assert (Hoh : ∀ a, h ≤ a → a + 4 ≤ h + 4100 → owned t a 4) by (intros a H1 H2; by apply (owned_sub _ _ _ _ _ Hh)).
  assert (Hog : ∀ a, d' ≤ a → a + 4 ≤ d' + 4096 → owned t a 4) by (intros a H1 H2; by apply (owned_sub _ _ _ _ _ Hg)).
  unfold directory_virtual_at in *.
  assert (Hents : ∀ j, 0 ≤ j < 1023 → read t' (d' + 4 * j) = read t (d' + 4 * j)).
  { intros j Hj. apply Hfar; [apply Hog; lia|unfold apart; lia..]. }
  split; [|done]. split; try done.
  - rewrite Hfar; [done|apply Hoh; lia|unfold apart; lia..].
  - intros j Hj. case_decide as Hjj; [by subst|]. unfold directory_virtual_at.
    rewrite Hfar; [by apply Ht|apply Hoh; lia|unfold apart; lia..].
  - by apply (keeps_owned _ _ Hk).
  - by apply (keeps_owned _ _ Hk).
  - intros j Hj. destruct (decide (j = 1023)) as [-> | Hjj]; [by exists e|]. rewrite Hents by lia. by apply Hpde.
  - intros j Hj. rewrite decide_False by lia. intros Hne. destruct (Htab j Hj Hne) as (Ho & ? & ?). split; [|done].
    by apply (keeps_owned _ _ Hk).
  - intros j k Hj Hk' Hjk. rewrite !decide_False by lia. by apply Hsep.
Qed.

(** The tables of the finished copy. *)
Definition copy_tbl (j : Z) : Z := if decide (j = 1023) then d else clone_tbl 1023 j.

(** The table of a used slot holds what the source's does. *)
Lemma cloned_entries t i k : cloning 1023 t → 0 ≤ i < 1023 → ent i ≠ 0 → 0 ≤ k < 1024 →
  clone_tbl 1023 i ≠ 0 ∧ read t (clone_tbl 1023 i + 4 * k) = read s (stbl i + 4 * k).
Proof.
  intros [Hk M A D N F P Hzero] Hi Hne Hkr. unfold clone_tbl. rewrite decide_True by (split; [lia|done]). case_decide as He.
  - rewrite <- (cs_shared Hsource i Hi Hne He). pose proof (cs_table Hsource i Hi Hne) as Ht. split; [done|].
    destruct (dir_table _ _ _ _ (cs_source Hsource) i Hi Ht) as (Ho & _). apply (frame_read t (stbl i) 4096 _ M Ho); lia.
  - destruct (F i Hi) as (Hp & _ & Hr); [by split|]. split; [lia|by apply Hr].
Qed.

(** The statements after the loop. *)
Lemma clone_finish t : walkable s (current_directory s) [] d → cloning 1023 t →
  ∃ t1 t2 physical, write t (directory_virtual_at c 1023) d = Ok t1 ∧ read t1 (directory_virtual_at c 1023) = Ok d ∧
    map_itself t1 c d = Ok t2 ∧ keeps t t2 ∧ allots Q rest (kheap t2) ∧
    modifies [(directory_virtual_at c 1023, 4); (d + 4 * 1023, 4)] (kheap t) (kheap t2) ∧ dir_ok t2 c d copy_tbl ∧
    (∀ j, 0 ≤ j < 1023 → read t2 (d + 4 * j) = read t (d + 4 * j)) ∧
    virtual_to_physical_addr s (current_directory s) d = Ok physical ∧ read t2 (d + 4 * 1023) = Ok (Z.lor physical 3).
Proof.
  intros Hw [Hk M A D N F P Hzero].
  pose proof (dir_handle _ _ _ _ D) as Hoc. pose proof (dir_page _ _ _ _ D) as Hod.
  pose proof (dir_apart _ _ _ _ D) as Hcd. unfold SIZEOF_PAGE_DIRECTORY_HANDLE, apart in Hcd.
  destruct (write_next (Q := Q) t (directory_virtual_at c 1023) d rest (keeps_inv _ _ Hk)) as (t1 & E1 & K1 & M1 & A1 & W1 & O1);
    [apply (owned_sub _ _ _ _ _ Hoc); unfold directory_virtual_at, SIZEOF_PAGE_DIRECTORY_HANDLE; lia
    |apply (read_word _ _ _ (keeps_inv _ _ Hk) (dir_ptr _ _ _ _ D))|done|]. unfold directory_virtual_at in O1.
  assert (Hc1 : read t1 c = Ok d) by (rewrite O1; [apply D|unfold apart; lia]).
  destruct (walk s t1 _ _ d Hw) as (ph & Ev & Ev1 & Hph);
    [rewrite (keeps_cr4 _ _ K1); apply (keeps_cr4 _ _ Hk)
    |intros a Hao _; destruct (N a 4 ltac:(lia) Hao) as [H1 H2]; rewrite O1;
       [apply (frame_read t a 4 a M Hao); lia|unfold apart, SIZEOF_PAGE_DIRECTORY_HANDLE in *; lia]|].
  rewrite <- (keeps_current _ _ Hk), <- (keeps_current _ _ K1) in Ev1.
  destruct (map_itself_spec (Q := Q) t1 c d d ph rest (keeps_inv _ _ K1) Hc1) as (t2 & E2 & K2 & M2 & A2 & W2 & O2); try done;
    [apply (keeps_owned _ _ K1); [lia|]; apply (owned_sub _ _ _ _ _ Hod); lia|unfold apart; lia|].
  assert (M12 : modifies [(directory_virtual_at c 1023, 4); (d + 4 * 1023, 4)] (kheap t) (kheap t2)).
  { apply (round_then 1023 t t1 t2 [(d + 4 * 1023, 4)]); [intros; by apply Forall_singleton| |exact M2].
    apply (round_sub 1023 t t1 [(directory_virtual_at c 1023, 4)]); [intros; by apply Forall_singleton|exact M1]. }
  destruct (page_flags ph Hph) as (_ & _ & Hpse).
  assert (K12 : keeps t t2) by (by eapply keeps_trans).
  destruct (dir_ok_last t t2 c d (clone_tbl 1023) d (Z.lor ph 3) D) as [D2 P2]; try done;
    [rewrite O2; [done|unfold apart, directory_virtual_at; lia]|].
  by exists t1, t2, ph.
Qed.

(** The words of the finished copy's tables. *)
Lemma copy_words t t2 i k : cloning 1023 t → dir_ok t2 c d copy_tbl →
  modifies [(directory_virtual_at c 1023, 4); (d + 4 * 1023, 4)] (kheap t) (kheap t2) →
  0 ≤ i < 1023 → ent i ≠ 0 → 0 ≤ k < 1024 →
  table_entry t2 copy_tbl i k = table_entry s stbl i k.
Proof.
  intros Hcl D2 M12 Hi Hne Hk. pose proof (cl_dir _ _ Hcl) as D.
  destruct (cloned_entries t i k Hcl Hi Hne Hk) as [Hnz Hr].
  unfold table_entry, copy_tbl. rewrite decide_False by lia. rewrite <- Hr.
  destruct (dir_table _ _ _ _ D i Hi Hnz) as (Ho & H1 & H2).
  pose proof (dir_apart _ _ _ _ D) as Hcd. pose proof (modifies_load _ _ _ _ 4096 M12 Ho) as Hm.
  change (kread (kheap t2)) with (read t2) in Hm. change (kread (kheap t)) with (read t) in Hm.
  rewrite Hm; [done| |lia..]. unfold directory_virtual_at.
  unfold apart_all, apart, SIZEOF_PAGE_DIRECTORY_HANDLE in *. rewrite !Forall_cons. cbn [fst snd].
  split; [lia|]. split; [lia|constructor].
Qed.

Lemma clone_translates t t2 va : cloning 1023 t → dir_ok t2 c d copy_tbl →
  modifies [(directory_virtual_at c 1023, 4); (d + 4 * 1023, 4)] (kheap t) (kheap t2) →
  0 ≤ va < 2 ^ 32 → V_ADDR_PAGEDIR_INDEX va < 1023 → ent (V_ADDR_PAGEDIR_INDEX va) ≠ 0 →
  virtual_to_physical_addr t2 c va = virtual_to_physical_addr s source va.
Proof.
  intros Hcl D2 M12 Hva Hiv Hne. destruct (indices va Hva) as [Hi1 Hi2].
  rewrite (translate t2 c d copy_tbl va), (translate s source sd stbl va) by (done || apply (cs_source Hsource)).
  by rewrite (copy_words t t2) by (done || lia).
Qed.

Lemma clone_spec : walkable s (current_directory s) [] d →
  allots Q ((SIZEOF_PAGE_DIRECTORY_HANDLE, c) :: (4096, d) :: to_copy 0) (kheap s) →
  ∃ t physical, paging_clone_directory s kpd source = Ok (c, t) ∧ keeps s t ∧ modifies [] (kheap s) (kheap t) ∧
    allots Q rest (kheap t) ∧ dir_ok t c d copy_tbl ∧
    (∀ va, 0 ≤ va < 2 ^ 32 → V_ADDR_PAGEDIR_INDEX va < 1023 → ent (V_ADDR_PAGEDIR_INDEX va) ≠ 0 →
       virtual_to_physical_addr t c va = virtual_to_physical_addr s source va) ∧
    (∀ j, 0 ≤ j < 1023 → clone_pde t j) ∧
    (∀ j k, 0 ≤ j < 1023 → ent j ≠ 0 → 0 ≤ k < 1024 → table_word t c j k = table_word s source j k) ∧
    (∀ j, 0 ≤ j < 1023 → copied j → ∀ a n, 0 < n → owned s a n → apart a n (pages j) 4096) ∧
    virtual_to_physical_addr s (current_directory s) d = Ok physical ∧ read t (d + 4 * 1023) = Ok (Z.lor physical 3) ∧
    (∀ a n, 0 < n → owned s a n → apart a n c SIZEOF_PAGE_DIRECTORY_HANDLE ∧ apart a n d 4096).
Proof.
  intros Hw Ha. destruct (new_directory_spec _ (cs_inv Hsource) Ha) as (t0 & E0 & K0 & M0 & A0 & D0 & Z0 & N0).
  assert (Hcl0 : cloning 0 t0).
  { split; try done; [|intros; lia..]. apply (dir_ok_ext _ _ _ (λ _, 0)); [|done]. intros j. unfold clone_tbl.
    case_decide; [lia|done]. }
  destruct (clone_loop 1023 0 t0 ltac:(lia) ltac:(lia) Hcl0) as (t & El & Hcl).
  destruct (clone_finish t Hw Hcl) as (t1 & t2 & ph & E1 & W1 & E2 & K12 & A2 & M12 & D2 & P2 & Ev & W2).
  pose proof Hcl as [Hk M A D N F P Hzero].
  exists t2, ph. unfold paging_clone_directory. rewrite E0, bind_Ok, El, bind_Ok, (dir_ptr _ _ _ _ D), bind_Ok, E1, bind_Ok.
  rewrite W1, bind_Ok, E2, bind_Ok. split; [done|]. split; [by eapply keeps_trans|]. split.
  { eapply modifies_step; [exact M|exact M12|]. intros a n Hn Hao _. destruct (N a n Hn Hao) as [H1 H2].
    unfold apart_all, apart, directory_virtual_at, SIZEOF_PAGE_DIRECTORY_HANDLE in *. rewrite !Forall_cons. cbn [fst snd].
    split; [lia|]. split; [lia|constructor]. }
  split; [done|]. split; [exact D2|]. split; [|split; [|split; [|split; [intros j Hj Hcj; by apply (F j)|done]]]].
  - intros va Hva Hiv Hne. by apply (clone_translates t).
  - intros j Hj. apply (clone_pde_same t); [by apply P2|by apply P].
  - intros j k Hj Hne Hkr. rewrite (table_word_entry t2 c d copy_tbl), (table_word_entry s source sd stbl) by (apply (cs_source Hsource) || done || lia).
    by apply (copy_words t).
Qed.

Lemma source_translates t va : keeps s t → modifies [] (kheap s) (kheap t) → 0 ≤ va < 2 ^ 32 →
  V_ADDR_PAGEDIR_INDEX va < 1023 → stbl (V_ADDR_PAGEDIR_INDEX va) ≠ 0 →
  virtual_to_physical_addr t source va = virtual_to_physical_addr s source va.
Proof.
  intros Hk M. apply (dir_modifies s t source sd stbl [] (cs_source Hsource) M); constructor.
Qed.
End clone.

(** C13: [paging_init] puts the kernel's own directory in place: started on the boot
    directory, with room for its five allocations at addresses the boot directory
    maps, it returns; the control registers are loaded, [cr3] with the directory's
    physical address. The directory's words are that address, those of the tables for the
    first four megabytes and for their higher-half aliases, each writable and present, and
    0 elsewhere; the tables' words are the first 1024 frames, writable and present. So
    both ranges translate to themselves; and all memory that was owned is as it was, but
    for the handle. *)
Theorem paging_init_maps_kernel {K} `{AllocatorLaws K} (s : machine K) kpd BOOT pb boot d t0 t1 e :
  alloc_inv (kheap s) → global s kpd SIZEOF_PAGE_DIRECTORY_HANDLE → global s BOOT 4096 →
  apart BOOT 4096 kpd SIZEOF_PAGE_DIRECTORY_HANDLE → 0 ≤ BOOT < 2 ^ 32 → Z.land (cr4 s) PSE_BIT ≠ 0 →
  Forall (boot_maps s BOOT) [d; t0; t1] → read s (BOOT + 4 * V_ADDR_PAGEDIR_INDEX d) = Ok e →
  allots (λ _, True) [(4096, pb); (SIZEOF_PAGE_DIRECTORY_HANDLE, boot); (4096, d); (4096, t0); (4096, t1)] (kheap s) → boot < d →
  ∃ s' p0 p1, paging_init s kpd BOOT = Ok s' ∧ alloc_inv (kheap s') ∧ current_directory s' = kpd ∧
    cr0 s' = Z.lor (cr0 s) 0x80000000 ∧ cr3 s' = u32 (PAGE_ENTRY_ADDR e + V_ADDR_PAGEFRAME_INDEX_PSE d) ∧
    cr4 s' = Z.land (cr4 s) (Z.lnot PSE_BIT) ∧
    dir_ok s' kpd d (kernel_tables d t0 t1) ∧
    boot_physical s BOOT t0 = Ok p0 ∧ boot_physical s BOOT t1 = Ok p1 ∧
    (∀ j, 0 ≤ j < 1024 → directory_entry s' kpd j = Ok (if decide (j = 1023) then Z.lor (cr3 s') 3
       else if decide (j = 768) then Z.lor p1 3 else if decide (j = 0) then Z.lor p0 3 else 0)) ∧
    (∀ i k, i = 0 ∨ i = 768 → 0 ≤ k < 1024 → table_word s' kpd i k = Ok (Z.lor (4096 * k) 3)) ∧
    (∀ x, 0 ≤ x < 0x400000 → virtual_to_physical_addr s' kpd x = Ok x ∧
       virtual_to_physical_addr s' kpd (KERNEL_VIRTUAL_BASE + x) = Ok x) ∧
    (∀ a n, 0 < n → owned s a n → apart a n kpd SIZEOF_PAGE_DIRECTORY_HANDLE →
       owned s' a n ∧ ∀ x, a ≤ x < a + n → ram s' !! x = ram s !! x).
Proof.
  intros Hi Hk HB Hap Hr Hc Hm He Ha Hbd.
  destruct (paging_init_spec (Q := λ _, True) s kpd BOOT pb boot d t0 t1 e) as (s' & E & I & C & C0 & C3 & C4 & D & V & F & (p0 & p1 & Ep0 & Ep1 & [Hd Ht]) & _); [done..|].
  exists s', p0, p1. repeat (split; [done|]). done.
Qed.

(** ** A machine for the witness

    A heap of eight blocks at 0x10000, the first one taken; then the boot directory,
    whose first entry maps four megabytes to themselves, and the handle. *)
Definition start_segs : list seg := Used 1 :: replicate 7 Free.
Definition start_data : list (Z * list Z) := [(0x18000, split4 0x83)].
Definition start_machine : machine kernel :=
  Machine (example_kernel start_segs 0xB000 start_data) 0 0x11 0 PSE_BIT 0 0 (Terminal ∅ 0 0).

Lemma start_ok : kernel_ok (kheap start_machine) start_segs.
Proof. apply example_kernel_ok; [by repeat constructor|by vm_compute|by vm_compute|]. apply Forall_singleton, split4_bytes. Qed.

Lemma start_global a n : 0x18000 ≤ a → a + n ≤ 0x1B000 → global start_machine a n.
Proof.
  intros Ha Hn. destruct (example_outside start_segs 0xB000 start_data a n) as [Hm _]; [exact Ha|lia|].
  split; [exact Hm|]. intros x Hx Har. change (0x10000 ≤ x < 0x18000) in Har. lia.
Qed.

Lemma start_entry : read start_machine (0x18000 + 4 * 0) = Ok 0x83.
Proof. example_mem. Qed.

Lemma paging_init_maps_kernel_witness :
  ∃ s' p0 p1, paging_init start_machine 0x19000 0x18000 = Ok s' ∧ alloc_inv (kheap s') ∧ current_directory s' = 0x19000 ∧
    cr0 s' = Z.lor 0x11 0x80000000 ∧ cr3 s' = u32 (PAGE_ENTRY_ADDR 0x83 + V_ADDR_PAGEFRAME_INDEX_PSE 0x14000) ∧
    cr4 s' = Z.land PSE_BIT (Z.lnot PSE_BIT) ∧
    dir_ok s' 0x19000 0x14000 (kernel_tables 0x14000 0x15000 0x16000) ∧
    boot_physical start_machine 0x18000 0x15000 = Ok p0 ∧ boot_physical start_machine 0x18000 0x16000 = Ok p1 ∧
    (∀ j, 0 ≤ j < 1024 → directory_entry s' 0x19000 j = Ok (if decide (j = 1023) then Z.lor (cr3 s') 3
       else if decide (j = 768) then Z.lor p1 3 else if decide (j = 0) then Z.lor p0 3 else 0)) ∧
    (∀ i k, i = 0 ∨ i = 768 → 0 ≤ k < 1024 → table_word s' 0x19000 i k = Ok (Z.lor (4096 * k) 3)) ∧
    (∀ x, 0 ≤ x < 0x400000 → virtual_to_physical_addr s' 0x19000 x = Ok x ∧
       virtual_to_physical_addr s' 0x19000 (KERNEL_VIRTUAL_BASE + x) = Ok x) ∧
    (∀ a n, 0 < n → owned start_machine a n → apart a n 0x19000 SIZEOF_PAGE_DIRECTORY_HANDLE →
       owned s' a n ∧ ∀ x, a ≤ x < a + n → ram s' !! x = ram start_machine !! x).
Proof.
  apply (paging_init_maps_kernel start_machine 0x19000 0x18000 0x11000 0x12000 0x14000 0x15000 0x16000 0x83).
  - by exists start_segs; apply start_ok.
  - by apply start_global.
  - by apply start_global.
  - by left.
  - lia.
  - by vm_compute.
  - repeat (apply Forall_cons; split; [exists 0x83; split; [exact start_entry|done]|]). constructor.
  - exact start_entry.
  - apply (heap_allots_ok _ _ _ start_ok). by vm_compute.
  - lia.
Defined.

(** C14: [paging_clone_directory] copies an address space: the copy translates every
    address of a used slot as the source does, and so does the source afterwards; the
    tables the source shares with the kernel's directory are shared, each of the
    others is a new page, apart from all that was owned, and nothing that was owned
    changes. The copy's directory has the source's word where the slot is empty or
    shared, the physical address of the new table with the source's flags where it is
    copied, and itself, writable and present, in the last; the tables' words are the
    source's. *)
Theorem clone_translates_alike {K} `{AllocatorLaws K} (s : machine K) kpd kd source sd c d ktbl stbl kent ent pages :
  clone_source s kpd kd source sd ktbl stbl kent ent →
  (∀ i, 0 ≤ i < 1023 → copied kent ent i → walkable s (current_directory s) [] (pages i)) →
  walkable s (current_directory s) [] d →
  allots (λ _, True) ((SIZEOF_PAGE_DIRECTORY_HANDLE, c) :: (4096, d) :: to_copy kent ent pages [] 0) (kheap s) →
  ∃ t, paging_clone_directory s kpd source = Ok (c, t) ∧ alloc_inv (kheap t) ∧
    current_directory t = current_directory s ∧
    dir_ok t c d (copy_tbl d ktbl kent ent pages) ∧
    (∀ i, 0 ≤ i < 1023 → ¬ copied kent ent i → directory_entry t c i = Ok (ent i)) ∧
    (∀ i, 0 ≤ i < 1023 → copied kent ent i → ∃ physical,
       virtual_to_physical_addr s (current_directory s) (pages i) = Ok physical ∧ page physical ∧
       directory_entry t c i = Ok (Z.lor physical (PAGE_ENTRY_FLAGS (ent i)))) ∧
    (∃ physical, virtual_to_physical_addr s (current_directory s) d = Ok physical ∧ page physical ∧
       directory_entry t c 1023 = Ok (Z.lor physical (Z.lor PAGING_WRITABLE_PAGE PAGING_PRESENT))) ∧
    (∀ i k, 0 ≤ i < 1023 → ent i ≠ 0 → 0 ≤ k < 1024 → table_word t c i k = table_word s source i k) ∧
    (∀ va, 0 ≤ va < 2 ^ 32 → V_ADDR_PAGEDIR_INDEX va < 1023 → ent (V_ADDR_PAGEDIR_INDEX va) ≠ 0 →
       virtual_to_physical_addr t c va = virtual_to_physical_addr s source va ∧
       virtual_to_physical_addr t source va = virtual_to_physical_addr s source va) ∧
    (∀ i, 0 ≤ i < 1023 → ent i ≠ 0 → copy_tbl d ktbl kent ent pages i = if decide (kent i = ent i) then stbl i else pages i) ∧
    (∀ i, 0 ≤ i < 1023 → copied kent ent i → ∀ a n, 0 < n → owned s a n → apart a n (pages i) 4096) ∧
    (∀ a n, 0 < n → owned s a n → owned t a n ∧ ∀ x, a ≤ x < a + n → ram t !! x = ram s !! x).
Proof.
  intros Hs Hw Hwd Ha.
  destruct (clone_spec s kpd kd source sd c d ktbl stbl kent ent pages [] Hs Hw Hwd Ha)
    as (t & ph & E & Hk & M & _ & D & Ht & Hpde & Hwords & Hf & Ev & Er & _). exists t.
  assert (Hde : ∀ i, directory_entry t c i = read t (d + 4 * i)).
  { intros i. unfold directory_entry. by rewrite (dir_ptr _ _ _ _ D), bind_Ok. }
  split; [done|]. split; [apply (keeps_inv _ _ Hk)|]. split; [apply (keeps_current _ _ Hk)|]. split; [done|].
  split; [|split; [|split; [|split; [done|split; [|split; [|split; [done|]]]]]]].
  - intros i Hi Hnc. rewrite Hde. specialize (Hpde i Hi). unfold clone_pde, copied in *. repeat case_decide; [congruence|done|]. destruct Hnc. by split.
  - intros i Hi Hc. specialize (Hpde i Hi). unfold clone_pde in Hpde. rewrite !decide_False in Hpde by apply Hc.
    destruct Hpde as (p & Ep & Rp). exists p. split; [done|]. split; [|by rewrite Hde]. by apply (walkable_physical _ _ _ _ _ (Hw i Hi Hc)).
  - exists ph. split; [done|]. split; [by apply (walkable_physical _ _ _ _ _ Hwd)|by rewrite Hde].
  - intros va Hva Hiv Hne. split; [by apply Ht|]. destruct (indices va Hva).
    apply (source_translates s kpd kd source sd ktbl stbl kent ent Hs); try done. apply (cs_table _ _ _ _ _ _ _ _ _ Hs); [lia|done].
  - intros i Hi Hne. unfold copy_tbl, clone_tbl. rewrite decide_False, decide_True by (try split; done || lia).
    case_decide; [|done]. symmetry. by apply (cs_shared _ _ _ _ _ _ _ _ _ Hs).
  - intros a n Hn Ho. split; [by apply (keeps_owned _ _ Hk)|]. intros x Hx.
    apply (modifies_bytes _ _ _ M a n Hn Ho); [constructor|done].
Qed.

(** ** Directories for the examples *)

Definition one_of (l : list (Z * Z)) (i : Z) : Z :=
  match list_find (λ jv, jv.1 = i) l with Some (_, (_, v)) => v | None => 0 end.
Lemma one_of_in l i : one_of l i ≠ 0 → (i, one_of l i) ∈ l.
Proof.
  unfold one_of. destruct (list_find _ l) as [[n [j v]]|] eqn:E; [|done]. intros _.
  apply list_find_Some in E as (Hn & Hj & _). cbn in Hj. subst. by eapply list_elem_of_lookup_2.
Qed.

(** A directory in memory that is no part of the heap, from its words. *)
Lemma example_dir_ok m lo hi h d tbl ent : (∀ a n, lo ≤ a → a + n ≤ hi → owned m a n) → read m h = Ok d →
  (∀ i, 0 ≤ i < 1024 → kread (kheap m) (h + 4 + 4 * i) = Ok (one_of tbl i)) →
  (∀ i, 0 ≤ i < 1024 → kread (kheap m) (d + 4 * i) = Ok (one_of ent i)) →
  forallb (λ i, bool_decide (PAGE_ENTRY_PSE_BIT (one_of ent i) = 0)) (seqZ 0 1024) = true →
  lo ≤ h → h + 4100 ≤ d → d + 4096 ≤ hi →
  Forall (λ jv, lo ≤ jv.2 ∧ jv.2 + 4096 ≤ hi ∧ apart h 4100 jv.2 4096 ∧ apart d 4096 jv.2 4096) tbl →
  Forall (λ jv, Forall (λ kw, jv.1 = kw.1 ∨ apart jv.2 4096 kw.2 4096) tbl) tbl →
  dir_ok m h d (one_of tbl).
Proof.
  intros Hown Hd Ht He Hp H1 H2 H3 Htab Hsep. apply (DirOk _ _ _ _ Hd Ht).
  - apply Hown; unfold SIZEOF_PAGE_DIRECTORY_HANDLE; lia.
  - apply Hown; lia.
  - unfold apart, SIZEOF_PAGE_DIRECTORY_HANDLE. lia.
  - intros i Hi. exists (one_of ent i). split; [by apply He|]. rewrite forallb_forall in Hp.
    specialize (Hp i). rewrite <- list_elem_of_In, elem_of_seqZ, bool_decide_eq_true in Hp. apply Hp. lia.
  - intros i Hi Hne. pose proof (one_of_in tbl i Hne) as Hj. rewrite Forall_forall in Htab.
    destruct (Htab _ Hj) as (Hv1 & Hv2 & Hv3 & Hv4).
    split; [exact (Hown _ _ Hv1 Hv2)|]. split; [exact Hv3|exact Hv4].
  - intros i j _ _ Hij Hi Hj. apply one_of_in in Hi, Hj. rewrite Forall_forall in Hsep. specialize (Hsep _ Hi).
    rewrite Forall_forall in Hsep. destruct (Hsep _ Hj) as [Hx | Hx]; [by destruct Hij|exact Hx].
Qed.

(** The first large page, at 0, mapped by the directory [boot]. *)
Lemma example_translates m cur boot x : read m cur = Ok boot → read m boot = Ok 0x83 → Z.land (cr4 m) PSE_BIT ≠ 0 →
  0 ≤ x < 2 ^ 22 → translates_by m cur x [cur; boot] (u32 (PAGE_ENTRY_ADDR 0x83 + V_ADDR_PAGEFRAME_INDEX_PSE x)).
Proof.
  intros Hc He Hcr Hr. assert (Hs : boot + 4 * V_ADDR_PAGEDIR_INDEX x = boot) by (rewrite pagedir_index, Z.div_small by lia; lia).
  rewrite <- Hs at 1. apply translates_by_pse; [exact Hc|by rewrite Hs|done|exact Hcr].
Qed.

Lemma example_walkable m cur boot x cs :
  Forall (λ a, owned m a 4 ∧ apart_all cs a 4) [cur; boot] → read m cur = Ok boot → read m boot = Ok 0x83 →
  Z.land (cr4 m) PSE_BIT ≠ 0 → page x → x < 2 ^ 22 → walkable m cur cs x.
Proof.
  intros Ho Hc He Hcr [Hx Hm] Hr. eexists _, _. split; [apply (example_translates m cur boot x); done || lia|].
  split; [apply u32_range|]. split; [by apply (large_page 0x83 x)|exact Ho].
Qed.

Ltac example_read m := unfold read, m, kheap; example_mem.

(** ** A machine for the witness

    Past the heap of [start_machine]: the boot directory; the kernel's handle,
    directory and its table for the first slot; the source's handle and directory,
    with that table and one of its own for the second slot; the current handle, on
    the boot directory. *)
Definition clone_data : list (Z * list Z) :=
  (λ av, (av.1, split4 av.2)) <$>
    [(0x18000, 0x83); (0x19000, 0x1B000); (0x19004, 0x1C000); (0x1B000, 0x1C003);
     (0x1D000, 0x1F000); (0x1D004, 0x1C000); (0x1D008, 0x20000); (0x1F000, 0x1C003); (0x1F004, 0x20003);
     (0x20000, 0x30003); (0x21000, 0x18000)].
Definition clone_machine : machine kernel :=
  Machine (example_kernel start_segs 0x12000 clone_data) 0x21000 0x11 0 PSE_BIT 0 0 (Terminal ∅ 0 0).

Definition clone_ktbl : Z → Z := one_of [(0, 0x1C000)].
Definition clone_kent : Z → Z := one_of [(0, 0x1C003)].
Definition clone_stbl : Z → Z := one_of [(0, 0x1C000); (1, 0x20000)].
Definition clone_ent : Z → Z := one_of [(0, 0x1C003); (1, 0x20003)].

Lemma clone_ok : kernel_ok (kheap clone_machine) start_segs.
Proof.
  apply example_kernel_ok; [by repeat constructor|by vm_compute|by vm_compute|].
  unfold clone_data. apply Forall_fmap, Forall_forall. intros av _. apply split4_bytes.
Qed.

Lemma clone_owned a n : 0x18000 ≤ a → a + n ≤ 0x22000 → owned clone_machine a n.
Proof. intros Ha Hn. apply (example_outside start_segs 0x12000 clone_data a n); [exact Ha|lia]. Qed.

Lemma clone_words a l : forallb (λ i, bool_decide (example_word 0x12000 clone_data (a + 4 * i) = Ok (one_of l i))) (seqZ 0 1024) = true →
  ∀ i, 0 ≤ i < 1024 → kread (kheap clone_machine) (a + 4 * i) = Ok (one_of l i).
Proof. apply example_words. lia. Qed.

Lemma clone_kernel_dir : dir_ok clone_machine 0x19000 0x1B000 clone_ktbl.
Proof.
  apply (example_dir_ok clone_machine 0x18000 0x22000 0x19000 0x1B000 [(0, 0x1C000)] [(0, 0x1C003)]).
  - exact clone_owned.
  - example_read clone_machine.
  - apply (clone_words (0x19000 + 4)). by vm_compute.
  - apply clone_words. by vm_compute.
  - by vm_compute.
  - lia.
  - lia.
  - lia.
  - decide_by_compute.
  - decide_by_compute.
Qed.

Lemma clone_source_dir : dir_ok clone_machine 0x1D000 0x1F000 clone_stbl.
Proof.
  apply (example_dir_ok clone_machine 0x18000 0x22000 0x1D000 0x1F000 [(0, 0x1C000); (1, 0x20000)] [(0, 0x1C003); (1, 0x20003)]).
  - exact clone_owned.
  - example_read clone_machine.
  - apply (clone_words (0x1D000 + 4)). by vm_compute.
  - apply clone_words. by vm_compute.
  - by vm_compute.
  - lia.
  - lia.
  - lia.
  - decide_by_compute.
  - decide_by_compute.
Qed.

Lemma clone_walkable x : page x → 0x10000 ≤ x < 0x18000 → walkable clone_machine 0x21000 [] x.
Proof.
  intros Hx Hr. apply (example_walkable clone_machine 0x21000 0x18000); [|example_read clone_machine|example_read clone_machine|done|exact Hx|lia].
  repeat (apply Forall_cons; split); [split; [apply clone_owned; lia|constructor]..|constructor].
Qed.

Lemma clone_example_source :
  clone_source clone_machine 0x19000 0x1B000 0x1D000 0x1F000 clone_ktbl clone_stbl clone_kent clone_ent.
Proof.
  split.
  - exists start_segs. apply clone_ok.
  - exact clone_kernel_dir.
  - exact clone_source_dir.
  - intros i Hi. apply (clone_words 0x1B000 [(0, 0x1C003)]); [by vm_compute|lia].
  - intros i Hi. apply (clone_words 0x1F000 [(0, 0x1C003); (1, 0x20003)]); [by vm_compute|lia].
  - intros i _. unfold clone_ent, clone_stbl, one_of. cbn [list_find fst]. repeat case_decide; cbn; done.
  - intros i _. unfold clone_ent, clone_kent, clone_stbl, clone_ktbl, one_of. cbn [list_find fst]. repeat case_decide; cbn; done.
Qed.

Lemma clone_translates_alike_witness :
  ∃ t, paging_clone_directory clone_machine 0x19000 0x1D000 = Ok (0x11000, t) ∧ alloc_inv (kheap t) ∧
    current_directory t = current_directory clone_machine ∧
    dir_ok t 0x11000 0x13000 (copy_tbl 0x13000 clone_ktbl clone_kent clone_ent (λ _, 0x14000)) ∧
    (∀ i, 0 ≤ i < 1023 → ¬ copied clone_kent clone_ent i → directory_entry t 0x11000 i = Ok (clone_ent i)) ∧
    (∀ i, 0 ≤ i < 1023 → copied clone_kent clone_ent i → ∃ physical,
       virtual_to_physical_addr clone_machine 0x21000 0x14000 = Ok physical ∧ page physical ∧
       directory_entry t 0x11000 i = Ok (Z.lor physical (PAGE_ENTRY_FLAGS (clone_ent i)))) ∧
    (∃ physical, virtual_to_physical_addr clone_machine 0x21000 0x13000 = Ok physical ∧ page physical ∧
       directory_entry t 0x11000 1023 = Ok (Z.lor physical (Z.lor PAGING_WRITABLE_PAGE PAGING_PRESENT))) ∧
    (∀ i k, 0 ≤ i < 1023 → clone_ent i ≠ 0 → 0 ≤ k < 1024 → table_word t 0x11000 i k = table_word clone_machine 0x1D000 i k) ∧
    (∀ va, 0 ≤ va < 2 ^ 32 → V_ADDR_PAGEDIR_INDEX va < 1023 → clone_ent (V_ADDR_PAGEDIR_INDEX va) ≠ 0 →
       virtual_to_physical_addr t 0x11000 va = virtual_to_physical_addr clone_machine 0x1D000 va ∧
       virtual_to_physical_addr t 0x1D000 va = virtual_to_physical_addr clone_machine 0x1D000 va) ∧
    (∀ i, 0 ≤ i < 1023 → clone_ent i ≠ 0 → copy_tbl 0x13000 clone_ktbl clone_kent clone_ent (λ _, 0x14000) i =
       if decide (clone_kent i = clone_ent i) then clone_stbl i else 0x14000) ∧
    (∀ i, 0 ≤ i < 1023 → copied clone_kent clone_ent i → ∀ a n, 0 < n → owned clone_machine a n → apart a n 0x14000 4096) ∧
    (∀ a n, 0 < n → owned clone_machine a n → owned t a n ∧ ∀ x, a ≤ x < a + n → ram t !! x = ram clone_machine !! x).
Proof.
  apply (clone_translates_alike clone_machine 0x19000 0x1B000 0x1D000 0x1F000 0x11000 0x13000 clone_ktbl clone_stbl
    clone_kent clone_ent (λ _, 0x14000)).
  - exact clone_example_source.
  - intros i _ _. apply clone_walkable; [by split|lia].
  - apply clone_walkable; [by split|lia].
  - apply (heap_allots_ok _ _ _ clone_ok). by vm_compute.
Defined.
