(* ===== verification/Fat16.v ===== *)
(** [src/fs/fat16.c] and [fat16.h]: the FAT16 file system.

    On-disk structs are decoded from the bytes a stream read stores
    ([fat_header_t], [fat_entry_t]); the file system's own structs are records.
    [fs] is the state the functions share: the stream [private->dev] points to,
    the block device under it, and the allocator. An object returned by [kzalloc]
    is its address with the record's value; an access through the NULL of a
    failed [kzalloc] is undefined. *)
From S2P Require Import Prelude Mem CString Heap Kheap Store Disk DiskStream.

Definition EIO : Z := 5.
Definition ENOSPC : Z := 28.
Definition EMEDIUMTYPE : Z := 124.
Definition FAT16_SIGNATURE : Z := 0x29.
(** "FAT16   " *)
Definition FAT16_SYSTEM_ID : list Z := [70; 65; 84; 49; 54; 32; 32; 32].
Definition FAT16_DIRECTORY_FLAG : Z := 0.
Definition FAT16_FILE_FLAG : Z := 1.
Definition FAT16_ROOT_DIRECTORY_FLAG : Z := 255.
Definition FAT16_FILE_VOLUME_LABEL : Z := 0x8.
Definition FAT16_FILE_SUBDIRECTORY : Z := 0x10.
Definition FAT16_FILE_LFN : Z := 0x0F.
Definition FAT16_CLUSTER_RESERVED : Z := 0xFFF6.
Definition FAT16_CLUSTER_BAD_OR_RESERVED : Z := 0xFFF7.
Definition FAT16_CLUSTER_CHAIN_END_BEGIN : Z := 0xFFF8.

Definition MIN (a b : Z) : Z := if decide (a < b) then a else b.

(** ** Structs *)

Record fat_header_t := FatHeader {
  bytes_per_sector : Z;
  sectors_per_cluster : Z;
  reserved_sectors : Z;
  fat_copies : Z;
  root_dir_entries : Z;
  sectors_per_fat : Z;
  signature : Z;
  system_id_string : list Z
}.

Definition SIZEOF_FAT_HEADER : Z := 62.

Definition byte_at (l : list Z) (i : nat) : Z := default 0 (l !! i).
Definition half_at (l : list Z) (i : nat) : Z := byte_at l i + 2 ^ 8 * byte_at l (S i).
Definition word_at (l : list Z) (i : nat) : Z := half_at l i + 2 ^ 16 * half_at l (S (S i)).

(** The fields the code uses, at their offsets in the packed struct. *)
Definition decode_header (l : list Z) : fat_header_t := {|
  bytes_per_sector := half_at l 11;
  sectors_per_cluster := byte_at l 13;
  reserved_sectors := half_at l 14;
  fat_copies := byte_at l 16;
  root_dir_entries := half_at l 17;
  sectors_per_fat := half_at l 22;
  signature := byte_at l 38;
  system_id_string := take 8 (drop 54 l)
|}.

Record fat_entry_t := FatEntry {
  filename : list Z;
  extension : list Z;
  attributes : Z;
  low16_bits_first_cluster : Z;
  size_bytes : Z
}.

Definition SIZEOF_FAT_ENTRY : Z := 32.

Definition decode_entry (l : list Z) : fat_entry_t := {|
  filename := take 8 l;
  extension := take 3 (drop 8 l);
  attributes := byte_at l 11;
  low16_bits_first_cluster := half_at l 26;
  size_bytes := word_at l 28
|}.

Definition zero_entry : fat_entry_t := decode_entry (replicate 32 0).

Record fat_item_t := FatItem {
  type : Z;
  entry : fat_entry_t;
  first_sector : Z;
  parent_dir_first_sector : Z;
  parent_dir_position : Z
}.

Definition SIZEOF_FAT_ITEM : Z := 48.

Record fat_descriptor_t := FatDescriptor {
  item : fat_item_t;
  eof : Z;
  pos : Z;
  relative_pos : Z;
  current_cluster_first_sector : Z;
  disk_of : disk_ref;
  error : Z
}.

Definition SIZEOF_FAT_DESCRIPTOR : Z := 72.

Record fat_private_data_t := FatPrivate {
  header : fat_header_t;
  bytes_per_cluster : Z;
  data_sector : Z;
  root_directory : fat_item_t;
  dev : Z
}.

Definition SIZEOF_FAT_PRIVATE : Z := 124.

Definition set_item (d : fat_descriptor_t) (i : fat_item_t) : fat_descriptor_t :=
  FatDescriptor i (eof d) (pos d) (relative_pos d) (current_cluster_first_sector d) (disk_of d) (error d).
Definition set_type (i : fat_item_t) (t : Z) : fat_item_t :=
  FatItem t (entry i) (first_sector i) (parent_dir_first_sector i) (parent_dir_position i).
Definition set_eof (d : fat_descriptor_t) (e : Z) : fat_descriptor_t :=
  FatDescriptor (item d) e (pos d) (relative_pos d) (current_cluster_first_sector d) (disk_of d) (error d).
Definition set_pos (d : fat_descriptor_t) (p : Z) : fat_descriptor_t :=
  FatDescriptor (item d) (eof d) p (relative_pos d) (current_cluster_first_sector d) (disk_of d) (error d).
Definition set_relative_pos (d : fat_descriptor_t) (p : Z) : fat_descriptor_t :=
  FatDescriptor (item d) (eof d) (pos d) p (current_cluster_first_sector d) (disk_of d) (error d).
Definition set_sector (d : fat_descriptor_t) (s : Z) : fat_descriptor_t :=
  FatDescriptor (item d) (eof d) (pos d) (relative_pos d) s (disk_of d) (error d).
Definition set_error (d : fat_descriptor_t) (e : Z) : fat_descriptor_t :=
  FatDescriptor (item d) (eof d) (pos d) (relative_pos d) (current_cluster_first_sector d) (disk_of d) e.

Record fs (W K : Type) := Fs { stream : disk_stream; device : W; kern : K }.
Arguments Fs {W K}.
Arguments stream {W K}.
Arguments device {W K}.
Arguments kern {W K}.

(** ** Names *)

(** [memcpy] of [src] to the start of an array. *)
Definition fill_array (dst src : list Z) : outcome (list Z) :=
  if decide (length src ≤ length dst)%nat then Ok (src ++ drop (length src) dst) else Ub.

(** The two arrays made of the characters [shown]; 46 is ['.']. *)
Definition split_shown (shown : list Z) : outcome (list Z * list Z) :=
  let filename_out := replicate 8 32 in
  let extension_out := replicate 3 32 in
  match list_find (λ b, b = 46) shown with
  | None => f ← fill_array filename_out shown; Ok (f, extension_out)
  | Some (point, _) =>
      f ← fill_array filename_out (take point shown);
      e ← fill_array extension_out (drop (S point) shown);
      Ok (f, e)
  end.

Definition fat16_split_entry_name (m : mem) (name : Z) : outcome (list Z * list Z) :=
  len ← strnlen m name 12;
  shown ← load_bytes m name (Z.to_nat len);
  split_shown shown.

(** [!strncmp(a, b, n)] on two arrays of [n] chars ([CString.strncmp_arrays]). *)
Definition same_name (a b : list Z) : bool := bool_decide (cmp_bytes a b = 0).

(** [strnlen] of an array and the copy of that much of it over blanks. *)
Fixpoint until_nul (l : list Z) : list Z :=
  match l with
  | [] => []
  | b :: l => if decide (b = 0) then [] else b :: until_nul l
  end.
Definition pad (n : nat) (l : list Z) : list Z :=
  let s := until_nul (take n l) in s ++ replicate (n - length s) 32.

(** ** Clusters *)

Definition fat16_cluster_number_to_data_sector (private : fat_private_data_t) (cluster : Z) : Z :=
  if decide (cluster < 2) then 0
  else u32 (data_sector private + (cluster - 2) * sectors_per_cluster (header private)).

Definition fat16_cluster_number_to_data_address (private : fat_private_data_t) (cluster : Z) : Z :=
  u32 (fat16_cluster_number_to_data_sector private cluster * bytes_per_sector (header private)).

(** Division by zero sectors is undefined. *)
Definition fat16_sector_to_cluster_number (private : fat_private_data_t) (sector : Z) : outcome Z :=
  if decide (sectors_per_cluster (header private) = 0) then Ub
  else Ok (u16 (2 + u32 (sector - data_sector private) / sectors_per_cluster (header private))).

Definition fat16_item_is_root_dir (private : fat_private_data_t) (dir : fat_item_t) : bool :=
  if decide (type dir ≠ FAT16_ROOT_DIRECTORY_FLAG) then false
  else bool_decide (first_sector dir = first_sector (root_directory private)).

Section fat16.
Context {W K : Type} `{BlockDevice W} `{Allocator K}.

(** [diskstream_seek] and [diskstream_read] on [private->dev]. *)
Definition dev_seek (s : fs W K) (p : Z) : fs W K :=
  Fs (snd (diskstream_seek (stream s) p)) (device s) (kern s).

Definition dev_read (fuel : nat) (s : fs W K) (len : Z) : outcome (Z * list Z * fs W K) :=
  r ← diskstream_read fuel (device s) (stream s) len;
  let '(n, bytes, st, w) := r in Ok (n, bytes, Fs st w (kern s)).

(** A failed read would leave [next_cluster] uninitialised. *)
Definition fat16_read_fat (fuel : nat) (private : fat_private_data_t) (s : fs W K) (cluster : Z) :
    outcome (Z * fs W K) :=
  if decide (FAT16_CLUSTER_CHAIN_END_BEGIN ≤ cluster) then Ok (FAT16_CLUSTER_CHAIN_END_BEGIN, s)
  else
    let cluster_fat_byte_offset := cluster * 2 in
    let cluster_address := u32 (reserved_sectors (header private) * bytes_per_sector (header private) +
      cluster_fat_byte_offset) in
    r ← dev_read fuel (dev_seek s cluster_address) 2;
    let '(_, bytes, s) := r in
    if decide (length bytes = 2%nat) then Ok (half_at bytes 0, s) else Ub.

(** The [for] of [fat16_follow_cluster_chain], [steps] iterations left. *)
Fixpoint fat16_follow_cluster_chain (fuel : nat) (private : fat_private_data_t) (s : fs W K)
    (next_cluster : Z) (steps : nat) : outcome (Z * fs W K) :=
  match steps with
  | O => Ok (next_cluster, s)
  | S steps =>
      if decide (next_cluster < FAT16_CLUSTER_CHAIN_END_BEGIN) then
        ns ← fat16_read_fat fuel private s next_cluster;
        let '(next_cluster, s) := ns in
        if decide (next_cluster = 0 ∨ next_cluster = FAT16_CLUSTER_RESERVED ∨
                   next_cluster = FAT16_CLUSTER_BAD_OR_RESERVED) then Ok (next_cluster, s)
        else fat16_follow_cluster_chain fuel private s next_cluster steps
      else Ok (next_cluster, s)
  end.

(** The cluster-chain cursor. *)
Record fat_cluster_chain := FatClusterChain { first : Z; previous : Z; current : Z }.

Definition fat16_cluster_chain_init (begin : Z) : fat_cluster_chain := FatClusterChain begin begin begin.

Definition fat16_cluster_chain_next (fuel : nat) (private : fat_private_data_t) (s : fs W K)
    (chain : fat_cluster_chain) : outcome (fat_cluster_chain * fs W K) :=
  if decide (current chain = FAT16_CLUSTER_BAD_OR_RESERVED ∨ current chain = FAT16_CLUSTER_RESERVED ∨
             FAT16_CLUSTER_CHAIN_END_BEGIN ≤ current chain) then Ok (chain, s)
  else
    cs ← fat16_read_fat fuel private s (current chain);
    let '(c, s) := cs in Ok (FatClusterChain (first chain) (current chain) c, s).

Definition fat16_cluster_chain_is_over (chain : fat_cluster_chain) : bool :=
  bool_decide (current chain = FAT16_CLUSTER_CHAIN_END_BEGIN).

Definition fat16_cluster_chain_ok (chain : fat_cluster_chain) : bool :=
  bool_decide (current chain ≠ FAT16_CLUSTER_BAD_OR_RESERVED ∧ current chain ≠ FAT16_CLUSTER_RESERVED).

Definition fat16_get_free_cluster (private : fat_private_data_t) : Z := FAT16_CLUSTER_CHAIN_END_BEGIN.
Definition fat16_write_fat (private : fat_private_data_t) (cluster value : Z) : Z := 0.

Definition fat16_cluster_allocate_next (private : fat_private_data_t) (chain : fat_cluster_chain) :
    Z * fat_cluster_chain :=
  if negb (fat16_cluster_chain_is_over chain) then (- EINVAL, chain)
  else
    let free_cluster := fat16_get_free_cluster private in
    if decide (FAT16_CLUSTER_CHAIN_END_BEGIN ≤ free_cluster) then (- ENOSPC, chain)
    else if decide (fat16_write_fat private free_cluster FAT16_CLUSTER_CHAIN_END_BEGIN ≠ 0) then (- EIO, chain)
    else if decide (fat16_write_fat private (previous chain) free_cluster ≠ 0) then (- EIO, chain)
    else (0, FatClusterChain (first chain) (previous chain) free_cluster).

(** ** Cursors *)

Definition __fat16_adjust_cursors_root_dir (private : fat_private_data_t) (d : fat_descriptor_t) :
    Z * fat_descriptor_t :=
  let d := set_relative_pos d (pos d) in
  if decide (data_sector private ≤ pos d) then
    let d := set_eof d 1 in
    if decide (data_sector private < pos d) then (- EIO, set_error d (- EIO)) else (0, d)
  else (0, d).

Definition __fat16_adjust_cursors_non_root (fuel : nat) (private : fat_private_data_t) (s : fs W K)
    (d : fat_descriptor_t) : outcome (Z * fat_descriptor_t * fs W K) :=
  if decide (low16_bits_first_cluster (entry (item d)) = 0) then Ok (0, set_eof d 1, s)
  else if decide (bytes_per_cluster private = 0) then Ub
  else
    let cluster_count := pos d / bytes_per_cluster private in
    first_cluster ← fat16_sector_to_cluster_number private (first_sector (item d));
    cs ← fat16_follow_cluster_chain fuel private s first_cluster (Z.to_nat cluster_count);
    let '(current_cluster, s) := cs in
    let d := set_relative_pos d (pos d mod bytes_per_cluster private) in
    if decide (current_cluster = FAT16_CLUSTER_RESERVED ∨ current_cluster = FAT16_CLUSTER_BAD_OR_RESERVED) then
      Ok (- EIO, set_error d (- EIO), s)
    else if decide (current_cluster < FAT16_CLUSTER_CHAIN_END_BEGIN) then
      Ok (0, set_sector d (fat16_cluster_number_to_data_sector private current_cluster), s)
    else Ok (0, set_eof d 1, s).

Definition __fat16_adjust_cursors (fuel : nat) (private : fat_private_data_t) (s : fs W K)
    (d : fat_descriptor_t) (offset : Z) : outcome (Z * fat_descriptor_t * fs W K) :=
  let d := set_pos d (u32 (pos d + offset)) in
  if fat16_item_is_root_dir private (item d) then
    let '(r, d) := __fat16_adjust_cursors_root_dir private d in Ok (r, d, s)
  else __fat16_adjust_cursors_non_root fuel private s d.

Definition __fat16_descriptor_to_absolute_address (private : fat_private_data_t) (d : fat_descriptor_t) : Z :=
  let data_region_addr := u32 (current_cluster_first_sector d * bytes_per_sector (header private)) in
  u32 (data_region_addr + relative_pos d).

Definition __fat16_reset_cursors (d : fat_descriptor_t) : fat_descriptor_t :=
  FatDescriptor (item d) 0 0 0 (first_sector (item d)) (disk_of d) (error d).

(** ** Reading *)

(** One round of the loop of [__fat16_read] on [(read, bytes, descriptor, fs)];
    the result is a [size_t]. *)
Definition fat_read_round (fuel : nat) (private : fat_private_data_t) (len : Z)
    (st : Z * list Z * fat_descriptor_t * fs W K) :
    outcome ((Z * list Z * fat_descriptor_t * fs W K) + (Z * list Z * fat_descriptor_t * fs W K)) :=
  let '(read, out, d, s) := st in
  if decide (read < len ∧ eof d = 0) then
    let s := dev_seek s (__fat16_descriptor_to_absolute_address private d) in
    let to_read_sequentially := MIN (u32 (len - read)) (u32 (bytes_per_cluster private - relative_pos d)) in
    r ← dev_read fuel s (s32 to_read_sequentially);
    let '(chunk_read, bytes, s) := r in
    if decide (chunk_read ≤ 0) then Ok (inr (u32 chunk_read, out ++ bytes, set_error d chunk_read, s))
    else
      a ← __fat16_adjust_cursors fuel private s d chunk_read;
      let '(res, d, s) := a in
      if decide (res ≠ 0) then Ok (inr (u32 res, out ++ bytes, d, s))
      else Ok (inl (u32 (read + chunk_read), out ++ bytes, d, s))
  else Ok (inr (read, out, d, s)).

Definition __fat16_read (fuel : nat) (private : fat_private_data_t) (s : fs W K) (d : fat_descriptor_t)
    (len : Z) : outcome (Z * list Z * fat_descriptor_t * fs W K) :=
  while_loop fuel (fat_read_round fuel private len) (0, [], d, s).

(** The size test and the clamp shared by the two file reads. *)
Definition fat16_read (fuel : nat) (private : fat_private_data_t) (s : fs W K) (d : fat_descriptor_t)
    (size nmemb : Z) : outcome (Z * list Z * fat_descriptor_t * fs W K) :=
  a ← __fat16_adjust_cursors fuel private s d 0;
  let '(res, d, s) := a in
  if decide (res ≠ 0) then Ok (u32 res, [], d, s)
  else if decide (eof d ≠ 0) then Ok (0, [], d, s)
  else if decide (size_bytes (entry (item d)) ≤ pos d) then Ok (0, [], set_eof d 1, s)
  else
    let len := MIN (u32 (size * nmemb)) (u32 (size_bytes (entry (item d)) - pos d)) in
    r ← __fat16_read fuel private s d len;
    let '(res, bytes, d, s) := r in
    let d := if decide (size_bytes (entry (item d)) ≤ pos d) then set_eof d 1 else d in
    Ok (u32 (s32 res), bytes, d, s).

(** [fat16_read_file] returns early on any non-zero count. *)
Definition fat16_read_file (fuel : nat) (private : fat_private_data_t) (s : fs W K) (d : fat_descriptor_t)
    (len : Z) : outcome (Z * list Z * fat_descriptor_t * fs W K) :=
  a ← __fat16_adjust_cursors fuel private s d 0;
  let '(res, d, s) := a in
  if decide (res ≠ 0) then Ok (u32 res, [], d, s)
  else if decide (eof d ≠ 0) then Ok (0, [], d, s)
  else if decide (size_bytes (entry (item d)) ≤ pos d) then Ok (0, [], set_eof d 1, s)
  else
    let len := MIN len (u32 (size_bytes (entry (item d)) - pos d)) in
    r ← __fat16_read fuel private s d len;
    let '(res, bytes, d, s) := r in
    if decide (s32 res ≠ 0) then Ok (u32 (s32 res), bytes, d, s)
    else
      let d := if decide (size_bytes (entry (item d)) ≤ pos d) then set_eof d 1 else d in
      Ok (u32 (s32 res), bytes, d, s).

(** ** Directories *)

(** The bytes of [entry] after a read over them: the new ones, then the old. *)
Definition overlay (new old : list Z) : list Z := new ++ drop (length new) old.

Definition skipped (e : fat_entry_t) : bool :=
  bool_decide (attributes e = FAT16_FILE_LFN ∨ Z.land (attributes e) FAT16_FILE_VOLUME_LABEL ≠ 0).

(** One round of the search loop on [(entry bytes, dir_pos, descriptor, fs)]: the
    result is the entry found, if any, and its position. *)
Definition find_entry_round (fuel : nat) (private : fat_private_data_t) (name ext : list Z)
    (st : list Z * Z * fat_descriptor_t * fs W K) :
    outcome ((list Z * Z * fat_descriptor_t * fs W K) +
             (option (fat_entry_t * Z) * fat_descriptor_t * fs W K)) :=
  let '(raw, dir_pos, d, s) := st in
  if decide (eof d = 0) then
    r ← __fat16_read fuel private s d SIZEOF_FAT_ENTRY;
    let '(res, bytes, d, s) := r in
    let raw := overlay bytes raw in
    let e := decode_entry raw in
    if decide (s32 res < 0) then Ok (inr (None, d, s))
    else
      let dir_pos := u32 (dir_pos + 1) in
      if skipped e then Ok (inl (raw, dir_pos, d, s))
      else if decide (byte_at (filename e) 0 = 0) then Ok (inr (None, set_eof d 1, s))
      else if negb (same_name name (filename e)) || negb (same_name ext (extension e)) then
        Ok (inl (raw, dir_pos, d, s))
      else Ok (inr (Some (e, dir_pos), d, s))
  else Ok (inr (None, d, s)).

(** The item and its address, NULL when nothing was found; when [kzalloc] fails
    the cursors are left where they are. *)
Definition fat16_find_entry_in_dir (fuel : nat) (private : fat_private_data_t) (s : fs W K)
    (d : fat_descriptor_t) (name ext : list Z) :
    outcome (option (Z * fat_item_t) * fat_descriptor_t * fs W K) :=
  if decide (type (item d) ≠ FAT16_DIRECTORY_FLAG ∧ type (item d) ≠ FAT16_ROOT_DIRECTORY_FLAG) then
    Ok (None, d, s)
  else
    r ← while_loop fuel (find_entry_round fuel private (pad 8 name) (pad 3 ext))
          (replicate 32 0, 0, __fat16_reset_cursors d, s);
    let '(found, d, s) := r in
    match found with
    | None => Ok (None, __fat16_reset_cursors d, s)
    | Some (e, dir_pos) =>
        pk ← kzalloc (kern s) SIZEOF_FAT_ITEM;
        let '(p, k) := pk in
        let s := Fs (stream s) (device s) k in
        if decide (p = 0) then Ok (None, d, s)
        else
          let t := if decide (Z.land FAT16_FILE_SUBDIRECTORY (attributes e) ≠ 0)
                   then FAT16_DIRECTORY_FLAG else FAT16_FILE_FLAG in
          Ok (Some (p, FatItem t e
                (fat16_cluster_number_to_data_sector private (low16_bits_first_cluster e))
                (first_sector (item d)) dir_pos), __fat16_reset_cursors d, s)
    end.

(** One round of the counting loop; [entry] is uninitialised in each round. *)
Definition count_round (fuel : nat) (private : fat_private_data_t) (st : Z * fat_descriptor_t * fs W K) :
    outcome ((Z * fat_descriptor_t * fs W K) + (Z * fat_descriptor_t * fs W K)) :=
  let '(count, d, s) := st in
  if decide (eof d = 0) then
    r ← __fat16_read fuel private s d SIZEOF_FAT_ENTRY;
    let '(res, bytes, d, s) := r in
    if decide (s32 res < 0) then Ok (inr (- EIO, d, s))
    else if decide (Z.of_nat (length bytes) < SIZEOF_FAT_ENTRY) then Ub
    else
      let e := decode_entry bytes in
      if skipped e then Ok (inl (count, d, s))
      else if decide (byte_at (filename e) 0 = 0) then
        Ok (inr (count, __fat16_reset_cursors (set_eof d 1), s))
      else Ok (inl (s32 (count + 1), d, s))
  else Ok (inr (count, __fat16_reset_cursors d, s)).

Definition fat16_count_dir_items (fuel : nat) (private : fat_private_data_t) (s : fs W K)
    (d : fat_descriptor_t) : outcome (Z * fat_descriptor_t * fs W K) :=
  while_loop fuel (count_round fuel private) (0, __fat16_reset_cursors d, s).

(** ** Opening *)

(** The descriptor and its address, or NULL. *)
Definition __fat16_open (private : fat_private_data_t) (s : fs W K) (disk : disk_ref) (i : fat_item_t) :
    outcome (option (Z * fat_descriptor_t) * fs W K) :=
  pk ← kzalloc (kern s) SIZEOF_FAT_DESCRIPTOR;
  let '(p, k) := pk in
  let s := Fs (stream s) (device s) k in
  if decide (p = 0) then Ok (None, s)
  else
    let d := __fat16_reset_cursors (FatDescriptor i 0 0 0 0 disk 0) in
    let t :=
      if fat16_item_is_root_dir private i then FAT16_ROOT_DIRECTORY_FLAG
      else if decide (Z.land (attributes (entry i)) FAT16_FILE_SUBDIRECTORY ≠ 0) then FAT16_DIRECTORY_FLAG
      else FAT16_FILE_FLAG in
    Ok (Some (p, set_item d (set_type i t)), s).

Definition fs_free (s : fs W K) (p : Z) : outcome (fs W K) :=
  k ← kfree (kern s) p; Ok (Fs (stream s) (device s) k).

(** One round of the loop of [traverse_path] on [(path, item, *item, fs)]. *)
Definition traverse_round (fuel : nat) (private : fat_private_data_t) (disk : disk_ref)
    (st : Z * Z * fat_item_t * fs W K) :
    outcome ((Z * Z * fat_item_t * fs W K) + (option (Z * fat_item_t) * fs W K)) :=
  let '(path, p, i, s) := st in
  if decide (path = 0) then Ok (inr (Some (p, i), s))
  else
    ds ← __fat16_open private s disk i;
    let '(folder, s) := ds in
    s ← fs_free s p;
    match folder with
    | None => Ok (inr (None, s))
    | Some (dp, d) =>
        part ← kread (kern s) path;
        ne ← fat16_split_entry_name (memory (kern s)) part;
        let '(name, ext) := ne in
        r ← fat16_find_entry_in_dir fuel private s d name ext;
        let '(found, _, s) := r in
        s ← fs_free s dp;
        match found with
        | None => Ok (inr (None, s))
        | Some (p, i) => next ← kread (kern s) (path + 4); Ok (inl (next, p, i, s))
        end
    end.

Definition traverse_path (fuel : nat) (private : fat_private_data_t) (s : fs W K) (disk : disk_ref) (path : Z) :
    outcome (option (Z * fat_item_t) * fs W K) :=
  pk ← kzalloc (kern s) SIZEOF_FAT_ITEM;
  let '(p, k) := pk in
  if decide (p = 0) then Ub
  else while_loop fuel (traverse_round fuel private disk) (path, p, root_directory private, Fs (stream s) (device s) k).

Definition fat16_open (fuel : nat) (private : fat_private_data_t) (s : fs W K) (disk : disk_ref)
    (path : Z) : outcome (option (Z * fat_descriptor_t) * fs W K) :=
  r ← traverse_path fuel private s disk path;
  let '(found, s) := r in
  match found with
  | None => Ok (None, s)
  | Some (p, i) =>
      ds ← __fat16_open private s disk i;
      let '(d, s) := ds in
      s ← fs_free s p;
      Ok (d, s)
  end.

Definition fat16_close (s : fs W K) (priv : Z) : outcome (Z * fs W K) :=
  s ← fs_free s priv; Ok (0, s).

Definition SEEK_SET : Z := 0.
Definition SEEK_CUR : Z := 1.
Definition SEEK_END : Z := 2.

Definition __fat16_seek_set (d : fat_descriptor_t) (p : Z) : Z * fat_descriptor_t :=
  (0, set_eof (set_pos d (u32 p)) 0).

Definition fat16_seek (d : fat_descriptor_t) (offset whence : Z) : Z * fat_descriptor_t :=
  if decide (whence = SEEK_SET) then __fat16_seek_set d offset
  else if decide (whence = SEEK_CUR) then __fat16_seek_set d (s32 (u32 (pos d + offset)))
  else if decide (whence = SEEK_END) then __fat16_seek_set d (s32 (size_bytes (entry (item d))))
  else (1, d).

(** The result and the two members of [*buf]; [disk_id] is [descriptor->disk->id]. *)
Definition fat16_stat (disk_id : Z) (d : fat_descriptor_t) : Z * (Z * Z) :=
  (0, (disk_id, size_bytes (entry (item d)))).

Definition fat16_write : Z := 0.
Definition fat16_unlink : Z := 0.

(** ** Probing *)

Definition fat16_fat_private_free (k : K) (ptr : Z) (private_dev : Z) : outcome K :=
  k ← (if decide (ptr ≠ 0 ∧ private_dev ≠ 0) then kfree k private_dev else Ok k);
  if decide (ptr ≠ 0) then kfree k ptr else Ok k.

(** The layout the header describes. *)
Definition private_of_header (h : fat_header_t) (dev : Z) : outcome fat_private_data_t :=
  let first_sector := u32 (reserved_sectors h + fat_copies h * sectors_per_fat h) in
  let root := FatItem FAT16_ROOT_DIRECTORY_FLAG zero_entry first_sector 0 0 in
  if decide (bytes_per_sector h = 0) then Ub
  else
    let root_dir_sector_len :=
      u32 (root_dir_entries h * SIZEOF_FAT_ENTRY + bytes_per_sector h - 1) / bytes_per_sector h in
    Ok (FatPrivate h (bytes_per_sector h * sectors_per_cluster h)
          (u32 (first_sector + root_dir_sector_len)) root dev).

(** The new [disk->fs_private], with the stream it owns. *)
Definition fat16_probe (fuel : nat) (w : W) (k : K) (disk_id : Z) :
    outcome (Z * option (fat_private_data_t * disk_stream) * W * K) :=
  r ← diskstream_new k disk_id;
  let '(st, k) := r in
  match st with
  | None => Ok (- ENOMEM, None, w, k)
  | Some (sp, st) =>
      r ← diskstream_read fuel w st SIZEOF_FAT_HEADER;
      let '(res, bytes, _, w) := r in
      let header := decode_header (overlay bytes (replicate 62 0)) in
      k ← diskstream_close k sp;
      if decide (res < 0) then Ok (- EIO, None, w, k)
      else if decide (signature header ≠ FAT16_SIGNATURE) then Ok (- EMEDIUMTYPE, None, w, k)
      else if negb (same_name (system_id_string header) FAT16_SYSTEM_ID) then Ok (- EMEDIUMTYPE, None, w, k)
      else
        pk ← kzalloc k SIZEOF_FAT_PRIVATE;
        let '(p, k) := pk in
        if decide (p = 0) then Ok (- ENOMEM, None, w, k)
        else
          _ ← private_of_header header 0;
          r ← diskstream_new k disk_id;
          let '(st, k) := r in
          match st with
          | None => k ← fat16_fat_private_free k p 0; Ok (- ENOMEM, None, w, k)
          | Some (dev, st) =>
              private ← private_of_header header dev;
              Ok (0, Some (private, st), w, k)
          end
  end.
End fat16.

(** * A mounted volume *)

Lemma MIN_min a b : MIN a b = Z.min a b.
Proof. unfold MIN. case_decide; lia. Qed.

Section volume.
Context {W K : Type} `{BlockDeviceLaws W} `{Allocator K}.
Context (p : fat_private_data_t).
Implicit Type s : fs W K.
Implicit Type d : fat_descriptor_t.

Abbreviation bps := (bytes_per_sector (header p)).
Abbreviation spc := (sectors_per_cluster (header p)).
Abbreviation bpc := (bytes_per_cluster p).

Record volume_ok : Prop := VolumeOk {
  ok_bps : 0 < bps < 2 ^ 16;
  ok_spc : 0 < spc < 2 ^ 8;
  ok_bpc : bpc = bps * spc;
  ok_reserved : 0 ≤ reserved_sectors (header p);
  ok_data : 0 ≤ data_sector p
}.

(** Where a cluster's FAT entry and its data are on the disk. *)
Definition fat_addr (c : Z) : Z := reserved_sectors (header p) * bps + 2 * c.
Definition cluster_sector (c : Z) : Z := data_sector p + (c - 2) * spc.
Definition cluster_addr (c : Z) : Z := cluster_sector c * bps.

(** The entry the FAT holds for [c]. *)
Definition fat_next (c : Z) : Z := half_at (disk_slice (fat_addr c) 2) 0.

(** A data cluster whose entry and data are on the disk, at 32-bit addresses. *)
Definition cluster_ok (c : Z) : Prop :=
  2 ≤ c < FAT16_CLUSTER_RESERVED ∧ fat_addr c + 2 ≤ disk_size ∧ fat_addr c + 2 < 2 ^ 32 ∧
  cluster_addr c + bpc ≤ disk_size ∧ cluster_addr c + bpc < 2 ^ 32.

(** The FAT links [cs], from [c] to an end-of-chain mark. *)
Fixpoint is_chain (c : Z) (cs : list Z) : Prop :=
  match cs with
  | [] => FAT16_CLUSTER_CHAIN_END_BEGIN ≤ c
  | x :: cs => x = c ∧ cluster_ok c ∧ is_chain (fat_next c) cs
  end.

(** The byte at offset [x] of the file whose clusters are [cs]. *)
Definition file_byte (cs : list Z) (x : Z) : Z :=
  default 0 (disk_byte (cluster_addr (default 0 (cs !! Z.to_nat (x / bpc))) + x mod bpc)).
Definition file_slice (cs : list Z) (x n : Z) : list Z := file_byte cs <$> seqZ x n.
Definition capacity (cs : list Z) : Z := bpc * Z.of_nat (length cs).

Definition fs_ready s : Prop := block_ready (device s) ∧ disk (stream s) = DiskAt 0.

Context (Hv : volume_ok).

Lemma bpc_pos : 0 < bpc < 2 ^ 24.
Proof. destruct Hv as [? ? Hb _ _]. rewrite Hb. nia. Qed.

Lemma file_slice_length cs x n : 0 ≤ n → Z.of_nat (length (file_slice cs x n)) = n.
Proof. intros. unfold file_slice. rewrite length_fmap, length_seqZ. lia. Qed.

Lemma file_slice_app cs x n1 n2 : 0 ≤ n1 → 0 ≤ n2 →
  file_slice cs x (n1 + n2) = file_slice cs x n1 ++ file_slice cs (x + n1) n2.
Proof. intros. unfold file_slice. by rewrite seqZ_app, fmap_app. Qed.

(** A piece of one cluster is a piece of the disk. *)
Lemma cluster_slice cs j c r n : cs !! Z.to_nat j = Some c → 0 ≤ j → 0 ≤ r → 0 ≤ n → r + n ≤ bpc →
  disk_slice (cluster_addr c + r) n = file_slice cs (j * bpc + r) n.
Proof.
  intros Hc Hj Hr Hn Hrn. pose proof bpc_pos. apply list_eq. intros i.
  destruct (decide (Z.of_nat i < n)) as [Hi|Hi].
  - rewrite <- (Nat2Z.id i), disk_slice_lookup by lia.
    unfold file_slice. rewrite list_lookup_fmap, lookup_seqZ_lt by lia.
    cbn [fmap option_fmap option_map]. f_equal. unfold file_byte. rewrite !Nat2Z.id.
    assert (Hx : (j * bpc + r + Z.of_nat i) / bpc = j ∧
                 (j * bpc + r + Z.of_nat i) mod bpc = r + Z.of_nat i).
    { split; [symmetry; apply (Z.div_unique_pos _ _ _ (r + Z.of_nat i)); lia|
              symmetry; apply (Z.mod_unique_pos _ _ j); lia]. }
    destruct Hx as [-> ->]. rewrite Hc. cbn [default from_option]. by rewrite Z.add_assoc.
  - pose proof (disk_slice_length (cluster_addr c + r) n). pose proof (file_slice_length cs (j * bpc + r) n).
    rewrite !lookup_ge_None_2 by lia. done.
Qed.

Lemma dev_read_ok fuel s a n : fs_ready s → 0 ≤ a → 0 ≤ n < 2 ^ 31 → a + n < 2 ^ 32 →
  a + n ≤ disk_size → (Z.to_nat n < fuel)%nat →
  ∃ s', dev_read fuel (dev_seek s a) n = Ok (n, disk_slice a n, s') ∧ fs_ready s' ∧ kern s' = kern s.
Proof.
  intros [Hw Hd] Ha Hn Han Hs Hf.
  destruct (diskstream_read_spec fuel (device s) (DiskStream a (disk (stream s))) n)
    as (w' & E & Hw'); try done.
  unfold dev_read, dev_seek. cbn [stream device kern diskstream_seek snd]. rewrite E, bind_Ok.
  eexists. split; [reflexivity|]. done.
Qed.

Lemma read_fat_ok fuel s c : fs_ready s → cluster_ok c → (2 < fuel)%nat →
  ∃ s', fat16_read_fat fuel p s c = Ok (fat_next c, s') ∧ fs_ready s' ∧ kern s' = kern s.
Proof.
  intros Hs (Hc & Hfa & Hfb & _) Hf. unfold fat16_read_fat.
  rewrite decide_False by (unfold FAT16_CLUSTER_RESERVED, FAT16_CLUSTER_CHAIN_END_BEGIN in *; lia).
  cbn zeta. unfold fat_addr in *. replace (c * 2) with (2 * c) by lia.
  assert (Hr : 0 ≤ reserved_sectors (header p) * bps)
    by (destruct Hv; apply Z.mul_nonneg_nonneg; lia).
  rewrite u32_id by lia.
  destruct (dev_read_ok fuel s (reserved_sectors (header p) * bps + 2 * c) 2 Hs) as (s' & E & Hs' & Hk);
    [lia..|].
  rewrite E, bind_Ok. pose proof (disk_slice_length (fat_addr c) 2 ltac:(lia)) as Hl. unfold fat_addr in Hl.
  rewrite decide_True by lia. by exists s'.
Qed.

(** Following a chain [n] steps gives its cluster [n], or an end mark past its end. *)
Lemma follow_ok fuel cs s c n : fs_ready s → is_chain c cs → (2 < fuel)%nat →
  ∃ r s', fat16_follow_cluster_chain fuel p s c n = Ok (r, s') ∧ fs_ready s' ∧ kern s' = kern s ∧
    match cs !! n with Some x => r = x | None => FAT16_CLUSTER_CHAIN_END_BEGIN ≤ r end.
Proof.
  intros Hs Hc Hf. revert s c n Hs Hc. induction cs as [|x cs IH]; intros s c n Hs Hc.
  - exists c, s. cbn in Hc. split; [|done]. destruct n; [done|]. cbn [fat16_follow_cluster_chain].
    by rewrite decide_False by lia.
  - destruct Hc as (-> & Hok & Hc). destruct n as [|n]; [by exists c, s|].
    cbn [fat16_follow_cluster_chain]. pose proof Hok as ([Hc2 Hlt] & _).
    rewrite decide_True by (unfold FAT16_CLUSTER_RESERVED, FAT16_CLUSTER_CHAIN_END_BEGIN in *; lia).
    destruct (read_fat_ok fuel s c Hs Hok Hf) as (s1 & -> & Hs1 & Hk1). rewrite bind_Ok.
    rewrite decide_False.
    + destruct (IH s1 (fat_next c) n Hs1 Hc) as (r & s2 & E & Hs2 & Hk2 & Hr).
      exists r, s2. split; [done|]. split; [done|]. split; [by rewrite Hk2|exact Hr].
    + unfold FAT16_CLUSTER_RESERVED, FAT16_CLUSTER_BAD_OR_RESERVED in *.
      destruct cs as [|y cs]; cbn in Hc; [unfold FAT16_CLUSTER_CHAIN_END_BEGIN in Hc; lia|].
      destruct Hc as (_ & ([? ?] & _) & _). unfold FAT16_CLUSTER_RESERVED in *. lia.
Qed.

(** The two directions between clusters and sectors. *)
Lemma cluster_to_sector c : cluster_ok c → fat16_cluster_number_to_data_sector p c = cluster_sector c.
Proof.
  intros (Hc & _ & _ & _ & Hd4). unfold fat16_cluster_number_to_data_sector. rewrite decide_False by lia.
  unfold cluster_addr, cluster_sector in *. pose proof bpc_pos. destruct Hv. apply u32_id. nia.
Qed.

Lemma sector_to_cluster c : cluster_ok c →
  fat16_sector_to_cluster_number p (cluster_sector c) = Ok c.
Proof.
  intros (Hc & _ & _ & _ & Hd4). unfold fat16_sector_to_cluster_number, cluster_addr in *.
  pose proof bpc_pos. destruct Hv. rewrite decide_False by lia.
  replace (cluster_sector c - data_sector p) with ((c - 2) * spc) by (unfold cluster_sector; lia).
  rewrite u32_id by (unfold cluster_sector in *; nia). rewrite Z.div_mul by lia.
  unfold FAT16_CLUSTER_RESERVED in *. rewrite u16_id by lia. f_equal. lia.
Qed.

(** [file_ok d c cs]: [d] is open on a file or directory that starts at [c] and
    whose clusters are [cs]. *)
Record file_ok d (c : Z) (cs : list Z) : Prop := FileOk {
  file_not_root : fat16_item_is_root_dir p (item d) = false;
  file_first : low16_bits_first_cluster (entry (item d)) = c;
  file_sector : first_sector (item d) = cluster_sector c;
  file_chain : is_chain c cs;
  file_nonempty : cs ≠ []
}.

(** The cursors point at offset [x]. *)
Record cursor_at d (cs : list Z) (x : Z) : Prop := CursorAt {
  at_pos : pos d = x;
  at_relative : relative_pos d = x mod bpc;
  at_eof : eof d = if decide (x < capacity cs) then 0 else 1;
  at_sector : ∀ c, cs !! Z.to_nat (x / bpc) = Some c → current_cluster_first_sector d = cluster_sector c
}.

Lemma is_chain_ok c cs i x : is_chain c cs → cs !! i = Some x → cluster_ok x.
Proof.
  revert c i. induction cs as [|y cs IH]; intros c [|i] Hc Hi; try done; destruct Hc as (-> & Hok & Hc).
  - by injection Hi as <-.
  - by apply (IH (fat_next c) i).
Qed.

Lemma chain_lookup cs x : 0 ≤ x →
  (x < capacity cs ↔ is_Some (cs !! Z.to_nat (x / bpc))).
Proof.
  intros Hx. pose proof bpc_pos. rewrite lookup_lt_is_Some. unfold capacity.
  assert (0 ≤ x / bpc) by (apply Z.div_pos; lia). split; intros Hlt.
  - apply Nat2Z.inj_lt. rewrite Z2Nat.id by done. apply Z.div_lt_upper_bound; lia.
  - assert (Hq : x / bpc + 1 ≤ Z.of_nat (length cs)) by lia.
    pose proof (Z.div_mod x bpc ltac:(lia)). pose proof (Z.mod_pos_bound x bpc ltac:(lia)). nia.
Qed.

(** Moving the cursors forward. *)
Lemma adjust_ok fuel s d c cs off : fs_ready s → file_ok d c cs → eof d = 0 → (2 < fuel)%nat →
  0 ≤ pos d + off → pos d + off < 2 ^ 32 →
  ∃ d' s', __fat16_adjust_cursors fuel p s d off = Ok (0, d', s') ∧ fs_ready s' ∧ kern s' = kern s ∧
    item d' = item d ∧ disk_of d' = disk_of d ∧ error d' = error d ∧ cursor_at d' cs (pos d + off).
Proof.
  intros Hs [Hroot Hfst Hsec Hchain Hne] Heof Hf Hlo Hhi. unfold __fat16_adjust_cursors.
  rewrite u32_id by lia. cbn [item set_pos]. rewrite Hroot.
  unfold __fat16_adjust_cursors_non_root. cbn [item set_pos pos].
  assert (Hc : cluster_ok c).
  { destruct cs as [|y cs]; [done|]. by destruct Hchain as (-> & ? & _). }
  pose proof Hc as ([Hc2 _] & _). pose proof bpc_pos.
  rewrite Hfst, decide_False by lia. rewrite decide_False by lia.
  rewrite Hsec, sector_to_cluster, bind_Ok by done.
  destruct (follow_ok fuel cs s c (Z.to_nat ((pos d + off) / bpc)) Hs Hchain Hf)
    as (r & s' & -> & Hs' & Hk & Hr). rewrite bind_Ok.
  pose proof (chain_lookup cs (pos d + off) Hlo) as Hlk.
  destruct (cs !! Z.to_nat ((pos d + off) / bpc)) as [x|] eqn:Ex.
  - subst r. pose proof (is_chain_ok _ _ _ _ Hchain Ex) as Hx. pose proof Hx as ([? ?] & _).
    unfold FAT16_CLUSTER_RESERVED, FAT16_CLUSTER_BAD_OR_RESERVED, FAT16_CLUSTER_CHAIN_END_BEGIN in *.
    rewrite decide_False by lia. rewrite decide_True by lia. rewrite cluster_to_sector by done.
    eexists _, s'. split; [reflexivity|]. do 5 (split; [done|]).
    split; cbn [pos relative_pos eof current_cluster_first_sector set_sector set_relative_pos set_pos]; try done.
    + rewrite decide_True; [done|]. apply Hlk. by eexists.
    + intros y Hy. congruence.
  - unfold FAT16_CLUSTER_RESERVED, FAT16_CLUSTER_BAD_OR_RESERVED, FAT16_CLUSTER_CHAIN_END_BEGIN in *.
    rewrite decide_False by lia. rewrite decide_False by lia.
    eexists _, s'. split; [reflexivity|]. do 5 (split; [done|]).
    split; cbn [pos relative_pos eof current_cluster_first_sector set_eof set_relative_pos set_pos]; try done.
    + rewrite decide_False; [done|]. rewrite Hlk. by intros [? ?].
    + intros y Hy. congruence.
Qed.

Lemma file_ok_item d d' c cs : file_ok d c cs → item d' = item d → file_ok d' c cs.
Proof. intros [? ? ? ? ?] E. by split; rewrite ?E. Qed.

Lemma cluster_addr_nonneg c : cluster_ok c → 0 ≤ cluster_addr c.
Proof.
  intros (Hc & _). unfold cluster_addr, cluster_sector. destruct Hv.
  apply Z.mul_nonneg_nonneg; [|lia]. apply Z.add_nonneg_nonneg; [lia|]. apply Z.mul_nonneg_nonneg; lia.
Qed.

Lemma address_ok d cs x c : cursor_at d cs x → cluster_ok c → cs !! Z.to_nat (x / bpc) = Some c →
  __fat16_descriptor_to_absolute_address p d = cluster_addr c + x mod bpc.
Proof.
  intros [_ Hr _ Hsec] Hclok Hx. pose proof bpc_pos. pose proof Hclok as (_ & _ & _ & _ & Hd4).
  pose proof (cluster_addr_nonneg c Hclok).
  pose proof (Z.mod_pos_bound x bpc ltac:(lia)).
  unfold __fat16_descriptor_to_absolute_address. rewrite (Hsec c Hx), Hr. cbn zeta.
  change (cluster_sector c * bps) with (cluster_addr c).
  rewrite (u32_id (cluster_addr c)), u32_id by lia. done.
Qed.

(** What the read loop knows after [r] bytes, read from offset [x]. *)
Definition fat_read_inv s0 d0 (c : Z) (cs : list Z) (x n : Z) (st : Z * list Z * fat_descriptor_t * fs W K) : Prop :=
  let '(r, out, d, s) := st in
  0 ≤ r ≤ n ∧ out = file_slice cs x r ∧ cursor_at d cs (x + r) ∧ item d = item d0 ∧
  disk_of d = disk_of d0 ∧ error d = error d0 ∧ fs_ready s ∧ kern s = kern s0.

Lemma fat_read_round_ok fuel s0 d0 c cs x len r out d s :
  file_ok d0 c cs → 0 ≤ x → capacity cs < 2 ^ 31 → 0 ≤ len < 2 ^ 31 →
  (Z.to_nat bpc < fuel)%nat → (2 < fuel)%nat → r < len → x + r < capacity cs →
  fat_read_inv s0 d0 c cs x (Z.min len (capacity cs - x)) (r, out, d, s) →
  ∃ st, fat_read_round fuel p len (r, out, d, s) = Ok (inl st) ∧
    fat_read_inv s0 d0 c cs x (Z.min len (capacity cs - x)) st ∧ r < fst (fst (fst st)).
Proof.
  intros Hfile Hx0 Hcap Hlen Hf Hf2 Hr Hxr (Hrn & Hout & Hcur & Hit & Hdk & Her & Hs & Hk).
  pose proof bpc_pos as Hb. set (y := x + r) in *.
  destruct (proj1 (chain_lookup cs y ltac:(lia)) Hxr) as [cl Hcl].
  pose proof (is_chain_ok _ _ _ _ (file_chain _ _ _ Hfile) Hcl) as Hclok.
  pose proof (address_ok _ _ _ _ Hcur Hclok Hcl) as Haddr.
  pose proof (Z.mod_pos_bound y bpc ltac:(lia)) as Hm. pose proof (Z.div_mod y bpc ltac:(lia)) as Hdm.
  assert (Hq0 : 0 ≤ y / bpc) by (apply Z.div_pos; lia).
  assert (Hcq : bpc * (y / bpc + 1) ≤ capacity cs).
  { unfold capacity. apply lookup_lt_Some in Hcl. apply Z.mul_le_mono_nonneg_l; lia. }
  assert (He : eof d = 0) by (rewrite (at_eof _ _ _ Hcur); by rewrite decide_True).
  unfold fat_read_round. rewrite decide_True by done. rewrite Haddr, (at_relative _ _ _ Hcur).
  rewrite (u32_id (len - r)), (u32_id (bpc - y mod bpc)) by lia.
  set (m := MIN (len - r) (bpc - y mod bpc)).
  assert (Hmm : 0 < m ∧ r + m ≤ Z.min len (capacity cs - x) ∧ y mod bpc + m ≤ bpc)
    by (subst m; unfold MIN; case_decide; lia).
  rewrite s32_id by lia. pose proof Hclok as (Hc2 & _ & _ & Hd3 & Hd4).
  pose proof (cluster_addr_nonneg cl Hclok) as Ha0.
  destruct (dev_read_ok fuel s (cluster_addr cl + y mod bpc) m Hs) as (s1 & E1 & Hs1 & Hk1); [lia..|].
  rewrite E1, bind_Ok. rewrite decide_False by lia.
  destruct (adjust_ok fuel s1 d c cs m Hs1 (file_ok_item _ _ _ _ Hfile Hit) He Hf2)
    as (d2 & s2 & E2 & Hs2 & Hk2 & Hit2 & Hdk2 & Her2 & Hcur2);
    [rewrite (at_pos _ _ _ Hcur); lia|rewrite (at_pos _ _ _ Hcur); lia|].
  rewrite E2, bind_Ok. rewrite decide_False by (intros Hne; by apply Hne).
  eexists. split; [reflexivity|]. rewrite (u32_id (r + m)) by lia. cbn [fst]. split; [|lia].
  rewrite (at_pos _ _ _ Hcur) in Hcur2.
  split; [lia|]. split; [|split; [|split; [|split; [|split; [|split]]]]]; try congruence; try done.
  - rewrite (cluster_slice cs (y / bpc) cl), file_slice_app, Hout by (try done; lia).
    do 2 f_equal. lia.
  - by replace (x + (r + m)) with (y + m) by lia.
Qed.

(** [__fat16_read] from offset [x]: the bytes up to [len] or the end of the chain. *)
Lemma fat_read_ok fuel s d c cs x len :
  fs_ready s → file_ok d c cs → cursor_at d cs x → 0 ≤ x ≤ capacity cs → capacity cs < 2 ^ 31 →
  0 ≤ len < 2 ^ 31 → (Z.to_nat bpc < fuel)%nat → (Z.to_nat len < fuel)%nat → (2 < fuel)%nat →
  let n := Z.min len (capacity cs - x) in
  ∃ d' s', __fat16_read fuel p s d len = Ok (n, file_slice cs x n, d', s') ∧ fs_ready s' ∧
    kern s' = kern s ∧ item d' = item d ∧ disk_of d' = disk_of d ∧ error d' = error d ∧
    cursor_at d' cs (x + n).
Proof.
  intros Hs Hfile Hcur Hx Hcap Hlen Hf1 Hf2 Hf3. cbn zeta. set (n := Z.min len (capacity cs - x)).
  unfold __fat16_read.
  destruct (while_total (fat_read_round fuel p len) (fat_read_inv s d c cs x n)
    (λ st, Z.to_nat (len - fst (fst (fst st))))
    (λ st, fat_read_inv s d c cs x n st ∧ fst (fst (fst st)) = n) fuel (0, [], d, s))
    as ([[[r out] d'] s'] & E & Hinv & Hrn); [| | |].
  - split; [lia|]. rewrite Z.add_0_r. done.
  - cbn [fst]. lia.
  - intros [[[r out] d1] s1] Hinv. destruct (decide (r < len ∧ x + r < capacity cs)) as [[H2 H3]|Hend].
    + left. destruct (fat_read_round_ok fuel s d c cs x len r out d1 s1) as (st & E & Hst & Hlt);
        try done; [lia|].
      exists st. split; [done|]. split; [done|]. cbn [fst] in *.
      destruct st as [[[r2 ?] ?] ?]. cbn [fst] in *. destruct Hst as ([? ?] & _). lia.
    + right. exists (r, out, d1, s1). pose proof Hinv as (Hr & Hout & Hcur1 & _).
      split; [|split; [done|cbn [fst]; lia]]. unfold fat_read_round.
      rewrite decide_False; [done|]. intros [H2 H3]. rewrite (at_eof _ _ _ Hcur1) in H3.
      case_decide; [lia|done].
  - cbn [fst] in Hrn. subst r. destruct Hinv as (Hr & -> & Hcur' & Hit & Hdk & Her & Hs' & Hk).
    exists d', s'. by rewrite E.
Qed.

(** A read of a file: at most [size * nmemb] bytes, at most to the file's end. *)
Lemma fat16_read_spec fuel s d c cs size nmemb :
  fs_ready s → file_ok d c cs → eof d = 0 → capacity cs < 2 ^ 31 →
  size_bytes (entry (item d)) ≤ capacity cs → 0 ≤ pos d < size_bytes (entry (item d)) →
  0 ≤ size * nmemb < 2 ^ 31 →
  (Z.to_nat bpc < fuel)%nat → (Z.to_nat (capacity cs) < fuel)%nat → (2 < fuel)%nat →
  let n := Z.min (size * nmemb) (size_bytes (entry (item d)) - pos d) in
  ∃ d' s', fat16_read fuel p s d size nmemb = Ok (n, file_slice cs (pos d) n, d', s') ∧
    fs_ready s' ∧ kern s' = kern s ∧ item d' = item d ∧ pos d' = pos d + n ∧
    eof d' = (if decide (pos d + n = size_bytes (entry (item d))) then 1 else 0).
Proof.
  intros Hs Hfile He Hcap Hsz Hpos Hreq Hf1 Hf2 Hf3. cbn zeta.
  set (sz := size_bytes (entry (item d))) in *. set (n := Z.min (size * nmemb) (sz - pos d)).
  unfold fat16_read.
  destruct (adjust_ok fuel s d c cs 0 Hs Hfile He Hf3) as (d1 & s1 & E1 & Hs1 & Hk1 & Hit1 & _ & _ & Hcur1);
    [lia..|].
  rewrite Z.add_0_r in Hcur1. rewrite E1, bind_Ok. rewrite decide_False by (intros Hne; by apply Hne).
  rewrite (at_eof _ _ _ Hcur1), (at_pos _ _ _ Hcur1), Hit1. fold sz.
  rewrite (decide_True (P := pos d < capacity cs)) by lia.
  rewrite (decide_False (P := 0 ≠ 0)) by (intros Hne; by apply Hne).
  rewrite (decide_False (P := sz ≤ pos d)) by lia. rewrite (u32_id (size * nmemb)), (u32_id (sz - pos d)) by lia.
  replace (MIN (size * nmemb) (sz - pos d)) with n by (subst n; unfold MIN; case_decide; lia).
  destruct (fat_read_ok fuel s1 d1 c cs (pos d) n Hs1 (file_ok_item _ _ _ _ Hfile Hit1) Hcur1)
    as (d2 & s2 & E2 & Hs2 & Hk2 & Hit2 & _ & _ & Hcur2); [lia..|].
  replace (Z.min n (capacity cs - pos d)) with n in * by lia.
  rewrite E2, bind_Ok, Hit2, Hit1. fold sz. rewrite (at_pos _ _ _ Hcur2).
  rewrite (s32_id n), (u32_id n) by lia.
  eexists _, s2. split; [reflexivity|]. split; [done|]. split; [congruence|].
  destruct (decide (sz ≤ pos d + n)) as [Hend|Hend].
  - cbn [item pos eof set_eof]. rewrite (decide_True (P := pos d + n = sz)) by lia.
    split; [congruence|]. split; [apply (at_pos _ _ _ Hcur2)|done].
  - rewrite (decide_False (P := pos d + n = sz)) by lia. split; [congruence|].
    split; [apply (at_pos _ _ _ Hcur2)|]. rewrite (at_eof _ _ _ Hcur2). by rewrite decide_True by lia.
Qed.

(** ** Searching a directory *)

(** What the search should find in the raw entries [raws], the first of which is
    number [i]: the first entry of that name, before the first empty one. *)
Fixpoint search (name ext : list Z) (raws : list (list Z)) (i : Z) : option (fat_entry_t * Z) :=
  match raws with
  | [] => None
  | raw :: raws =>
      let e := decode_entry raw in
      if skipped e then search name ext raws (i + 1)
      else if decide (byte_at (filename e) 0 = 0) then None
      else if same_name name (filename e) && same_name ext (extension e) then Some (e, i + 1)
      else search name ext raws (i + 1)
  end.

(** The search loop over any directory that yields [raws]: [C i] says that entry
    [i] is next. After the last entry the directory is at its end or fails. *)
Section search_loop.
Context (fuel : nat) (raws : list (list Z)) (it : fat_item_t) (k : K).
Context (C : nat → fat_descriptor_t → fs W K → Prop).
Hypothesis Hraws : Forall (λ raw, length raw = 32%nat) raws.
Hypothesis Hframe : ∀ i d s, C i d s → item d = it ∧ kern s = k ∧ fs_ready s.
Hypothesis Hread : ∀ i d s raw, C i d s → raws !! i = Some raw →
  eof d = 0 ∧ ∃ d' s', __fat16_read fuel p s d SIZEOF_FAT_ENTRY = Ok (32, raw, d', s') ∧ C (S i) d' s'.
Hypothesis Hend : ∀ d s, C (length raws) d s →
  eof d ≠ 0 ∨ ∃ r out d' s', __fat16_read fuel p s d SIZEOF_FAT_ENTRY = Ok (r, out, d', s') ∧
    s32 r < 0 ∧ item d' = it ∧ kern s' = k ∧ fs_ready s'.

Definition search_inv (name ext : list Z) (st : list Z * Z * fat_descriptor_t * fs W K) : Prop :=
  let '(raw, n, d, s) := st in
  ∃ i, n = Z.of_nat i ∧ (i ≤ length raws)%nat ∧ C i d s ∧ length raw = 32%nat ∧
    search name ext (drop i raws) n = search name ext raws 0.

Lemma search_loop_ok name ext d s raw : C 0 d s → length raw = 32%nat → (length raws < fuel)%nat →
  Z.of_nat (length raws) < 2 ^ 32 →
  ∃ d' s', while_loop fuel (find_entry_round fuel p name ext) (raw, 0, d, s) =
    Ok (search name ext raws 0, d', s') ∧ item d' = it ∧ kern s' = k ∧ fs_ready s'.
Proof.
  intros HC Hraw Hf Hl32.
  destruct (while_total (find_entry_round fuel p name ext) (search_inv name ext)
    (λ st, length raws - Z.to_nat (snd (fst (fst st))))%nat
    (λ r, ∃ d' s', r = (search name ext raws 0, d', s') ∧ item d' = it ∧ kern s' = k ∧ fs_ready s')
    fuel (raw, 0, d, s)) as (r & E & d' & s' & -> & Hit & Hk & Hs); [| | |by exists d', s'].
  { exists 0%nat. split; [done|]. split; [lia|]. done. }
  { cbn [fst snd]. lia. }
  clear d s raw HC Hraw Hf. intros [[[raw n] d] s] (i & -> & Hi & HC & Hraw & Hsearch).
  destruct (Hframe _ _ _ HC) as (Hit & Hk & Hs). unfold find_entry_round.
  destruct (raws !! i) as [new|] eqn:Enew.
  - destruct (Hread _ _ _ _ HC Enew) as (He & d' & s' & -> & HC'). rewrite decide_True, bind_Ok by done.
    pose proof (Forall_lookup_1 _ _ _ _ Hraws Enew) as Hnew. cbn beta in Hnew.
    unfold overlay. rewrite (drop_ge raw), app_nil_r by lia.
    rewrite decide_False by (rewrite s32_id; lia).
    rewrite (drop_S _ _ _ Enew) in Hsearch. cbn [search] in Hsearch.
    apply lookup_lt_Some in Enew. rewrite u32_id by lia. cbn [fst snd].
    destruct (Hframe _ _ _ HC') as (Hit' & Hk' & Hs').
    assert (Hstep : search name ext (drop (S i) raws) (Z.of_nat i + 1) = search name ext raws 0 →
      search_inv name ext (new, Z.of_nat i + 1, d', s')).
    { intros Hsr. exists (S i). split; [lia|]. split; [lia|]. done. }
    destruct (skipped (decode_entry new)).
    { left. eexists. split; [reflexivity|]. split; [by apply Hstep|]. cbn [fst snd]. lia. }
    case_decide.
    { right. eexists. split; [reflexivity|]. exists (set_eof d' 1), s'. by rewrite <- Hsearch. }
    rewrite <- negb_andb. destruct (same_name name _ && same_name ext _).
    { right. eexists. split; [reflexivity|]. exists d', s'. by rewrite <- Hsearch. }
    left. eexists. split; [reflexivity|]. split; [by apply Hstep|]. cbn [fst snd]. lia.
  - apply lookup_ge_None in Enew. assert (i = length raws) as -> by lia.
    rewrite drop_all in Hsearch. right. cbn [search] in Hsearch. rewrite <- Hsearch.
    destruct (Hend _ _ HC) as [He|(r & out & d' & s' & -> & Hr & Hrest)].
    + rewrite decide_False by done. eexists. split; [reflexivity|]. by exists d, s.
    + destruct (decide (eof d = 0)).
      * rewrite bind_Ok, decide_True by done. eexists. split; [reflexivity|]. by exists d', s'.
      * eexists. split; [reflexivity|]. by exists d, s.
Qed.

(** The item made of an entry found in the directory [it]. *)
Definition item_of (e : fat_entry_t) (i : Z) : fat_item_t :=
  FatItem (if decide (Z.land FAT16_FILE_SUBDIRECTORY (attributes e) ≠ 0)
           then FAT16_DIRECTORY_FLAG else FAT16_FILE_FLAG) e
    (fat16_cluster_number_to_data_sector p (low16_bits_first_cluster e)) (first_sector it) i.

Lemma find_entry_ok name ext d s : C 0 (__fat16_reset_cursors d) s →
  type it = FAT16_DIRECTORY_FLAG ∨ type it = FAT16_ROOT_DIRECTORY_FLAG → item d = it →
  (length raws < fuel)%nat → Z.of_nat (length raws) < 2 ^ 32 →
  match search (pad 8 name) (pad 3 ext) raws 0 with
  | None => ∃ d' s', fat16_find_entry_in_dir fuel p s d name ext = Ok (None, d', s') ∧
      kern s' = k ∧ fs_ready s'
  | Some (e, i) => ∀ a k', kzalloc k SIZEOF_FAT_ITEM = Ok (a, k') → a ≠ 0 →
      ∃ d' s', fat16_find_entry_in_dir fuel p s d name ext = Ok (Some (a, item_of e i), d', s') ∧
        kern s' = k' ∧ fs_ready s'
  end.
Proof.
  intros HC Ht Hit Hf Hl. unfold fat16_find_entry_in_dir.
  destruct (search_loop_ok (pad 8 name) (pad 3 ext) (__fat16_reset_cursors d) s (replicate 32 0))
    as (d1 & s1 & E & Hit1 & Hk1 & Hs1); [done|by rewrite length_replicate|done|done|].
  assert (Hg : ¬ (type (item d) ≠ FAT16_DIRECTORY_FLAG ∧ type (item d) ≠ FAT16_ROOT_DIRECTORY_FLAG))
    by (rewrite Hit; tauto).
  rewrite decide_False by exact Hg. rewrite E, bind_Ok.
  destruct (search _ _ raws 0) as [[e i]|].
  - intros a k' Ea Ha. rewrite Hk1, Ea, bind_Ok. rewrite decide_False by done.
    eexists _, _. split; [by rewrite Hit1|]. done.
  - eexists _, _. by split.
Qed.
End search_loop.

(** The [n] entries of a directory stored in clusters, and of the root directory. *)
Definition dir_entries (cs : list Z) (n : nat) : list (list Z) :=
  (λ i, file_slice cs (32 * i) 32) <$> seqZ 0 (Z.of_nat n).

Definition root_addr (i : Z) : Z := first_sector (root_directory p) * bps + 32 * i.
Definition root_entries (n : nat) : list (list Z) :=
  (λ i, disk_slice (root_addr i) 32) <$> seqZ 0 (Z.of_nat n).

Lemma entries_lookup {A} (f : Z → A) n i x :
  (f <$> seqZ 0 (Z.of_nat n)) !! i = Some x → (i < n)%nat ∧ x = f (Z.of_nat i).
Proof.
  intros E. rewrite list_lookup_fmap in E. destruct (seqZ 0 (Z.of_nat n) !! i) as [y|] eqn:Ey; [|done].
  apply lookup_seqZ in Ey as [-> Hlt]. injection E as <-. split; [lia|]. by rewrite Z.add_0_l.
Qed.

Lemma cursor_reset d c cs : file_ok d c cs → cursor_at (__fat16_reset_cursors d) cs 0.
Proof.
  intros [_ _ Hsec Hch Hne]. pose proof bpc_pos. unfold __fat16_reset_cursors. split; cbn.
  - done.
  - by rewrite Z.mod_0_l by lia.
  - rewrite decide_True; [done|]. unfold capacity. destruct cs; [done|]. cbn [length]. lia.
  - intros x Hx. rewrite Z.div_0_l in Hx by lia. destruct cs as [|y cs]; [done|].
    injection Hx as ->. destruct Hch as (-> & _). exact Hsec.
Qed.

(** A directory in clusters, whose chain holds [n] entries. *)
Lemma subdirectory_search fuel s d c cs n name ext :
  fs_ready s → file_ok d c cs → type (item d) = FAT16_DIRECTORY_FLAG → capacity cs = 32 * Z.of_nat n →
  capacity cs < 2 ^ 31 → (Z.to_nat bpc < fuel)%nat → (n < fuel)%nat → (32 < fuel)%nat →
  match search (pad 8 name) (pad 3 ext) (dir_entries cs n) 0 with
  | None => ∃ d' s', fat16_find_entry_in_dir fuel p s d name ext = Ok (None, d', s') ∧
      kern s' = kern s ∧ fs_ready s'
  | Some (e, i) => ∀ a k', kzalloc (kern s) SIZEOF_FAT_ITEM = Ok (a, k') → a ≠ 0 →
      ∃ d' s', fat16_find_entry_in_dir fuel p s d name ext = Ok (Some (a, item_of (item d) e i), d', s') ∧
        kern s' = k' ∧ fs_ready s'
  end.
Proof.
  intros Hs Hfile Ht Hcap Hc31 Hf1 Hf2 Hf3.
  assert (Hlen : length (dir_entries cs n) = n) by (unfold dir_entries; rewrite length_fmap, length_seqZ; lia).
  apply (find_entry_ok fuel (dir_entries cs n) (item d) (kern s)
    (λ i d1 s1, (i ≤ n)%nat ∧ cursor_at d1 cs (32 * Z.of_nat i) ∧ item d1 = item d ∧ kern s1 = kern s ∧ fs_ready s1));
    try done; try lia.
  - apply Forall_lookup. intros i x Hx. apply entries_lookup in Hx as [Hi ->].
    pose proof (file_slice_length cs (32 * Z.of_nat i) 32). lia.
  - intros i d1 s1 (_ & _ & ? & ? & ?). done.
  - intros i d1 s1 raw (Hi & Hcur & Hit & Hk & Hs1) Hx. apply entries_lookup in Hx as [Hin ->].
    split; [rewrite (at_eof _ _ _ Hcur); by rewrite decide_True by lia|].
    destruct (fat_read_ok fuel s1 d1 c cs (32 * Z.of_nat i) 32 Hs1 (file_ok_item _ _ _ _ Hfile Hit) Hcur)
      as (d' & s' & E & Hs' & Hk' & Hit' & _ & _ & Hcur'); [lia..|].
    replace (Z.min 32 (capacity cs - 32 * Z.of_nat i)) with 32 in * by lia.
    exists d', s'. split; [done|]. split; [lia|].
    replace (32 * Z.of_nat (S i)) with (32 * Z.of_nat i + 32) by lia.
    split; [done|]. split; [congruence|]. split; [congruence|done].
  - intros d1 s1 (_ & Hcur & _). left. rewrite (at_eof _ _ _ Hcur), decide_False by lia. done.
  - split; [lia|]. split; [by eapply cursor_reset|]. done.
Qed.

(** The root directory with entry [i] next. The limit is in bytes although
    [data_sector] counts sectors. *)
Record root_at d (i : nat) : Prop := RootAt {
  root_pos : pos d = 32 * Z.of_nat i;
  root_relative : relative_pos d = 32 * Z.of_nat i;
  root_sector : current_cluster_first_sector d = first_sector (root_directory p);
  root_eof : eof d = if decide (32 * Z.of_nat i < data_sector p) then 0 else 1;
  root_item : fat16_item_is_root_dir p (item d) = true
}.

Lemma root_read fuel s d i : fs_ready s → root_at d i → 32 * Z.of_nat i < data_sector p →
  data_sector p + 32 ≤ bpc → 0 ≤ first_sector (root_directory p) →
  root_addr (Z.of_nat i) + 32 ≤ disk_size → root_addr (Z.of_nat i) + 32 < 2 ^ 32 → (32 < fuel)%nat →
  ∃ s', fs_ready s' ∧ kern s' = kern s ∧
    if decide (32 * Z.of_nat (S i) ≤ data_sector p) then
      ∃ d', __fat16_read fuel p s d SIZEOF_FAT_ENTRY = Ok (32, disk_slice (root_addr (Z.of_nat i)) 32, d', s') ∧
        root_at d' (S i) ∧ item d' = item d
    else ∃ out d', __fat16_read fuel p s d SIZEOF_FAT_ENTRY = Ok (u32 (- EIO), out, d', s') ∧ item d' = item d.
Proof.
  intros Hs [Hp Hr Hsec He Hroot] Hlt Hbig Hfirst Ha1 Ha2 Hf. pose proof bpc_pos.
  rewrite decide_True in He by done.
  assert (Hroot0 : 0 ≤ first_sector (root_directory p) * bps) by (destruct Hv; apply Z.mul_nonneg_nonneg; lia).
  unfold root_addr in *.
  destruct (dev_read_ok fuel s (first_sector (root_directory p) * bps + 32 * Z.of_nat i) 32 Hs)
    as (s' & E & Hs' & Hk); [lia..|].
  exists s'. split; [done|]. split; [done|].
  assert (Hround : fat_read_round fuel p SIZEOF_FAT_ENTRY (0, [], d, s) =
    (a ← __fat16_adjust_cursors fuel p s' d 32;
     let '(res, d, s) := a in
     let out := disk_slice (first_sector (root_directory p) * bps + 32 * Z.of_nat i) 32 in
     if decide (res ≠ 0) then Ok (inr (u32 res, out, d, s)) else Ok (inl (32, out, d, s)))).
  { unfold fat_read_round. rewrite He. rewrite decide_True by done. unfold __fat16_descriptor_to_absolute_address. rewrite Hsec, Hr. cbn zeta.
    rewrite (u32_id (first_sector (root_directory p) * bps)), (u32_id (_ + 32 * Z.of_nat i)) by lia.
    rewrite (u32_id (bpc - 32 * Z.of_nat i)) by lia.
    replace (MIN (u32 (SIZEOF_FAT_ENTRY - 0)) (bpc - 32 * Z.of_nat i)) with 32
      by (rewrite MIN_min; unfold SIZEOF_FAT_ENTRY; rewrite u32_id by lia; lia).
    rewrite (s32_id 32), E, bind_Ok by lia. rewrite decide_False by lia. done. }
  unfold __fat16_adjust_cursors in Hround. cbn [item set_pos] in Hround.
  rewrite Hroot, Hp, u32_id in Hround by lia.
  unfold __fat16_adjust_cursors_root_dir in Hround. cbn [pos set_pos set_relative_pos] in Hround.
  replace (32 * Z.of_nat i + 32) with (32 * Z.of_nat (S i)) in Hround by lia.
  unfold __fat16_read. destruct fuel as [|[|fuel]]; [lia..|].
  destruct (decide (32 * Z.of_nat (S i) ≤ data_sector p)) as [Hin|Hin].
  - destruct (decide (data_sector p ≤ 32 * Z.of_nat (S i))) as [Hge|Hle].
    + rewrite (decide_False (P := data_sector p < 32 * Z.of_nat (S i))) in Hround by lia.
      rewrite (while_continue _ _ _ _ Hround). eexists. split; [apply while_exit; done|].
      split; [|done]. split; cbn; try done. rewrite decide_False; [done|lia].
    + rewrite (while_continue _ _ _ _ Hround). eexists. split; [apply while_exit; done|].
      split; [|done]. split; cbn; try done. rewrite decide_True; [done|lia].
  - rewrite (decide_True (P := data_sector p ≤ 32 * Z.of_nat (S i))) in Hround by lia.
    rewrite (decide_True (P := data_sector p < 32 * Z.of_nat (S i))) in Hround by lia.
    eexists _, _. split; [exact (while_exit _ _ _ _ Hround)|]. done.
Qed.

(** The root directory: the search sees [data_sector / 32] entries, no more. *)
Lemma root_search fuel s d name ext :
  fs_ready s → fat16_item_is_root_dir p (item d) = true → 0 < data_sector p < 2 ^ 31 → data_sector p + 32 ≤ bpc →
  0 ≤ first_sector (root_directory p) →
  root_addr (data_sector p / 32) + 32 ≤ disk_size → root_addr (data_sector p / 32) + 32 < 2 ^ 32 →
  (Z.to_nat (data_sector p) < fuel)%nat → (32 < fuel)%nat →
  match search (pad 8 name) (pad 3 ext) (root_entries (Z.to_nat (data_sector p / 32))) 0 with
  | None => ∃ d' s', fat16_find_entry_in_dir fuel p s d name ext = Ok (None, d', s') ∧
      kern s' = kern s ∧ fs_ready s'
  | Some (e, i) => ∀ a k', kzalloc (kern s) SIZEOF_FAT_ITEM = Ok (a, k') → a ≠ 0 →
      ∃ d' s', fat16_find_entry_in_dir fuel p s d name ext = Ok (Some (a, item_of (item d) e i), d', s') ∧
        kern s' = k' ∧ fs_ready s'
  end.
Proof.
  intros Hs Hroot Hd Hbig Hfirst Ha1 Ha2 Hf1 Hf2. set (n := Z.to_nat (data_sector p / 32)) in *.
  assert (Hn : 32 * Z.of_nat n ≤ data_sector p < 32 * Z.of_nat n + 32)
    by (subst n; Z.div_mod_to_equations; lia).
  assert (Hnd : data_sector p / 32 = Z.of_nat n) by (subst n; Z.div_mod_to_equations; lia).
  rewrite Hnd in Ha1, Ha2.
  assert (Hlen : length (root_entries n) = n) by (unfold root_entries; rewrite length_fmap, length_seqZ; lia).
  apply (find_entry_ok fuel (root_entries n) (item d) (kern s)
    (λ i d1 s1, (i ≤ n)%nat ∧ root_at d1 i ∧ item d1 = item d ∧ kern s1 = kern s ∧ fs_ready s1));
    try done; try lia.
  - apply Forall_lookup. intros i x Hx. apply entries_lookup in Hx as [Hi ->].
    pose proof (disk_slice_length (root_addr (Z.of_nat i)) 32). lia.
  - intros i d1 s1 (_ & _ & ? & ? & ?). done.
  - intros i d1 s1 raw (Hi & Hat & Hit & Hk & Hs1) Hx. apply entries_lookup in Hx as [Hin ->].
    split; [rewrite (root_eof _ _ Hat); by rewrite decide_True by lia|].
    unfold root_addr in *.
    destruct (root_read fuel s1 d1 i Hs1 Hat) as (s' & Hs' & Hk' & Hr); unfold root_addr; try done; try lia.
    rewrite decide_True in Hr by lia. destruct Hr as (d' & E & Hat' & Hit').
    exists d', s'. split; [done|]. split; [lia|]. split; [done|]. split; [congruence|]. split; [congruence|done].
  - intros d1 s1 (_ & Hat & Hit & Hk & Hs1). rewrite Hlen in *.
    destruct (decide (32 * Z.of_nat n < data_sector p)) as [Hlt|Hge].
    + right. destruct (root_read fuel s1 d1 n Hs1 Hat Hlt) as (s' & Hs' & Hk' & Hr); try done.
      rewrite decide_False in Hr by lia. destruct Hr as (out & d' & E & Hit').
      exists (u32 (- EIO)), out, d', s'. split; [done|]. split; [by vm_compute|]. split; [congruence|].
      split; [congruence|done].
    + left. rewrite (root_eof _ _ Hat). by rewrite decide_False by lia.
  - split; [lia|]. split; [|done]. unfold __fat16_reset_cursors.
    split; cbn; try done; [|by rewrite decide_True by lia].
    unfold fat16_item_is_root_dir in Hroot. case_decide; [done|].
    by apply bool_decide_eq_true_1 in Hroot.
  - right. unfold fat16_item_is_root_dir in Hroot.
    destruct (decide (type (item d) = FAT16_ROOT_DIRECTORY_FLAG)) as [|Hne]; [done|].
    by rewrite decide_True in Hroot.
Qed.
End volume.

(** C7: reading a file gives the file: [fat16_read] on a file whose FAT chain is
    [cs], from any position before its end, terminates, follows the chain across
    clusters, and returns exactly the next bytes of the file, as many as asked or
    as are left; the position advances by them and [eof] is set at the end. *)
Theorem fat16_read_reads {W K} `{BlockDeviceLaws W} `{Allocator K} p fuel (s : fs W K) d c cs size nmemb :
  volume_ok p → fs_ready s → file_ok p d c cs → eof d = 0 → capacity p cs < 2 ^ 31 →
  size_bytes (entry (item d)) ≤ capacity p cs → 0 ≤ pos d < size_bytes (entry (item d)) →
  0 ≤ size * nmemb < 2 ^ 31 →
  (Z.to_nat (bytes_per_cluster p) < fuel)%nat → (Z.to_nat (capacity p cs) < fuel)%nat → (2 < fuel)%nat →
  let n := Z.min (size * nmemb) (size_bytes (entry (item d)) - pos d) in
  ∃ d' s', fat16_read fuel p s d size nmemb = Ok (n, file_slice p cs (pos d) n, d', s') ∧
    fs_ready s' ∧ kern s' = kern s ∧ item d' = item d ∧ pos d' = pos d + n ∧
    eof d' = (if decide (pos d + n = size_bytes (entry (item d))) then 1 else 0).
Proof. intros Hv. by apply fat16_read_spec. Qed.

(** C33: looking a name up in a subdirectory terminates and finds its first entry
    of that name: skipping labels and long-name entries, stopping at the first
    empty entry, over every cluster of the directory; the item returned is made
    of that entry. *)
Theorem find_entry_finds {W K} `{BlockDeviceLaws W} `{Allocator K} p fuel (s : fs W K) d c cs n name ext :
  volume_ok p → fs_ready s → file_ok p d c cs → type (item d) = FAT16_DIRECTORY_FLAG →
  capacity p cs = 32 * Z.of_nat n → capacity p cs < 2 ^ 31 →
  (Z.to_nat (bytes_per_cluster p) < fuel)%nat → (n < fuel)%nat → (32 < fuel)%nat →
  match search (pad 8 name) (pad 3 ext) (dir_entries p cs n) 0 with
  | None => ∃ d' s', fat16_find_entry_in_dir fuel p s d name ext = Ok (None, d', s') ∧
      kern s' = kern s ∧ fs_ready s'
  | Some (e, i) => ∀ a k', kzalloc (kern s) SIZEOF_FAT_ITEM = Ok (a, k') → a ≠ 0 →
      ∃ d' s', fat16_find_entry_in_dir fuel p s d name ext = Ok (Some (a, item_of p (item d) e i), d', s') ∧
        kern s' = k' ∧ fs_ready s'
  end.
Proof. intros Hv. by apply subdirectory_search. Qed.

(** C34: the root directory is cut short: because its position in bytes is compared
    with the sector number [data_sector], a look-up there sees the first
    [data_sector / 32] entries and no other, whatever the directory holds. *)
Theorem root_search_truncated {W K} `{BlockDeviceLaws W} `{Allocator K} p fuel (s : fs W K) d name ext :
  volume_ok p → fs_ready s → fat16_item_is_root_dir p (item d) = true →
  0 < data_sector p < 2 ^ 31 → data_sector p + 32 ≤ bytes_per_cluster p →
  0 ≤ first_sector (root_directory p) →
  root_addr p (data_sector p / 32) + 32 ≤ disk_size → root_addr p (data_sector p / 32) + 32 < 2 ^ 32 →
  (Z.to_nat (data_sector p) < fuel)%nat → (32 < fuel)%nat →
  match search (pad 8 name) (pad 3 ext) (root_entries p (Z.to_nat (data_sector p / 32))) 0 with
  | None => ∃ d' s', fat16_find_entry_in_dir fuel p s d name ext = Ok (None, d', s') ∧
      kern s' = kern s ∧ fs_ready s'
  | Some (e, i) => ∀ a k', kzalloc (kern s) SIZEOF_FAT_ITEM = Ok (a, k') → a ≠ 0 →
      ∃ d' s', fat16_find_entry_in_dir fuel p s d name ext = Ok (Some (a, item_of p (item d) e i), d', s') ∧
        kern s' = k' ∧ fs_ready s'
  end.
Proof. intros Hv. by apply root_search. Qed.

(** ** A volume for the witnesses

    512-byte sectors and clusters; 60 reserved sectors, one FAT of 8, a root
    directory of 32 entries at sector 68, data from sector 70. Cluster 2 is
    followed by cluster 4; cluster 3 is a directory of one cluster. *)
Definition witness_raw_entry (name : Z) (cluster : Z) : list Z :=
  [name] ++ replicate 7 32 ++ replicate 3 32 ++ [0x20] ++ replicate 14 0 ++ [cluster; 0] ++ [188; 2; 0; 0].

Definition witness_image : gmap Z Z :=
  write_bytes (write_bytes (write_bytes (write_bytes ∅
    (60 * 512 + 4) [4; 0; 0xF8; 0xFF; 0xF8; 0xFF])
    (68 * 512) (concat ((λ i, witness_raw_entry (65 + i) 2) <$> seqZ 0 5)))
    (71 * 512) (concat ((λ i, witness_raw_entry (70 + i) 2) <$> seqZ 0 3)))
    (70 * 512) (replicate 512 7).

#[local] Instance witness_disk : BlockDevice unit := memory_disk (λ x, default 0 (witness_image !! x)).
#[local] Instance witness_disk_laws : BlockDeviceLaws unit :=
  memory_disk_laws (λ x, default 0 (witness_image !! x)).

Definition witness_private : fat_private_data_t :=
  FatPrivate (FatHeader 512 1 60 1 32 8 FAT16_SIGNATURE FAT16_SYSTEM_ID) 512 70
    (FatItem FAT16_ROOT_DIRECTORY_FLAG zero_entry 68 0 0) 0x5000.

Definition witness_fs : fs unit kernel := Fs (DiskStream 0 (DiskAt 0)) tt witness_kernel.

Definition witness_file : fat_descriptor_t :=
  FatDescriptor (FatItem FAT16_FILE_FLAG (decode_entry (witness_raw_entry 65 2)) 70 68 1)
    0 100 0 70 (DiskAt 0) 0.
Definition witness_directory : fat_descriptor_t :=
  FatDescriptor (FatItem FAT16_DIRECTORY_FLAG (decode_entry (witness_raw_entry 68 3)) 71 68 1)
    0 0 0 71 (DiskAt 0) 0.
Definition witness_root : fat_descriptor_t :=
  FatDescriptor (root_directory witness_private) 0 0 0 68 (DiskAt 0) 0.

Lemma witness_volume_ok : volume_ok witness_private.
Proof. split; cbn; lia. Qed.

Lemma witness_cluster_ok c : 2 ≤ c < 100 → cluster_ok witness_private c.
Proof.
  intros Hc. assert (Hs : disk_size = 512000) by by vm_compute.
  unfold cluster_ok, fat_addr, cluster_addr, cluster_sector, FAT16_CLUSTER_RESERVED.
  rewrite Hs. cbn [witness_private header data_sector bytes_per_cluster bytes_per_sector
    sectors_per_cluster reserved_sectors]. lia.
Qed.

Lemma witness_file_ok : file_ok witness_private witness_file 2 [2; 4].
Proof.
  assert (E2 : fat_next witness_private 2 = 4) by by vm_compute.
  assert (E4 : fat_next witness_private 4 = 0xFFF8) by by vm_compute.
  split; [done|done|done| |done]. cbn [is_chain]. rewrite E2, E4.
  split; [done|]. split; [apply witness_cluster_ok; lia|]. split; [done|].
  split; [apply witness_cluster_ok; lia|]. by unfold FAT16_CLUSTER_CHAIN_END_BEGIN.
Qed.

Lemma witness_directory_ok : file_ok witness_private witness_directory 3 [3].
Proof.
  assert (E3 : fat_next witness_private 3 = 0xFFF8) by by vm_compute.
  split; [done|done|done| |done]. cbn [is_chain]. rewrite E3.
  split; [done|]. split; [apply witness_cluster_ok; lia|]. by unfold FAT16_CLUSTER_CHAIN_END_BEGIN.
Qed.

(** 600 bytes from position 100 of a file of 700: they span both clusters. *)
Lemma fat16_read_reads_witness :
  ∃ d' s', fat16_read 2000 witness_private witness_fs witness_file 1 1000 =
      Ok (600, file_slice witness_private [2; 4] 100 600, d', s') ∧
    fs_ready s' ∧ kern s' = witness_kernel ∧ item d' = item witness_file ∧ pos d' = 700 ∧ eof d' = 1.
Proof.
  apply (fat16_read_reads witness_private 2000 witness_fs witness_file 2 [2; 4] 1 1000 witness_volume_ok).
  - done.
  - exact witness_file_ok.
  - done.
  - by vm_compute.
  - by vm_compute.
  - by vm_compute.
  - lia.
  - apply Nat.ltb_lt. by vm_compute.
  - apply Nat.ltb_lt. by vm_compute.
  - lia.
Defined.

(** The second of the three entries of the directory is 'G'. *)
Lemma find_entry_finds_witness :
  ∃ d' s', fat16_find_entry_in_dir 2000 witness_private witness_fs witness_directory [71] [] =
      Ok (Some (0x11000, item_of witness_private (item witness_directory)
        (decode_entry (witness_raw_entry 71 2)) 2), d', s') ∧
    kern s' = result_or (kzalloc witness_kernel SIZEOF_FAT_ITEM) witness_kernel ∧ fs_ready s'.
Proof.
  assert (E : search (pad 8 [71]) (pad 3 []) (dir_entries witness_private [3] 16) 0 =
    Some (decode_entry (witness_raw_entry 71 2), 2)) by (vm_compute; reflexivity).
  assert (Ha : kzalloc witness_kernel SIZEOF_FAT_ITEM =
    Ok (0x11000, result_or (kzalloc witness_kernel SIZEOF_FAT_ITEM) witness_kernel))
    by (apply run_result; vm_compute; reflexivity).
  pose proof (find_entry_finds witness_private 2000 witness_fs witness_directory 3 [3] 16 [71] []
    witness_volume_ok (conj I eq_refl) witness_directory_ok eq_refl eq_refl) as Hf.
  rewrite E in Hf. apply Hf; [by vm_compute|apply Nat.ltb_lt; by vm_compute|lia|lia|exact Ha|lia].
Defined.

(** The root directory holds 'C' in its third entry, but [70 / 32 = 2]. *)
Lemma root_search_truncated_witness :
  ∃ d' s', fat16_find_entry_in_dir 2000 witness_private witness_fs witness_root [67] [] =
      Ok (None, d', s') ∧ kern s' = witness_kernel ∧ fs_ready s'.
Proof.
  assert (E : search (pad 8 [67]) (pad 3 []) (root_entries witness_private (Z.to_nat (70 / 32))) 0 = None)
    by (vm_compute; reflexivity).
  pose proof (root_search_truncated witness_private 2000 witness_fs witness_root [67] []
    witness_volume_ok (conj I eq_refl) eq_refl) as Hr.
  change (data_sector witness_private) with 70 in Hr. rewrite E in Hr.
  apply Hr; [lia|cbn; lia|cbn; lia|by vm_compute|by vm_compute|lia|lia].
Defined.
