(* ===== verification/PathParser.v ===== *)
(** [src/fs/path_parser.c] and [path_parser.h]: paths of the form ["0:/a/b"].

    The structs live in the allocator's memory: a [path_root] at [p] is
    [drive_number] at [p] and [first] at [p + 4]; a [path_part] at [q] is [part]
    at [q] and [next] at [q + 4]. [current_segment] is the address of the pointer
    the next part is linked from. [colon_slash] is the address of the literal
    [":/"]. *)
From S2P Require Import Prelude Mem CString Heap Kheap Store.

Definition MAX_PATH_LEN : Z := 250.
Definition SIZEOF_PATH_ROOT : Z := 8.
Definition SIZEOF_PATH_PART : Z := 8.

Section path_parser.
Context {K : Type} `{Allocator K}.

Definition pathparser_path_is_valid (k : K) (colon_slash path : Z) : outcome bool :=
  len ← strnlen (memory k) path MAX_PATH_LEN;
  if decide (len < 3) then Ok false
  else
    c ← load_char (memory k) path;
    if negb (is_digit c) then Ok false
    else
      r ← memcmp (memory k) colon_slash (path + 1) 2;
      Ok (bool_decide (r = 0)).

Definition pathparser_path_get_drive (k : K) (path : Z) : outcome Z :=
  c ← load_char (memory k) path; Ok (numeric_char_to_digit c).

(** A new part at [*current_segment]: its struct and its text. *)
Definition append_part (k : K) (current_segment path_ptr part_len : Z) : outcome (Z * K) :=
  pk ← kzalloc k SIZEOF_PATH_PART; let '(p, k) := pk in
  k ← kwrite k current_segment p;
  sk ← kzalloc k (part_len + 1); let '(s, k) := sk in
  segment ← kread k current_segment;
  k ← kwrite k segment s;
  part ← kread k segment;
  k ← kcopy k part path_ptr part_len;
  Ok (segment, k).

(** One round of the parsing loop on [(path_ptr, current_segment, k)]. *)
Definition parse_round (path_end : Z) (st : Z * Z * K) : outcome ((Z * Z * K) + K) :=
  let '(path_ptr, current_segment, k) := st in
  if decide (path_ptr ≤ path_end) then
    next_slash ← memchr (memory k) path_ptr 47 (path_end - path_ptr);
    let next_slash := if decide (next_slash ≠ 0) then next_slash else path_end in
    let part_len := next_slash - path_ptr in
    if decide (part_len = 0) then Ok (inr k)
    else
      pk ← append_part k current_segment path_ptr part_len; let '(segment, k) := pk in
      Ok (inl (path_ptr + (part_len + 1), segment + 4, k))
  else Ok (inr k).

(** One round of the loop of [pathparse_path_free] on [(ptr, k)]. *)
Definition free_round (st : Z * K) : outcome ((Z * K) + K) :=
  let '(ptr, k) := st in
  if decide (ptr ≠ 0) then
    next ← kread k (ptr + 4);
    part ← kread k ptr;
    k ← (if decide (part ≠ 0) then kfree k part else Ok k);
    k ← kfree k ptr;
    Ok (inl (next, k))
  else Ok (inr k).

Definition pathparse_path_free (fuel : nat) (k : K) (path : Z) : outcome K :=
  first ← kread k (path + 4);
  k ← while_loop fuel free_round (first, k);
  kfree k path.

Definition pathparser_path_parse (fuel : nat) (k : K) (colon_slash path : Z) : outcome (Z * K) :=
  valid ← pathparser_path_is_valid k colon_slash path;
  if negb valid then Ok (0, k)
  else
    len ← strnlen (memory k) path MAX_PATH_LEN;
    let path_end := path + len in
    pk ← kzalloc k SIZEOF_PATH_ROOT; let '(p, k) := pk in
    if decide (p = 0) then Ok (0, k)
    else
      drive ← pathparser_path_get_drive k path;
      k ← kwrite k p (u32 drive);
      if decide (drive < 0) then k ← pathparse_path_free fuel k p; Ok (0, k)
      else
        k ← while_loop fuel (parse_round path_end) (path + 3, p + 4, k);
        Ok (p, k).
End path_parser.

(** * What a path means *)

(** [splits l parts]: the text [l] is the parts between slashes, up to the first
    empty one. *)
Inductive splits : list Z → list (list Z) → Prop :=
  | splits_end : splits [] []
  | splits_empty l : splits (47 :: l) []
  | splits_last c : c ≠ [] → Forall (λ b, b ≠ 47) c → splits c [c]
  | splits_more c l parts : c ≠ [] → Forall (λ b, b ≠ 47) c → splits l parts →
      splits (c ++ 47 :: l) (c :: parts).

(** The text of a list of parts. *)
Fixpoint join (parts : list (list Z)) : list Z :=
  match parts with
  | [] => []
  | [c] => c
  | c :: parts => c ++ 47 :: join parts
  end.

Lemma splits_join parts : Forall (λ c, c ≠ [] ∧ Forall (λ b, b ≠ 47) c) parts → splits (join parts) parts.
Proof.
  induction 1 as [|c parts [Hc Hs] _ IH]; [constructor|]. destruct parts as [|c' parts].
  - by apply splits_last.
  - by apply splits_more.
Qed.

Lemma find_slash c l : Forall (λ b, b ≠ 47) c →
  list_find (λ b, b = 47) (c ++ 47 :: l) = Some (length c, 47).
Proof.
  induction 1 as [|b c Hb _ IH]; cbn; [done|]. rewrite decide_False by done. by rewrite IH.
Qed.

Lemma find_no_slash c : Forall (λ b, b ≠ 47) c → list_find (λ b, b = 47) c = None.
Proof. induction 1 as [|b c Hb _ IH]; cbn; [done|]. rewrite decide_False by done. by rewrite IH. Qed.

Section parsing.
Context {K : Type} `{AllocatorLaws K}.
Implicit Type k : K.

(** The struct at [node] holds the text [c], in memory of its own. *)
Definition part_at k (node : Z) (c : list Z) : Prop :=
  ∃ str, kread k node = Ok str ∧ str ≠ 0 ∧ cstr (memory k) str c ∧
    kowned k str (Z.of_nat (length c) + 1) ∧ apart str (Z.of_nat (length c) + 1) (node + 4) 4.

(** The parts linked from the pointer at [cell]. *)
Fixpoint parts_at k (cell : Z) (parts : list (list Z)) : Prop :=
  match parts with
  | [] => kread k cell = Ok 0
  | c :: parts => ∃ node, kread k cell = Ok node ∧ node ≠ 0 ∧ kowned k node 8 ∧ part_at k node c ∧
      parts_at k (node + 4) parts
  end.

(** What parsing allocates, in order. *)
Definition part_sizes (parts : list (list Z)) : list Z :=
  flat_map (λ c, [SIZEOF_PATH_PART; Z.of_nat (length c) + 1]) parts.

(** A new part's struct, linked from [cell], and then its text. *)
Lemma link_part {Q} sizes k cell :
  alloc_inv k → kowned k cell 4 → room_then Q (SIZEOF_PATH_PART :: sizes) k →
  ∃ p k1 k2, kzalloc k SIZEOF_PATH_PART = Ok (p, k1) ∧ kwrite k1 cell p = Ok k2 ∧ p ≠ 0 ∧
    modifies [(cell, 4)] k k2 ∧ room_then Q sizes k2 ∧ kowned k2 p 8 ∧ fresh k p 8 ∧
    kread k2 cell = Ok p ∧ kread k2 (p + 4) = Ok 0.
Proof.
  intros Hi Hc Hr.
  destruct (alloc_step SIZEOF_PATH_PART sizes k Hi ltac:(by vm_compute) Hr)
    as (p & k1 & E1 & Hp0 & Hp1 & _ & M1 & R1 & O1 & F1 & Z1). change SIZEOF_PATH_PART with 8 in *.
  destruct (write_step (Q := Q) sizes k1 cell p (modifies_inv _ _ _ M1)) as (k2 & E2 & M2 & R2 & W2);
    [by apply (modifies_owned _ _ _ _ _ M1)|lia|done|].
  exists p, k1, k2. split; [done|]. split; [done|]. split; [lia|]. split.
  { apply (modifies_step _ [(cell, 4)] k k1); [by apply (modifies_sub _ []); [|constructor]|done|done]. }
  split; [done|]. split; [by apply (modifies_owned _ _ _ _ _ M2)|]. split; [done|]. split; [done|].
  rewrite (modifies_load _ _ _ p 8 M2 O1); [by apply (zeroed_read _ _ _ _ Z1); lia| |lia..].
  pose proof (F1 cell 4 ltac:(lia) Hc). apart_tac.
Qed.

Lemma text_part {Q} sizes k p ptr c :
  let l := Z.of_nat (length c) in
  alloc_inv k → kowned k p 8 → room_then Q (l + 1 :: sizes) k → Forall (λ b, 0 < b < 256) c → l < 4096 →
  c ≠ [] → bytes_at (memory k) ptr c → kowned k ptr l → apart ptr l p 8 →
  ∃ s k3 k4 k5, kzalloc k (l + 1) = Ok (s, k3) ∧ kwrite k3 p s = Ok k4 ∧ kread k4 p = Ok s ∧
    kcopy k4 s ptr l = Ok k5 ∧ modifies [] k k3 ∧ modifies [(p, 4)] k k5 ∧ room_then Q sizes k5 ∧ part_at k5 p c.
Proof.
  intros l Hi Hp Hr Hc Hl Hne Ht Hto Ha.
  assert (Hl0 : 0 < l) by (subst l; destruct c; [done|cbn [length]; lia]).
  destruct (alloc_step (l + 1) sizes k Hi ltac:(lia) Hr)
    as (s & k3 & E3 & Hs0 & Hs1 & _ & M3 & R3 & O3 & F3 & Z3).
  pose proof (modifies_owned _ _ _ _ _ M3 Hp ltac:(lia)) as P3.
  destruct (write_step (Q := Q) sizes k3 p s (modifies_inv _ _ _ M3)) as (k4 & E4 & M4 & R4 & W4);
    [by apply (kowned_sub _ _ _ _ _ P3); lia|lia|done|].
  pose proof (F3 p 8 ltac:(lia) Hp) as Fp. pose proof (F3 ptr l Hl0 Hto) as Ft.
  assert (M34 : modifies [(p, 4)] k k4)
    by (apply (modifies_step _ [(p, 4)] k k3); [by apply (modifies_sub _ []); [|constructor]|done|done]).
  assert (Ht4 : bytes_at (memory k4) ptr c)
    by (apply (modifies_text _ _ _ _ _ _ M34 Hto); [apart_tac|lia|lia|lia|done]).
  pose proof (modifies_owned _ _ _ _ _ M4 O3 ltac:(lia)) as O4.
  destruct (copy_step (Q := Q) sizes k4 s ptr c (modifies_inv _ _ _ M4) Ht4) as (k5 & E5 & M5 & R5 & C5);
    [apply (kowned_sub _ _ _ _ _ O4); lia|unfold apart in *; lia|done|].
  fold l in E5, M5. exists s, k3, k4, k5. do 5 (split; [done|]). split; [|split; [done|]].
  { apply (modifies_step _ [(s, l)] k k4); [done..|]. intros a n Hn Ho Hcs. apart_tac. }
  exists s. split.
  { rewrite <- W4. apply (modifies_read _ _ _ _ M5); [|apart_tac].
    apply (kowned_sub k4 p 8); [|lia..]. by apply (modifies_owned _ _ _ _ _ M4); [|lia]. }
  split; [lia|]. split; [|split; [by apply (modifies_owned _ _ _ _ _ M5); [|lia]|unfold apart in *; lia]].
  split; [|done]. apply bytes_at_app. split; [done|].
  assert (Hnul : bytes_at (memory k3) (s + l) [0]).
  { intros i b Hb. apply list_lookup_singleton_Some in Hb as [-> <-].
    replace (s + l + Z.of_nat 0) with (s + Z.of_nat (length c)) by lia. apply Z3, lookup_replicate_2. lia. }
  assert (O5 : kowned k3 (s + l) 1) by (apply (kowned_sub _ _ _ _ _ O3); lia).
  apply (modifies_text _ _ _ (s + l) 1 _ M5); [by apply (modifies_owned _ _ _ _ _ M4); [|lia]|apart_tac|done|lia|cbn; lia|].
  apply (modifies_text _ _ _ (s + l) 1 _ M4); [done|apart_tac|done|lia|cbn; lia|done].
Qed.

(** Appending the part [c]. *)
Lemma add_part {Q} sizes k cell ptr c :
  let l := Z.of_nat (length c) in
  alloc_inv k → kowned k cell 4 → room_then Q (part_sizes [c] ++ sizes) k → c ≠ [] → Forall (λ b, 0 < b < 256) c →
  l < 4096 → bytes_at (memory k) ptr c → kowned k ptr l → apart ptr l cell 4 →
  ∃ k' node, append_part k cell ptr l = Ok (node, k') ∧ modifies [(cell, 4)] k k' ∧ room_then Q sizes k' ∧
    node ≠ 0 ∧ kread k' cell = Ok node ∧ kowned k' node 8 ∧ fresh k node 8 ∧ kread k' (node + 4) = Ok 0 ∧
    part_at k' node c.
Proof.
  intros l Hi Hcell Hr Hne Hc Hl Ht Hto Ha.
  assert (Hl0 : 0 < l) by (subst l; destruct c; [done|cbn [length]; lia]).
  destruct (link_part _ k cell Hi Hcell Hr) as (p & k1 & k2 & E1 & E2 & Hp & M2 & R2 & O2 & F2 & W2 & N2).
  pose proof (F2 ptr l Hl0 Hto) as Fp. pose proof (F2 cell 4 ltac:(lia) Hcell) as Fc.
  destruct (text_part sizes k2 p ptr c (modifies_inv _ _ _ M2) O2 R2 Hc Hl Hne)
    as (s & k3 & k4 & k5 & E3 & E4 & W4 & E5 & M3 & M5 & R5 & P5); fold l.
  { apply (modifies_text _ _ _ _ _ _ M2 Hto); [apart_tac|lia|lia|lia|done]. }
  { by apply (modifies_owned _ _ _ _ _ M2). }
  { done. }
  fold l in E3, E5. pose proof (modifies_owned _ _ _ _ _ M2 Hcell ltac:(lia)) as C2.
  exists k5, p. unfold append_part. rewrite E1, bind_Ok, E2, bind_Ok, E3, bind_Ok.
  rewrite (modifies_read _ _ _ _ M3 C2), W2, bind_Ok, E4, bind_Ok, W4, bind_Ok, E5, bind_Ok by constructor.
  split; [done|]. split.
  { apply (modifies_step _ [(p, 4)] k k2); [done..|]. intros a n Hn Ho Hcs. apart_tac. }
  split; [done|]. split; [done|]. split.
  { rewrite <- W2. apply (modifies_read _ _ _ _ M5 C2). apart_tac. }
  split; [by apply (modifies_owned _ _ _ _ _ M5); [|lia]|]. split; [done|]. split; [|done].
  rewrite <- N2. apply (modifies_read _ _ _ _ M5); [apply (kowned_sub _ _ _ _ _ O2); lia|apart_tac].
Qed.

Lemma memchr_slash k ptr l : Forall (λ b, 0 < b < 256) l → bytes_at (memory k) ptr l →
  memchr (memory k) ptr 47 (Z.of_nat (length l)) =
  Ok (match list_find (λ b, b = 47) l with Some (i, _) => ptr + Z.of_nat i | None => 0 end).
Proof.
  intros Hl Hb. apply memchr_ok; [|done|lia]. eapply Forall_impl; [exact Hl|]. unfold is_byte. cbn. lia.
Qed.

(** The first part survives what is done past its [next]. *)
Lemma parts_cons k1 k2 cell node c parts :
  kread k1 cell = Ok node → node ≠ 0 → kowned k1 cell 4 → kowned k1 node 8 → part_at k1 node c →
  apart cell 4 (node + 4) 4 → modifies [(node + 4, 4)] k1 k2 →
  parts_at k2 (node + 4) parts → parts_at k2 cell (c :: parts).
Proof.
  intros Hc Hn Hoc Hon (str & Hr & Hs & Hstr & Hos & Has) Hac M Hrest. exists node.
  split; [rewrite (modifies_read _ _ _ _ M Hoc); [done|apart_tac]|]. split; [done|].
  split; [by apply (modifies_owned _ _ _ _ _ M)|]. split; [|done]. exists str. split.
  { rewrite (modifies_read _ _ _ _ M); [done|apply (kowned_sub _ _ _ _ _ Hon); lia|apart_tac]. }
  split; [done|]. split; [apply (modifies_cstr _ _ _ _ _ M Hos); [apart_tac|done]|].
  split; [by apply (modifies_owned _ _ _ _ _ M); [|lia]|done].
Qed.

(** Parts are spared by changes to new memory. *)
Lemma parts_frame k1 k2 parts : ∀ cell, modifies [] k1 k2 → kowned k1 cell 4 → parts_at k1 cell parts →
  parts_at k2 cell parts.
Proof.
  induction parts as [|c parts IH]; intros cell M Hoc; cbn [parts_at].
  { intros Hr. rewrite (modifies_read _ _ _ _ M Hoc); [done|constructor]. }
  intros (node & Hr & Hn & Hon & (str & Hs & Hnz & Hstr & Hos & Has) & Hrest). exists node.
  split; [rewrite (modifies_read _ _ _ _ M Hoc); [done|constructor]|]. split; [done|].
  split; [by apply (modifies_owned _ _ _ _ _ M)|]. split.
  - exists str. split; [rewrite (modifies_read _ _ _ _ M); [done|apply (kowned_sub _ _ _ _ _ Hon); lia|constructor]|].
    split; [done|]. split; [apply (modifies_cstr _ _ _ _ _ M Hos); [constructor|done]|].
    split; [by apply (modifies_owned _ _ _ _ _ M); [|lia]|done].
  - apply IH; [done| |done]. apply (kowned_sub _ _ _ _ _ Hon); lia.
Qed.

(** A round that appends the part [c] of the text [l] at [ptr]. *)
Lemma parse_round_part {Q} sizes k cell ptr l c :
  alloc_inv k → kowned k cell 4 → room_then Q (part_sizes [c] ++ sizes) k → Forall (λ b, 0 < b < 256) l →
  Z.of_nat (length l) < 4096 → bytes_at (memory k) ptr l → kowned k ptr (Z.of_nat (length l) + 1) →
  apart ptr (Z.of_nat (length l) + 1) cell 4 → 0 < ptr → c ≠ [] → Forall (λ b, b ≠ 47) c →
  l = c ∨ (∃ l', l = c ++ 47 :: l') →
  ∃ k' node,
    parse_round (ptr + Z.of_nat (length l)) (ptr, cell, k) =
      Ok (inl (ptr + (Z.of_nat (length c) + 1), node + 4, k')) ∧
    modifies [(cell, 4)] k k' ∧ room_then Q sizes k' ∧ node ≠ 0 ∧ kread k' cell = Ok node ∧ kowned k' node 8 ∧
    fresh k node 8 ∧ kread k' (node + 4) = Ok 0 ∧ part_at k' node c.
Proof.
  intros Hi Hc Hr Hl Hlen Hb Ho Ha Hp Hne Hs Hcase.
  assert (Hpre : ∃ r, l = c ++ r) by (destruct Hcase as [-> | [l' ->]]; [by exists []; rewrite app_nil_r|eauto]).
  destruct Hpre as [r Hr'].
  assert (Hcl : (0 < length c ≤ length l)%nat)
    by (rewrite Hr', length_app; destruct c; [done|cbn [length]; lia]).
  destruct (add_part (Q := Q) sizes k cell ptr c Hi Hc Hr Hne) as (k' & node & E & Hrest).
  - rewrite Hr' in Hl. by apply Forall_app in Hl as [? _].
  - lia.
  - rewrite Hr' in Hb. by apply bytes_at_app in Hb as [? _].
  - apply (kowned_sub _ _ _ _ _ Ho); lia.
  - unfold apart in *. lia.
  - exists k', node. split; [|exact Hrest]. unfold parse_round. rewrite decide_True by lia.
    replace (ptr + Z.of_nat (length l) - ptr) with (Z.of_nat (length l)) by lia.
    rewrite memchr_slash, bind_Ok by done. cbn zeta.
    assert (Hnext : (if decide (match list_find (λ b, b = 47) l with Some (i, _) => ptr + Z.of_nat i | None => 0 end ≠ 0)
      then match list_find (λ b, b = 47) l with Some (i, _) => ptr + Z.of_nat i | None => 0 end
      else ptr + Z.of_nat (length l)) - ptr = Z.of_nat (length c)).
    { destruct Hcase as [Hlc|[l' Hlc]]; rewrite Hlc.
      - rewrite find_no_slash by done. rewrite decide_False by (intros H'; by apply H'). lia.
      - rewrite find_slash by done. rewrite decide_True by lia. lia. }
    rewrite Hnext. rewrite decide_False by lia. by rewrite E, bind_Ok.
Qed.

(** The rounds that append nothing. *)
Lemma parse_round_end k cell ptr l : Forall (λ b, 0 < b < 256) l → bytes_at (memory k) ptr l → 0 < ptr →
  l = [] ∨ head l = Some 47 → parse_round (ptr + Z.of_nat (length l)) (ptr, cell, k) = Ok (inr k).
Proof.
  intros Hl Hb Hp Hcase. unfold parse_round. rewrite decide_True by lia.
  replace (ptr + Z.of_nat (length l) - ptr) with (Z.of_nat (length l)) by lia.
  rewrite memchr_slash, bind_Ok by done. destruct Hcase as [-> | Hh].
  - cbn [list_find length]. rewrite (decide_False (P := 0 ≠ 0)) by (intros H'; by apply H').
    by rewrite decide_True by lia.
  - destruct l as [|x l]; [done|]. injection Hh as ->. cbn [list_find].
    rewrite (decide_True (P := 47 = 47)) by done.
    rewrite (decide_True (P := ptr + Z.of_nat 0 ≠ 0)) by lia. by rewrite decide_True by lia.
Qed.

(** The parsing loop, from the text [l] at [ptr] and the empty list at [cell]. *)
Lemma parse_loop {Q} l parts : splits l parts → ∀ fuel sizes k cell ptr,
  alloc_inv k → kowned k cell 4 → kread k cell = Ok 0 → room_then Q (part_sizes parts ++ sizes) k →
  Forall (λ b, 0 < b < 256) l → Z.of_nat (length l) < 4096 → bytes_at (memory k) ptr l →
  kowned k ptr (Z.of_nat (length l) + 1) → apart ptr (Z.of_nat (length l) + 1) cell 4 →
  (length parts < fuel)%nat → 0 < ptr →
  ∃ k', while_loop fuel (parse_round (ptr + Z.of_nat (length l))) (ptr, cell, k) = Ok k' ∧
    modifies [(cell, 4)] k k' ∧ room_then Q sizes k' ∧ parts_at k' cell parts.
Proof.
  induction 1 as [|l|c Hne Hs|c l parts Hne Hs Hsp IH];
    intros [|fuel] sizes k cell ptr Hi Hc Hz Hr Hl Hlen Hb Ho Ha Hf Hp; cbn [length] in Hf; try lia.
  - exists k. split; [apply while_exit, parse_round_end; auto|]. split; [by apply modifies_refl|done].
  - exists k. split; [apply while_exit, parse_round_end; auto|]. split; [by apply modifies_refl|done].
  - destruct (parse_round_part (Q := Q) sizes k cell ptr c c)
      as (k1 & node & E & M1 & R1 & Hn & Rc & On & Fn & Rn & Pn); try done; [by left|].
    pose proof (Fn cell 4 ltac:(lia) Hc) as Hcn.
    exists k1. rewrite (while_continue _ _ _ _ E). split.
    { destruct fuel as [|fuel]; [lia|]. apply while_exit. unfold parse_round. by rewrite decide_False by lia. }
    split; [done|]. split; [done|].
    apply (parts_cons k1 k1 cell node); try done; [by apply (modifies_owned _ _ _ _ _ M1)|unfold apart in *; lia|].
    apply modifies_refl, (modifies_inv _ _ _ M1).
  - destruct (parse_round_part (Q := Q) (part_sizes parts ++ sizes) k cell ptr (c ++ 47 :: l) c)
      as (k1 & node & E & M1 & R1 & Hn & Rc & On & Fn & Rn & Pn); try done; [right; by exists l|].
    rewrite (while_continue _ _ _ _ E).
    pose proof (Fn cell 4 ltac:(lia) Hc) as Hcn.
    assert (Hlen' : length (c ++ 47 :: l) = (length c + S (length l))%nat) by (by rewrite length_app).
    pose proof (Fn ptr (Z.of_nat (length (c ++ 47 :: l)) + 1) ltac:(lia) Ho) as Hptr.
    pose proof (modifies_owned _ _ _ _ _ M1 Ho ltac:(lia)) as Ho1.
    assert (Hb' : bytes_at (memory k) (ptr + (Z.of_nat (length c) + 1)) l).
    { rewrite cons_middle, app_assoc in Hb. apply bytes_at_app in Hb as [_ Hb].
      rewrite length_app in Hb. cbn [length] in Hb.
      by replace (ptr + (Z.of_nat (length c) + 1)) with (ptr + Z.of_nat (length c + 1)) by lia. }
    destruct (IH fuel sizes k1 (node + 4) (ptr + (Z.of_nat (length c) + 1))) as (k2 & E2 & M2 & R2 & P2).
    + apply (modifies_inv _ _ _ M1).
    + apply (kowned_sub _ _ _ _ _ On); lia.
    + done.
    + done.
    + apply Forall_app in Hl as [_ Hl]. by apply Forall_cons in Hl as [_ Hl].
    + lia.
    + apply (modifies_text _ _ _ _ _ _ M1 Ho); [apart_tac|lia..|done].
    + apply (kowned_sub _ _ _ _ _ Ho1); lia.
    + unfold apart in *. lia.
    + cbn [length] in Hf. lia.
    + lia.
    + exists k2. replace (ptr + Z.of_nat (length (c ++ 47 :: l)))
        with (ptr + (Z.of_nat (length c) + 1) + Z.of_nat (length l)) by lia.
      split; [done|]. split; [|split; [done|]].
      * apply (modifies_step _ [(node + 4, 4)] k k1); [done..|]. intros a n Hna Hoa Hca. apart_tac.
      * apply (parts_cons k1 k2 cell node); try done;
          [by apply (modifies_owned _ _ _ _ _ M1)|unfold apart in *; lia].
Qed.

(** A path: a drive digit, [":/"] and the rest, in its first 250 characters. *)
Definition path_text (t : list Z) (d : Z) (rest : list Z) : Prop :=
  take (Z.to_nat MAX_PATH_LEN) t = d :: 58 :: 47 :: rest ∧ 48 ≤ d ≤ 57.

Lemma strnlen_path k path t : cstr (memory k) path t →
  strnlen (memory k) path MAX_PATH_LEN = Ok (Z.of_nat (length (take (Z.to_nat MAX_PATH_LEN) t))).
Proof. intros Ht. by apply strnlen_cstr. Qed.

Lemma digit_char x : is_byte x → is_digit (s8 x) = bool_decide (48 ≤ x ≤ 57).
Proof.
  intros Hx. unfold is_digit, is_byte in *. apply bool_decide_ext. unfold s8.
  change (2 ^ 7) with 128. change (2 ^ 8) with 256. Z.div_mod_to_equations. lia.
Qed.

(** The validity test decides [path_text]. *)
Lemma path_is_valid_ok k cs path t : cstr (memory k) path t → bytes_at (memory k) cs [58; 47] →
  ∃ b, pathparser_path_is_valid k cs path = Ok b ∧
    (b = true ↔ ∃ d rest, path_text t d rest).
Proof.
  intros Ht Hcs. unfold pathparser_path_is_valid. rewrite (strnlen_path _ _ _ Ht), bind_Ok.
  unfold path_text. destruct Ht as [Ht Hb].
  assert (Hsh : bytes_at (memory k) path (take (Z.to_nat MAX_PATH_LEN) t)).
  { apply bytes_at_app in Ht as [Ht _]. rewrite <- (take_drop (Z.to_nat MAX_PATH_LEN) t) in Ht.
    by apply bytes_at_app in Ht as [Ht _]. }
  assert (Hbs : Forall (λ b, 0 < b < 256) (take (Z.to_nat MAX_PATH_LEN) t)) by by apply Forall_take.
  destruct (take (Z.to_nat MAX_PATH_LEN) t) as [|x [|y [|z rest]]]; cbn [length].
  1-3: exists false; rewrite decide_True by lia; split; [done|];
    split; [done|]; intros (d & r & E & _); discriminate E.
  rewrite decide_False by lia. rewrite (load_char_hd _ _ _ _ Hsh), bind_Ok.
  rewrite !Forall_cons in Hbs. destruct Hbs as (Hx & Hy & Hz & _).
  rewrite digit_char by (unfold is_byte; lia). case_bool_decide as Hd; cbn [negb].
  - apply bytes_at_tl in Hsh. change (y :: z :: rest) with ([y; z] ++ rest) in Hsh.
    apply bytes_at_app in Hsh as [Hsh _].
    rewrite (memcmp_two _ _ _ _ _ _ _ Hcs Hsh), bind_Ok by (unfold is_byte; lia).
    eexists. split; [reflexivity|]. rewrite bool_decide_eq_true. split.
    + intros Hr. exists x, rest. case_decide as Hyz; [|discriminate Hr].
      destruct Hyz as [<- <-]. done.
    + intros (d & r & E & _). injection E as -> -> -> _. by rewrite decide_True.
  - exists false. split; [done|]. split; [done|]. intros (d & r & E & Hd'). injection E as -> _ _ _. done.
Qed.

Lemma parse_spec {Q} fuel sizes k cs path t d rest parts :
  alloc_inv k → cstr (memory k) path t → kowned k path (Z.of_nat (length t) + 1) → 0 < path →
  bytes_at (memory k) cs [58; 47] → path_text t d rest → splits rest parts →
  room_then Q (SIZEOF_PATH_ROOT :: part_sizes parts ++ sizes) k → (length parts < fuel)%nat →
  ∃ p k', pathparser_path_parse fuel k cs path = Ok (p, k') ∧ 0 < p < 2 ^ 32 ∧ modifies [] k k' ∧ room_then Q sizes k' ∧
    fresh k p 8 ∧ kowned k' p 8 ∧ kread k' p = Ok (d - 48) ∧ parts_at k' (p + 4) parts.
Proof.
  intros Hi Ht Ho Hp Hcs Hpt Hsp Hr Hf. unfold pathparser_path_parse.
  destruct (path_is_valid_ok k cs path t Ht Hcs) as (b & -> & Hb). rewrite bind_Ok.
  assert (b = true) as -> by (apply Hb; eauto). cbn [negb]. rewrite (strnlen_path _ _ _ Ht), bind_Ok.
  cbn zeta. destruct Hpt as [Etake Hd]. clear Hb. set (n := Z.to_nat MAX_PATH_LEN) in *.
  destruct (alloc_step SIZEOF_PATH_ROOT _ k Hi ltac:(by vm_compute) Hr)
    as (p & k1 & E1 & Hp0 & Hp1 & _ & M1 & R1 & O1 & F1 & Z1). change SIZEOF_PATH_ROOT with 8 in *.
  rewrite E1, bind_Ok, decide_False by lia.
  assert (Hlen : (length (take n t) ≤ length t ∧ length (take n t) ≤ 250)%nat)
    by (rewrite length_take; subst n; unfold MAX_PATH_LEN; lia).
  rewrite Etake in *. cbn [length] in Hlen.
  assert (Hto : bytes_at (memory k) path (d :: 58 :: 47 :: rest)).
  { rewrite <- Etake. destruct Ht as [Ht _]. rewrite <- (take_drop n t), <- app_assoc in Ht.
    by apply bytes_at_app in Ht as [Ht _]. }
  assert (Ht1 : bytes_at (memory k1) path (d :: 58 :: 47 :: rest))
    by (apply (modifies_text _ _ _ _ _ _ M1 Ho); [apart_tac|lia|lia|cbn [length]; lia|done]).
  assert (Hchar : pathparser_path_get_drive k1 path = Ok (d - 48)).
  { unfold pathparser_path_get_drive. by rewrite (load_char_hd _ _ _ _ Ht1), bind_Ok, (s8_id d) by lia. }
  rewrite Hchar, bind_Ok, (u32_id (d - 48)) by lia.
  assert (Op : kowned k1 p 4) by (apply (kowned_sub _ _ _ _ _ O1); lia).
  destruct (write_step _ k1 p (d - 48) (modifies_inv _ _ _ M1) Op ltac:(lia) R1) as (k2 & E2 & M2 & R2 & W2).
  rewrite E2, bind_Ok, decide_False by lia.
  assert (M12 : modifies [] k k2)
    by (apply (modifies_step _ [(p, 4)] k k1); [done..|]; intros a m Hm Hoa Hca; apart_tac).
  pose proof (F1 path (Z.of_nat (length t) + 1) ltac:(lia) Ho) as Hap.
  pose proof (modifies_owned _ _ _ _ _ M12 Ho ltac:(lia)) as Ho2.
  pose proof (modifies_owned _ _ _ _ _ M2 O1 ltac:(lia)) as Op2.
  assert (Hbs : Forall (λ b, 0 < b < 256) (d :: 58 :: 47 :: rest)) by (rewrite <- Etake; apply Forall_take, Ht).
  rewrite !Forall_cons in Hbs. destruct Hbs as (_ & _ & _ & Hbs).
  destruct (parse_loop (Q := Q) rest parts Hsp fuel sizes k2 (p + 4) (path + 3)) as (k3 & E3 & M3 & R3 & P3).
  - apply (modifies_inv _ _ _ M2).
  - apply (kowned_sub _ _ _ _ _ Op2); lia.
  - rewrite (modifies_read _ _ _ _ M2); [apply (zeroed_read _ _ _ _ Z1); lia| |apart_tac].
    apply (kowned_sub _ _ _ _ _ O1); lia.
  - done.
  - done.
  - lia.
  - apply (modifies_text _ _ _ _ _ _ M12 Ho); [apart_tac|lia..|].
    apply bytes_at_tl in Hto. apply bytes_at_tl in Hto. apply bytes_at_tl in Hto.
    by replace (path + 3) with (path + 1 + 1 + 1) by lia.
  - apply (kowned_sub _ _ _ _ _ Ho2); lia.
  - unfold apart in *. lia.
  - done.
  - lia.
  - exists p, k3. cbn [length].
    replace (path + Z.of_nat (S (S (S (length rest))))) with (path + 3 + Z.of_nat (length rest)) by lia.
    rewrite E3, bind_Ok. split; [done|]. split; [lia|]. split.
    { apply (modifies_step _ [(p + 4, 4)] k k2); [done..|]. intros a m Hm Hoa Hca. apart_tac. }
    split; [done|]. split; [done|]. split; [by apply (modifies_owned _ _ _ _ _ M3)|]. split; [|done].
    rewrite <- W2. apply (modifies_read _ _ _ _ M3); [|apart_tac]. apply (kowned_sub _ _ _ _ _ Op2); lia.
Qed.

(** C22: on a string that starts with a digit and [":/"] (in its first 250
    characters, which is all the parser looks at), parsing returns a new
    [path_root] with the drive's number, linked to one [path_part] per component
    up to the first empty one, each with its text in memory of its own, and leaves
    every byte that was in use untouched; on any other string it returns NULL and
    changes nothing. *)
Theorem pathparser_path_parse_correct fuel k cs path t :
  alloc_inv k → cstr (memory k) path t → kowned k path (Z.of_nat (length t) + 1) → 0 < path →
  bytes_at (memory k) cs [58; 47] →
  (∀ d rest parts, path_text t d rest → splits rest parts →
     room (SIZEOF_PATH_ROOT :: part_sizes parts) k → (length parts < fuel)%nat →
     ∃ p k', pathparser_path_parse fuel k cs path = Ok (p, k') ∧ p ≠ 0 ∧ alloc_inv k' ∧
       fresh k p SIZEOF_PATH_ROOT ∧ kread k' p = Ok (d - 48) ∧ parts_at k' (p + 4) parts ∧
       (∀ a n x, kowned k a n → a ≤ x < a + n → memory k' !! x = memory k !! x)) ∧
  ((¬ ∃ d rest, path_text t d rest) → pathparser_path_parse fuel k cs path = Ok (0, k)).
Proof.
  intros Hi Ht Ho Hp Hcs. split.
  - intros d rest parts Hpt Hsp Hr Hf. rewrite <- (app_nil_r (part_sizes parts)) in Hr.
    destruct (parse_spec (Q := λ _, True) fuel [] k cs path t d rest parts)
      as (p & k' & E & Hp' & M & _ & Hfr & _ & Hd & Hparts); [done..|].
    exists p, k'. split; [done|]. split; [lia|]. split; [apply (modifies_inv _ _ _ M)|].
    split; [done|]. split; [done|]. split; [done|].
    intros a n x Hoa Hx. apply (modifies_bytes _ _ _ M a n); [lia|done|constructor|done].
  - intros Hnot. unfold pathparser_path_parse.
    destruct (path_is_valid_ok k cs path t Ht Hcs) as (b & -> & Hb). rewrite bind_Ok.
    destruct b; [by destruct Hnot; apply Hb|done].
Qed.
End parsing.

(** ** A kernel with the paths "0:/a/bc" and "a" in its first block *)
Definition witness_path : list Z := [48; 58; 47; 97; 47; 98; 99].
Definition witness_path_segs : list seg := Used 1 :: replicate 8 Free.
Definition witness_path_kernel : kernel := example_kernel witness_path_segs 0x9000 [(0x10000, witness_path ++ [0; 58; 47])].

Lemma witness_path_kernel_ok : kernel_ok witness_path_kernel witness_path_segs.
Proof. by apply example_kernel_ok; repeat constructor. Qed.

Lemma pathparser_path_parse_correct_witness :
  ∃ p k', pathparser_path_parse 3 witness_path_kernel 0x10008 0x10000 = Ok (p, k') ∧ p ≠ 0 ∧ alloc_inv k' ∧
    fresh witness_path_kernel p SIZEOF_PATH_ROOT ∧ kread k' p = Ok 0 ∧
    parts_at k' (p + 4) [[97]; [98; 99]] ∧
    (∀ a n x, kowned witness_path_kernel a n → a ≤ x < a + n →
       memory k' !! x = memory witness_path_kernel !! x).
Proof.
  assert (Hc : cstr (memory witness_path_kernel) 0x10000 witness_path)
    by (split; [example_mem|by repeat constructor]).
  apply (pathparser_path_parse_correct 3 witness_path_kernel 0x10008 0x10000 witness_path) with
    (d := 48) (rest := [97; 47; 98; 99]).
  - exists witness_path_segs. exact witness_path_kernel_ok.
  - exact Hc.
  - pose proof (kernel_live_intro _ _ 0 1 4096 witness_path_kernel_ok ltac:(by left)) as Hl.
    specialize (Hl ltac:(done)). change (base_addr (kernel_heap witness_path_kernel)) with 0x10000 in Hl.
    split; [|left; exists 0x10000, 4096; split; [exact Hl|cbn; lia]].
    eapply mapped_sub; [apply (example_ram_mapped 0x9000)|lia|cbn; lia].
  - done.
  - example_mem.
  - done.
  - apply (splits_more [97] [98; 99] [[98; 99]]); [done|by repeat constructor|].
    apply splits_last; [done|by repeat constructor].
  - apply (heap_room_ok _ _ _ witness_path_kernel_ok). by vm_compute.
  - cbn. lia.
Defined.
