(* ===== verification/Ring.v ===== *)
(** Circular doubly linked lists, wherever their links are stored.

    [nx a b] says that the [next] of the node at [a] is [b], [pv a b] that its
    [prev] is [b]. [ring nx pv l]: the nodes [l] are linked in that order and back
    to the first. The lemmas say what relinking does to the order of the nodes;
    [list.c], the task list and the process list are instances. *)
From S2P Require Import Prelude.

Definition last_of (a : Z) (l : list Z) : Z := default a (last l).

Lemma last_of_nil a : last_of a [] = a.
Proof. done. Qed.
Lemma last_of_cons a b l : last_of a (b :: l) = last_of b l.
Proof. unfold last_of. rewrite last_cons. by destruct (last l). Qed.
Lemma last_of_snoc a l b : last_of a (l ++ [b]) = b.
Proof. unfold last_of. by rewrite last_snoc. Qed.
Lemma last_of_in a l : last_of a l ∈ a :: l.
Proof.
  revert a. induction l as [|b l IH]; intros a; [by left|]. rewrite last_of_cons. right. apply IH.
Qed.
Lemma last_of_split a l : ∃ l', a :: l = l' ++ [last_of a l].
Proof.
  revert a. induction l as [|b l IH]; intros a; [by exists []|]. rewrite last_of_cons.
  destruct (IH b) as [l' ->]. by exists (a :: l').
Qed.

Section ring.
Variables nx pv : Z → Z → Prop.

(** Linked from [a] through [l], both ways. *)
Fixpoint chain (a : Z) (l : list Z) : Prop :=
  match l with
  | [] => True
  | b :: l => nx a b ∧ pv b a ∧ chain b l
  end.

Definition ring (l : list Z) : Prop :=
  match l with
  | [] => False
  | a :: l' => NoDup l ∧ chain a (l' ++ [a])
  end.

Lemma chain_app a l1 b l2 : chain a (l1 ++ b :: l2) ↔ chain a (l1 ++ [b]) ∧ chain b l2.
Proof. revert a. induction l1 as [|c l1 IH]; intros a; cbn; [tauto|]. rewrite IH. tauto. Qed.

Lemma chain_snoc a l b : chain a (l ++ [b]) ↔ chain a l ∧ nx (last_of a l) b ∧ pv b (last_of a l).
Proof.
  revert a. induction l as [|c l IH]; intros a; cbn [app chain]; [rewrite last_of_nil; tauto|].
  rewrite IH, last_of_cons. tauto.
Qed.

Lemma ring_head a l : ring (a :: l) ↔ NoDup (a :: l) ∧ chain a l ∧ nx (last_of a l) a ∧ pv a (last_of a l).
Proof. unfold ring. by rewrite chain_snoc. Qed.

(** Any node can be the first. *)
Lemma ring_rotate a l1 b l2 : ring (a :: l1 ++ b :: l2) → ring (b :: l2 ++ a :: l1).
Proof.
  unfold ring. intros [Hd Hc]. split.
  - rewrite app_comm_cons in Hd |- *. by rewrite (Permutation_app_comm (b :: l2)).
  - rewrite <- app_assoc in Hc |- *. cbn [app] in *. rewrite chain_app in Hc |- *. tauto.
Qed.

Lemma ring_rotate_app l1 l2 : ring (l1 ++ l2) → ring (l2 ++ l1).
Proof.
  destruct l1 as [|a l1]; [by rewrite app_nil_r|]. destruct l2 as [|b l2]; [by rewrite app_nil_r|].
  apply ring_rotate.
Qed.

Lemma ring_NoDup l : ring l → NoDup l.
Proof. destruct l; [done|]. by intros [? _]. Qed.

(** The links around a node. *)
Lemma ring_links l1 a b l2 : ring (l1 ++ a :: b :: l2) → nx a b ∧ pv b a.
Proof. intros Hr. apply ring_rotate_app in Hr. destruct Hr as (_ & ? & ? & _). done. Qed.

Lemma ring_next l i a b : ring l → l !! i = Some a → l !! (S i mod length l)%nat = Some b → nx a b ∧ pv b a.
Proof.
  intros Hr Ha Hb. pose proof (lookup_lt_Some _ _ _ Ha).
  destruct (decide (S i < length l)%nat) as [Hlt|Hge].
  - rewrite Nat.mod_small in Hb by done. rewrite <- (take_drop_middle _ _ _ Ha) in Hr.
    rewrite <- (take_drop_middle _ _ _ Hb) in Ha.
    assert (Hd : drop (S i) l = b :: drop (S (S i)) l) by (by apply drop_S).
    rewrite Hd in Hr. by apply ring_links in Hr.
  - replace (S i) with (length l) in Hb by lia. rewrite Nat.Div0.mod_same in Hb.
    destruct l as [|c l]; [done|]. injection Hb as ->. apply ring_head in Hr as (_ & _ & Hr).
    assert (last_of b l = a) as <-; [|done]. destruct (last_of_split b l) as [l' Hl'].
    rewrite Hl' in Ha. cbn [length] in *. assert (i = length l') as ->.
    { apply (f_equal length) in Hl'. rewrite length_app in Hl'. cbn [length] in Hl'. lia. }
    rewrite list_lookup_middle in Ha by done. by injection Ha.
Qed.

(** The links of a ring around two of its nodes. *)
Definition linked (a b : Z) : Prop := nx a b ∧ pv b a.

Lemma ring_two a h1 t1 b h2 t2 : ring (a :: (h1 :: t1) ++ b :: h2 :: t2) ↔
  NoDup (a :: (h1 :: t1) ++ b :: h2 :: t2) ∧ chain h1 t1 ∧ chain h2 t2 ∧
  linked a h1 ∧ linked (last_of h1 t1) b ∧ linked b h2 ∧ linked (last_of h2 t2) a.
Proof.
  unfold ring, linked. rewrite <- app_assoc. cbn [app chain].
  rewrite (chain_app h1 t1 b), chain_snoc. cbn [chain]. rewrite chain_snoc. tauto.
Qed.

Lemma ring_adjacent a b h t : ring (a :: b :: h :: t) ↔
  NoDup (a :: b :: h :: t) ∧ chain h t ∧ linked a b ∧ linked b h ∧ linked (last_of h t) a.
Proof. unfold ring, linked. cbn [app chain]. rewrite chain_snoc. tauto. Qed.
End ring.

(** A node that is its own successor is alone in its ring. *)
Lemma ring_self nx pv l a b : (∀ x y z, nx x y → nx x z → y = z) → ring nx pv l → a ∈ l → b ∈ l → nx a a → a = b.
Proof.
  intros Hfun Hr Ha Hb Haa. apply list_elem_of_split in Ha as (l1 & l2 & ->).
  apply ring_rotate_app in Hr. cbn [app] in Hr.
  assert (Hb' : b ∈ a :: l2 ++ l1) by (rewrite app_comm_cons, (Permutation_app_comm (a :: l2)); done).
  destruct (l2 ++ l1) as [|c l]; [by apply list_elem_of_singleton in Hb'|].
  destruct Hr as (Hd & Hac & _). rewrite (Hfun _ _ _ Haa Hac) in Hd. apply NoDup_cons in Hd as [Hd _].
  by destruct Hd; left.
Qed.

Section frame.
Variables nx pv nx' pv' : Z → Z → Prop.

(** A chain depends on the [next] of all its nodes but the last, and on the
    [prev] of all but the first. *)
Lemma chain_frame a l : chain nx pv a l → NoDup (a :: l) →
  (∀ x y, x ∈ a :: l → x ≠ last_of a l → nx x y → nx' x y) →
  (∀ x y, x ∈ l → pv x y → pv' x y) → chain nx' pv' a l.
Proof.
  revert a. induction l as [|b l IH]; intros a Hc Hd Hnx Hpv; [done|].
  destruct Hc as (Hn & Hp & Hc). rewrite last_of_cons in Hnx. apply NoDup_cons in Hd as [Ha Hd].
  split; [|split].
  - apply Hnx; [by left| |done]. intros ->. by pose proof (last_of_in b l).
  - apply Hpv; [by left|done].
  - apply IH; [done|done| |]; intros x y Hx; [apply Hnx|apply Hpv]; by right.
Qed.

(** A new node [n] before the first. *)
Lemma ring_insert a l n : ring nx pv (a :: l) → n ∉ a :: l →
  nx' (last_of a l) n → pv' n (last_of a l) → nx' n a → pv' a n →
  (∀ x y, x ∈ a :: l → x ≠ last_of a l → nx x y → nx' x y) →
  (∀ x y, x ∈ l → pv x y → pv' x y) → ring nx' pv' (a :: l ++ [n]).
Proof.
  rewrite !ring_head. intros (Hd & Hc & _) Hn Hzn Hnz Hna Han Hnx Hpv. split.
  - rewrite app_comm_cons, NoDup_app. split; [done|]. split; [|by apply NoDup_singleton].
    intros x Hx ->%list_elem_of_singleton. done.
  - rewrite last_of_snoc, chain_snoc. split; [|done]. split; [|done]. by apply chain_frame.
Qed.

(** The first node taken out. *)
Lemma ring_remove a b l : ring nx pv (a :: b :: l) → nx' (last_of b l) b → pv' b (last_of b l) →
  (∀ x y, x ∈ b :: l → x ≠ last_of b l → nx x y → nx' x y) →
  (∀ x y, x ∈ l → pv x y → pv' x y) → ring nx' pv' (b :: l).
Proof.
  rewrite !ring_head. intros (Hd & Hc & _) Hn Hp Hnx Hpv. apply NoDup_cons in Hd as [_ Hd].
  split; [done|]. split; [|done]. apply chain_frame; [apply Hc|done..].
Qed.

(** Links that agree on the nodes. *)
Lemma ring_frame l : ring nx pv l → (∀ x y, x ∈ l → nx x y → nx' x y) →
  (∀ x y, x ∈ l → pv x y → pv' x y) → ring nx' pv' l.
Proof.
  destruct l as [|a l]; [done|]. rewrite !ring_head. intros (Hd & Hc & Hn & Hp) Hnx Hpv.
  split; [done|]. split; [|split].
  - apply chain_frame; [done|done|auto|]. intros x y Hx. apply Hpv. by right.
  - apply Hnx; [apply last_of_in|done].
  - apply Hpv; [by left|done].
Qed.
End frame.

(** Backwards, the ring of the reversed nodes. *)
Lemma chain_reverse nx pv a l b : chain nx pv a (l ++ [b]) → chain pv nx b (reverse l ++ [a]).
Proof.
  revert a. induction l as [|c l IH]; intros a; [cbn; tauto|]. intros (Hn & Hp & Hc).
  rewrite reverse_cons. rewrite <- app_assoc. apply chain_app. split; [by apply IH|]. done.
Qed.

Lemma ring_reverse nx pv l : ring nx pv l → ring pv nx (reverse l).
Proof.
  destruct l as [|a l]; [done|]. intros [Hd Hc]. rewrite reverse_cons. apply (ring_rotate_app _ _ [a]).
  split; [|by apply chain_reverse]. change ([a] ++ reverse l) with (a :: reverse l).
  by rewrite (reverse_Permutation l).
Qed.

Lemma ring_singleton nx pv a : ring nx pv [a] ↔ nx a a ∧ pv a a.
Proof.
  rewrite ring_head, last_of_nil. cbn. split; [tauto|]. intros. split; [apply NoDup_singleton|done].
Qed.
