(* ===== verification/CList.v ===== *)
(** [list.c]: the circular doubly linked list with a payload per node.

    The nodes that [malloc] returned and [free] did not take back are a finite map
    from their addresses; NULL is 0 and holds no node, and an access to an address
    without a node is undefined. [malloc] is the C library's: it returns NULL or a
    new address, with a node of arbitrary contents.

    A [struct node **list] parameter is passed as the value it points at, and the
    operation returns the value it leaves there; [pop_back] and [pop_index] pass
    either their caller's pointer or a local one to [extract_node]. [main] is a list of
    steps on its three pointers, the nodes and what it printed. *)
From S2P Require Import Prelude Ring.

(** [struct payload]: the five ints. *)
Abbreviation payload := (list Z) (only parsing).

Record node := Node { next : Z; prev : Z; data : payload }.

Abbreviation nodes := (gmap Z node).

Class Malloc := { malloc : nodes → Z * node }.
Class MallocLaw `{Malloc} := {
  malloc_fresh : ∀ m, (malloc m).1 = 0 ∨ (0 < (malloc m).1 ∧ m !! (malloc m).1 = None)
}.

Definition get (m : nodes) (a : Z) : outcome node := if decide (a = 0) then Ub else or_ub (m !! a).
Definition set_next (m : nodes) (a v : Z) : outcome nodes :=
  n ← get m a; Ok (<[a := Node v (prev n) (data n)]> m).
Definition set_prev (m : nodes) (a v : Z) : outcome nodes :=
  n ← get m a; Ok (<[a := Node (next n) v (data n)]> m).
Definition set_data (m : nodes) (a : Z) (v : payload) : outcome nodes :=
  n ← get m a; Ok (<[a := Node (next n) (prev n) v]> m).

Definition free (m : nodes) (a : Z) : outcome nodes :=
  if decide (a = 0) then Ok m else _ ← get m a; Ok (delete a m).

Definition free_if_not_null (m : nodes) (ptr : Z) : outcome nodes :=
  if decide (ptr ≠ 0) then free m ptr else Ok m.

Definition delete_round (list : Z) (s : Z * nodes) : outcome ((Z * nodes) + nodes) :=
  let '(ptr, m) := s in
  let to_free := ptr in
  n ← get m ptr;
  let ptr := next n in
  m ← free m to_free;
  Ok (if decide (list ≠ ptr) then inl (ptr, m) else inr m).

Definition delete_list (fuel : nat) (m : nodes) (list : Z) : outcome (Z * nodes) :=
  if decide (list = 0) then Ok (list, m)
  else m ← while_loop fuel (delete_round list) (list, m); Ok (0, m).

(** The numbers the two printing functions print, in order. *)
Definition print_round (m : nodes) (step : node → Z) (stop : Z) (s : Z * list Z) :
    outcome ((Z * list Z) + list Z) :=
  let '(ptr, out) := s in
  n ← get m ptr;
  d ← arr_get (data n) 0;
  let out := out ++ [d] in
  let ptr := step n in
  Ok (if decide (stop ≠ ptr) then inl (ptr, out) else inr out).

Definition print_list (fuel : nat) (m : nodes) (list : Z) : outcome (Datatypes.list Z) :=
  if decide (list = 0) then Ok [] else while_loop fuel (print_round m next list) (list, []).

Definition print_list_reverse (fuel : nat) (m : nodes) (list : Z) : outcome (Datatypes.list Z) :=
  if decide (list = 0) then Ok []
  else
    n ← get m list;
    while_loop fuel (print_round m prev (prev n)) (prev n, []).

Section operations.
Context `{Malloc}.

(** Each operation returns its result, the new value of [*list] and the nodes. *)
Definition add_node_before (m : nodes) (list : Z) (value : payload) : outcome (Z * Z * nodes) :=
  let '(new_node, junk) := malloc m in
  let m := if decide (new_node = 0) then m else <[new_node := junk]> m in
  m ← set_data m new_node value;
  if decide (list = 0) then
    m ← set_next m new_node new_node;
    m ← set_prev m new_node new_node;
    Ok (new_node, new_node, m)
  else
    m ← set_next m new_node list;
    l ← get m list;
    m ← set_prev m new_node (prev l);
    l ← get m list;
    m ← set_next m (prev l) new_node;
    m ← set_prev m list new_node;
    Ok (new_node, list, m).

Definition push_back (m : nodes) (list : Z) (value : payload) : outcome (Z * Z * nodes) :=
  add_node_before m list value.

Definition push_front (m : nodes) (list : Z) (value : payload) : outcome (Z * Z * nodes) :=
  r ← push_back m list value;
  let '(list, _, m) := r in Ok (list, list, m).

Definition extract_node (m : nodes) (list : Z) : outcome (Z * Z * nodes) :=
  if decide (list = 0) then Ok (0, list, m)
  else
    let ptr := list in
    l ← get m list;
    if decide (next l = list) then Ok (ptr, 0, m)
    else
      p ← get m ptr;
      m ← set_next m (prev p) (next l);
      p ← get m ptr;
      l ← get m list;
      m ← set_prev m (next p) (prev l);
      l ← get m list;
      let list := next l in
      m ← set_next m ptr ptr;
      m ← set_prev m ptr ptr;
      Ok (ptr, list, m).

Definition pop_back (m : nodes) (list : Z) : outcome (Z * Z * nodes) :=
  if decide (list = 0) then Ok (0, list, m)
  else
    l ← get m list;
    let ptr := prev l in
    p ← get m ptr;
    if decide (next p = ptr) then extract_node m list
    else
      r ← extract_node m ptr;
      let '(res, _, m) := r in Ok (res, list, m).

Definition pop_front (m : nodes) (list : Z) : outcome (Z * Z * nodes) :=
  if decide (list = 0) then Ok (0, list, m)
  else
    l ← get m list;
    pop_back m (next l).

Definition find_round (m : nodes) (list index : Z) (s : Z * Z) : outcome ((Z * Z) + Z) :=
  let '(ptr, i) := s in
  if decide (i = index) then Ok (inr ptr)
  else
    n ← get m ptr;
    let ptr := next n in
    let i := u32 (i + 1) in
    Ok (if decide (list ≠ ptr) then inl (ptr, i) else inr 0).

Definition find_index (fuel : nat) (m : nodes) (list index : Z) : outcome Z :=
  if decide (list = 0) then Ok 0 else while_loop fuel (find_round m list index) (list, 0).

Definition pop_index (fuel : nat) (m : nodes) (list index : Z) : outcome (Z * Z * nodes) :=
  if decide (list = 0) then Ok (0, list, m)
  else
    ptr ← find_index fuel m list index;
    if decide (ptr = 0) then Ok (0, list, m)
    else if decide (list = ptr) then extract_node m list
    else
      r ← extract_node m ptr;
      let '(res, _, m) := r in Ok (res, list, m).

(** The walk of [push_index]: the node and the index it stops at. *)
Definition walk_round (m : nodes) (list index : Z) (s : Z * Z) : outcome ((Z * Z) + (Z * Z)) :=
  let '(ptr, i) := s in
  if decide (i = index) then Ok (inr (ptr, i))
  else
    n ← get m ptr;
    let ptr := next n in
    let i := u32 (i + 1) in
    Ok (if decide (list ≠ ptr) then inl (ptr, i) else inr (ptr, i)).

Definition push_index (fuel : nat) (m : nodes) (list index : Z) (value : payload) :
    outcome (Z * Z * nodes) :=
  if decide (list = 0 ∧ index ≠ 0) then Ok (0, list, m)
  else if decide (index = 0) then push_front m list value
  else
    pi ← while_loop fuel (walk_round m list index) (list, 0);
    let '(ptr, i) := pi in
    if decide (list = ptr ∧ i ≠ index) then Ok (0, list, m)
    else
      r ← push_back m ptr value;
      let '(res, _, m) := r in Ok (res, list, m).

(** [swap] on the values of two pointer variables; it exchanges them as well. *)
Definition swap (m : nodes) (n1 n2 : Z) : outcome (Z * (Z * Z) * nodes) :=
  if decide (n1 = 0 ∨ n2 = 0) then Ok (0, (n1, n2), m)
  else
    a ← get m n1; let n1_prev := prev a in
    b ← get m n2; let n2_next := next b in
    m ← set_next m n1_prev n2;
    m ← set_prev m n2_next n1;
    a ← get m n1;
    m ← (if decide (next a = n2 ∨ prev a = n2) then
           m ← set_prev m n1 n2;
           set_next m n2 n1
         else
           m ← set_prev m (next a) n2;
           b ← get m n2;
           m ← set_next m (prev b) n1;
           b ← get m n2;
           m ← set_prev m n1 (prev b);
           a ← get m n1;
           set_next m n2 (next a));
    m ← set_next m n1 n2_next;
    m ← set_prev m n2 n1_prev;
    Ok (n2, (n2, n1), m).

(** ** [main] *)

(** What it prints: a list's address and numbers, or an address. *)
Inductive printed := Numbers (list : Z) (l : Datatypes.list Z) | Address (a : Z).

(** Its variables and its output so far. *)
Record demo := Demo { d_nodes : nodes; d_list : Z; d_ptr : Z; d_ptr2 : Z; d_out : list printed }.

Definition show_list (fuel : nat) (s : demo) : outcome demo :=
  l ← print_list fuel (d_nodes s) (d_list s);
  Ok (Demo (d_nodes s) (d_list s) (d_ptr s) (d_ptr2 s) (d_out s ++ [Numbers (d_list s) l])).
Definition show_address (s : demo) : outcome demo :=
  Ok (Demo (d_nodes s) (d_list s) (d_ptr s) (d_ptr2 s) (d_out s ++ [Address (d_list s)])).

(** [push_back] and [push_index] of a payload, their results unused. *)
Definition push_with (f : nodes → Z → payload → outcome (Z * Z * nodes)) (i : Z) (s : demo) : outcome demo :=
  r ← f (d_nodes s) (d_list s) [i; 0; 0; 0; 0];
  let '(_, list, m) := r in Ok (Demo m list (d_ptr s) (d_ptr2 s) (d_out s)).
Definition push_all (n : nat) (s : demo) : outcome demo := for_loop n 0 (push_with push_back) s.

(** Freeing what [extract_node] and the [pop]s return. *)
Definition free_popped (f : nodes → Z → outcome (Z * Z * nodes)) (s : demo) : outcome demo :=
  r ← f (d_nodes s) (d_list s);
  let '(res, list, m) := r in
  m ← free_if_not_null m res; Ok (Demo m list (d_ptr s) (d_ptr2 s) (d_out s)).

(** [ptr = list->prev], and the two assignments before the swaps. *)
Definition take_prev (s : demo) : outcome demo :=
  l ← get (d_nodes s) (d_list s); Ok (Demo (d_nodes s) (d_list s) (prev l) (d_ptr2 s) (d_out s)).
Definition take_both (s : demo) : outcome demo :=
  l ← get (d_nodes s) (d_list s); Ok (Demo (d_nodes s) (d_list s) (d_list s) (next l) (d_out s)).

Definition swap_list_ptr (s : demo) : outcome demo :=
  r ← swap (d_nodes s) (d_list s) (d_ptr s);
  let '(_, (list, ptr), m) := r in Ok (Demo m list ptr (d_ptr2 s) (d_out s)).
Definition swap_ptrs (s : demo) : outcome demo :=
  r ← swap (d_nodes s) (d_ptr s) (d_ptr2 s);
  let '(_, (ptr, ptr2), m) := r in Ok (Demo m (d_list s) ptr ptr2 (d_out s)).
Definition swap_list_ptr2 (s : demo) : outcome demo :=
  r ← swap (d_nodes s) (d_list s) (d_ptr2 s);
  let '(_, (list, ptr2), m) := r in Ok (Demo m list (d_ptr s) ptr2 (d_out s)).

Definition free_list (fuel : nat) (s : demo) : outcome demo :=
  r ← delete_list fuel (d_nodes s) (d_list s);
  let '(list, m) := r in Ok (Demo m list (d_ptr s) (d_ptr2 s) (d_out s)).

Definition run_all (steps : list (demo → outcome demo)) (s : demo) : outcome demo :=
  foldl (λ s f, s ≫= f) (Ok s) steps.

Definition list_main (fuel : nat) (m : nodes) : outcome demo :=
  let print := show_list fuel in
  let pop_at i := free_popped (λ m list, pop_index fuel m list i) in
  let push_at i := push_with (λ m list, push_index fuel m list i) in
  run_all ([print; print; push_all 5; print;
        take_prev; free_popped extract_node; print; take_prev; free_popped extract_node; print;
        free_popped pop_back; print; free_popped pop_back; print; free_popped pop_back; print; free_popped pop_back; print;
        push_all 5] ++
       concat (replicate 5 [print; free_popped pop_front]) ++
       [push_all 5; print; pop_at 100; print; pop_at 0; print; pop_at 1; print; pop_at 2; print; pop_at 1; print; pop_at 0; print;
        push_at 0 1000; push_at 1 2000; push_at 2 3000; push_at 3 4000; print;
        take_both; show_address; swap_list_ptr; show_address; print;
        swap_ptrs; show_address; print; swap_ptrs; show_address; print; swap_list_ptr2; show_address; print;
        free_list fuel; push_all 128; print; free_list fuel])
    (Demo m 0 0 0 []).
End operations.

(** * The links of the nodes *)

Definition nxt (m : nodes) (a : Z) : option Z := next <$> m !! a.
Definition prv (m : nodes) (a : Z) : option Z := prev <$> m !! a.
Definition dat (m : nodes) (a : Z) : option payload := data <$> m !! a.
Definition nx (m : nodes) (a b : Z) : Prop := nxt m a = Some b.
Definition pv (m : nodes) (a b : Z) : Prop := prv m a = Some b.
Definition valid (m : nodes) (a : Z) : Prop := a ≠ 0 ∧ is_Some (dat m a).

Lemma valid_node m a : valid m a → a ≠ 0 ∧ ∃ n, m !! a = Some n.
Proof. intros [Ha Hd]. split; [done|]. unfold dat in Hd. apply fmap_is_Some in Hd as [n Hn]. by exists n. Qed.

Lemma get_ok m a : valid m a →
  ∃ n, get m a = Ok n ∧ nxt m a = Some (next n) ∧ prv m a = Some (prev n) ∧ dat m a = Some (data n).
Proof.
  intros (Ha & n & Hn)%valid_node. exists n. unfold get, nxt, prv, dat. rewrite decide_False, Hn by done. done.
Qed.

(** Reading a node whose links are known. *)
Lemma get_links m a b c : valid m a → nx m a b → pv m a c →
  ∃ n, get m a = Ok n ∧ next n = b ∧ prev n = c.
Proof.
  intros Hv Hn Hp. destruct (get_ok m a Hv) as (n & E & En & Ep & _). exists n.
  unfold nx, pv in *. split; [done|]. split; congruence.
Qed.

(** The three stores, as updates of the link functions. *)
Lemma set_next_ok m a v : valid m a → ∃ m', set_next m a v = Ok m' ∧
  (∀ x, nxt m' x = if decide (x = a) then Some v else nxt m x) ∧
  (∀ x, prv m' x = prv m x) ∧ (∀ x, dat m' x = dat m x).
Proof.
  intros (Ha & n & Hn)%valid_node. unfold set_next, get. rewrite decide_False, Hn by done. eexists.
  split; [reflexivity|]. unfold nxt, prv, dat. split; [|split]; intros x;
    (destruct (decide (x = a)) as [-> | Hx]; [rewrite lookup_insert_eq, ?Hn|rewrite lookup_insert_ne by done]; done).
Qed.

Lemma set_prev_ok m a v : valid m a → ∃ m', set_prev m a v = Ok m' ∧
  (∀ x, nxt m' x = nxt m x) ∧
  (∀ x, prv m' x = if decide (x = a) then Some v else prv m x) ∧ (∀ x, dat m' x = dat m x).
Proof.
  intros (Ha & n & Hn)%valid_node. unfold set_prev, get. rewrite decide_False, Hn by done. eexists.
  split; [reflexivity|]. unfold nxt, prv, dat. split; [|split]; intros x;
    (destruct (decide (x = a)) as [-> | Hx]; [rewrite lookup_insert_eq, ?Hn|rewrite lookup_insert_ne by done]; done).
Qed.

Lemma valid_same m m' a : (∀ x, dat m' x = dat m x) → valid m a → valid m' a.
Proof. intros Hd [? ?]. split; [done|]. by rewrite Hd. Qed.

(** Validity survives the stores. *)
Ltac still_valid := repeat (eapply valid_same; [eassumption|]); eassumption.

(** Read the link of a node after a list of updates. *)
Ltac links := unfold nx, pv in *; repeat match goal with
  | E : ∀ x, nxt ?m x = _ |- context [nxt ?m _] => rewrite E
  | E : ∀ x, prv ?m x = _ |- context [prv ?m _] => rewrite E
  end; repeat first [rewrite decide_True by done | rewrite decide_False by done]; try done.

(** [extract_node] on a ring: the first node is out, linked to itself, the others
    keep their order, and no other node changes. *)
Lemma extract_spec m a l : ring (nx m) (pv m) (a :: l) → Forall (valid m) (a :: l) →
  ∃ m', extract_node m a = Ok (a, hd 0 l, m') ∧ (l ≠ [] → ring (nx m') (pv m') l) ∧
    nx m' a a ∧ pv m' a a ∧ (∀ x, dat m' x = dat m x) ∧
    (∀ x, x ∉ a :: l → nxt m' x = nxt m x ∧ prv m' x = prv m x).
Proof.
  intros Hr Hv. apply Forall_cons in Hv as [Ha Hv]. unfold extract_node. rewrite decide_False by apply Ha.
  destruct l as [|b l].
  - apply ring_singleton in Hr as [Hn Hp]. destruct (get_links m a a a Ha Hn Hp) as (n & -> & En & Ep).
    rewrite bind_Ok, decide_True by done. exists m. done.
  - pose proof (ring_NoDup _ _ _ Hr) as Hnd. apply NoDup_cons in Hnd as [Hab Hnd].
    destruct (proj1 (ring_head _ _ _ _) Hr) as (_ & (Hn & Hpb & _) & Hz & Hpa).
    rewrite last_of_cons in Hz, Hpa. set (z := last_of b l) in *.
    assert (Hzin : z ∈ b :: l) by apply last_of_in.
    assert (Haz : a ≠ z) by (by intros ->). assert (Hba : a ≠ b) by (intros ->; apply Hab; by left).
    assert (Hvz : valid m z) by (by apply (proj1 (Forall_forall _ _) Hv)).
    assert (Hvb : valid m b) by (apply (proj1 (Forall_forall _ _) Hv); by left).
    destruct (get_links m a b z Ha Hn Hpa) as (n & -> & En & Ep). rewrite !bind_Ok, decide_False, En, Ep by congruence.
    destruct (set_next_ok m z b Hvz) as (m1 & -> & N1 & P1 & D1). rewrite bind_Ok.
    destruct (get_links m1 a b z) as (n1 & -> & En1 & Ep1); [still_valid|links..|].
    rewrite !bind_Ok, En1, Ep1.
    destruct (set_prev_ok m1 b z) as (m2 & -> & N2 & P2 & D2); [still_valid|]. rewrite bind_Ok.
    destruct (get_links m2 a b z) as (n2 & -> & En2 & _); [still_valid|links..|]. rewrite bind_Ok, En2.
    destruct (set_next_ok m2 a a) as (m3 & -> & N3 & P3 & D3); [still_valid|]. rewrite bind_Ok.
    destruct (set_prev_ok m3 a a) as (m4 & -> & N4 & P4 & D4); [still_valid|]. rewrite bind_Ok.
    exists m4. split; [done|]. split; [|split; [links|split; [links|split]]].
    + intros _. apply (ring_remove (nx m) (pv m) (nx m4) (pv m4) a b l Hr); fold z.
      * links.
      * links.
      * intros x y Hx Hxz Hxy. assert (x ≠ a) by (by intros ->). links.
      * intros x y Hx Hxy. assert (x ≠ a) by (intros ->; apply Hab; by right).
        assert (x ≠ b) by (intros ->; by apply NoDup_cons in Hnd as [? _]). links.
    + intros x. by rewrite D4, D3, D2, D1.
    + intros x Hx. assert (x ≠ a ∧ x ≠ z ∧ x ≠ b) as (? & ? & ?).
      { split_and!; intros ->; apply Hx; [by left|by right|by right; left]. }
      split; links.
Qed.

Lemma set_data_ok m a v : valid m a → ∃ m', set_data m a v = Ok m' ∧
  (∀ x, nxt m' x = nxt m x) ∧ (∀ x, prv m' x = prv m x) ∧
  (∀ x, dat m' x = if decide (x = a) then Some v else dat m x).
Proof.
  intros (Ha & n & Hn)%valid_node. unfold set_data, get. rewrite decide_False, Hn by done. eexists.
  split; [reflexivity|]. unfold nxt, prv, dat. split; [|split]; intros x;
    (destruct (decide (x = a)) as [-> | Hx]; [rewrite lookup_insert_eq, ?Hn|rewrite lookup_insert_ne by done]; done).
Qed.

Lemma valid_mono m m' a : (∀ x, is_Some (dat m x) → is_Some (dat m' x)) → valid m a → valid m' a.
Proof. intros Hd [? ?]. split; auto. Qed.

Section insert.
Context `{MallocLaw}.

(** The new node, with its payload. *)
Lemma new_node_ok m v : (malloc m).1 ≠ 0 →
  let n := (malloc m).1 in
  n ≠ 0 ∧ m !! n = None ∧
  ∃ m', set_data (<[n := (malloc m).2]> m) n v = Ok m' ∧ valid m' n ∧
    (∀ x, dat m' x = if decide (x = n) then Some v else dat m x) ∧
    (∀ x, x ≠ n → nxt m' x = nxt m x ∧ prv m' x = prv m x).
Proof.
  intros Hn n. destruct (malloc_fresh m) as [|[Hpos Hfr]]; [done|]. fold n in Hfr, Hpos. split; [lia|]. split; [done|].
  set (m0 := <[n := (malloc m).2]> m).
  assert (Hv : valid m0 n) by (split; [lia|]; unfold dat, m0; rewrite lookup_insert_eq; by eexists).
  destruct (set_data_ok m0 n v Hv) as (m1 & -> & N1 & P1 & D1). exists m1. split; [done|]. split.
  { split; [lia|]. rewrite D1, decide_True by done. by eexists. }
  split; intros x.
  - rewrite D1. case_decide; [done|]. unfold dat, m0. by rewrite lookup_insert_ne.
  - intros Hx. rewrite N1, P1. unfold nxt, prv, m0. by rewrite lookup_insert_ne.
Qed.

Lemma add_node_unfold m list v : (malloc m).1 ≠ 0 → add_node_before m list v =
  (m' ← set_data (<[(malloc m).1 := (malloc m).2]> m) (malloc m).1 v;
   let new_node := (malloc m).1 in
   if decide (list = 0) then
     m ← set_next m' new_node new_node;
     m ← set_prev m new_node new_node;
     Ok (new_node, new_node, m)
   else
     m ← set_next m' new_node list;
     l ← get m list;
     m ← set_prev m new_node (prev l);
     l ← get m list;
     m ← set_next m (prev l) new_node;
     m ← set_prev m list new_node;
     Ok (new_node, list, m)).
Proof. intros Hn. unfold add_node_before. destruct (malloc m) as [n junk]. cbn in *. by rewrite decide_False by done. Qed.

(** [add_node_before] on the empty list, and before the first node of a ring. *)
Lemma add_first_spec m v : (malloc m).1 ≠ 0 →
  let n := (malloc m).1 in
  ∃ m', add_node_before m 0 v = Ok (n, n, m') ∧ n ≠ 0 ∧ m !! n = None ∧ ring (nx m') (pv m') [n] ∧
    (∀ x, dat m' x = if decide (x = n) then Some v else dat m x) ∧
    (∀ x, x ≠ n → nxt m' x = nxt m x ∧ prv m' x = prv m x).
Proof.
  intros Hn n. destruct (new_node_ok m v Hn) as (Hn0 & Hfr & m1 & E & V1 & D1 & F1).
  rewrite add_node_unfold, E, bind_Ok by done. fold n in D1, F1, V1 |- *. rewrite decide_True by done.
  destruct (set_next_ok m1 n n V1) as (m2 & -> & N2 & P2 & D2). rewrite bind_Ok.
  destruct (set_prev_ok m2 n n) as (m3 & -> & N3 & P3 & D3); [still_valid|]. rewrite bind_Ok.
  exists m3. split; [done|]. split; [done|]. split; [done|]. split; [apply ring_singleton; split; links|].
  split; [intros x; by rewrite D3, D2, D1|]. intros x Hx. destruct (F1 x Hx) as [<- <-]. split; links.
Qed.

Lemma add_spec m a l v : (malloc m).1 ≠ 0 → ring (nx m) (pv m) (a :: l) → Forall (valid m) (a :: l) →
  let n := (malloc m).1 in
  ∃ m', add_node_before m a v = Ok (n, a, m') ∧ n ≠ 0 ∧ m !! n = None ∧ ring (nx m') (pv m') (a :: l ++ [n]) ∧
    (∀ x, dat m' x = if decide (x = n) then Some v else dat m x) ∧
    (∀ x, x ≠ n → x ∉ a :: l → nxt m' x = nxt m x ∧ prv m' x = prv m x).
Proof.
  intros Hn Hr Hv n. destruct (new_node_ok m v Hn) as (Hn0 & Hfr & m1 & E & V1 & D1 & F1).
  rewrite add_node_unfold, E, bind_Ok by done. fold n in D1, F1, V1, Hn0, Hfr |- *.
  destruct (proj1 (ring_head _ _ _ _) Hr) as (Hd & _ & Hz & Hpa). set (z := last_of a l) in *.
  pose proof (last_of_in a l) as Hzin. fold z in Hzin.
  assert (Hin : ∀ x, x ∈ a :: l → valid m x ∧ x ≠ n).
  { intros x Hx. pose proof (proj1 (Forall_forall _ _) Hv x Hx) as Hvx. split; [done|]. intros ->.
    destruct Hvx as [_ Hvx]. unfold dat in Hvx. rewrite Hfr in Hvx. by destruct Hvx. }
  assert (Hv1 : ∀ x, valid m x → valid m1 x).
  { intros x. apply valid_mono. intros y Hy. rewrite D1. case_decide; [by eexists|done]. }
  destruct (Hin a ltac:(by left)) as [Va Han]. destruct (Hin z Hzin) as [Vz Hzn].
  pose proof (Hv1 _ Va) as Va1. pose proof (Hv1 _ Vz) as Vz1.
  rewrite decide_False by apply Va.
  destruct (set_next_ok m1 n a V1) as (m2 & -> & N2 & P2 & D2). rewrite bind_Ok.
  assert (Hpa1 : ∀ x, x ∈ a :: l → prv m1 x = prv m x ∧ nxt m1 x = nxt m x)
    by (intros x Hx; destruct (F1 x) as [-> ->]; [by apply Hin|done]).
  destruct (get_ok m2 a) as (na & -> & _ & Pa & _); [still_valid|]. rewrite bind_Ok.
  rewrite P2, (proj1 (Hpa1 a ltac:(by left))), Hpa in Pa. injection Pa as Pa. rewrite <- Pa.
  destruct (set_prev_ok m2 n z) as (m3 & -> & N3 & P3 & D3); [still_valid|]. rewrite bind_Ok.
  destruct (get_ok m3 a) as (na' & -> & _ & Pa' & _); [still_valid|]. rewrite bind_Ok.
  rewrite P3, decide_False, P2, (proj1 (Hpa1 a ltac:(by left))), Hpa in Pa' by done. injection Pa' as Pa'. rewrite <- Pa'.
  destruct (set_next_ok m3 z n) as (m4 & -> & N4 & P4 & D4); [still_valid|]. rewrite bind_Ok.
  destruct (set_prev_ok m4 a n) as (m5 & -> & N5 & P5 & D5); [still_valid|]. rewrite bind_Ok.
  exists m5. split; [done|]. split; [done|]. split; [done|]. split; [|split].
  - apply (ring_insert (nx m) (pv m) (nx m5) (pv m5) a l n Hr); fold z.
    + intros Hx. by destruct (Hin _ Hx).
    + links.
    + links.
    + links.
    + links.
    + intros x y Hx Hxz Hxy. destruct (Hin x Hx) as [_ ?]. links. by rewrite (proj2 (Hpa1 x Hx)).
    + intros x y Hx Hxy. destruct (Hin x ltac:(by right)) as [_ ?].
      assert (x ≠ a) by (intros ->; by apply NoDup_cons in Hd as [? _]).
      links. by rewrite (proj1 (Hpa1 x ltac:(by right))).
  - intros x. by rewrite D5, D4, D3, D2, D1.
  - intros x Hxn Hx. assert (x ≠ a ∧ x ≠ z) as [? ?] by (split; intros ->; apply Hx; [by left|done]).
    destruct (F1 x Hxn) as [<- <-]. split; links.
Qed.
End insert.

(** * Refinement: a list of payloads

    [holds m p l vs]: the pointer [p] is the head of the ring of nodes [l], whose
    payloads are [vs]. *)
Record holds (m : nodes) (p : Z) (l : list Z) (vs : list payload) : Prop := Holds {
  holds_head : p = hd 0 l;
  holds_ring : l ≠ [] → ring (nx m) (pv m) l;
  holds_valid : Forall (valid m) l;
  holds_data : Forall2 (λ a v, dat m a = Some v) l vs
}.

(** The payload a returned pointer leads to; NULL for none. *)
Definition returns (m : nodes) (r : Z) (o : option payload) : Prop :=
  match o with None => r = 0 | Some v => r ≠ 0 ∧ dat m r = Some v end.

(** Nodes outside [l] are as before. *)
Definition untouched (m m' : nodes) (l : list Z) : Prop :=
  ∀ x, x ∉ l → valid m x → nxt m' x = nxt m x ∧ prv m' x = prv m x ∧ dat m' x = dat m x.

Lemma data_app_inv m l1 b l2 vs : Forall2 (λ a v, dat m a = Some v) (l1 ++ b :: l2) vs →
  ∃ vs1 w vs2, vs = vs1 ++ w :: vs2 ∧ length vs1 = length l1 ∧ dat m b = Some w ∧
    Forall2 (λ a v, dat m a = Some v) l1 vs1 ∧ Forall2 (λ a v, dat m a = Some v) l2 vs2.
Proof.
  intros (vs1 & vs' & H1 & H2 & ->)%Forall2_app_inv_l.
  apply Forall2_cons_inv_l in H2 as (w & vs2 & Hw & H2 & ->). exists vs1, w, vs2.
  split; [done|]. split; [symmetry; by eapply Forall2_length|done].
Qed.

Lemma holds_length m p l vs : holds m p l vs → length vs = length l.
Proof. intros [_ _ _ Hd]. symmetry. by eapply Forall2_length. Qed.

Lemma holds_nonnull m p l vs : holds m p l vs → p = 0 ↔ l = [].
Proof.
  intros [-> _ Hv _]. destruct l as [|a l]; [done|]. apply Forall_cons in Hv as [[Ha _] _]. done.
Qed.

(** Taking any node of the list out. *)
Lemma take_out m l1 b l2 vs : holds m (hd 0 (l1 ++ b :: l2)) (l1 ++ b :: l2) vs →
  ∃ m' vs1 w vs2, extract_node m b = Ok (b, hd 0 (l2 ++ l1), m') ∧
    vs = vs1 ++ w :: vs2 ∧ length vs1 = length l1 ∧ returns m' b (Some w) ∧
    holds m' (hd 0 (l1 ++ l2)) (l1 ++ l2) (vs1 ++ vs2) ∧ untouched m m' (l1 ++ b :: l2).
Proof.
  intros [_ Hr Hv Hd]. specialize (Hr ltac:(by destruct l1)). apply ring_rotate_app in Hr.
  destruct (data_app_inv _ _ _ _ _ Hd) as (vs1 & w & vs2 & -> & Hl & Hw & H1 & H2).
  assert (Hv' : Forall (valid m) (b :: l2 ++ l1)).
  { apply Forall_app in Hv as [? Hv]. apply Forall_cons in Hv as [? ?]. constructor; [done|]. by apply Forall_app. }
  destruct (extract_spec m b (l2 ++ l1) Hr Hv') as (m' & E & Hr' & _ & _ & D & F).
  exists m', vs1, w, vs2. split; [done|]. split; [done|]. split; [done|]. split.
  { split; [apply Forall_cons in Hv' as [[? _] _]; done|by rewrite D]. }
  split; [split|].
  - done.
  - intros Hne. apply ring_rotate_app, Hr'. intros [-> ->]%app_nil. by apply Hne.
  - apply Forall_cons in Hv' as [_ Hv']. rewrite (Permutation_app_comm l1 l2).
    eapply Forall_impl; [exact Hv'|]. intros x. by apply valid_same.
  - apply Forall2_app; (eapply Forall2_impl; [eassumption|]); intros x y Hx; by rewrite D.
  - intros x Hx _. destruct (F x) as [-> ->]; [|by rewrite D].
    intros Hin. apply Hx. rewrite elem_of_cons, elem_of_app in Hin. rewrite elem_of_app, elem_of_cons. tauto.
Qed.

Section refinement.
Context `{MallocLaw}.

(** Putting a node in, before any node of the list or after the last. *)
Lemma new_holds m m' n v l1 l2 vs1 vs2 : m !! n = None → n ≠ 0 →
  (∀ x, dat m' x = if decide (x = n) then Some v else dat m x) →
  ring (nx m') (pv m') (l1 ++ n :: l2) → Forall (valid m) (l1 ++ l2) →
  Forall2 (λ a v, dat m a = Some v) l1 vs1 → Forall2 (λ a v, dat m a = Some v) l2 vs2 →
  holds m' (hd 0 (l1 ++ n :: l2)) (l1 ++ n :: l2) (vs1 ++ v :: vs2).
Proof.
  intros Hfr Hn D Hr Hv H1 H2.
  assert (Hne : ∀ x, is_Some (dat m x) → x ≠ n)
    by (intros x [w Hx] ->; unfold dat in Hx; by rewrite Hfr in Hx).
  assert (Hd : ∀ x w, dat m x = Some w → dat m' x = Some w)
    by (intros x w Hx; rewrite D, decide_False; [done|apply Hne; by eexists]).
  split; [done|done| |].
  - assert (Hv' : Forall (valid m') (l1 ++ l2)).
    { eapply Forall_impl; [exact Hv|]. intros x [Hx [w Hw]]. split; [done|]. exists w. by apply Hd. }
    apply Forall_app in Hv' as [? ?]. apply Forall_app. split; [done|]. constructor; [|done].
    split; [done|]. rewrite D, decide_True by done. by eexists.
  - apply Forall2_app; [|constructor]; [by eapply Forall2_impl; [exact H1|]; auto| |by eapply Forall2_impl; [exact H2|]; auto].
    by rewrite D, decide_True.
Qed.

Lemma put_before m l1 b l2 vs v : holds m (hd 0 (l1 ++ b :: l2)) (l1 ++ b :: l2) vs → (malloc m).1 ≠ 0 →
  let n := (malloc m).1 in
  ∃ m' vs1 vs2, add_node_before m b v = Ok (n, b, m') ∧ vs = vs1 ++ vs2 ∧ length vs1 = length l1 ∧
    returns m' n (Some v) ∧
    holds m' (hd 0 (l1 ++ n :: b :: l2)) (l1 ++ n :: b :: l2) (vs1 ++ v :: vs2) ∧ untouched m m' (l1 ++ b :: l2).
Proof.
  intros [_ Hr Hv Hd] Hm n. specialize (Hr ltac:(by destruct l1)). apply ring_rotate_app in Hr.
  pose proof Hd as (vs1 & vs2 & H1 & H2 & ->)%Forall2_app_inv_l.
  destruct (add_spec m b (l2 ++ l1) v Hm Hr) as (m' & E & Hn & Hfr & Hr' & D & F).
  { rewrite app_comm_cons, (Permutation_app_comm (b :: l2)). done. }
  fold n in E, Hn, Hfr, Hr', D, F. exists m', vs1, vs2. split; [done|]. split; [done|].
  split; [symmetry; by eapply Forall2_length|]. split; [split; [done|by rewrite D, decide_True]|]. split.
  - apply (new_holds m); try done. rewrite <- app_assoc, app_comm_cons in Hr'. apply ring_rotate_app in Hr'.
    by rewrite <- app_assoc in Hr'.
  - intros x Hx [_ Hvx]. assert (x ≠ n) by (intros ->; unfold dat in Hvx; rewrite Hfr in Hvx; by destruct Hvx).
    destruct (F x) as [-> ->]; [done| |by rewrite D, decide_False].
    intros Hin. apply Hx. rewrite elem_of_cons, elem_of_app in Hin. rewrite elem_of_app, elem_of_cons. tauto.
Qed.

Lemma put_last m p l vs v : holds m p l vs → (malloc m).1 ≠ 0 →
  let n := (malloc m).1 in
  ∃ m', push_back m p v = Ok (n, hd 0 (l ++ [n]), m') ∧ returns m' n (Some v) ∧
    holds m' (hd 0 (l ++ [n])) (l ++ [n]) (vs ++ [v]) ∧ ring (nx m') (pv m') (l ++ [n]) ∧ untouched m m' l.
Proof.
  intros [-> Hr Hv Hd] Hm n. unfold push_back. destruct l as [|a l].
  - apply Forall2_nil_inv_l in Hd as ->.
    destruct (add_first_spec m v Hm) as (m' & E & Hn & Hfr & Hr' & D & F). fold n in E, Hn, Hfr, Hr', D, F.
    exists m'. split; [done|]. split; [split; [done|by rewrite D, decide_True]|]. split; [|split; [done|]].
    + by apply (new_holds m m' n v [] [] [] []).
    + intros x _ [_ Hvx]. assert (x ≠ n) by (intros ->; unfold dat in Hvx; rewrite Hfr in Hvx; by destruct Hvx).
      destruct (F x) as [-> ->]; [done|]. by rewrite D, decide_False.
  - destruct (add_spec m a l v Hm (Hr ltac:(done)) Hv) as (m' & E & Hn & Hfr & Hr' & D & F).
    fold n in E, Hn, Hfr, Hr', D, F.
    exists m'. split; [done|]. split; [split; [done|by rewrite D, decide_True]|]. split; [|split; [done|]].
    + apply (new_holds m m' n v (a :: l) [] vs []); try done. by rewrite app_nil_r.
    + intros x Hx [_ Hvx]. assert (x ≠ n) by (intros ->; unfold dat in Hvx; rewrite Hfr in Hvx; by destruct Hvx).
      destruct (F x) as [-> ->]; [done..|]. by rewrite D, decide_False.
Qed.

(** [push_front]: the new last node becomes the head. *)
Lemma put_first m p l vs v : holds m p l vs → (malloc m).1 ≠ 0 →
  let n := (malloc m).1 in
  ∃ m', push_front m p v = Ok (n, n, m') ∧ returns m' n (Some v) ∧
    holds m' n (n :: l) (v :: vs) ∧ untouched m m' l.
Proof.
  intros Hh Hm n. destruct (put_last m p l vs v Hh Hm) as (m' & E & Hret & Hh' & Hr & Hu).
  fold n in E, Hret, Hh', Hr, Hu.
  exists m'. unfold push_front. rewrite E, bind_Ok. split; [done|]. split; [done|]. split; [|done].
  destruct Hh' as [_ _ Hv Hd]. split; [done| | |].
  - intros _. by apply (ring_rotate_app _ _ l [n]) in Hr.
  - by rewrite (Permutation_app_comm l [n]) in Hv.
  - apply Forall2_app_inv in Hd as [H1 H2]; [|by rewrite (holds_length _ _ _ _ Hh)]. 
    apply Forall2_cons in H2 as [? _]. by constructor.
Qed.
End refinement.

(** ** Walking the ring *)

(** From a node to the one [step] leads to, which is the first only at the end. *)
Lemma walk_step m (step : node → Z) (R R' : Z → Z → Prop) l vs k a :
  (∀ x y n, get m x = Ok n → R x y → step n = y) → ring R R' l → Forall (valid m) l →
  Forall2 (λ a v, dat m a = Some v) l vs → l !! k = Some a →
  ∃ n, get m a = Ok n ∧ data n = default [] (vs !! k) ∧
    ((step n = hd 0 l ∧ S k = length l) ∨ (l !! S k = Some (step n) ∧ hd 0 l ≠ step n)).
Proof.
  intros Hstep Hr Hv Hd Ha. pose proof (lookup_lt_Some _ _ _ Ha) as Hk.
  destruct (get_ok m a (Forall_lookup_1 _ _ _ _ Hv Ha)) as (n & E & _ & _ & Ed). exists n. split; [done|].
  destruct (Forall2_lookup_l _ _ _ _ _ Hd Ha) as (w & Hw & Hdw). split; [rewrite Hw; cbn; congruence|].
  destruct (lookup_lt_is_Some_2 l (S k mod length l)) as [b Hb]; [apply Nat.mod_upper_bound; lia|].
  destruct (ring_next _ _ _ _ _ _ Hr Ha Hb) as [Hab _]. rewrite (Hstep _ _ _ E Hab).
  destruct (decide (S k < length l)%nat) as [Hlt|Hge].
  - right. rewrite Nat.mod_small in Hb by done. split; [done|]. destruct l as [|c l]; [done|]. cbn [hd].
    intros ->. apply ring_NoDup in Hr. pose proof (NoDup_lookup _ 0 (S k) b Hr eq_refl Hb). done.
  - left. replace (S k) with (length l) in Hb |- * by lia. rewrite Nat.Div0.mod_same in Hb.
    destruct l as [|c l]; [done|]. by injection Hb.
Qed.

Lemma next_links m x y n : get m x = Ok n → nx m x y → next n = y.
Proof. unfold get, nx, nxt. case_decide; [done|]. destruct (m !! x); cbn; congruence. Qed.
Lemma prev_links m x y n : get m x = Ok n → pv m x y → prev n = y.
Proof. unfold get, pv, prv. case_decide; [done|]. destruct (m !! x); cbn; congruence. Qed.

Lemma walk_next m p l vs k a : holds m p l vs → l !! k = Some a →
  ∃ n, get m a = Ok n ∧ data n = default [] (vs !! k) ∧
    ((next n = p ∧ S k = length l) ∨ (l !! S k = Some (next n) ∧ p ≠ next n)).
Proof.
  intros [-> Hr Hv Hd] Ha. apply (walk_step m next (nx m) (pv m) l vs k a); try done; [apply next_links|].
  apply Hr. by intros ->.
Qed.

Lemma find_from m p l vs i : holds m p l vs → 0 ≤ i < 2 ^ 32 → Z.of_nat (length l) < 2 ^ 32 →
  ∀ fuel k a, l !! k = Some a → Z.of_nat k ≤ i → (length l - k ≤ fuel)%nat →
  while_loop fuel (find_round m p i) (a, Z.of_nat k) = Ok (default 0 (l !! Z.to_nat i)).
Proof.
  intros Hh Hi Hl fuel. induction fuel as [|fuel IH]; intros k a Ha Hki Hf;
    pose proof (lookup_lt_Some _ _ _ Ha); [lia|].
  destruct (decide (Z.of_nat k = i)) as [<-|Hne].
  - apply while_exit. unfold find_round. rewrite decide_True, Nat2Z.id, Ha by done. done.
  - destruct (walk_next m p l vs k a Hh Ha) as (n & E & _ & [[En Hk]|[Hn Hp]]).
    + apply while_exit. unfold find_round. rewrite decide_False, E, bind_Ok, En by done. cbn zeta.
      rewrite decide_False by (intros Hpp; by apply Hpp).
      rewrite lookup_ge_None_2 by lia. done.
    + rewrite (while_continue _ _ _ (next n, Z.of_nat (S k))); [apply IH; [done|lia|lia]|].
      unfold find_round. rewrite decide_False, E, bind_Ok by done. cbn zeta.
      rewrite decide_True, u32_id by (done || lia). repeat f_equal. lia.
Qed.

(** [find_index] returns the node at the index, NULL past the end. *)
Lemma find_index_spec fuel m p l vs i : holds m p l vs → 0 ≤ i < 2 ^ 32 → Z.of_nat (length l) < 2 ^ 32 →
  (length l ≤ fuel)%nat → find_index fuel m p i = Ok (default 0 (l !! Z.to_nat i)).
Proof.
  intros Hh Hi Hl Hf. unfold find_index. case_decide as Hp.
  - apply (holds_nonnull _ _ _ _ Hh) in Hp as ->. done.
  - destruct l as [|a l]; [by destruct Hp; apply (holds_nonnull _ _ _ _ Hh)|].
    rewrite (holds_head _ _ _ _ Hh) at 2. by apply (find_from m p (a :: l) vs i Hh Hi Hl fuel 0 a); [|lia|lia].
Qed.

Lemma walk_from m p l vs i : holds m p l vs → 0 ≤ i < 2 ^ 32 → Z.of_nat (length l) < 2 ^ 32 →
  ∀ fuel k a, l !! k = Some a → Z.of_nat k ≤ i → (length l - k ≤ fuel)%nat →
  while_loop fuel (walk_round m p i) (a, Z.of_nat k) =
  Ok (default p (l !! Z.to_nat i), Z.min i (Z.of_nat (length l))).
Proof.
  intros Hh Hi Hl fuel. induction fuel as [|fuel IH]; intros k a Ha Hki Hf;
    pose proof (lookup_lt_Some _ _ _ Ha); [lia|].
  destruct (decide (Z.of_nat k = i)) as [<-|Hne].
  - apply while_exit. unfold walk_round. rewrite decide_True, Nat2Z.id, Ha by done. cbn. repeat f_equal. lia.
  - destruct (walk_next m p l vs k a Hh Ha) as (n & E & _ & [[En Hk]|[Hn Hp]]).
    + apply while_exit. unfold walk_round. rewrite decide_False, E, bind_Ok, En by done. cbn zeta.
      rewrite decide_False by (intros Hpp; by apply Hpp).
      rewrite lookup_ge_None_2, u32_id by lia. cbn. repeat f_equal. lia.
    + rewrite (while_continue _ _ _ (next n, Z.of_nat (S k))); [apply IH; [done|lia|lia]|].
      unfold walk_round. rewrite decide_False, E, bind_Ok by done. cbn zeta.
      rewrite decide_True, u32_id by (done || lia). repeat f_equal. lia.
Qed.

(** ** The operations *)

Lemma pop_back_spec m p l z vs : holds m p (l ++ [z]) vs →
  ∃ m' vs' w, pop_back m p = Ok (z, hd 0 l, m') ∧ vs = vs' ++ [w] ∧ returns m' z (Some w) ∧
    holds m' (hd 0 l) l vs' ∧ untouched m m' (l ++ [z]).
Proof.
  intros Hh. pose proof (holds_head _ _ _ _ Hh) as ->.
  destruct (take_out m l z [] vs Hh) as (m' & vs1 & w & vs2 & E & -> & Hl & Hret & Hh' & Hu).
  rewrite app_nil_r in Hh'. cbn [app] in E.
  assert (vs2 = []) as ->.
  { apply holds_length in Hh, Hh'. rewrite !length_app in *. cbn [length] in *. destruct vs2; [done|cbn [length] in *; lia]. }
  rewrite app_nil_r in Hh'. exists m', vs1, w. split; [|done].
  unfold pop_back. destruct Hh as [_ Hr Hv _]. specialize (Hr ltac:(by destruct l)).
  rewrite Forall_app, Forall_cons in Hv. destruct Hv as (Hv & Hvz & _).
  destruct l as [|a l]; cbn [app hd] in *.
  - rewrite decide_False by apply Hvz. apply ring_singleton in Hr as [Hn Hp].
    destruct (get_links m z z z Hvz Hn Hp) as (n & -> & En & Ep). rewrite bind_Ok, Ep.
    destruct (get_links m z z z Hvz Hn Hp) as (n' & -> & En' & _). by rewrite bind_Ok, decide_True, E.
  - apply Forall_cons in Hv as [Hva Hv]. rewrite decide_False by apply Hva.
    apply ring_head in Hr as (Hd & _ & Hzn & Hzp). rewrite last_of_snoc in Hzn, Hzp.
    destruct (get_ok m a Hva) as (na & -> & _ & Pa & _). rewrite bind_Ok.
    unfold pv in Hzp. assert (prev na = z) as -> by congruence.
    destruct (get_ok m z Hvz) as (nz & -> & Nz & _ & _). rewrite bind_Ok.
    unfold nx in Hzn. assert (next nz = a) as -> by congruence.
    rewrite decide_False; [by rewrite E, bind_Ok|]. intros ->. apply NoDup_cons in Hd as [Hd _].
    apply Hd, elem_of_app. right. by left.
Qed.

Lemma holds_rotate m a l v vs : holds m a (a :: l) (v :: vs) → holds m (hd 0 (l ++ [a])) (l ++ [a]) (vs ++ [v]).
Proof.
  intros [_ Hr Hv Hd]. split; [done| | |].
  - intros _. apply (ring_rotate_app _ _ [a] l), Hr. done.
  - by rewrite (Permutation_app_comm l [a]).
  - apply Forall2_cons in Hd as [? ?]. apply Forall2_app; [done|]. by constructor.
Qed.

Lemma pop_front_spec m p a l vs : holds m p (a :: l) vs →
  ∃ m' v vs', pop_front m p = Ok (a, hd 0 l, m') ∧ vs = v :: vs' ∧ returns m' a (Some v) ∧
    holds m' (hd 0 l) l vs' ∧ untouched m m' (a :: l).
Proof.
  intros Hh. pose proof (holds_head _ _ _ _ Hh) as ->. cbn [hd] in *.
  pose proof Hh as [_ _ Hv Hd]. apply Forall2_cons_inv_l in Hd as (v & vs' & Hva & Hd & ->).
  apply Forall_cons in Hv as [Hv _]. unfold pop_front. rewrite decide_False by apply Hv.
  destruct (walk_next m a (a :: l) _ 0 a Hh eq_refl) as (n & -> & _ & Hn). rewrite bind_Ok.
  assert (next n = hd 0 (l ++ [a])) as ->.
  { destruct Hn as [[-> Hl]|[Hn _]]; [by destruct l|]. destruct l; [done|]. by injection Hn. }
  destruct (pop_back_spec m _ l a _ (holds_rotate _ _ _ _ _ Hh)) as (m' & vs2 & w & E & Evs & Hret & Hh' & Hu).
  apply app_inj_tail in Evs as [<- <-]. exists m', v, vs'. split; [done|]. split; [done|]. split; [done|].
  split; [done|]. intros x Hx. apply Hu. rewrite elem_of_cons in Hx.
  rewrite elem_of_app, list_elem_of_singleton. tauto.
Qed.

Lemma delete_at {A} (l1 : list A) b l2 i : length l1 = i → delete i (l1 ++ b :: l2) = l1 ++ l2.
Proof.
  intros <-. rewrite list.delete_take_drop, take_app_length, drop_app_ge by lia.
  by replace (S (length l1) - length l1)%nat with 1%nat by lia.
Qed.

Lemma delete_past {A} (l : list A) i : (length l ≤ i)%nat → delete i l = l.
Proof. intros. by rewrite list.delete_take_drop, take_ge, drop_ge, app_nil_r by lia. Qed.

Lemma pop_index_spec fuel m p l vs i : holds m p l vs → 0 ≤ i < 2 ^ 32 → Z.of_nat (length l) < 2 ^ 32 →
  (length l ≤ fuel)%nat →
  ∃ m' r l', pop_index fuel m p i = Ok (r, hd 0 l', m') ∧ returns m' r (vs !! Z.to_nat i) ∧
    holds m' (hd 0 l') l' (delete (Z.to_nat i) vs) ∧ untouched m m' l ∧ (length l' ≤ length l)%nat.
Proof.
  intros Hh Hi Hl Hf. unfold pop_index. pose proof (holds_head _ _ _ _ Hh) as Hp.
  pose proof (holds_length _ _ _ _ Hh) as Hlen.
  destruct (l !! Z.to_nat i) as [b|] eqn:Hb.
  - pose proof (take_drop_middle _ _ _ Hb) as Hsplit. set (l1 := take _ l) in Hsplit. set (l2 := drop _ l) in Hsplit.
    assert (Hl1 : length l1 = Z.to_nat i) by (apply length_take_le; apply lookup_lt_Some in Hb; lia).
    clearbody l1 l2.
    pose proof Hh as Hh0. rewrite <- Hsplit, Hp in Hh0. rewrite <- Hsplit in Hh0 at 1.
    destruct (take_out m l1 b l2 vs Hh0) as (m' & vs1 & w & vs2 & E & -> & Hv1 & Hret & Hh' & Hu).
    assert (Hb0 : b ≠ 0) by apply (Forall_lookup_1 _ _ _ _ (holds_valid _ _ _ _ Hh) Hb).
    assert (Hp0 : p ≠ 0) by (rewrite (holds_nonnull _ _ _ _ Hh); by intros ->).
    rewrite decide_False, (find_index_spec fuel m p l _ i Hh Hi Hl Hf), bind_Ok, Hb by done. change (default 0 (Some b)) with b.
    rewrite decide_False by done. exists m', b, (l1 ++ l2).
    split; [|split; [by rewrite list_lookup_middle by congruence|split; [by rewrite delete_at by congruence|]]].
    + rewrite <- Hsplit in Hp. destruct l1 as [|a l1]; cbn [app hd] in Hp |- *.
      * by rewrite decide_True, Hp, E, app_nil_r by done.
      * rewrite decide_False, E, bind_Ok by (subst p; intros <-; apply holds_ring, ring_NoDup in Hh0; [|done];
          cbn in Hh0; apply NoDup_cons in Hh0 as [Hh0 _]; apply Hh0, elem_of_app; right; by left). by subst p.
    + rewrite Hsplit in Hu. split; [done|]. rewrite <- Hsplit, !length_app. cbn [length]. lia.
  - apply lookup_ge_None in Hb. exists m, 0, l.
    rewrite (find_index_spec fuel m p l _ i Hh Hi Hl Hf), bind_Ok, lookup_ge_None_2 by done.
    rewrite delete_past, lookup_ge_None_2, <- Hp by lia. cbn [default].
    split; [by destruct (decide (p = 0))|]. split; [done|]. split; [done|]. split; [by intros x|lia].
Qed.

Section operations_refine.
Context `{MallocLaw}.

Lemma push_index_spec fuel m p l vs i v : holds m p l vs → 0 ≤ i < 2 ^ 32 → Z.of_nat (length l) < 2 ^ 32 →
  (length l ≤ fuel)%nat → (malloc m).1 ≠ 0 →
  if decide (i ≤ Z.of_nat (length vs)) then
    ∃ m' r l', push_index fuel m p i v = Ok (r, hd 0 l', m') ∧ returns m' r (Some v) ∧
      holds m' (hd 0 l') l' (take (Z.to_nat i) vs ++ v :: drop (Z.to_nat i) vs) ∧
      untouched m m' l ∧ length l' = S (length l)
  else push_index fuel m p i v = Ok (0, p, m).
Proof.
  intros Hh Hi Hl Hf Hm. unfold push_index. pose proof (holds_head _ _ _ _ Hh) as Hp.
  pose proof (holds_length _ _ _ _ Hh) as Hlen. pose proof (holds_nonnull _ _ _ _ Hh) as Hnull.
  destruct (decide (i = 0)) as [->|Hi0].
  { rewrite decide_True by lia. rewrite decide_False by lia.
    destruct (put_first m p l vs v Hh Hm) as (m' & E & Hret & Hh' & Hu).
    exists m', (malloc m).1, ((malloc m).1 :: l). done. }
  destruct (decide (l = [])) as [->|Hne].
  { destruct vs; [|done]. cbn [length] in *. rewrite decide_False by lia.
    by rewrite decide_True by (split; [by apply Hnull|done]). }
  assert (Hp0 : p ≠ 0) by (by rewrite Hnull). rewrite (decide_False (P := p = 0 ∧ i ≠ 0)) by tauto.
  assert (Ew : while_loop fuel (walk_round m p i) (p, 0) =
    Ok (default p (l !! Z.to_nat i), Z.min i (Z.of_nat (length l)))).
  { destruct l as [|a l]; [done|]. apply (walk_from m p (a :: l) vs i Hh Hi Hl fuel 0 p); [|lia|lia].
    rewrite Hp. done. }
  rewrite Ew, bind_Ok. clear Ew. unfold push_back.
  destruct (l !! Z.to_nat i) as [b|] eqn:Hb.
  - pose proof (lookup_lt_Some _ _ _ Hb) as Hlt. rewrite decide_True by lia.
    pose proof (take_drop_middle _ _ _ Hb) as Hsplit. set (l1 := take _ l) in Hsplit. set (l2 := drop _ l) in Hsplit.
    assert (Hl1 : length l1 = Z.to_nat i) by (apply length_take_le; lia). clearbody l1 l2.
    pose proof Hh as Hh0. rewrite <- Hsplit, Hp in Hh0. rewrite <- Hsplit in Hh0 at 1.
    destruct (put_before m l1 b l2 vs v Hh0 Hm) as (m' & vs1 & vs2 & E & -> & Hv1 & Hret & Hh' & Hu).
    change (default p (Some b)) with b. rewrite decide_False by lia. rewrite E, bind_Ok.
    exists m', (malloc m).1, (l1 ++ (malloc m).1 :: b :: l2).
    split; [|split; [done|split; [by rewrite take_app_length', drop_app_length' by congruence|]]].
    + rewrite <- Hsplit in Hp. destruct l1; [cbn in Hl1; lia|]. by rewrite Hp.
    + split; [by rewrite Hsplit in Hu|]. rewrite <- Hsplit, !length_app. cbn [length]. lia.
  - apply lookup_ge_None in Hb. change (default p None) with p. rewrite Z.min_r by lia.
    destruct (decide (i = Z.of_nat (length l))) as [->|Hgt].
    + rewrite decide_True by lia. rewrite decide_False by tauto.
      destruct (put_last m p l vs v Hh Hm) as (m' & E & Hret & Hh' & _ & Hu). unfold push_back in E.
      rewrite E, bind_Ok. exists m', (malloc m).1, (l ++ [(malloc m).1]).
      rewrite Nat2Z.id, take_ge, drop_ge by lia.
      split; [by destruct l; [|rewrite Hp]|]. split; [done|]. split; [done|]. split; [done|].
      rewrite length_app. cbn. lia.
    + rewrite decide_False by lia. by rewrite decide_True by (split; [done|lia]).
Qed.

(** The operations on one list, on the program's state and on payloads. *)
Inductive list_op :=
  | Push_back (v : payload)
  | Push_front (v : payload)
  | Push_index (i : Z) (v : payload)
  | Pop_back
  | Pop_front
  | Pop_index (i : Z).

Definition run_op (fuel : nat) (s : Z * nodes) (o : list_op) : outcome (Z * Z * nodes) :=
  let '(p, m) := s in
  match o with
  | Push_back v => push_back m p v
  | Push_front v => push_front m p v
  | Push_index i v => push_index fuel m p i v
  | Pop_back => pop_back m p
  | Pop_front => pop_front m p
  | Pop_index i => pop_index fuel m p i
  end.

Definition spec_op (vs : list payload) (o : list_op) : option payload * list payload :=
  match o with
  | Push_back v => (Some v, vs ++ [v])
  | Push_front v => (Some v, v :: vs)
  | Push_index i v =>
      if decide (i ≤ Z.of_nat (length vs))
      then (Some v, take (Z.to_nat i) vs ++ v :: drop (Z.to_nat i) vs) else (None, vs)
  | Pop_back => (last vs, take (length vs - 1) vs)
  | Pop_front => (head vs, drop 1 vs)
  | Pop_index i => (vs !! Z.to_nat i, delete (Z.to_nat i) vs)
  end.

Definition op_ok (o : list_op) : Prop :=
  match o with Push_index i _ | Pop_index i => 0 ≤ i < 2 ^ 32 | _ => True end.

Lemma op_refines fuel m p l vs o : holds m p l vs → op_ok o → Z.of_nat (length l) < 2 ^ 32 →
  (length l ≤ fuel)%nat → (malloc m).1 ≠ 0 →
  ∃ m' r l', run_op fuel (p, m) o = Ok (r, hd 0 l', m') ∧ returns m' r (spec_op vs o).1 ∧
    holds m' (hd 0 l') l' (spec_op vs o).2 ∧ untouched m m' l ∧ (length l' ≤ S (length l))%nat.
Proof.
  intros Hh Ho Hl Hf Hm. assert (Hid : untouched m m l) by done. pose proof (holds_head _ _ _ _ Hh) as Hp.
  destruct o as [v|v|i v| | |i]; cbn [run_op spec_op fst snd].
  - destruct (put_last m p l vs v Hh Hm) as (m' & E & Hret & Hh' & _ & Hu). exists m', (malloc m).1, (l ++ [(malloc m).1]).
    rewrite length_app. cbn [length]. split_and!; [exact E|done..|lia].
  - destruct (put_first m p l vs v Hh Hm) as (m' & E & Hret & Hh' & Hu).
    exists m', (malloc m).1, ((malloc m).1 :: l). cbn [length]. split_and!; [exact E|done..].
  - pose proof (push_index_spec fuel m p l vs i v Hh Ho Hl Hf Hm) as Hs. case_decide.
    + destruct Hs as (m' & r & l' & E & ? & ? & ? & Hl'). exists m', r, l'. split_and!; try done. lia.
    + exists m, 0, l. rewrite Hs, <- Hp. split_and!; try done. lia.
  - destruct l as [|z l' _] using rev_ind.
    + assert (vs = []) as -> by (by destruct vs; [|apply holds_length in Hh]).
      exists m, 0, []. subst p. split_and!; try done. cbn. lia.
    + destruct (pop_back_spec m p l' z vs Hh) as (m' & vs' & w & E & -> & Hret & Hh' & Hu).
      exists m', z, l'. rewrite last_snoc, !length_app. cbn [length].
      rewrite take_app_length' by lia. split_and!; try done. lia.
  - destruct l as [|a l].
    + assert (vs = []) as -> by (by destruct vs; [|apply holds_length in Hh]).
      exists m, 0, []. subst p. split_and!; try done. cbn. lia.
    + destruct (pop_front_spec m p a l vs Hh) as (m' & v & vs' & E & -> & Hret & Hh' & Hu).
      exists m', a, l. cbn [head drop length]. split_and!; try done. lia.
  - destruct (pop_index_spec fuel m p l vs i Hh Ho Hl Hf) as (m' & r & l' & E & Hret & Hh' & Hu & Hl').
    exists m', r, l'. split_and!; try done. lia.
Qed.
End operations_refine.

(** ** Whole lists *)

Lemma get_same m m' a : m' !! a = m !! a → get m' a = get m a.
Proof. intros E. unfold get. by rewrite E. Qed.

(** One round: the first of the remaining nodes is freed. *)
Lemma delete_first m p l vs l1 a l2 m' : holds m p l vs → l = l1 ++ a :: l2 →
  (∀ x, m' !! x = if decide (x ∈ l1) then None else m !! x) →
  ∃ n, get m' a = Ok n ∧ free m' a = Ok (delete a m') ∧
    match l2 with [] => next n = p | b :: _ => next n = b ∧ p ≠ b end ∧
    ∀ x, delete a m' !! x = if decide (x ∈ l1 ++ [a]) then None else m !! x.
Proof.
  intros Hh El Hm'. assert (Ha : l !! length l1 = Some a) by (subst l; by apply list_lookup_middle).
  destruct (walk_next m p l vs _ a Hh Ha) as (n & E & _ & Hn).
  assert (Hd : NoDup l) by (eapply ring_NoDup, (holds_ring _ _ _ _ Hh); by intros ->).
  pose proof (Forall_lookup_1 _ _ _ _ (holds_valid _ _ _ _ Hh) Ha) as Hva.
  assert (Hal : a ∉ l1)
    by (subst l; apply NoDup_app in Hd as (_ & Hd & _); intros Hin; apply (Hd a Hin); by left).
  assert (Hg : get m' a = Ok n).
  { rewrite (get_same m); [done|]. rewrite Hm'. by case_decide. }
  exists n. split; [done|]. split; [unfold free; by rewrite decide_False, Hg by apply Hva|]. split.
  - destruct l2 as [|b l2].
    + destruct Hn as [[Hn _]|[Hn _]]; [done|]. apply lookup_lt_Some in Hn.
      rewrite El, length_app in Hn. cbn [length] in Hn. lia.
    + destruct Hn as [[_ Hn]|[Hn Hp]].
      { rewrite El, length_app in Hn. cbn [length] in Hn. lia. }
      rewrite El, cons_middle, app_assoc in Hn. rewrite list_lookup_middle in Hn; [|rewrite length_app; cbn [length]; lia].
      injection Hn as Hn. by rewrite <- Hn in Hp.
  - intros x. destruct (decide (x = a)) as [-> | Hx].
    + rewrite lookup_delete_eq, decide_True; [done|]. apply elem_of_app. right. by left.
    + rewrite lookup_delete_ne, Hm' by done. apply decide_ext. rewrite elem_of_app, list_elem_of_singleton. tauto.
Qed.

Lemma delete_from m p l vs : holds m p l vs → ∀ l2 l1 fuel a m', l = l1 ++ a :: l2 →
  (∀ x, m' !! x = if decide (x ∈ l1) then None else m !! x) → (S (length l2) ≤ fuel)%nat →
  ∃ m'', while_loop fuel (delete_round p) (a, m') = Ok m'' ∧
    ∀ x, m'' !! x = if decide (x ∈ l) then None else m !! x.
Proof.
  intros Hh l2. induction l2 as [|b l2 IH]; intros l1 [|fuel] a m' El Hm' Hf; cbn [length] in Hf; try lia;
    destruct (delete_first m p l vs l1 a _ m' Hh El Hm') as (n & Hg & Hfree & Hn & Hdel).
  - exists (delete a m'). split; [|by rewrite El]. apply while_exit. unfold delete_round.
    rewrite Hg, bind_Ok, Hfree, bind_Ok, Hn. cbn [head default]. by rewrite decide_False by (intros Hp; by apply Hp).
  - destruct Hn as [Hn Hp]. rewrite (while_continue _ _ _ (b, delete a m')).
    + apply (IH (l1 ++ [a])); [by rewrite <- app_assoc|done|lia].
    + unfold delete_round. rewrite Hg, bind_Ok, Hfree, bind_Ok, Hn. cbn zeta. by rewrite decide_True by done.
Qed.

Lemma print_from m (step : node → Z) stop (outs : list Z) : ∀ l fuel a out,
  length outs = length (a :: l) → (S (length l) ≤ fuel)%nat →
  (∀ i x d, (a :: l) !! i = Some x → outs !! i = Some d →
     ∃ n, get m x = Ok n ∧ arr_get (data n) 0 = Ok d ∧
       match (a :: l) !! S i with Some y => step n = y ∧ stop ≠ y | None => step n = stop end) →
  while_loop fuel (print_round m step stop) (a, out) = Ok (out ++ outs).
Proof.
  intros l. revert outs. induction l as [|b l IH]; intros [|d outs] [|fuel] a out Hlen Hf Hn;
    cbn [length] in *; try lia; destruct (Hn 0%nat a d eq_refl eq_refl) as (n & E & Ed & Es); cbn in Es.
  - apply while_exit. unfold print_round. rewrite E, bind_Ok, Ed, bind_Ok, Es. cbn zeta.
    rewrite decide_False by (intros Hp; by apply Hp). by destruct outs.
  - destruct Es as [Es Hs]. rewrite (while_continue _ _ _ (b, out ++ [d])).
    + rewrite (IH outs); [by rewrite <- app_assoc|lia|lia|]. intros i x y Hi Hy. by apply (Hn (S i)).
    + unfold print_round. rewrite E, bind_Ok, Ed, bind_Ok, Es. cbn zeta. by rewrite decide_True by done.
Qed.

(** The first numbers of the payloads. *)
Definition firsts (vs : list payload) : list Z := hd 0 <$> vs.

Lemma first_ok (v : payload) : v ≠ [] → arr_get v 0 = Ok (hd 0 v).
Proof. by destruct v. Qed.

Lemma print_ring fuel m step R R' l vs :
  (∀ x y n, get m x = Ok n → R x y → step n = y) → ring R R' l → Forall (valid m) l →
  Forall2 (λ a v, dat m a = Some v) l vs → Forall (λ v, v ≠ []) vs → (length l ≤ fuel)%nat →
  while_loop fuel (print_round m step (hd 0 l)) (hd 0 l, []) = Ok (firsts vs).
Proof.
  intros Hstep Hr Hv Hd Hvs Hf. pose proof (Forall2_length _ _ _ Hd) as Hlen. destruct l as [|a l]; [done|]. change (hd 0 (a :: l)) with a.
  rewrite (print_from m step a (firsts vs) l); [done|unfold firsts; by rewrite length_fmap|done|].
  intros i x d Hi Hx. unfold firsts in Hx. apply list_lookup_fmap_Some in Hx as (v & -> & Hx).
  destruct (walk_step m step R R' (a :: l) vs i x Hstep Hr Hv Hd Hi) as (n & E & Ed & Hn). exists n.
  split; [done|]. rewrite Hx in Ed. change (default [] (Some v)) with v in Ed. rewrite Ed.
  split; [by apply first_ok, (Forall_lookup_1 _ _ _ _ Hvs Hx)|].
  destruct Hn as [[Hn Hk]|[Hn Hs]]; [by rewrite lookup_ge_None_2 by lia|by rewrite Hn].
Qed.

Lemma print_lists_spec fuel m p l vs : holds m p l vs → Forall (λ v, v ≠ []) vs → (length l ≤ fuel)%nat →
  print_list fuel m p = Ok (firsts vs) ∧ print_list_reverse fuel m p = Ok (firsts (reverse vs)).
Proof.
  intros Hh Hvs Hf. unfold print_list, print_list_reverse.
  case_decide as Hp; [apply (holds_nonnull _ _ _ _ Hh) in Hp as ->; by destruct vs; [|apply holds_length in Hh]|].
  assert (Hne : l ≠ []) by (intros ->; apply Hp; by apply (holds_nonnull _ _ _ _ Hh)).
  destruct Hh as [-> Hr Hv Hd]. specialize (Hr Hne). split.
  - apply (print_ring fuel m next (nx m) (pv m) l vs); try done. apply next_links.
  - destruct l as [|a l]; [done|]. cbn [hd]. destruct (get_ok m a) as (n & E & _ & Ep & _);
      [by apply Forall_cons in Hv as [? _]|]. rewrite E, bind_Ok.
    pose proof Hr as (_ & _ & _ & Hpa)%ring_head. unfold pv in Hpa. assert (prev n = last_of a l) as -> by congruence.
    assert (Hhd : hd 0 (reverse (a :: l)) = last_of a l).
    { destruct (last_of_split a l) as [l' ->]. by rewrite reverse_snoc. }
    rewrite <- Hhd. apply (print_ring fuel m prev (pv m) (nx m)).
    + apply prev_links.
    + by apply ring_reverse.
    + by apply Forall_reverse.
    + by apply Forall2_reverse.
    + by apply Forall_reverse.
    + by rewrite length_reverse.
Qed.

(** ** [swap]

    The two nodes are [a] and [b]; [h1] and [z1] are the ends of the nodes after
    [a] and before [b], [h2] and [z2] the ends of the nodes after [b] and before
    [a]. *)
Definition relink (f : Z → option Z) (l : list (Z * Z)) (x : Z) : option Z :=
  foldr (λ kv r, if decide (x = kv.1) then Some kv.2 else r) (f x) l.

Lemma relink_out f l x : Forall (λ kv, x ≠ kv.1) l → relink f l x = f x.
Proof. unfold relink. induction 1 as [|kv l Hx _ IH]; cbn; [done|]. by rewrite decide_False. Qed.

Lemma swap_stores m a h1 z1 b h2 z2 :
  Forall (valid m) [a; b; h1; z1; h2; z2] →
  nx m a h1 → pv m a z2 → nx m b h2 → pv m b z1 →
  NoDup [a; b; h1; h2] → NoDup [a; b; z1; z2] → z1 ≠ h2 → h1 ≠ z2 →
  ∃ m', swap m a b = Ok (b, (b, a), m') ∧
    (∀ x, nxt m' x = relink (nxt m) [(a, h2); (b, h1); (z1, a); (z2, b)] x) ∧
    (∀ x, prv m' x = relink (prv m) [(b, z2); (a, z1); (h1, b); (h2, a)] x) ∧
    (∀ x, dat m' x = dat m x).
Proof.
  intros Hv Lah Pza Lbh Pzb Hd1 Hd2 Hzh Hhz.
  rewrite !Forall_cons in Hv. destruct Hv as (Va & Vb & Vh1 & Vz1 & Vh2 & Vz2 & _).
  rewrite !NoDup_cons, !not_elem_of_cons in Hd1, Hd2.
  destruct Hd1 as ((Hab & Hah1 & Hah2 & _) & (Hbh1 & Hbh2 & _) & (Hhh & _) & _).
  destruct Hd2 as ((_ & Haz1 & Haz2 & _) & (Hbz1 & Hbz2 & _) & (Hzz & _) & _).
  unfold swap. rewrite decide_False by (intros [E|E]; [by apply Va|by apply Vb]).
  destruct (get_links m a h1 z2 Va Lah Pza) as (na & -> & En & Ep). rewrite bind_Ok, Ep. clear na En Ep.
  destruct (get_links m b h2 z1 Vb Lbh Pzb) as (nb & -> & En & Ep). rewrite bind_Ok, En. clear nb En Ep.
  destruct (set_next_ok m z2 b Vz2) as (m1 & -> & Q1 & P1 & D1). rewrite bind_Ok.
  destruct (set_prev_ok m1 h2 a) as (m2 & -> & Q2 & P2 & D2); [still_valid|]. rewrite bind_Ok.
  destruct (get_links m2 a h1 z2) as (na & -> & En & Ep); [still_valid|links..|]. rewrite bind_Ok.
  rewrite decide_False by (rewrite En, Ep; intuition congruence). rewrite En. clear na En Ep.
  destruct (set_prev_ok m2 h1 b) as (m3 & -> & Q3 & P3 & D3); [still_valid|]. rewrite bind_Ok.
  destruct (get_links m3 b h2 z1) as (nb & -> & En & Ep); [still_valid|links..|]. rewrite bind_Ok, Ep. clear nb En Ep.
  destruct (set_next_ok m3 z1 a) as (m4 & -> & Q4 & P4 & D4); [still_valid|]. rewrite bind_Ok.
  destruct (get_links m4 b h2 z1) as (nb & -> & En & Ep); [still_valid|links..|]. rewrite bind_Ok, Ep. clear nb En Ep.
  destruct (set_prev_ok m4 a z1) as (m5 & -> & Q5 & P5 & D5); [still_valid|]. rewrite bind_Ok.
  destruct (get_links m5 a h1 z1) as (na & -> & En & Ep); [still_valid|links..|]. rewrite bind_Ok, En. clear na En Ep.
  destruct (set_next_ok m5 b h1) as (m6 & -> & Q6 & P6 & D6); [still_valid|]. rewrite bind_Ok.
  destruct (set_next_ok m6 a h2) as (m7 & -> & Q7 & P7 & D7); [still_valid|]. rewrite bind_Ok.
  destruct (set_prev_ok m7 b z2) as (m8 & -> & Q8 & P8 & D8); [still_valid|]. rewrite bind_Ok.
  exists m8. split; [done|]. unfold relink. cbn [foldr fst snd].
  split; [|split]; intros x; [links|links|by rewrite D8, D7, D6, D5, D4, D3, D2, D1].
Qed.

(** A read through [relink], at an address compared by what is in the context. *)
Ltac relinks := unfold relink; cbn [foldr fst snd];
  repeat first [rewrite decide_True by done | rewrite decide_False by done]; try done.

(** A node whose link no store changed. *)
Ltac relink_out Hin Q := unfold nx, pv; intros <-; rewrite Q; apply Hin; cbn [fmap list_fmap fst];
  rewrite !not_elem_of_cons; split_and!; auto using not_elem_of_nil.

Lemma swap_apart m a h1 t1 b h2 t2 :
  let l := a :: (h1 :: t1) ++ b :: h2 :: t2 in
  ring (nx m) (pv m) l → Forall (valid m) l →
  ∃ m', swap m a b = Ok (b, (b, a), m') ∧ ring (nx m') (pv m') (b :: (h1 :: t1) ++ a :: h2 :: t2) ∧
    (∀ x, dat m' x = dat m x).
Proof.
  intros l Hr Hv. pose proof (proj1 (ring_two _ _ _ _ _ _ _ _) Hr) as
    (Hd & C1 & C2 & [Lah Pah] & [Lzb Pzb] & [Lbh Pbh] & [Lza Pza]).
  pose proof (last_of_in h1 t1) as Z1. pose proof (last_of_in h2 t2) as Z2.
  assert (Hv2 : Forall (valid m) (a :: b :: (h1 :: t1) ++ h2 :: t2)) by (unfold l in Hv; by rewrite <- Permutation_middle in Hv).
  apply Forall_cons in Hv2 as [Va Hv2]. apply Forall_cons in Hv2 as [Vb Hv2].
  assert (Hd' : NoDup (a :: b :: (h1 :: t1) ++ h2 :: t2)) by (unfold l in Hd; by rewrite <- Permutation_middle in Hd).
  apply NoDup_cons in Hd' as [Ha Hd']. apply NoDup_cons in Hd' as [Hb Hd']. apply NoDup_app in Hd' as (Hd1 & H12 & Hd2).
  rewrite not_elem_of_cons, not_elem_of_app in Ha. rewrite not_elem_of_app in Hb.
  assert (N : ∀ x y, x ∈ h1 :: t1 → y ∈ h2 :: t2 → x ≠ a ∧ x ≠ b ∧ y ≠ a ∧ y ≠ b ∧ x ≠ y).
  { intros x y Hx Hy. pose proof (H12 x Hx). destruct Ha as (_ & Ha1 & Ha2), Hb as (Hb1 & Hb2).
    split_and!; by intros ->. }
  destruct (N h1 h2) as (? & ? & ? & ? & ?); [by left|by left|].
  destruct (N _ _ Z1 Z2) as (? & ? & ? & ? & ?).
  destruct (N _ h2 Z1 ltac:(by left)) as (_ & _ & _ & _ & ?). destruct (N h1 _ ltac:(by left) Z2) as (_ & _ & _ & _ & ?).
  destruct Ha as (? & _ & _).
  destruct (swap_stores m a h1 (last_of h1 t1) b h2 (last_of h2 t2)) as (m' & E & Q & P & D); try done.
  { apply Forall_app in Hv2 as [Hv1 Hv2]. rewrite Forall_forall in Hv1, Hv2.
    repeat apply Forall_cons_2; try apply Forall_nil_2; try done;
      [apply Hv1; by left|by apply Hv1|apply Hv2; by left|by apply Hv2]. }
  { rewrite !NoDup_cons, !not_elem_of_cons. split_and!; auto using not_elem_of_nil, NoDup_nil_2. }
  { rewrite !NoDup_cons, !not_elem_of_cons. split_and!; auto using not_elem_of_nil, NoDup_nil_2. }
  exists m'. split; [done|]. split; [|done]. apply ring_two. unfold linked, nx, pv.
  split.
  { rewrite <- Permutation_middle. unfold l in Hd. rewrite <- Permutation_middle in Hd. by rewrite Permutation_swap. }
  assert (Hin : ∀ f l x, x ∉ l.*1 → relink f l x = f x).
  { intros f l' x Hx. apply relink_out, Forall_forall. intros kv Hkv ->. apply Hx.
    apply list_elem_of_fmap. by exists kv. }
  split; [|split; [|split_and!; rewrite ?Q, ?P; relinks]].
  - apply (chain_frame (nx m) (pv m)); [done|done| |]; intros x y Hx; [intros Hxz|].
    + destruct (N x _ Hx Z2) as (? & ? & _ & _ & ?). relink_out Hin Q.
    + destruct (N x h2) as (? & ? & _ & _ & ?); [by right|by left|].
      assert (x ≠ h1) by (intros ->; by apply NoDup_cons in Hd1 as [? _]). relink_out Hin P.
  - apply (chain_frame (nx m) (pv m)); [done|done| |]; intros x y Hx; [intros Hxz|].
    + destruct (N _ x Z1 Hx) as (_ & _ & ? & ? & ?). relink_out Hin Q.
    + destruct (N h1 x) as (_ & _ & ? & ? & ?); [by left|by right|].
      assert (x ≠ h2) by (intros ->; by apply NoDup_cons in Hd2 as [? _]). relink_out Hin P.
Qed.

(** [n1] just before [n2]. *)
Lemma swap_before m a b h t : ring (nx m) (pv m) (a :: b :: h :: t) → Forall (valid m) (a :: b :: h :: t) →
  ∃ m', swap m a b = Ok (b, (b, a), m') ∧ ring (nx m') (pv m') (b :: a :: h :: t) ∧ (∀ x, dat m' x = dat m x).
Proof.
  intros Hr Hv. pose proof (proj1 (ring_adjacent _ _ _ _ _ _) Hr) as (Hd & C & [Lab Pab] & [Lbh Pbh] & [Lza Pza]).
  pose proof (last_of_in h t) as Z. set (z := last_of h t) in *.
  assert (Vz : valid m z) by (apply (proj1 (Forall_forall _ _) Hv); by right; right).
  rewrite !Forall_cons in Hv. destruct Hv as (Va & Vb & Vh & Hv).
  pose proof Hd as Hd0. apply NoDup_cons in Hd as [Ha Hd]. apply NoDup_cons in Hd as [Hb Hd].
  rewrite not_elem_of_cons in Ha. destruct Ha as [Hab Ha].
  assert (N : ∀ x, x ∈ h :: t → x ≠ a ∧ x ≠ b) by (intros x Hx; split; by intros ->).
  destruct (N h ltac:(by left)) as [? ?]. destruct (N z Z) as [? ?].
  unfold swap. rewrite decide_False by (intros [E|E]; [by apply Va|by apply Vb]).
  destruct (get_links m a b z Va Lab Pza) as (na & -> & En & Ep). rewrite bind_Ok, Ep. clear na En Ep.
  destruct (get_links m b h a Vb Lbh Pab) as (nb & -> & En & Ep). rewrite bind_Ok, En. clear nb En Ep.
  destruct (set_next_ok m z b Vz) as (m1 & -> & Q1 & P1 & D1). rewrite bind_Ok.
  destruct (set_prev_ok m1 h a) as (m2 & -> & Q2 & P2 & D2); [still_valid|]. rewrite bind_Ok.
  destruct (get_links m2 a b z) as (na & -> & En & Ep); [still_valid|links..|]. rewrite bind_Ok.
  rewrite decide_True by (by left). clear na En Ep.
  destruct (set_prev_ok m2 a b) as (m3 & -> & Q3 & P3 & D3); [still_valid|]. rewrite bind_Ok.
  destruct (set_next_ok m3 b a) as (m4 & -> & Q4 & P4 & D4); [still_valid|]. rewrite bind_Ok.
  destruct (set_next_ok m4 a h) as (m5 & -> & Q5 & P5 & D5); [still_valid|]. rewrite bind_Ok.
  destruct (set_prev_ok m5 b z) as (m6 & -> & Q6 & P6 & D6); [still_valid|]. rewrite bind_Ok.
  exists m6. split; [done|]. split; [|intros x; by rewrite D6, D5, D4, D3, D2, D1].
  apply ring_adjacent. split; [by rewrite Permutation_swap|]. unfold linked. fold z. split; [|split_and!; links].
  apply (chain_frame (nx m) (pv m)); [done|done| |]; intros x y Hx; [intros Hxz|]; intros Hxy.
  - destruct (N x Hx). links.
  - destruct (N x ltac:(by right)). assert (x ≠ h) by (intros ->; by apply NoDup_cons in Hd as [? _]). links.
Qed.

(** [n2] just before [n1]: [n1] ends up linked to itself. *)
Lemma swap_after_pair m a b : ring (nx m) (pv m) [a; b] → Forall (valid m) [a; b] →
  ∃ m', swap m a b = Ok (b, (b, a), m') ∧ nx m' a a ∧ (∀ x, dat m' x = dat m x).
Proof.
  intros Hr Hv. destruct Hr as (Hd & Lab & Pba & Lba & Pab & _). rewrite !Forall_cons in Hv. destruct Hv as (Va & Vb & _).
  assert (Hab : a ≠ b) by (apply NoDup_cons in Hd as [Ha _]; by rewrite list_elem_of_singleton in Ha).
  unfold swap. rewrite decide_False by (intros [E|E]; [by apply Va|by apply Vb]).
  destruct (get_links m a b b Va Lab Pab) as (na & -> & En & Ep). rewrite bind_Ok, Ep. clear na En Ep.
  destruct (get_links m b a a Vb Lba Pba) as (nb & -> & En & Ep). rewrite bind_Ok, En. clear nb En Ep.
  destruct (set_next_ok m b b Vb) as (m1 & -> & Q1 & P1 & D1). rewrite bind_Ok.
  destruct (set_prev_ok m1 a a) as (m2 & -> & Q2 & P2 & D2); [still_valid|]. rewrite bind_Ok.
  destruct (get_links m2 a b a) as (na & -> & En & Ep); [still_valid|links..|]. rewrite bind_Ok.
  rewrite decide_True by (by left). clear na En Ep.
  destruct (set_prev_ok m2 a b) as (m3 & -> & Q3 & P3 & D3); [still_valid|]. rewrite bind_Ok.
  destruct (set_next_ok m3 b a) as (m4 & -> & Q4 & P4 & D4); [still_valid|]. rewrite bind_Ok.
  destruct (set_next_ok m4 a a) as (m5 & -> & Q5 & P5 & D5); [still_valid|]. rewrite bind_Ok.
  destruct (set_prev_ok m5 b b) as (m6 & -> & Q6 & P6 & D6); [still_valid|]. rewrite bind_Ok.
  exists m6. split; [done|]. split; [links|intros x; by rewrite D6, D5, D4, D3, D2, D1].
Qed.

Lemma swap_after m a h1 t1 b :
  ring (nx m) (pv m) (a :: (h1 :: t1) ++ [b]) → Forall (valid m) (a :: (h1 :: t1) ++ [b]) →
  ∃ m', swap m a b = Ok (b, (b, a), m') ∧ nx m' a a ∧ (∀ x, dat m' x = dat m x).
Proof.
  intros Hr Hv. destruct (proj1 (ring_head _ _ _ _) Hr) as (Hd & Hc & Lba & Pab). rewrite last_of_snoc in Lba, Pab.
  apply chain_snoc in Hc as ((Lah & Pah & Hc) & Lzb & Pzb). rewrite last_of_cons in Lzb, Pzb.
  pose proof (last_of_in h1 t1) as Z1. set (z1 := last_of h1 t1) in *.
  apply Forall_cons in Hv as [Va Hv]. apply Forall_app in Hv as [Hv1 Vb]. apply Forall_cons in Vb as [Vb _].
  rewrite Forall_forall in Hv1. pose proof (Hv1 h1 ltac:(by left)) as Vh1. pose proof (Hv1 z1 Z1) as Vz1.
  apply NoDup_cons in Hd as [Ha Hd]. rewrite elem_of_app, list_elem_of_singleton in Ha.
  apply NoDup_app in Hd as (_ & Hb & _).
  assert (N : ∀ x, x ∈ h1 :: t1 → x ≠ a ∧ x ≠ b).
  { intros x Hx. split; [intros ->; tauto|intros ->]. by apply (Hb b Hx), list_elem_of_singleton. }
  destruct (N h1 ltac:(by left)). destruct (N z1 Z1). assert (a ≠ b) by tauto.
  unfold swap. rewrite decide_False by (intros [E|E]; [by apply Va|by apply Vb]).
  destruct (get_links m a h1 b Va Lah Pab) as (na & -> & En & Ep). rewrite bind_Ok, Ep. clear na En Ep.
  destruct (get_links m b a z1 Vb Lba Pzb) as (nb & -> & En & Ep). rewrite bind_Ok, En. clear nb En Ep.
  destruct (set_next_ok m b b Vb) as (m1 & -> & Q1 & P1 & D1). rewrite bind_Ok.
  destruct (set_prev_ok m1 a a) as (m2 & -> & Q2 & P2 & D2); [still_valid|]. rewrite bind_Ok.
  destruct (get_links m2 a h1 a) as (na & -> & En & Ep); [still_valid|links..|]. rewrite bind_Ok.
  rewrite decide_False by (rewrite En, Ep; intuition congruence). rewrite En. clear na En Ep.
  destruct (set_prev_ok m2 h1 b) as (m3 & -> & Q3 & P3 & D3); [still_valid|]. rewrite bind_Ok.
  destruct (get_links m3 b b z1) as (nb & -> & En & Ep); [still_valid|links..|]. rewrite bind_Ok, Ep. clear nb En Ep.
  destruct (set_next_ok m3 z1 a) as (m4 & -> & Q4 & P4 & D4); [still_valid|]. rewrite bind_Ok.
  destruct (get_links m4 b b z1) as (nb & -> & En & Ep); [still_valid|links..|]. rewrite bind_Ok, Ep. clear nb En Ep.
  destruct (set_prev_ok m4 a z1) as (m5 & -> & Q5 & P5 & D5); [still_valid|]. rewrite bind_Ok.
  destruct (get_links m5 a h1 z1) as (na & -> & En & Ep); [still_valid|links..|]. rewrite bind_Ok, En. clear na En Ep.
  destruct (set_next_ok m5 b h1) as (m6 & -> & Q6 & P6 & D6); [still_valid|]. rewrite bind_Ok.
  destruct (set_next_ok m6 a a) as (m7 & -> & Q7 & P7 & D7); [still_valid|]. rewrite bind_Ok.
  destruct (set_prev_ok m7 b b) as (m8 & -> & Q8 & P8 & D8); [still_valid|]. rewrite bind_Ok.
  exists m8. split; [done|]. split; [links|intros x; by rewrite D8, D7, D6, D5, D4, D3, D2, D1].
Qed.

(** * Claims *)

Section claims.
Context `{MallocLaw}.

(** Every operation of the sequence returns what its abstract counterpart does and
    leaves a ring that holds the abstract list. *)
Fixpoint agrees (fuel : nat) (s : Z * nodes) (vs : list payload) (ops : list list_op) : Prop :=
  match ops with
  | [] => True
  | o :: ops => ∃ r p m l, run_op fuel s o = Ok (r, p, m) ∧ returns m r (spec_op vs o).1 ∧
      holds m p l (spec_op vs o).2 ∧ agrees fuel (p, m) (spec_op vs o).2 ops
  end.

Lemma agrees_from fuel ops : ∀ m p l vs, holds m p l vs → (∀ m, (malloc m).1 ≠ 0) → Forall op_ok ops →
  Z.of_nat (length l + length ops) ≤ 2 ^ 32 → (length l + length ops ≤ S fuel)%nat → agrees fuel (p, m) vs ops.
Proof.
  induction ops as [|o ops IH]; intros m p l vs Hh Hm Hok Hl Hf; [done|]. cbn [length] in *.
  apply Forall_cons in Hok as [Ho Hok].
  destruct (op_refines fuel m p l vs o Hh Ho ltac:(lia) ltac:(lia) (Hm m)) as (m' & r & l' & E & Hret & Hh' & _ & Hl').
  exists r, (hd 0 l'), m', l'. split; [done|]. split; [done|]. split; [done|]. apply (IH _ _ _ _ Hh'); try done; lia.
Qed.

(** C21: from the empty list, any sequence of pushes and pops (at the back, the
    front or an index) behaves as on a list of payloads: each operation returns
    the node with the payload its abstract counterpart gives, NULL when that gives
    none, and leaves a well-formed ring with the resulting payloads in order, for
    every index including those past the end; as long as [malloc] succeeds. *)
Theorem list_is_sequence fuel m ops : (∀ m, (malloc m).1 ≠ 0) → Forall op_ok ops →
  Z.of_nat (length ops) ≤ 2 ^ 32 → (length ops ≤ S fuel)%nat → agrees fuel (0, m) [] ops.
Proof. intros Hm Hok Hl Hf. by apply (agrees_from fuel ops m 0 [] []). Qed.
End claims.

(** C35: [delete_list] frees every node of the list and no other, leaves the list
    empty and reads no freed node. *)
Theorem delete_list_frees fuel m p l vs : holds m p l vs → (length l ≤ fuel)%nat →
  ∃ m', delete_list fuel m p = Ok (0, m') ∧ ∀ x, m' !! x = if decide (x ∈ l) then None else m !! x.
Proof.
  intros Hh Hf. unfold delete_list. case_decide as Hp.
  - pose proof Hp as Hn. apply (holds_nonnull _ _ _ _ Hh) in Hn as ->. exists m. by subst p.
  - destruct l as [|a l]; [by destruct Hp; apply (holds_nonnull _ _ _ _ Hh)|].
    assert (p = a) as -> by apply (holds_head _ _ _ _ Hh).
    destruct (delete_from m a (a :: l) vs Hh l [] fuel a m eq_refl) as (m' & E & Hm'); [done|done|].
    exists m'. by rewrite E, bind_Ok.
Qed.

(** [swap] of two different nodes exchanges their places in the ring and no
    payload, except when the second comes just before the first: then the first
    becomes its own successor and the ring is lost. *)
Theorem swap_exchanges m a l1 b l2 : ring (nx m) (pv m) (a :: l1 ++ b :: l2) → Forall (valid m) (a :: l1 ++ b :: l2) →
  ∃ m', swap m a b = Ok (b, (b, a), m') ∧ (∀ x, dat m' x = dat m x) ∧
    match l2 with
    | [] => nx m' a a ∧ ∀ l, a ∈ l → b ∈ l → ¬ ring (nx m') (pv m') l
    | _ => ring (nx m') (pv m') (b :: l1 ++ a :: l2)
    end.
Proof.
  intros Hr Hv. destruct l2 as [|h2 t2].
  - assert (Hab : a ≠ b).
    { apply ring_NoDup, NoDup_cons in Hr as [Ha _]. intros ->. apply Ha, elem_of_app. right. by left. }
    assert (Hs : ∃ m', swap m a b = Ok (b, (b, a), m') ∧ nx m' a a ∧ (∀ x, dat m' x = dat m x))
      by (destruct l1 as [|h1 t1]; [by apply swap_after_pair|exact (swap_after m a h1 t1 b Hr Hv)]).
    destruct Hs as (m' & E & Ha & D). exists m'. split; [done|]. split; [done|]. split; [done|].
    intros l Hal Hbl Hl. apply Hab, (ring_self (nx m') (pv m') l a b); try done. unfold nx. congruence.
  - destruct l1 as [|h1 t1].
    + destruct (swap_before m a b h2 t2 Hr Hv) as (m' & E & Hr' & D). by exists m'.
    + destruct (swap_apart m a h1 t1 b h2 t2 Hr Hv) as (m' & E & Hr' & D). by exists m'.
Qed.

(** ** Witnesses: an allocator, and a list of three nodes *)

Definition next_address (m : nodes) : Z := 1 + foldr Z.max 0 (map_to_list m).*1.

Definition bump_malloc : Malloc := {| malloc m := (next_address m, Node 0 0 []) |}.

Lemma max_above l x : x ∈ l → x ≤ foldr Z.max 0 l ∧ 0 ≤ foldr Z.max 0 l.
Proof. induction 1 as [x l|x y l _ IH]; cbn; [|lia]. split; [lia|]. induction l; cbn; lia. Qed.

Lemma bump_malloc_law : @MallocLaw bump_malloc.
Proof.
  split. intros m. right. cbn. unfold next_address. set (l := (map_to_list m).*1). split.
  - assert (0 ≤ foldr Z.max 0 l) by (induction l; cbn; lia). lia.
  - destruct (m !! _) as [n|] eqn:E; [|done]. apply elem_of_map_to_list in E.
    assert (Hin : 1 + foldr Z.max 0 l ∈ l) by (apply list_elem_of_fmap; by eexists (_, n)).
    apply max_above in Hin. lia.
Qed.

Lemma list_is_sequence_witness :
  @agrees bump_malloc 3 (0, ∅) [] [Push_back [1]; Push_front [2]; Pop_index 1; Pop_back].
Proof.
  apply (@list_is_sequence bump_malloc bump_malloc_law 3 ∅).
  - intros m. cbn. unfold next_address. assert (0 ≤ foldr Z.max 0 (map_to_list m).*1); [|lia].
    induction (map_to_list m).*1; cbn; lia.
  - by repeat constructor.
  - done.
  - cbn. lia.
Defined.

Definition witness_nodes : nodes :=
  <[1 := Node 2 3 [10]]> (<[2 := Node 3 1 [20]]> (<[3 := Node 1 2 [30]]> ∅)).

Lemma witness_nodes_ring : ring (nx witness_nodes) (pv witness_nodes) [1; 2; 3].
Proof. split; [decide_by_compute|by repeat split]. Qed.

Lemma witness_nodes_valid : Forall (valid witness_nodes) [1; 2; 3].
Proof. repeat apply Forall_cons_2; try apply Forall_nil_2; (split; [done|by eexists]). Qed.

Lemma witness_nodes_hold : holds witness_nodes 1 [1; 2; 3] [[10]; [20]; [30]].
Proof. split; [done|intros _; exact witness_nodes_ring|exact witness_nodes_valid|by repeat constructor]. Qed.

Lemma delete_list_frees_witness :
  ∃ m', delete_list 3 witness_nodes 1 = Ok (0, m') ∧
    ∀ x, m' !! x = if decide (x ∈ [1; 2; 3]) then None else witness_nodes !! x.
Proof. apply (delete_list_frees 3 witness_nodes 1 [1; 2; 3] _ witness_nodes_hold). cbn. lia. Defined.

Lemma swap_exchanges_witness :
  (∃ m', swap witness_nodes 1 2 = Ok (2, (2, 1), m') ∧ (∀ x, dat m' x = dat witness_nodes x) ∧
    ring (nx m') (pv m') [2; 1; 3]) ∧
  (∃ m', swap witness_nodes 1 3 = Ok (3, (3, 1), m') ∧ (∀ x, dat m' x = dat witness_nodes x) ∧
    nx m' 1 1 ∧ ∀ l, 1 ∈ l → 3 ∈ l → ¬ ring (nx m') (pv m') l).
Proof.
  split.
  - apply (swap_exchanges witness_nodes 1 [] 2 [3] witness_nodes_ring witness_nodes_valid).
  - apply (swap_exchanges witness_nodes 1 [2] 3 [] witness_nodes_ring witness_nodes_valid).
Defined.

(** [main] runs to its end with every node freed: here with a [malloc] that returns
    addresses in order, its last list. *)
Example list_main_frees_all : ∃ s, @list_main bump_malloc 200 ∅ = Ok s ∧ d_nodes s = ∅ ∧ d_list s = 0 ∧
  last (d_out s) = Some (Numbers 1 (seqZ 0 128)).
Proof. eexists. split; [vm_compute; reflexivity|]. by vm_compute. Qed.
