(* ===== verification/Gdt.v ===== *)
(** [src/kernel/gdt.c] and [gdt.h]: segment descriptors and the task state segment.

    A [struct gdt_native] is its eight bytes, as [gdt_structure_to_native] writes
    it; [struct gdt_structure] is a record, which the encoder mutates. A
    [struct tss] is its 25 words in declaration order, reached by [tss_field].
    [gdt_state] holds the globals of the file and what [lgdt] and [ltr] (in
    [gdt.asm] and [tss.asm]) load.

    The processor's reading of a descriptor ([descriptor_base] and the following)
    is what the encoder is verified against. *)
From S2P Require Import Prelude.

Definition GDT_NULL_SEGMENT : Z := 0.
Definition GDT_KERNEL_CODE_SEGMENT : Z := 1.
Definition GDT_KERNEL_DATA_SEGMENT : Z := 2.
Definition GDT_USER_CODE_SEGMENT : Z := 3.
Definition GDT_USER_DATA_SEGMENT : Z := 4.
Definition GDT_TSS_SEGMENT : Z := 5.
Definition GDT_SEGMENTS : Z := 6.
Definition GDT_NATIVE_SIZE : Z := 8.
Definition GDT_KERNEL_CODE_SEGMENT_SELECTOR : Z := 1 * GDT_NATIVE_SIZE.
Definition GDT_KERNEL_DATA_SEGMENT_SELECTOR : Z := 2 * GDT_NATIVE_SIZE.
Definition GDT_USER_CODE_SEGMENT_SELECTOR : Z := 3 * GDT_NATIVE_SIZE.
Definition GDT_USER_DATA_SEGMENT_SELECTOR : Z := 4 * GDT_NATIVE_SIZE.
Definition GDT_TSS_SEGMENT_SELECTOR : Z := 5 * GDT_NATIVE_SIZE.

Definition GDT_FLAG_DATASEG : Z := 0x02.
Definition GDT_FLAG_CODESEG : Z := 0x0a.
Definition GDT_FLAG_TSS : Z := 0x09.
Definition GDT_FLAG_SEGMENT : Z := 0x10.
Definition GDT_FLAG_RING0 : Z := 0x00.
Definition GDT_FLAG_RING3 : Z := 0x60.
Definition GDT_FLAG_PRESENT : Z := 0x80.

Record gdt_structure := GdtStructure { base : Z; limit : Z; type : Z }.

Definition wf_structure (s : gdt_structure) : Prop :=
  0 ≤ base s < 2 ^ 32 ∧ 0 ≤ limit s < 2 ^ 32 ∧ 0 ≤ type s < 2 ^ 8.

(** [target[i] = v], a byte. *)
Definition set_byte (target : list Z) (i v : Z) : outcome (list Z) := arr_set target i (u8 v).

(** The limit, and the granularity byte, of a segment of more than 64 KiB. *)
Definition adjust_granularity (target : list Z) (s : gdt_structure) : outcome (list Z * gdt_structure) :=
  if decide (65536 < limit s) then
    let s := GdtStructure (base s) (Z.shiftr (limit s) 12) (type s) in
    target ← set_byte target 6 0xC0;
    Ok (target, s)
  else Ok (target, s).

Definition gdt_structure_to_native (target : list Z) (s : gdt_structure) :
    outcome (list Z * gdt_structure) :=
  if decide (65536 < limit s ∧ Z.land (limit s) 0xFFF ≠ 0xFFF) then Panic "Invalid GDT"
  else
    target ← set_byte target 6 0x40;
    ts ← adjust_granularity target s; let '(target, s) := ts in
    target ← set_byte target 0 (Z.land (limit s) 0xFF);
    target ← set_byte target 1 (Z.land (Z.shiftr (limit s) 8) 0xFF);
    t6 ← arr_get target 6;
    target ← set_byte target 6 (Z.lor t6 (Z.land (Z.shiftr (limit s) 16) 0xF));
    target ← set_byte target 2 (Z.land (base s) 0xFF);
    target ← set_byte target 3 (Z.land (Z.shiftr (base s) 8) 0xFF);
    target ← set_byte target 4 (Z.land (Z.shiftr (base s) 16) 0xFF);
    target ← set_byte target 7 (Z.land (Z.shiftr (base s) 24) 0xFF);
    target ← set_byte target 5 (type s);
    Ok (target, s).

Definition native_entry (i : Z) (gs : list (list Z) * list gdt_structure) :
    outcome (list (list Z) * list gdt_structure) :=
  let '(gdt, structure) := gs in
  target ← arr_get gdt i;
  s ← arr_get structure i;
  ts ← gdt_structure_to_native target s; let '(target, s) := ts in
  gdt ← arr_set gdt i target;
  structure ← arr_set structure i s;
  Ok (gdt, structure).

Definition gdt_structures_to_native_gdts (gdt : list (list Z)) (structure : list gdt_structure)
    (total_entries : Z) : outcome (list (list Z) * list gdt_structure) :=
  for_loop (Z.to_nat total_entries) 0 native_entry (gdt, structure).

(** ** The task state segment *)

Inductive tss_field :=
  | tss_link | tss_esp0 | tss_ss0 | tss_esp1 | tss_esp2 | tss_ss2 | tss_sr3 | tss_eip | tss_eflags
  | tss_eax | tss_ecx | tss_edx | tss_ebx | tss_esp | tss_ebp | tss_esi | tss_edi
  | tss_es | tss_cs | tss_ss | tss_ds | tss_fs | tss_gs | tss_ldtr | tss_iopb.

#[export] Instance tss_field_eq_dec : EqDecision tss_field.
Proof. solve_decision. Defined.

(** The members of [struct tss], in declaration order. *)
Definition tss_fields : list tss_field :=
  [tss_link; tss_esp0; tss_ss0; tss_esp1; tss_esp2; tss_ss2; tss_sr3; tss_eip; tss_eflags;
   tss_eax; tss_ecx; tss_edx; tss_ebx; tss_esp; tss_ebp; tss_esi; tss_edi;
   tss_es; tss_cs; tss_ss; tss_ds; tss_fs; tss_gs; tss_ldtr; tss_iopb].

Definition SIZEOF_TSS : Z := 4 * Z.of_nat (length tss_fields).

Definition tss_index (f : tss_field) : nat :=
  match list_find (λ g, g = f) tss_fields with Some (i, _) => i | None => 0%nat end.

Definition tss_get (t : list Z) (f : tss_field) : Z := default 0 (t !! tss_index f).
Definition tss_set (t : list Z) (f : tss_field) (v : Z) : list Z := <[tss_index f := v]> t.

Record gdt_state := GdtState {
  gdt_native : list (list Z);
  gdt_segments : list gdt_structure;
  tss : list Z;
  gdt_pointer : Z * Z;      (* GDT_PTR: base and limit *)
  gdtr : Z * Z;             (* what lgdt loaded *)
  task_register : Z         (* what ltr loaded *)
}.

Definition set_tss (g : gdt_state) (t : list Z) : gdt_state :=
  GdtState (gdt_native g) (gdt_segments g) t (gdt_pointer g) (gdtr g) (task_register g).

Definition tss_set_kernel_stack (g : gdt_state) (kernel_stack_pointer : Z) : gdt_state :=
  set_tss g (tss_set (tss g) tss_esp0 kernel_stack_pointer).

Definition tss_load (g : gdt_state) (tss_segment : Z) : gdt_state :=
  GdtState (gdt_native g) (gdt_segments g) (tss g) (gdt_pointer g) (gdtr g) (u16 tss_segment).

Definition tss_init (g : gdt_state) (system_task_stack_bottom : Z) : gdt_state :=
  let t := replicate (length tss_fields) 0 in
  let t := tss_set t tss_esp0 system_task_stack_bottom in
  let t := tss_set t tss_ss0 GDT_KERNEL_DATA_SEGMENT_SELECTOR in
  let t := tss_set t tss_cs 0x0b in
  let t := tss_set t tss_ss 0x13 in
  let t := tss_set t tss_ds 0x13 in
  let t := tss_set t tss_es 0x13 in
  let t := tss_set t tss_fs 0x13 in
  let t := tss_set t tss_gs 0x13 in
  tss_load (set_tss g t) GDT_TSS_SEGMENT_SELECTOR.

Definition gdt_load (g : gdt_state) : gdt_state :=
  GdtState (gdt_native g) (gdt_segments g) (tss g) (gdt_pointer g) (gdt_pointer g) (task_register g).

(** The six segments, with the address of [tss]. *)
Definition boot_segments (tss_addr : Z) : list (Z * gdt_structure) :=
  let flat ring kind := GdtStructure 0 0xffffffff
    (Z.lor (Z.lor (Z.lor ring GDT_FLAG_SEGMENT) kind) GDT_FLAG_PRESENT) in
  [(GDT_NULL_SEGMENT, GdtStructure 0 0 0);
   (GDT_KERNEL_CODE_SEGMENT, flat GDT_FLAG_RING0 GDT_FLAG_CODESEG);
   (GDT_KERNEL_DATA_SEGMENT, flat GDT_FLAG_RING0 GDT_FLAG_DATASEG);
   (GDT_USER_CODE_SEGMENT, flat GDT_FLAG_RING3 GDT_FLAG_CODESEG);
   (GDT_USER_DATA_SEGMENT, flat GDT_FLAG_RING3 GDT_FLAG_DATASEG);
   (GDT_TSS_SEGMENT, GdtStructure tss_addr (SIZEOF_TSS - 1)
      (Z.lor (Z.lor GDT_FLAG_PRESENT GDT_FLAG_TSS) GDT_FLAG_RING0))].

(** [gdt_init], with the addresses of [tss], [gdt_native] and the boot stack. *)
Definition gdt_init (g : gdt_state) (tss_addr gdt_addr system_task_stack_bottom : Z) : outcome gdt_state :=
  segments ← foldl (λ r '(i, s), l ← r; arr_set l i s) (Ok (gdt_segments g)) (boot_segments tss_addr);
  ns ← gdt_structures_to_native_gdts (gdt_native g) segments GDT_SEGMENTS;
  let '(native, segments) := ns in
  let g := GdtState native segments (tss g) (gdt_addr, GDT_SEGMENTS * GDT_NATIVE_SIZE - 1)
             (gdtr g) (task_register g) in
  Ok (tss_init (gdt_load g) system_task_stack_bottom).

(** * What the processor reads *)

Section descriptor.
Variable d : list Z.
Definition byte_of (i : nat) : Z := default 0 (d !! i).

Definition descriptor_base : Z :=
  byte_of 2 + 2 ^ 8 * byte_of 3 + 2 ^ 16 * byte_of 4 + 2 ^ 24 * byte_of 7.
(** The limit field, and the limit in bytes: the granularity bit scales it. *)
Definition limit_field : Z := byte_of 0 + 2 ^ 8 * byte_of 1 + 2 ^ 16 * (byte_of 6 mod 16).
Definition granular : bool := Z.testbit (byte_of 6) 7.
Definition descriptor_limit : Z := if granular then limit_field * 4096 + 4095 else limit_field.
Definition descriptor_32bit : bool := Z.testbit (byte_of 6) 6.
Definition descriptor_access : Z := byte_of 5.
End descriptor.

(** The segment a descriptor denotes. *)
Definition decode (d : list Z) : gdt_structure :=
  GdtStructure (descriptor_base d) (descriptor_limit d) (descriptor_access d).

(** What the encoder accepts: a limit it can write down. *)
Definition encodable (s : gdt_structure) : Prop := limit s ≤ 65536 ∨ limit s mod 4096 = 4095.

#[export] Instance encodable_dec s : Decision (encodable s).
Proof. unfold encodable. apply _. Defined.

(** What the encoder leaves in its argument. *)
Definition encoded_structure (s : gdt_structure) : gdt_structure :=
  GdtStructure (base s) (if decide (65536 < limit s) then limit s / 4096 else limit s) (type s).

(** * The encoder *)

Lemma nibble_bit x i : 0 ≤ x < 16 → 4 ≤ i → Z.testbit x i = false.
Proof.
  intros Hx Hi. rewrite <- (Z.mod_small x (2 ^ 4)) by (change (2 ^ 4) with 16; lia).
  by apply Z.mod_pow2_bits_high.
Qed.

Lemma nibble_lor hi x : 0 ≤ x < 16 → hi mod 16 = 0 → Z.lor hi x = hi + x.
Proof.
  intros Hx Hhi. rewrite <- Z.add_nocarry_lor; [done|]. apply Z.bits_inj'. intros n Hn.
  rewrite Z.land_spec, Z.bits_0. destruct (decide (n < 4)).
  - rewrite <- (Z.mod_pow2_bits_low hi 4 n) by lia. change (2 ^ 4) with 16. by rewrite Hhi, Z.bits_0.
  - apply andb_false_intro2, nibble_bit; lia.
Qed.

Lemma byte_slice x n : 0 ≤ n → u8 (Z.land (Z.shiftr x n) 0xFF) = x / 2 ^ n mod 2 ^ 8.
Proof.
  intros Hn. change 0xFF with (2 ^ 8 - 1). rewrite land_mask, Z.shiftr_div_pow2 by lia.
  unfold u8. by rewrite Z.mod_mod.
Qed.

Lemma byte_slice_0 x : u8 (Z.land x 0xFF) = x mod 2 ^ 8.
Proof. rewrite <- (Z.shiftr_0_r x) at 1. rewrite byte_slice by lia. by rewrite Z.div_1_r. Qed.

(** The granularity byte: the flags, and the top four bits of the limit. *)
Definition flag_byte (limit : Z) : Z := (if decide (65536 < limit) then 0xC0 else 0x40).

Lemma flags_slice flags x : flags = 0x40 ∨ flags = 0xC0 →
  u8 (Z.lor (u8 flags) (Z.land (Z.shiftr x 16) 0xF)) = flags + x / 2 ^ 16 mod 2 ^ 4.
Proof.
  intros Hf. change 0xF with (2 ^ 4 - 1). rewrite land_mask, Z.shiftr_div_pow2 by lia.
  pose proof (Z.mod_pos_bound (x / 2 ^ 16) (2 ^ 4) ltac:(lia)).
  assert (Hu : u8 flags = flags) by (unfold u8; destruct Hf as [-> | ->]; by vm_compute).
  rewrite Hu, nibble_lor by (destruct Hf as [-> | ->]; done || (change (2 ^ 4) with 16 in *; lia)).
  unfold u8. apply Z.mod_small. change (2 ^ 8) with 256. change (2 ^ 4) with 16 in *. lia.
Qed.

(** The bytes the encoder writes. *)
Definition native_bytes (s : gdt_structure) : list Z :=
  let l := limit (encoded_structure s) in
  [l mod 2 ^ 8; l / 2 ^ 8 mod 2 ^ 8; base s mod 2 ^ 8; base s / 2 ^ 8 mod 2 ^ 8; base s / 2 ^ 16 mod 2 ^ 8;
   type s mod 2 ^ 8; flag_byte (limit s) + l / 2 ^ 16 mod 2 ^ 4; base s / 2 ^ 24 mod 2 ^ 8].

Lemma encodable_test s : (65536 < limit s ∧ Z.land (limit s) 0xFFF ≠ 0xFFF) ↔ ¬ encodable s.
Proof. unfold encodable. change 0xFFF with (2 ^ 12 - 1). rewrite land_mask by lia. change (2 ^ 12) with 4096. lia. Qed.

Lemma set_byte_in target i v : length target = 8%nat → 0 ≤ i < 8 →
  set_byte target i v = Ok (<[Z.to_nat i := u8 v]> target) ∧ length (<[Z.to_nat i := u8 v]> target) = 8%nat.
Proof. intros Hl Hi. unfold set_byte. rewrite arr_set_in, length_insert by lia. done. Qed.

Lemma adjust_spec target s : length target = 8%nat → set_byte target 6 0x40 ≫= (λ t, adjust_granularity t s) =
  Ok (<[6%nat := u8 (flag_byte (limit s))]> target, encoded_structure s).
Proof.
  intros Hl. destruct (set_byte_in target 6 0x40 Hl ltac:(lia)) as [-> Hl']. rewrite bind_Ok.
  unfold adjust_granularity, flag_byte, encoded_structure. destruct (decide (65536 < limit s)).
  - destruct (set_byte_in _ 6 0xC0 Hl' ltac:(lia)) as [-> _]. rewrite bind_Ok.
    change (Z.to_nat 6) with 6%nat. by rewrite list_insert_insert_eq, Z.shiftr_div_pow2 by lia.
  - by destruct s.
Qed.

Lemma encode_spec target s : length target = 8%nat → encodable s →
  gdt_structure_to_native target s = Ok (native_bytes s, encoded_structure s).
Proof.
  intros Hl He. unfold gdt_structure_to_native. rewrite decide_False by (rewrite encodable_test; tauto).
  rewrite <- bind_assoc, adjust_spec, bind_Ok by done.
  assert (Hf : flag_byte (limit s) = 0x40 ∨ flag_byte (limit s) = 0xC0) by (unfold flag_byte; case_decide; auto).
  pose proof (flags_slice _ (limit (encoded_structure s)) Hf) as H6.
  assert (Hb : base (encoded_structure s) = base s ∧ type (encoded_structure s) = type s) by done.
  destruct Hb as [-> ->]. unfold native_bytes. revert H6. generalize (limit (encoded_structure s)). intros l H6.
  do 8 (destruct target as [|? target]; [discriminate Hl|]). destruct target; [|discriminate Hl]. cbn [insert list_insert].
  repeat (match goal with |- context [set_byte ?t ?i ?v] =>
      destruct (set_byte_in t i v eq_refl ltac:(lia)) as [-> _]; rewrite bind_Ok;
      let n := eval vm_compute in (Z.to_nat i) in change (Z.to_nat i) with n; cbn [insert list_insert] end
    || (rewrite (proj2 (arr_get_Ok _ 6 (u8 (flag_byte (limit s))))) by (split; [lia|reflexivity]); rewrite bind_Ok)).
  rewrite H6, !byte_slice, !byte_slice_0 by lia. done.
Qed.

Lemma bytes_combine x : 0 ≤ x < 2 ^ 32 →
  x mod 2 ^ 8 + 2 ^ 8 * (x / 2 ^ 8 mod 2 ^ 8) + 2 ^ 16 * (x / 2 ^ 16 mod 2 ^ 8) + 2 ^ 24 * (x / 2 ^ 24 mod 2 ^ 8) = x.
Proof.
  change (2 ^ 8) with 256. change (2 ^ 16) with 65536. change (2 ^ 24) with 16777216.
  change (2 ^ 32) with 4294967296. Z.div_mod_to_equations. lia.
Qed.

Lemma limit_combine x : 0 ≤ x < 2 ^ 20 →
  x mod 2 ^ 8 + 2 ^ 8 * (x / 2 ^ 8 mod 2 ^ 8) + 2 ^ 16 * (x / 2 ^ 16 mod 2 ^ 4) = x.
Proof.
  change (2 ^ 8) with 256. change (2 ^ 16) with 65536. change (2 ^ 4) with 16.
  change (2 ^ 20) with 1048576. Z.div_mod_to_equations. lia.
Qed.

Lemma limit_small s : wf_structure s → 0 ≤ limit (encoded_structure s) < 2 ^ 20.
Proof.
  intros (_ & Hl & _). unfold encoded_structure. cbn. change (2 ^ 20) with 1048576.
  change (2 ^ 32) with 4294967296 in Hl. case_decide; [|lia]. Z.div_mod_to_equations. lia.
Qed.

Lemma decode_native s : wf_structure s → encodable s →
  decode (native_bytes s) = s ∧ descriptor_32bit (native_bytes s) = true.
Proof.
  intros Hwf He. pose proof (limit_small s Hwf) as Hls. destruct Hwf as (Hb & Hl & Ht).
  set (x := limit (encoded_structure s)) in *.
  pose proof (Z.mod_pos_bound (x / 2 ^ 16) (2 ^ 4) ltac:(lia)) as Hn.
  set (n := x / 2 ^ 16 mod 2 ^ 4) in *. change (2 ^ 4) with 16 in Hn.
  assert (Hfl : flag_byte (limit s) mod 16 = 0) by (unfold flag_byte; by case_decide).
  assert (Hflag : (flag_byte (limit s) + n) mod 16 = n)
    by (rewrite <- Z.add_mod_idemp_l, Hfl by done; by apply Z.mod_small).
  assert (Hg : granular (native_bytes s) = bool_decide (65536 < limit s)).
  { unfold granular. change (byte_of (native_bytes s) 6) with (flag_byte (limit s) + n).
    rewrite <- nibble_lor, Z.lor_spec, (nibble_bit n), orb_false_r by (done || lia).
    unfold flag_byte. by do 2 case_decide || case_bool_decide. }
  split.
  - unfold decode, descriptor_limit, limit_field. rewrite Hg.
    change (byte_of (native_bytes s) 6) with (flag_byte (limit s) + n). rewrite Hflag.
    change (byte_of (native_bytes s) 0 + 2 ^ 8 * byte_of (native_bytes s) 1 + 2 ^ 16 * n)
      with (x mod 2 ^ 8 + 2 ^ 8 * (x / 2 ^ 8 mod 2 ^ 8) + 2 ^ 16 * n).
    unfold n. rewrite limit_combine by done.
    assert (Hdb : descriptor_base (native_bytes s) = base s) by exact (bytes_combine (base s) Hb).
    assert (Ha : descriptor_access (native_bytes s) = type s) by exact (Z.mod_small (type s) _ Ht).
    assert (Hx : (if bool_decide (65536 < limit s) then x * 4096 + 4095 else x) = limit s).
    { unfold x, encoded_structure. cbn. unfold encodable in He. case_bool_decide; case_decide; try lia.
      rewrite (Z.div_mod (limit s) 4096) at 2 by lia. lia. }
    rewrite Hdb, Ha, Hx. by destruct s.
  - unfold descriptor_32bit. change (byte_of (native_bytes s) 6) with (flag_byte (limit s) + n).
    rewrite <- nibble_lor, Z.lor_spec, (nibble_bit n), orb_false_r by (done || lia).
    unfold flag_byte. by case_decide.
Qed.

(** C36: encoding a segment and reading the descriptor back as the processor does
    gives the segment, in 32-bit mode, whenever the limit is at most 65536 or has
    its low twelve bits set; any other limit panics. *)
Theorem gdt_encode_decode target s : wf_structure s → length target = 8%nat →
  (encodable s → ∃ d, gdt_structure_to_native target s = Ok (d, encoded_structure s) ∧ length d = 8%nat ∧
     decode d = s ∧ descriptor_32bit d = true) ∧
  (¬ encodable s → gdt_structure_to_native target s = Panic "Invalid GDT").
Proof.
  intros Hwf Hl. split; intros He.
  - exists (native_bytes s). split; [by apply encode_spec|]. split; [done|]. by apply decode_native.
  - unfold gdt_structure_to_native. by rewrite decide_True by by apply encodable_test.
Qed.

Lemma gdt_encode_decode_witness :
  (∃ d, gdt_structure_to_native (replicate 8 7) (GdtStructure 0x1234 0xffffffff 0x9a) =
     Ok (d, encoded_structure (GdtStructure 0x1234 0xffffffff 0x9a)) ∧ length d = 8%nat ∧
     decode d = GdtStructure 0x1234 0xffffffff 0x9a ∧ descriptor_32bit d = true) ∧
  gdt_structure_to_native (replicate 8 7) (GdtStructure 0 70000 0x9a) = Panic "Invalid GDT".
Proof.
  split; apply gdt_encode_decode; try done.
  - by right.
  - by intros [H|H]; vm_compute in H.
Defined.

(** The encoder changes its argument: encoding a large segment again goes wrong. *)
Lemma encoded_twice s : wf_structure s → encodable s → 65536 < limit s →
  ∀ d s2, gdt_structure_to_native (native_bytes s) (encoded_structure s) = Ok (d, s2) →
  decode d ≠ s.
Proof.
  intros Hwf He Hl d s2 E Hd. pose proof (limit_small s Hwf) as Hls.
  assert (Hx : limit (encoded_structure s) = limit s / 4096) by (cbn; by rewrite decide_True).
  destruct (decide (encodable (encoded_structure s))) as [He'|He'].
  - rewrite encode_spec in E by done. injection E as <- _.
    destruct (decode_native (encoded_structure s)) as [Hdec _]; [|done|].
    + destruct Hwf as (Hb & Hl' & Ht). split; [done|]. split; [|done].
      rewrite Hx. split; [apply Z.div_pos; lia|]. apply Z.div_lt_upper_bound; lia.
    + assert (Hlim : limit (encoded_structure s) = limit s) by (by rewrite <- Hdec, Hd).
      rewrite Hx in Hlim. Z.div_mod_to_equations. lia.
  - unfold gdt_structure_to_native in E. by rewrite decide_True in E by by apply encodable_test.
Qed.

(** ** The table at boot *)

Definition boot_table (tss_addr : Z) : list gdt_structure := (boot_segments tss_addr).*2.

Lemma boot_encodable tss_addr : 0 ≤ tss_addr < 2 ^ 32 →
  Forall (λ s, wf_structure s ∧ encodable s) (boot_table tss_addr).
Proof.
  intros Ht. repeat apply Forall_cons_2; try apply Forall_nil_2;
    split; (left; by vm_compute) || (right; by vm_compute) || (split; [done|by vm_compute]).
Qed.

Lemma native_entry_ok dg ds target s gdt segs : length dg = length ds → length target = 8%nat → encodable s →
  native_entry (Z.of_nat (length dg)) (dg ++ target :: gdt, ds ++ s :: segs) =
  Ok (dg ++ native_bytes s :: gdt, ds ++ encoded_structure s :: segs).
Proof.
  intros Hl Ht He. unfold native_entry.
  rewrite !arr_get_nat, (list_lookup_middle dg gdt _ _ eq_refl), (list_lookup_middle ds segs _ _ Hl).
  cbn [or_ub]. rewrite !bind_Ok, encode_spec, bind_Ok by done. cbn beta iota.
  rewrite (arr_set_in (dg ++ _)), bind_Ok by (rewrite length_app; cbn [length]; lia).
  rewrite (arr_set_in (ds ++ _)), bind_Ok by (rewrite length_app; cbn [length]; lia).
  by rewrite Nat2Z.id, !insert_app_r_alt, Hl, !Nat.sub_diag by lia.
Qed.

Lemma structures_to_native gdt segs : ∀ dg ds,
  length gdt = length segs → Forall (λ d, length d = 8%nat) gdt → Forall encodable segs →
  length dg = length ds →
  for_loop (length segs) (Z.of_nat (length dg)) native_entry (dg ++ gdt, ds ++ segs) =
  Ok (dg ++ (native_bytes <$> segs), ds ++ (encoded_structure <$> segs)).
Proof.
  revert gdt. induction segs as [|s segs IH]; intros [|d gdt] dg ds Hl Hd Hs Hdl; try done.
  apply Forall_cons in Hd as [Hd8 Hd]. apply Forall_cons in Hs as [He Hs]. cbn [length for_loop].
  rewrite native_entry_ok, bind_Ok by done.
  rewrite (cons_middle (native_bytes s)), (cons_middle (encoded_structure s)), !app_assoc.
  replace (Z.of_nat (length dg) + 1) with (Z.of_nat (length (dg ++ [native_bytes s])))
    by (rewrite length_app; cbn [length]; lia).
  rewrite IH; [by rewrite <- !app_assoc|by injection Hl|done|done|].
  rewrite !length_app. cbn [length]. lia.
Qed.

Lemma boot_segments_set segs tss_addr : length segs = 6%nat →
  foldl (λ r '(i, s), l ← r; arr_set l i s) (Ok segs) (boot_segments tss_addr) = Ok (boot_table tss_addr).
Proof. intros Hl. do 6 (destruct segs as [|? segs]; [discriminate Hl|]). by destruct segs. Qed.

Definition wf_gdt (g : gdt_state) : Prop :=
  length (gdt_native g) = 6%nat ∧ Forall (λ d, length d = 8%nat) (gdt_native g) ∧ length (gdt_segments g) = 6%nat.

(** The descriptor a selector names, in a table of native entries. *)
Definition selected (native : list (list Z)) (selector : Z) : option (list Z) :=
  native !! Z.to_nat (selector / GDT_NATIVE_SIZE).

(** The privilege level and presence bits of an access byte. *)
Definition access_dpl (a : Z) : Z := a / 2 ^ 5 mod 2 ^ 2.
Definition access_present (a : Z) : bool := Z.testbit a 7.

Lemma gdt_init_spec g tss_addr gdt_addr stack : wf_gdt g → 0 ≤ tss_addr < 2 ^ 32 →
  ∃ g', gdt_init g tss_addr gdt_addr stack = Ok g' ∧ gdt_native g' = native_bytes <$> boot_table tss_addr ∧
    gdtr g' = (gdt_addr, 47) ∧ task_register g' = GDT_TSS_SEGMENT_SELECTOR ∧
    tss g' = tss (tss_init g stack) ∧ wf_gdt g'.
Proof.
  intros (Hn & H8 & Hs) Ht. pose proof (boot_encodable tss_addr Ht) as Hb. unfold gdt_init.
  rewrite boot_segments_set, bind_Ok by done. unfold gdt_structures_to_native_gdts.
  assert (Hl : for_loop (Z.to_nat GDT_SEGMENTS) 0 native_entry (gdt_native g, boot_table tss_addr) =
    Ok (native_bytes <$> boot_table tss_addr, encoded_structure <$> boot_table tss_addr)).
  { apply (structures_to_native (gdt_native g) (boot_table tss_addr) [] [] Hn H8); [|done].
    eapply Forall_impl; [exact Hb|]. by intros s [_ ?]. }
  rewrite Hl, bind_Ok. eexists. split; [reflexivity|].
  cbn [tss_init gdt_native set_tss tss_load gdt_load gdtr task_register tss gdt_segments].
  do 4 (split; [done|]). split; [done|]. split; [by repeat constructor|done].
Qed.

(** C37: after [gdt_init], the table the processor was given has 47 as its limit
    and holds the null descriptor, flat 4 GiB code and data segments for ring 0 and
    ring 3 at the selectors the kernel uses, and a descriptor of [tss] at the
    selector in the task register; the stack for interrupts from ring 3 is the boot
    stack in the kernel data segment. *)
Theorem gdt_init_installs g tss_addr gdt_addr stack : wf_gdt g → 0 ≤ tss_addr < 2 ^ 32 →
  ∃ g', gdt_init g tss_addr gdt_addr stack = Ok g' ∧ wf_gdt g' ∧ gdtr g' = (gdt_addr, 47) ∧
    (∀ selector ring code,
       In (selector, ring, code)
         [(GDT_KERNEL_CODE_SEGMENT_SELECTOR, 0, true); (GDT_KERNEL_DATA_SEGMENT_SELECTOR, 0, false);
          (GDT_USER_CODE_SEGMENT_SELECTOR, 3, true); (GDT_USER_DATA_SEGMENT_SELECTOR, 3, false)] →
       ∃ d, selected (gdt_native g') selector = Some d ∧ base (decode d) = 0 ∧
         limit (decode d) = 2 ^ 32 - 1 ∧ access_dpl (type (decode d)) = ring ∧
         access_present (type (decode d)) = true ∧ Z.testbit (type (decode d)) 3 = code) ∧
    (∃ d, selected (gdt_native g') (task_register g') = Some d ∧
       decode d = GdtStructure tss_addr (SIZEOF_TSS - 1) 0x89) ∧
    tss_get (tss g') tss_esp0 = stack ∧ tss_get (tss g') tss_ss0 = GDT_KERNEL_DATA_SEGMENT_SELECTOR.
Proof.
  intros Hwf Ht. destruct (gdt_init_spec g tss_addr gdt_addr stack Hwf Ht)
    as (g' & E & Hn & Hr & Htr & Htss & Hwf'). exists g'. split; [done|]. split; [done|]. split; [done|].
  pose proof (boot_encodable tss_addr Ht) as Hb.
  assert (Hdec : ∀ selector s, boot_table tss_addr !! Z.to_nat (selector / GDT_NATIVE_SIZE) = Some s →
    ∃ d, selected (gdt_native g') selector = Some d ∧ decode d = s).
  { intros selector s Hs. exists (native_bytes s). unfold selected. rewrite Hn, list_lookup_fmap, Hs.
    split; [done|]. by apply decode_native; eapply (Forall_lookup_1 _ _ _ _ Hb Hs). }
  split; [|split].
  - intros selector ring code Hin. cbn [In] in Hin.
    destruct Hin as [Hin|[Hin|[Hin|[Hin|[]]]]]; injection Hin as <- <- <-;
      match goal with |- ∃ _, selected _ ?sel = _ ∧ _ => destruct (Hdec sel _ eq_refl) as (d & Hd & Hs) end;
      exists d; rewrite Hs; done.
  - rewrite Htr. destruct (Hdec GDT_TSS_SEGMENT_SELECTOR _ eq_refl) as (d & Hd & Hs). by exists d.
  - by rewrite Htss.
Qed.

Definition witness_gdt : gdt_state :=
  GdtState (replicate 6 (replicate 8 0)) (replicate 6 (GdtStructure 0 0 0)) (replicate 25 0) (0, 0) (0, 0) 0.

Lemma gdt_init_installs_witness :
  ∃ g', gdt_init witness_gdt 0xC0003000 0xC0002000 0xC0010000 = Ok g' ∧ wf_gdt g' ∧ gdtr g' = (0xC0002000, 47) ∧
    tss_get (tss g') tss_esp0 = 0xC0010000.
Proof.
  destruct (gdt_init_installs witness_gdt 0xC0003000 0xC0002000 0xC0010000)
    as (g' & E & Hwf & Hr & _ & _ & Hs & _); [by repeat constructor|done|]. by exists g'.
Defined.

(** ** Where the processor looks

    Byte offsets of the members in [struct tss], and of the same fields in the
    processor's 32-bit task state segment. The struct has no [ss1], so every member
    from [esp2] on is four bytes too early; the stack for ring 0 is in place. *)
Definition tss_offset (f : tss_field) : Z := 4 * Z.of_nat (tss_index f).

Definition processor_offset (f : tss_field) : Z :=
  match f with
  | tss_link => 0 | tss_esp0 => 4 | tss_ss0 => 8 | tss_esp1 => 12 | tss_esp2 => 20 | tss_ss2 => 24
  | tss_sr3 => 28 | tss_eip => 32 | tss_eflags => 36 | tss_eax => 40 | tss_ecx => 44 | tss_edx => 48
  | tss_ebx => 52 | tss_esp => 56 | tss_ebp => 60 | tss_esi => 64 | tss_edi => 68 | tss_es => 72
  | tss_cs => 76 | tss_ss => 80 | tss_ds => 84 | tss_fs => 88 | tss_gs => 92 | tss_ldtr => 96
  | tss_iopb => 100
  end.

Lemma tss_misplaced f : tss_offset f ≠ processor_offset f ↔
  f ∉ [tss_link; tss_esp0; tss_ss0; tss_esp1].
Proof. rewrite <- (bool_decide_spec (f ∉ _)). destruct f; by split. Qed.
