(* ===== verification/Pic.v ===== *)
(** The interrupt controllers: [remap_master_pic_C] of [src/kernel/kernel.c], and
    [pic_ack], [IRQ_set_mask] and [IRQ_clear_mask] of [src/idt/idt.c].

    The two 8259A chips are hardware: [pic_write] and [pics_write] state what their
    data sheet says of the commands the kernel sends, and [PicLaws] that the port
    instructions reach them. The kernel's functions are over the [Ports]
    interface. *)
From S2P Require Import Prelude Disk.

Definition PIC1_CMD_PORT : Z := 0x20.
Definition PIC1_DATA_PORT : Z := 0x21.
Definition PIC2_CMD_PORT : Z := 0xA0.
Definition PIC2_DATA_PORT : Z := 0xA1.
Definition PIC_ICW1_INIT : Z := 0x10.
Definition PIC_ICW1_ICW4 : Z := 0x01.
Definition PIC_ICW4_8086_MODE : Z := 0x01.
Definition PIC_ICW3_SLAVE_AT_IRQ2 : Z := 0x04.
Definition PIC_ICW3_SLAVE_ID : Z := 0x02.

Section operations.
Context {D : Type} `{Ports D}.

(** [io_delay], sixteen [nop]s, changes nothing. *)
Definition remap_master_pic_C (d : D) : D :=
  let d := outb d PIC1_CMD_PORT (Z.lor PIC_ICW1_INIT PIC_ICW1_ICW4) in
  let d := outb d PIC2_CMD_PORT (Z.lor PIC_ICW1_INIT PIC_ICW1_ICW4) in
  let d := outb d PIC1_DATA_PORT 0x20 in
  let d := outb d PIC2_DATA_PORT 0x28 in
  let d := outb d PIC1_DATA_PORT PIC_ICW3_SLAVE_AT_IRQ2 in
  let d := outb d PIC2_DATA_PORT PIC_ICW3_SLAVE_ID in
  let d := outb d PIC1_DATA_PORT PIC_ICW4_8086_MODE in
  let d := outb d PIC2_DATA_PORT PIC_ICW4_8086_MODE in
  let d := outb d PIC1_DATA_PORT 0x0 in
  outb d PIC2_DATA_PORT 0x0.

Definition pic_ack (d : D) (intno : Z) : D :=
  let d := if decide (40 ≤ intno) then outb d 0xA0 0x20 else d in
  outb d 0x20 0x20.

(** The port and the bit of an interrupt line, an [unsigned char]. *)
Definition irq_port (IRQline : Z) : Z * Z :=
  if decide (IRQline < 8) then (PIC1_DATA_PORT, IRQline) else (PIC2_DATA_PORT, u8 (IRQline - 8)).

(** [1 << IRQline], undefined from the width of [int] on. *)
Definition irq_bit (line : Z) : outcome Z := if decide (line < 31) then Ok (Z.shiftl 1 line) else Ub.

Definition IRQ_set_mask (d : D) (IRQline : Z) : outcome D :=
  let '(port, line) := irq_port IRQline in
  bit ← irq_bit line;
  let '(mask, d) := insb d port in
  let value := u8 (Z.lor mask bit) in
  Ok (outb d port value).

Definition IRQ_clear_mask (d : D) (IRQline : Z) : outcome D :=
  let '(port, line) := irq_port IRQline in
  bit ← irq_bit line;
  let '(mask, d) := insb d port in
  let value := u8 (Z.land mask (Z.lnot bit)) in
  Ok (outb d port value).
End operations.

(** * The 8259A *)

(** Which initialisation word the data port takes next. *)
Inductive icw := Ready | ICW2 | ICW3 | ICW4.

#[export] Instance icw_eq_dec : EqDecision icw.
Proof. solve_decision. Defined.

(** One chip: the word expected, whether ICW4 was announced, the vector base, the
    cascade word, the mode word, the interrupt mask and in-service registers. *)
Record pic := Pic {
  expected : icw;
  wants_icw4 : bool;
  vector_base : Z;
  cascade : Z;
  mode : Z;
  imr : Z;
  isr : Z
}.

(** The lowest set bit, the highest priority, cleared. *)
Definition end_of_interrupt (isr : Z) : Z := Z.land isr (isr - 1).

(** A write to the command port: ICW1 starts the initialisation and clears the
    registers; 0x20 is the non-specific end of interrupt. *)
Definition pic_command (p : pic) (v : Z) : pic :=
  if Z.testbit v 4 then Pic ICW2 (Z.testbit v 0) (vector_base p) (cascade p) 0 0 0
  else if decide (v = 0x20) then
    Pic (expected p) (wants_icw4 p) (vector_base p) (cascade p) (mode p) (imr p) (end_of_interrupt (isr p))
  else p.

(** A write to the data port: the next initialisation word, or the mask. *)
Definition pic_data (p : pic) (v : Z) : pic :=
  match expected p with
  | ICW2 => Pic ICW3 (wants_icw4 p) (v - v mod 8) (cascade p) (mode p) (imr p) (isr p)
  | ICW3 => Pic (if wants_icw4 p then ICW4 else Ready) (wants_icw4 p) (vector_base p) v (mode p) (imr p) (isr p)
  | ICW4 => Pic Ready (wants_icw4 p) (vector_base p) (cascade p) v (imr p) (isr p)
  | Ready => Pic Ready (wants_icw4 p) (vector_base p) (cascade p) (mode p) v (isr p)
  end.

(** The master and the slave, at their ports. *)
Definition pics : Type := pic * pic.

Definition pics_write (s : pics) (port v : Z) : pics :=
  if decide (port = 0x20) then (pic_command s.1 v, s.2)
  else if decide (port = 0x21) then (pic_data s.1 v, s.2)
  else if decide (port = 0xA0) then (s.1, pic_command s.2 v)
  else if decide (port = 0xA1) then (s.1, pic_data s.2 v)
  else s.

(** The port instructions reach the chips: a write does what the chip does, a read
    of a data port gives the mask, and no read changes anything. *)
Class PicLaws (D : Type) `{Ports D} := {
  pics_of : D → pics;
  pics_outb : ∀ d port v, 0 ≤ v < 256 → pics_of (outb d port v) = pics_write (pics_of d) port v;
  pics_insb_master : ∀ d, expected (pics_of d).1 = Ready →
    (insb d 0x21).1 = imr (pics_of d).1 ∧ pics_of (insb d 0x21).2 = pics_of d;
  pics_insb_slave : ∀ d, expected (pics_of d).2 = Ready →
    (insb d 0xA1).1 = imr (pics_of d).2 ∧ pics_of (insb d 0xA1).2 = pics_of d;
  pics_insb_command : ∀ d, pics_of (insb d 0x20).2 = pics_of d
}.

(** What the chips do on their own: line [irq] interrupts on its chip's vector; the
    processor's acknowledgement puts it in service, on the master as well for a line
    of the slave, wired to the master's line 2. *)
Definition irq_vector (s : pics) (irq : Z) : Z :=
  if decide (irq < 8) then vector_base s.1 + irq else vector_base s.2 + (irq - 8).

Definition in_service (p : pic) (line : Z) : pic :=
  Pic (expected p) (wants_icw4 p) (vector_base p) (cascade p) (mode p) (imr p) (Z.lor (isr p) (Z.shiftl 1 line)).

Definition accept (s : pics) (irq : Z) : pics :=
  if decide (irq < 8) then (in_service s.1 irq, s.2)
  else (in_service s.1 2, in_service s.2 (irq - 8)).

(** A chip requests the processor for a line only if it is not masked and no line of
    the same or a higher priority is in service. *)
Definition requests (p : pic) (line : Z) : Prop :=
  Z.testbit (imr p) line = false ∧ ∀ l, 0 ≤ l ≤ line → Z.testbit (isr p) l = false.

(** Line [irq] reaches the processor. *)
Definition deliverable (s : pics) (irq : Z) : Prop :=
  if decide (irq < 8) then requests s.1 irq else requests s.1 2 ∧ requests s.2 (irq - 8).

(** ** Lemmas on the registers *)

Lemma single_bit n : 0 ≤ n → end_of_interrupt (Z.shiftl 1 n) = 0.
Proof.
  intros Hn. unfold end_of_interrupt. rewrite Z.shiftl_1_l, Z.land_comm.
  replace (2 ^ n - 1) with (Z.ones n) by (rewrite Z.ones_equiv; lia).
  rewrite Z.land_comm, Z.land_ones by done. by apply Z.mod_same, Z.pow_nonzero.
Qed.

Lemma u8_bit x i : 0 ≤ i < 8 → Z.testbit (u8 x) i = Z.testbit x i.
Proof. intros Hi. unfold u8. apply Z.mod_pow2_bits_low. lia. Qed.

Lemma bit_testbit n i : 0 ≤ n → 0 ≤ i → Z.testbit (Z.shiftl 1 n) i = bool_decide (i = n).
Proof.
  intros Hn Hi. rewrite Z.shiftl_1_l, Z.pow2_bits_eqb by done.
  rewrite Z.eqb_sym. by destruct (Z.eqb_spec i n), (bool_decide_reflect (i = n)).
Qed.

Section laws.
Context {D : Type} `{PicLaws D}.

(** Both chips initialised, nothing in service. *)
Record idle (s : pics) : Prop := Idle {
  idle_master : expected s.1 = Ready ∧ isr s.1 = 0;
  idle_slave : expected s.2 = Ready ∧ isr s.2 = 0
}.

Lemma remap_pics d : pics_of (remap_master_pic_C d) =
  (Pic Ready true 0x20 0x04 0x01 0 0, Pic Ready true 0x28 0x02 0x01 0 0).
Proof.
  unfold remap_master_pic_C. rewrite !pics_outb by (by vm_compute). by destruct (pics_of d) as [m s].
Qed.

(** Whatever state the interrupt controllers are in, [remap_master_pic_C]
    leaves both initialised in 8086 mode and cascaded on line 2, with line [irq]
    interrupting on vector [0x20 + irq], unmasked and free to be delivered. *)
Theorem remap_moves_vectors d :
  idle (pics_of (remap_master_pic_C d)) ∧
  ∀ irq, 0 ≤ irq < 16 →
    irq_vector (pics_of (remap_master_pic_C d)) irq = 0x20 + irq ∧
    deliverable (pics_of (remap_master_pic_C d)) irq.
Proof.
  rewrite remap_pics. split; [done|]. intros irq Hi. unfold irq_vector, deliverable, requests.
  destruct (decide (irq < 8)); cbn [fst snd vector_base imr isr]; (split; [lia|]);
    repeat split; intros; apply Z.bits_0.
Qed.

Lemma ack_ends_iff d0 d irq intno : idle (pics_of d0) → 0 ≤ irq < 16 →
  pics_of d = accept (pics_of d0) irq →
  (pics_of (pic_ack d intno) = pics_of d0 ↔ irq < 8 ∨ 40 ≤ intno).
Proof.
  intros [[Hm Im] [Hs Is]] Hi Ed. unfold pic_ack.
  assert (E : pics_of (outb (if decide (40 ≤ intno) then outb d 0xA0 0x20 else d) 0x20 0x20) =
    (pic_command (accept (pics_of d0) irq).1 0x20,
     if decide (40 ≤ intno) then pic_command (accept (pics_of d0) irq).2 0x20 else (accept (pics_of d0) irq).2)).
  { rewrite pics_outb by done. case_decide; [rewrite pics_outb by done|]; by rewrite Ed. }
  rewrite E. destruct (pics_of d0) as [m s]. cbn [fst snd] in *. destruct m, s. cbn in Hm, Im, Hs, Is. subst.
  unfold accept, in_service, pic_command. cbn -[Z.lor Z.shiftl end_of_interrupt Z.sub].
  destruct (decide (irq < 8)) as [Hlt|Hge]; cbn -[Z.lor Z.shiftl end_of_interrupt Z.sub];
    rewrite ?Z.lor_0_l, ?single_bit by lia.
  - split; [by left|intros _]. case_decide; done.
  - case_decide as Hn; cbn -[Z.lor Z.shiftl end_of_interrupt Z.sub]; rewrite ?Z.lor_0_l, ?single_bit by lia.
    + split; [by right|done].
    + split; [intros Heq|lia]. exfalso. injection Heq as Heq. rewrite Z.shiftl_1_l in Heq.
      pose proof (Z.pow_pos_nonneg 2 (irq - 8)). lia.
Qed.

(** Line [l]'s mask. *)
Definition masked (s : pics) (l : Z) : bool :=
  if decide (l < 8) then Z.testbit (imr s.1) l else Z.testbit (imr s.2) (l - 8).

Lemma write_master s v : pics_write s 0x21 v = (pic_data s.1 v, s.2).
Proof. reflexivity. Qed.
Lemma write_slave s v : pics_write s 0xA1 v = (s.1, pic_data s.2 v).
Proof. reflexivity. Qed.

(** The mask of the chip of line [irq] rewritten by [f], which changes bit [line]
    to [v]. *)
Lemma write_mask d irq (f : Z → Z) v : idle (pics_of d) → 0 ≤ irq < 16 →
  let '(port, line) := irq_port irq in
  (∀ x l, 0 ≤ l < 8 → Z.testbit (f x) l = if decide (l = line) then v else Z.testbit x l) →
  line < 31 ∧ ∀ l, 0 ≤ l < 16 →
    masked (pics_of (outb (insb d port).2 port (u8 (f (insb d port).1)))) l =
    if decide (l = irq) then v else masked (pics_of d) l.
Proof.
  intros [[Hm _] [Hs _]] Hi. unfold irq_port, masked, PIC1_DATA_PORT, PIC2_DATA_PORT.
  destruct (decide (irq < 8)) as [Hlt|Hge]; [|rewrite u8_id by lia]; intros Hf; (split; [lia|]); intros l Hl;
    rewrite pics_outb by apply u8_range.
  - destruct (pics_insb_master d Hm) as [-> ->]. rewrite write_master.
    destruct (pics_of d) as [m s]. cbn [fst snd] in *. unfold pic_data. rewrite Hm.
    destruct (decide (l < 8)); cbn [fst snd imr]; [rewrite u8_bit, Hf by lia; done|].
    by rewrite decide_False by lia.
  - destruct (pics_insb_slave d Hs) as [-> ->]. rewrite write_slave.
    destruct (pics_of d) as [m s]. cbn [fst snd] in *. unfold pic_data. rewrite Hs.
    destruct (decide (l < 8)); cbn [fst snd imr].
    + by rewrite decide_False by lia.
    + rewrite u8_bit, Hf by lia. repeat case_decide; try lia; done.
Qed.

(** masking an interrupt line masks it and no other, unmasking it unmasks it
    and no other, on both controllers. *)
Theorem irq_mask_one d irq : idle (pics_of d) → 0 ≤ irq < 16 →
  (∃ d', IRQ_set_mask d irq = Ok d' ∧ ∀ l, 0 ≤ l < 16 →
     masked (pics_of d') l = if decide (l = irq) then true else masked (pics_of d) l) ∧
  (∃ d', IRQ_clear_mask d irq = Ok d' ∧ ∀ l, 0 ≤ l < 16 →
     masked (pics_of d') l = if decide (l = irq) then false else masked (pics_of d) l).
Proof.
  intros Hd Hi. unfold IRQ_set_mask, IRQ_clear_mask.
  assert (Hline : 0 ≤ (irq_port irq).2) by (unfold irq_port; case_decide; cbn; [lia|apply u8_range]).
  pose proof (write_mask d irq (λ x, Z.lor x (Z.shiftl 1 (irq_port irq).2)) true Hd Hi) as Hset.
  pose proof (write_mask d irq (λ x, Z.land x (Z.lnot (Z.shiftl 1 (irq_port irq).2))) false Hd Hi) as Hclr.
  destruct (irq_port irq) as [port line]. cbn [snd] in *. unfold irq_bit.
  destruct Hset as [Hlt Hset].
  { intros x l Hl. rewrite Z.lor_spec, bit_testbit by lia. case_decide as E; [by rewrite bool_decide_true, orb_true_r|].
    by rewrite bool_decide_false, orb_false_r. }
  destruct Hclr as [_ Hclr].
  { intros x l Hl. rewrite Z.land_spec, Z.lnot_spec, bit_testbit by lia.
    case_decide as E; [by rewrite bool_decide_true, andb_false_r|]. by rewrite bool_decide_false, andb_true_r. }
  rewrite decide_True, !bind_Ok by done. destruct (insb d port) as [mask d1]. cbn [fst snd] in *.
  split; (eexists; split; [reflexivity|assumption]).
Qed.
End laws.

(** ** Two chips and nothing else on the bus *)

#[export] Instance pics_ports : Ports pics := {
  outb := pics_write;
  insb s port := (if decide (port = 0x21) then imr s.1 else if decide (port = 0xA1) then imr s.2 else 0xFF, s);
  insw s port := (0xFFFF, s)
}.

#[export] Program Instance pics_laws : PicLaws pics := { pics_of s := s }.
Solve All Obligations with done.

(** At power-up, and after an interrupt of the disk, on line 14. *)
Definition power_up : pics := (Pic Ready false 0 0 0 0 0, Pic Ready false 0 0 0 0 0).

Lemma irq_mask_one_witness :
  (∃ d', IRQ_set_mask (remap_master_pic_C power_up) 14 = Ok d' ∧ ∀ l, 0 ≤ l < 16 →
     masked (pics_of d') l = if decide (l = 14) then true else masked (pics_of (remap_master_pic_C power_up)) l) ∧
  (∃ d', IRQ_clear_mask (remap_master_pic_C power_up) 14 = Ok d' ∧ ∀ l, 0 ≤ l < 16 →
     masked (pics_of d') l = if decide (l = 14) then false else masked (pics_of (remap_master_pic_C power_up)) l).
Proof. apply irq_mask_one; done. Defined.
