(* ===== verification/Task.v ===== *)
(** [src/kernel/task/task.c]: tasks, their list, and the scheduler.

    A [union task] is 16384 bytes of memory: the control block is at its start, its
    kernel stack grows down from its end. The offsets below are those of the packed
    structs of [process.h], [idt.h] and [cpu.h]. [tasking] is the state: the machine
    of [Paging], the globals of [gdt.c], and [current_task].

    A frame pushed on a kernel stack is a local of the C code; it is the list of its
    words. [fuel] bounds the loops over names and over the task list. *)
From S2P Require Import Prelude Mem CString Heap Kheap Store Ring Termio Gdt Paging.

Definition TASK_KERNEL_STACK_SIZE : Z := 4096.
Definition SIZEOF_TASK : Z := 4 * TASK_KERNEL_STACK_SIZE.

(** Members of [struct task_control_block] and of the registers in it. *)
Definition registers_gs : Z := 0.
Definition registers_fs : Z := 4.
Definition registers_es : Z := 8.
Definition registers_ds : Z := 12.
Definition registers_cs : Z := 16.
Definition registers_ss : Z := 20.
Definition registers_eflags : Z := 24.
Definition registers_eip : Z := 28.
Definition registers_general : Z := 32.
Definition registers_esp : Z := 44.
Definition task_n_switches : Z := 64.
Definition task_process : Z := 76.
Definition task_kernel_stack_pointer : Z := 80.
Definition task_next : Z := 84.
Definition task_previous : Z := 88.

(** Members of [struct process]. *)
Definition process_name : Z := 4.
Definition process_page_directory : Z := 260.
Definition SIZEOF_PROCESS : Z := 284.

Definition SIZEOF_INTERRUPT_FRAME : Z := 76.
Definition SIZEOF_INTERRUPT_FRAME_KERNEL : Z := 68.

Record tasking (K : Type) := Tasking {
  mach : machine K;
  gdt : gdt_state;
  current_task : Z
}.
Arguments Tasking {K}.
Arguments mach {K}.
Arguments gdt {K}.
Arguments current_task {K}.

Definition set_mach {K} (s : tasking K) (m : machine K) : tasking K := Tasking m (gdt s) (current_task s).
Definition set_gdt {K} (s : tasking K) (g : gdt_state) : tasking K := Tasking (mach s) g (current_task s).
Definition set_current_task {K} (s : tasking K) (t : Z) : tasking K := Tasking (mach s) (gdt s) t.

Section task.
Context {K : Type} `{Allocator K}.
Implicit Type s : tasking K.

(** A member of a struct at an address. *)
Definition tread s (a : Z) : outcome Z := read (mach s) a.
Definition twrite s (a v : Z) : outcome (tasking K) := m ← write (mach s) a v; Ok (set_mach s m).

Definition tprint (fuel : nat) s (str : Z) : outcome (tasking K) :=
  t ← print fuel (ram (mach s)) (console (mach s)) str; Ok (set_mach s (set_console (mach s) t)).
Definition tprint_text s (l : list Z) : tasking K := set_mach s (print_bytes (mach s) l).

(** [print(task->task.process->name)] *)
Definition print_task_name (fuel : nat) s (task : Z) : outcome (tasking K) :=
  process ← tread s (task + task_process);
  tprint fuel s (process + process_name).

Definition print_tasks_round (fuel : nat) (st : Z * tasking K) : outcome ((Z * tasking K) + tasking K) :=
  let '(ptr, s) := st in
  s ← print_task_name fuel s ptr;
  let s := tprint_text s [10] in
  ptr ← tread s (ptr + task_next);
  Ok (if decide (ptr ≠ current_task s) then inl (ptr, s) else inr s).

Definition print_tasks (fuel : nat) s : outcome (tasking K) :=
  let s := tprint_text s (text "TASK LIST" ++ [10]) in
  s ← while_loop fuel (print_tasks_round fuel) (current_task s, s);
  Ok (tprint_text s (text "##########" ++ [10])).

Definition task_current s : Z := current_task s.
Definition task_next_of s : outcome Z := tread s (current_task s + task_next).
Definition task_previous_of s : outcome Z := tread s (current_task s + task_previous).

Definition task_list_link s (task : Z) : outcome (tasking K) :=
  s ← twrite s (task + task_previous) (current_task s);
  n ← tread s (current_task s + task_next);
  s ← twrite s (task + task_next) n;
  s ← twrite s (current_task s + task_next) task;
  n ← tread s (task + task_next);
  twrite s (n + task_previous) task.

Definition task_list_insert (fuel : nat) s (task : Z) : outcome (Z * tasking K) :=
  s ← task_list_link s task;
  s ← print_task_name fuel s (current_task s);
  let s := tprint_text s [10] in
  s ← print_task_name fuel s task;
  s ← print_tasks fuel s;
  Ok (task, s).

Definition task_list_remove s (task : Z) : outcome (Z * tasking K) :=
  p ← tread s (task + task_previous);
  n ← tread s (task + task_next);
  s ← twrite s (p + task_next) n;
  n ← tread s (task + task_next);
  p ← tread s (task + task_previous);
  s ← twrite s (n + task_previous) p;
  s ← twrite s (task + task_next) 0;
  s ← twrite s (task + task_previous) 0;
  Ok (task, s).

(** [data] is the words of the object, [size] its size in bytes. *)
Definition task_push_data_to_kstack s (task : Z) (data : list Z) (size : Z) : outcome (tasking K) :=
  sp ← tread s (task + task_kernel_stack_pointer);
  s ← twrite s (task + task_kernel_stack_pointer) (u32 (sp - size));
  sp ← tread s (task + task_kernel_stack_pointer);
  k ← kwrite_words (kheap (mach s)) sp (take (Z.to_nat (size / 4)) data);
  Ok (set_mach s (set_kheap (mach s) k)).

(** The members of the frame, in order: a register saved in the task, or a
    constant. *)
Definition frame_members : list (Z + Z) :=
  [inl registers_gs; inl registers_fs; inl registers_es; inl registers_ds] ++
  ((λ i, inl (registers_general + 4 * i)) <$> [0; 1; 2; 3; 4; 5; 6; 7]) ++
  [inr 0xDEADC0DE; inr 0xDEADC0DE; inl registers_eip; inl registers_cs; inl registers_eflags;
   inl registers_esp; inl registers_ss].

Definition frame_member s (task : Z) (f : Z + Z) : outcome Z :=
  match f with inl offset => tread s (task + offset) | inr c => Ok c end.

Definition task_push_state_to_kstack s (task : Z) : outcome (tasking K) :=
  cs ← tread s (task + registers_cs);
  let user_mode := Z.land cs 0x3 in
  let interrupt_frame_size :=
    if decide (user_mode ≠ 0) then SIZEOF_INTERRUPT_FRAME else SIZEOF_INTERRUPT_FRAME_KERNEL in
  interrupt_frame ← mapM (frame_member s task) frame_members;
  task_push_data_to_kstack s task interrupt_frame interrupt_frame_size.

(** The control block of a new task, in the order of its members. *)
Definition new_task_words (task process privileged entry_point esp : Z) : list Z :=
  let cs := if decide (privileged ≠ 0) then GDT_KERNEL_CODE_SEGMENT_SELECTOR
            else Z.lor GDT_USER_CODE_SEGMENT_SELECTOR 0x3 in
  let ss := if decide (privileged ≠ 0) then GDT_KERNEL_DATA_SEGMENT_SELECTOR
            else Z.lor GDT_USER_DATA_SEGMENT_SELECTOR 0x3 in
  let top := u32 (task + SIZEOF_TASK) in
  [ss; ss; ss; ss; cs; ss; 0x202; entry_point; 0; 0; 0; esp; 0; 0; 0; 0xDEADC0DE;
   0; top; entry_point; process; top; 0; 0].

Definition task_new (fuel : nat) s (process privileged entry_point esp : Z) : outcome (Z * tasking K) :=
  ps ← alloc (mach s) SIZEOF_TASK; let '(task, m) := ps in
  let s := set_mach s m in
  if decide (task = 0) then Ok (0, s)
  else
    k ← kwrite_words (kheap (mach s)) task (new_task_words task process privileged entry_point esp);
    let s := set_mach s (set_kheap (mach s) k) in
    s ← task_push_state_to_kstack s task;
    ts ← task_list_insert fuel s task; let '(_, s) := ts in
    Ok (task, s).

Definition task_free s (task : Z) : tasking K := s.

Definition task_store s (task interrupt_frame : Z) : outcome (tasking K) :=
  if decide (current_task s = 0) then Panic "NO CURRENT TASK!"
  else twrite s (task + task_kernel_stack_pointer) interrupt_frame.

(** Loading [cr3] from a task's page directory, and again with its own value. *)
Definition load_task_directory s (task : Z) : outcome (tasking K) :=
  process ← tread s (task + task_process);
  handle ← tread s (process + process_page_directory);
  e ← directory_entry (mach s) handle 1023;
  let m := set_cr (mach s) (cr0 (mach s)) (PAGE_ENTRY_ADDR e) (cr4 (mach s)) in
  let m := set_cr m (cr0 m) (cr3 m) (cr4 m) in
  Ok (set_mach s m).

(** The line [schedule] prints. *)
Definition print_switch (fuel : nat) s (next : Z) : outcome (tasking K) :=
  s ← print_task_name fuel s (current_task s);
  let s := tprint_text s (text " -> ") in
  s ← print_task_name fuel s next;
  Ok (set_mach s (set_console (mach s) (print_char (console (mach s)) 10))).

Definition schedule (fuel : nat) s (interrupt_frame : Z) : outcome (Z * tasking K) :=
  if decide (current_task s = 0) then Ok (interrupt_frame, s)
  else
    s ← task_store s (current_task s) interrupt_frame;
    next ← task_next_of s;
    if decide (next = current_task s) then Ok (interrupt_frame, s)
    else
      s ← print_switch fuel s next;
      n ← tread s (current_task s + task_n_switches);
      s ← twrite s (current_task s + task_n_switches) (u32 (n + 1));
      let s := set_current_task s next in
      let s := set_gdt s (tss_set_kernel_stack (gdt s) (u32 (next + SIZEOF_TASK))) in
      s ← load_task_directory s next;
      ksp ← tread s (current_task s + task_kernel_stack_pointer);
      Ok (ksp, s).
End task.

(** * What the operations on tasks leave alone *)

(** The page directory in use, the control registers and the segments. *)
Definition processor {K} (s : tasking K) : Z * Z * Z * Z * gdt_state :=
  (current_directory (mach s), cr0 (mach s), cr3 (mach s), cr4 (mach s), gdt s).

(** Each hypothesis on a run says the processor is as it was. *)
Ltac processor_tac :=
  repeat first
    [ progress outcome_inv
    | match goal with r : prod _ _ |- _ => destruct r end
    | match goal with
      | H : match (_, _) with (_, _) => _ end = Ok _ |- _ => cbn beta iota in H
      | H : (if decide ?P then _ else _) = Ok _ |- _ => destruct (decide P)
      | H : Ok (_, _) = Ok (_, _) |- _ => apply Ok_pair_inv in H as [? ?]; subst
      end ].

Section processor.
Context {K : Type} `{Allocator K}.
Implicit Type s : tasking K.

Lemma twrite_processor s a v s' : twrite s a v = Ok s' → processor s' = processor s.
Proof. unfold twrite, write. intros E. by processor_tac. Qed.

Lemma print_name_processor fuel s task s' : print_task_name fuel s task = Ok s' → processor s' = processor s.
Proof. unfold print_task_name, tprint. intros E. by processor_tac. Qed.

Lemma print_tasks_processor fuel s s' : print_tasks fuel s = Ok s' → processor s' = processor s.
Proof.
  unfold print_tasks. intros E. apply bind_Ok_inv in E as (s1 & E & [= <-]).
  refine (while_partial _ (λ st, processor st.2 = processor s) (λ s', processor s' = processor s) _ _ _ _ _ _ E); [| |done];
    intros [ptr s2] r Hs Er; unfold print_tasks_round in Er; outcome_inv; apply print_name_processor in Hr;
    case_decide; try discriminate Er; injection Er as <-; by etransitivity.
Qed.

Lemma task_new_processor fuel s process privileged entry_point esp r :
  task_new fuel s process privileged entry_point esp = Ok r → processor r.2 = processor s.
Proof.
  unfold task_new, alloc, task_push_state_to_kstack, task_push_data_to_kstack, task_list_insert, task_list_link.
  intros E. processor_tac; [done|]. cbn [snd].
  repeat match goal with
    | H : twrite _ _ _ = Ok _ |- _ => apply twrite_processor in H
    | H : print_task_name _ _ _ = Ok _ |- _ => apply print_name_processor in H
    | H : print_tasks _ _ = Ok _ |- _ => apply print_tasks_processor in H
    end.
  by repeat (etransitivity; [eassumption|]).
Qed.
End processor.

(** * The list of tasks in memory *)

(** Membership in a list of members. *)
Ltac member := apply list_elem_of_In; cbn; tauto.

Section tasks.
Context {K : Type} `{AllocatorLaws K}.
Implicit Types (k : K) (s : tasking K).

Definition tnx k (a b : Z) : Prop := kread k (a + task_next) = Ok b.
Definition tpv k (a b : Z) : Prop := kread k (a + task_previous) = Ok b.

(** [n] bytes at [b] of memory in use that no task of [l] has a part in. *)
Definition outside k (l : list Z) (b n : Z) : Prop :=
  kowned k b n ∧ ∀ c, c ∈ l → apart b n c SIZEOF_TASK.

(** A process that can run: its name, and a page directory whose last entry can be
    read. *)
Record process_ok k (l : list Z) (p : Z) (name : list Z) (h d e : Z) : Prop := ProcessOk {
  process_text : cstr (memory k) (p + process_name) name ∧ outside k l (p + process_name) (Z.of_nat (length name) + 1);
  process_handle : kread k (p + process_page_directory) = Ok h ∧ outside k l (p + process_page_directory) 4;
  process_directory : kread k h = Ok d ∧ outside k l h 4;
  process_entry : kread k (d + 4 * 1023) = Ok e ∧ outside k l (d + 4 * 1023) 4
}.

Definition process_of (fuel : nat) k (l : list Z) (p : Z) : Prop :=
  ∃ name h d e, process_ok k l p name h d e ∧ (length name < fuel)%nat.

Definition runnable (fuel : nat) k (l : list Z) (a : Z) : Prop :=
  ∃ p, kread k (a + task_process) = Ok p ∧ process_of fuel k l p.

(** The tasks [l] are separate objects. *)
Record tasks_mem k (l : list Z) : Prop := TasksMem {
  tasks_inv : alloc_inv k;
  tasks_owned : ∀ a, a ∈ l → kowned k a SIZEOF_TASK ∧ 0 < a ∧ a + SIZEOF_TASK < 2 ^ 32;
  tasks_apart : ∀ a b, a ∈ l → b ∈ l → a ≠ b → apart a SIZEOF_TASK b SIZEOF_TASK
}.

(** The tasks [l] are a ring of separate objects, each with its process. *)
Record tasks_ok (fuel : nat) k (l : list Z) : Prop := TasksOk {
  tasks_ring : ring (tnx k) (tpv k) l;
  tasks_memory : tasks_mem k l;
  tasks_run : ∀ a, a ∈ l → runnable fuel k l a
}.

(** The tasks apart from their order. *)
Definition tasks_set (fuel : nat) k (l : list Z) : Prop :=
  tasks_mem k l ∧ ∀ c, c ∈ l → runnable fuel k l c.

(** ** Frames *)

(** A region inside a task of [l]. *)
Definition within (l : list Z) (c : Z * Z) : Prop :=
  ∃ a off, a ∈ l ∧ 0 ≤ off ∧ off + c.2 ≤ SIZEOF_TASK ∧ c.1 = a + off.

Lemma outside_apart k l b n cs : outside k l b n → Forall (within l) cs → apart_all cs b n.
Proof.
  intros [_ Hb] Hcs. eapply Forall_impl; [exact Hcs|]. intros [c m] (a & off & Ha & Ho & Hm & Hc). cbn in *.
  specialize (Hb a Ha). unfold apart, SIZEOF_TASK, TASK_KERNEL_STACK_SIZE in *. lia.
Qed.

Lemma outside_modifies cs k k' l b n : modifies cs k k' → 0 < n → outside k l b n → outside k' l b n.
Proof. intros M Hn [Ho Ha]. split; [by apply (modifies_owned _ _ _ _ _ M)|done]. Qed.

Lemma outside_read cs k k' l b v : modifies cs k k' → Forall (within l) cs → outside k l b 4 →
  kread k b = Ok v → kread k' b = Ok v.
Proof.
  intros M Hcs Ho Hr. rewrite (modifies_read _ _ _ _ M); [done|apply Ho|]. by eapply outside_apart.
Qed.

(** Changes inside the tasks leave the processes alone. *)
Lemma process_modifies fuel cs k k' l p : modifies cs k k' → Forall (within l) cs →
  process_of fuel k l p → process_of fuel k' l p.
Proof.
  intros M Hcs (name & h & d & e & [[Ht Hto] Hh Hd He] & Hf).
  assert (Hword : ∀ b v, kread k b = Ok v ∧ outside k l b 4 → kread k' b = Ok v ∧ outside k' l b 4).
  { intros b v [Hr Ho]. split; [by eapply (outside_read _ _ _ _ _ _ M)|].
    by apply (outside_modifies _ _ _ _ _ _ M). }
  exists name, h, d, e. split; [|done]. split; [|by apply Hword..]. split.
  - apply (modifies_cstr _ _ _ _ _ M); [apply Hto|by eapply outside_apart|done].
  - apply (outside_modifies _ _ _ _ _ _ M); [lia|done].
Qed.

Lemma runnable_modifies fuel cs k k' l a : modifies cs k k' → Forall (within l) cs →
  kread k' (a + task_process) = kread k (a + task_process) → runnable fuel k l a → runnable fuel k' l a.
Proof.
  intros M Hcs Hsp (p & Hp & Hr). exists p. split; [by rewrite Hsp|]. by apply (process_modifies fuel cs k).
Qed.

Lemma tasks_mem_modifies cs k k' l : modifies cs k k' → tasks_mem k l → tasks_mem k' l.
Proof.
  intros M [Hi Ho Ha]. split; [by apply (modifies_inv _ _ _ M)| |done].
  intros a Hal. destruct (Ho a Hal) as (Hoa & ?). split; [by apply (modifies_owned _ _ _ _ _ M)|done].
Qed.

Lemma process_outside fuel k l l' p : (∀ b n, 0 < n → outside k l b n → outside k l' b n) →
  process_of fuel k l p → process_of fuel k l' p.
Proof.
  intros Ho (name & h & d & e & [[Rt Rto] [Rh Rho] [Rd Rdo] [Re Reo]] & Hf).
  exists name, h, d, e. split; [|done]. split; (split; [done|apply Ho; [lia|done]]).
Qed.

Lemma runnable_sub fuel k l l' a : (∀ x, x ∈ l' → x ∈ l) → runnable fuel k l a → runnable fuel k l' a.
Proof.
  intros Hl (p & Hp & Hr). exists p. split; [done|]. apply (process_outside fuel k l); [|done].
  intros b n _ [Ho Ha]. split; [done|]. intros c Hc. by apply Ha, Hl.
Qed.

Lemma runnable_permute fuel k l l' a : l ≡ₚ l' → runnable fuel k l a → runnable fuel k l' a.
Proof. intros Hp. apply runnable_sub. intros x. by rewrite Hp. Qed.

Lemma tasks_set_permute fuel k l l' : l ≡ₚ l' → tasks_set fuel k l → tasks_set fuel k l'.
Proof.
  intros Hp [[Hi Ho Ha] Hr]. split; [split; [done|..]|].
  - intros a Hal. apply Ho. by rewrite Hp.
  - intros a b Hal Hbl. apply Ha; by rewrite Hp.
  - intros a Hal. apply (runnable_permute fuel k l); [done|]. apply Hr. by rewrite Hp.
Qed.

Lemma tasks_of_set fuel k l : ring (tnx k) (tpv k) l → tasks_set fuel k l → tasks_ok fuel k l.
Proof. intros ? []. by split. Qed.

Lemma tasks_permute fuel k l l' : tasks_ok fuel k l → ring (tnx k) (tpv k) l' → l ≡ₚ l' → tasks_ok fuel k l'.
Proof.
  intros [_ Hm Hr] Hring Hp. apply tasks_of_set; [done|]. by apply (tasks_set_permute fuel k l).
Qed.

Lemma tasks_rotate fuel k a l : tasks_ok fuel k (a :: l) → tasks_ok fuel k (l ++ [a]).
Proof.
  intros Hok. apply (tasks_permute fuel k (a :: l)); [done| |exact (Permutation_app_comm [a] l)].
  exact (ring_rotate_app _ _ [a] l (tasks_ring _ _ _ Hok)).
Qed.

(** ** Reading and writing members *)

Definition members : list Z := [task_n_switches; task_process; task_kernel_stack_pointer; task_next; task_previous].

Lemma members_range off : off ∈ members → 0 ≤ off ∧ off + 4 ≤ 92.
Proof.
  rewrite list_elem_of_In. cbn [members In]. intros.
  unfold task_n_switches, task_process, task_kernel_stack_pointer, task_next, task_previous in *. lia.
Qed.

Lemma members_apart off off' : off ∈ members → off' ∈ members → off ≠ off' → apart off 4 off' 4.
Proof.
  rewrite !list_elem_of_In. cbn [members In]. intros.
  unfold apart, task_n_switches, task_process, task_kernel_stack_pointer, task_next, task_previous in *. lia.
Qed.

Lemma member_owned k l a off : tasks_mem k l → a ∈ l → off ∈ members → kowned k (a + off) 4.
Proof.
  intros Hok Ha Hoff%members_range. destruct (tasks_owned _ _ Hok a Ha) as [Ho _].
  apply (kowned_sub _ _ _ _ _ Ho); unfold SIZEOF_TASK, TASK_KERNEL_STACK_SIZE; lia.
Qed.

Lemma within_member l a off : a ∈ l → off ∈ members → Forall (within l) [(a + off, 4)].
Proof.
  intros Ha Hoff%members_range. apply Forall_singleton. exists a, off. cbn [fst snd].
  split; [done|]. unfold SIZEOF_TASK, TASK_KERNEL_STACK_SIZE. lia.
Qed.

Lemma member_value k l a off : tasks_mem k l → a ∈ l → off ∈ members → ∃ v, kread k (a + off) = Ok v.
Proof.
  intros Hok Ha Hoff. destruct (member_owned _ _ _ _ Hok Ha Hoff) as [Hm _].
  destruct (mapped_load32 (memory k) (a + off)) as (v & Hv & _); [|done|by exists v].
  apply kfree_with_memory_wf, (tasks_inv _ _ Hok).
Qed.

(** Writing a member is updating the function from tasks and members to words. *)
Lemma member_write s l a off v : tasks_mem (kheap (mach s)) l → a ∈ l → off ∈ members → 0 ≤ v < 2 ^ 32 →
  ∃ k', twrite s (a + off) v = Ok (set_mach s (set_kheap (mach s) k')) ∧
    modifies [(a + off, 4)] (kheap (mach s)) k' ∧ tasks_mem k' l ∧
    ∀ c off', c ∈ l → off' ∈ members →
      kread k' (c + off') = if decide (c = a ∧ off' = off) then Ok v else kread (kheap (mach s)) (c + off').
Proof.
  intros Hok Ha Hoff Hv. pose proof (tasks_inv _ _ Hok) as Hi.
  destruct (write_step (Q := λ _, True) [] (kheap (mach s)) (a + off) v Hi) as (k' & E & M & _ & R); [by eapply member_owned|done..|].
  exists k'. unfold twrite, write. rewrite E, !bind_Ok. split; [done|]. split; [done|].
  split; [by eapply tasks_mem_modifies|].
  intros c off' Hc Hoff'. case_decide as Hd; [by destruct Hd as [-> ->]|].
  apply (modifies_read _ _ _ _ M); [by eapply member_owned|]. apply Forall_singleton. cbn [fst snd].
  pose proof (members_range _ Hoff). pose proof (members_range _ Hoff').
  destruct (decide (c = a)) as [-> | Hca].
  - pose proof (members_apart off' off Hoff' Hoff). unfold apart in *. lia.
  - pose proof (tasks_apart _ _ Hok c a Hc Ha Hca). unfold apart, SIZEOF_TASK, TASK_KERNEL_STACK_SIZE in *. lia.
Qed.

(** What member writes keep: the processes. *)
Lemma runs_member fuel k k' l a off v : a ∈ l → off ∈ members → off ≠ task_process →
  modifies [(a + off, 4)] k k' →
  (∀ c off', c ∈ l → off' ∈ members → kread k' (c + off') = if decide (c = a ∧ off' = off) then Ok v else kread k (c + off')) →
  (∀ c, c ∈ l → runnable fuel k l c) → ∀ c, c ∈ l → runnable fuel k' l c.
Proof.
  intros Ha Hoff Hne M HF Hr c Hc. apply (runnable_modifies fuel [(a + off, 4)] k); [done|by apply within_member| |auto].
  rewrite HF, decide_False; [done|intuition congruence|done|by right; left].
Qed.

(** Writing a member other than the links and the process. *)
Lemma state_write fuel s l a off v : tasks_ok fuel (kheap (mach s)) l → a ∈ l →
  off ∈ [task_kernel_stack_pointer; task_n_switches] → 0 ≤ v < 2 ^ 32 →
  ∃ k', twrite s (a + off) v = Ok (set_mach s (set_kheap (mach s) k')) ∧
    modifies [(a + off, 4)] (kheap (mach s)) k' ∧ tasks_ok fuel k' l ∧
    ∀ c off', c ∈ l → off' ∈ members →
      kread k' (c + off') = if decide (c = a ∧ off' = off) then Ok v else kread (kheap (mach s)) (c + off').
Proof.
  intros [Hring Hmem Hrun] Ha Hoff Hv.
  assert (Hr : off ∈ members ∧ off ≠ task_process ∧ off ≠ task_next ∧ off ≠ task_previous).
  { apply list_elem_of_In in Hoff as [<-|[<-|[]]]; (split; [by apply list_elem_of_In; cbn; tauto|done]). }
  destruct Hr as (Hin & Hp & Hn & Hpv).
  destruct (member_write s l a off v Hmem Ha Hin Hv) as (k' & E & M & Hmem' & F).
  exists k'. split; [done|]. split; [done|]. split; [split; [|done|by apply (runs_member fuel (kheap (mach s)) k' l a off v)]|done].
  apply (ring_frame _ _ _ _ _ Hring); intros x y Hx; unfold tnx, tpv;
    rewrite F by (done || (apply list_elem_of_In; cbn; tauto)); (rewrite decide_False; [done|intuition congruence]).
Qed.

Lemma print_task_name_ok fuel s l a : runnable fuel (kheap (mach s)) l a →
  ∃ t, print_task_name fuel s a = Ok (set_mach s (set_console (mach s) t)).
Proof.
  intros (p & Hp & name & h & d & e & [[Ht _] _ _ _] & Hf). unfold print_task_name, tread, read.
  rewrite Hp, bind_Ok. unfold tprint, print, ram. rewrite (put_str_fold _ _ _ _ _ _ Ht Hf), bind_Ok. by eexists.
Qed.

(** The last entry of the page directory of a task's process. *)
Definition directory_of k (a e : Z) : Prop :=
  ∃ p h d, kread k (a + task_process) = Ok p ∧ kread k (p + process_page_directory) = Ok h ∧
    kread k h = Ok d ∧ kread k (d + 4 * 1023) = Ok e.

Lemma runnable_directory fuel k l a : runnable fuel k l a → ∃ e, directory_of k a e.
Proof. intros (p & ? & name & h & d & e & [_ [? _] [? _] [? _]] & _). by exists e, p, h, d. Qed.

Lemma load_task_directory_ok s a e : directory_of (kheap (mach s)) a e →
  load_task_directory s a = Ok (set_mach s (set_cr (mach s) (cr0 (mach s)) (PAGE_ENTRY_ADDR e) (cr4 (mach s)))).
Proof.
  intros (p & h & d & Hp & Hh & Hd & He). unfold load_task_directory, directory_entry, tread, read.
  by rewrite Hp, bind_Ok, Hh, !bind_Ok, Hd, bind_Ok, He, bind_Ok.
Qed.

Lemma directory_modifies fuel cs k k' l a e : modifies cs k k' → Forall (within l) cs → runnable fuel k l a →
  kread k' (a + task_process) = kread k (a + task_process) → directory_of k a e → directory_of k' a e.
Proof.
  intros M Hcs (p' & Rp & name & h' & d' & e' & [_ [Rh Oh] [Rd Od] [Re Oe]] & _) Hsp (p & h & d & Hp & Hh & Hd & He).
  rewrite Rp in Hp. injection Hp as ->. rewrite Rh in Hh. injection Hh as ->.
  rewrite Rd in Hd. injection Hd as ->. exists p, h, d.
  split; [by rewrite Hsp|]. split; [|split]; by eapply (outside_read _ _ _ _ _ _ M).
Qed.

(** ** One tick *)

(** The saved stack pointer of a task. *)
Definition saved k (a v : Z) : Prop := kread k (a + task_kernel_stack_pointer) = Ok v.

Lemma print_switch_ok fuel s l b :
  runnable fuel (kheap (mach s)) l (current_task s) → runnable fuel (kheap (mach s)) l b →
  ∃ t, print_switch fuel s b = Ok (set_mach s (set_console (mach s) t)).
Proof.
  intros Ha Hb. unfold print_switch. destruct (print_task_name_ok _ _ _ _ Ha) as [t1 ->]. rewrite bind_Ok.
  set (s2 := tprint_text _ _). destruct (print_task_name_ok fuel s2 l b Hb) as [t2 ->]. rewrite bind_Ok.
  by eexists.
Qed.

Lemma schedule_spec fuel s a b l frame n v e : tasks_ok fuel (kheap (mach s)) (a :: b :: l) → current_task s = a →
  0 ≤ frame < 2 ^ 32 → kread (kheap (mach s)) (a + task_n_switches) = Ok n → saved (kheap (mach s)) b v →
  directory_of (kheap (mach s)) b e →
  ∃ s', schedule fuel s frame = Ok (v, s') ∧ current_task s' = b ∧
    tasks_ok fuel (kheap (mach s')) (b :: l ++ [a]) ∧
    gdt s' = tss_set_kernel_stack (gdt s) (b + SIZEOF_TASK) ∧ cr3 (mach s') = PAGE_ENTRY_ADDR e ∧
    saved (kheap (mach s')) a frame ∧ kread (kheap (mach s')) (a + task_n_switches) = Ok (u32 (n + 1)) ∧
    (∀ c off, c ∈ b :: l → off ∈ members → kread (kheap (mach s')) (c + off) = kread (kheap (mach s)) (c + off)) ∧
    modifies [(a + task_kernel_stack_pointer, 4); (a + task_n_switches, 4)] (kheap (mach s)) (kheap (mach s')).
Proof.
  intros Hok <- Hf Hn Hv He. set (a := current_task s) in *. set (k := kheap (mach s)) in *.
  pose proof (ring_NoDup _ _ _ (tasks_ring _ _ _ Hok)) as Hnd. apply NoDup_cons in Hnd as [Hab Hnd].
  assert (Ha : a ∈ a :: b :: l) by (by left). assert (Hb : b ∈ a :: b :: l) by (by right; left).
  assert (Hba : b ≠ a) by (intros ->; apply Hab; by left).
  destruct (tasks_owned _ _ (tasks_memory _ _ _ Hok) a Ha) as (_ & Hapos & _).
  destruct (tasks_owned _ _ (tasks_memory _ _ _ Hok) b Hb) as (_ & Hbpos & Hbtop).
  unfold schedule, task_store, task_next_of. fold a. rewrite !decide_False by lia.
  destruct (state_write fuel s (a :: b :: l) a task_kernel_stack_pointer frame Hok Ha) as
    (k1 & E1 & M1 & Ok1 & F1); [by left|done|]. fold k in M1, F1.
  rewrite E1, bind_Ok. set (s1 := set_mach s (set_kheap (mach s) k1)).
  change (current_task s1) with a. unfold tread, read. change (kheap (mach s1)) with k1.
  destruct (tasks_ring _ _ _ Ok1) as (_ & Hnext & _). unfold tnx in Hnext. rewrite Hnext, bind_Ok, decide_False by done.
  destruct (print_switch_ok fuel s1 (a :: b :: l) b) as [t ->]; [by apply (tasks_run _ _ _ Ok1)..|].
  rewrite bind_Ok. set (s3 := set_mach _ (set_console _ t)).
  change (current_task s3) with a. change (kheap (mach s3)) with k1.
  rewrite F1, decide_False, Hn, bind_Ok by (done || (intros [_ [=]]) || member).
  destruct (state_write fuel s3 (a :: b :: l) a task_n_switches (u32 (n + 1)) Ok1 Ha) as
    (k2 & E2 & M2 & Ok2 & F2); [by right; left|by apply u32_range|]. change (kheap (mach s3)) with k1 in M2, F2.
  rewrite E2, bind_Ok. set (s4 := set_gdt _ _).
  assert (Hmem : ∀ c off, c ∈ b :: l → off ∈ members → kread k2 (c + off) = kread k (c + off)).
  { intros c off Hc Hoff. assert (c ≠ a) by (by intros ->). assert (c ∈ a :: b :: l) by (by right).
    rewrite F2, F1, !decide_False; [done|tauto|tauto|done..]. }
  assert (He2 : directory_of (kheap (mach s4)) b e).
  { apply (directory_modifies fuel [(a + task_n_switches, 4)] k1 k2 (a :: b :: l)); [done|..].
    - apply within_member; [done|member].
    - by apply (tasks_run _ _ _ Ok1).
    - rewrite F2, decide_False; [done|tauto|done|member].
    - apply (directory_modifies fuel [(a + task_kernel_stack_pointer, 4)] k k1 (a :: b :: l)); [done|..|done].
      + apply within_member; [done|member].
      + by apply (tasks_run _ _ _ Hok).
      + rewrite F1, decide_False; [done|tauto|done|member]. }
  rewrite (load_task_directory_ok _ _ _ He2), bind_Ok. cbn [current_task set_mach].
  assert (Hv2 : saved k2 b v) by (unfold saved; rewrite Hmem; [done|by left|member]).
  change (current_task s4) with b. unfold saved in Hv2. cbn [mach set_mach set_kheap kheap set_cr].
  change (kheap (mach s4)) with k2. rewrite Hv2, bind_Ok. eexists. split; [done|].
  cbn [current_task mach set_mach gdt kheap set_cr cr3]. change (kheap (mach s4)) with k2.
  split; [done|]. split; [exact (tasks_rotate _ _ _ _ Ok2)|]. split.
  { change (gdt s4) with (tss_set_kernel_stack (gdt s) (u32 (b + SIZEOF_TASK))).
    by rewrite u32_id by (unfold SIZEOF_TASK, TASK_KERNEL_STACK_SIZE in *; lia). }
  split; [done|]. split; [|split; [|split; [exact Hmem|]]].
  - unfold saved. rewrite F2, decide_False, F1, decide_True; [done|done|done|member|intros [_ [=]]|done|member].
  - rewrite F2, decide_True; [done|done|done|member].
  - eapply modifies_step; [apply (modifies_sub _ _ _ _ M1)|exact M2|];
      intros b' n' _ _ Hap; unfold apart_all in *; rewrite !Forall_cons in Hap; destruct Hap as (? & ? & _); by apply Forall_singleton.
Qed.

(** ** Many ticks *)

Fixpoint ticks (fuel : nat) s (frames : list Z) : outcome (list Z * tasking K) :=
  match frames with
  | [] => Ok ([], s)
  | frame :: frames =>
      r ← schedule fuel s frame; let '(ksp, s) := r in
      rs ← ticks fuel s frames; let '(ksps, s) := rs in Ok (ksp :: ksps, s)
  end.

(** The ring seen from the next task. *)
Definition step_ring (l : list Z) : list Z :=
  match l with [] => [] | a :: l => l ++ [a] end.

Lemma schedule_alone fuel s a frame : tasks_ok fuel (kheap (mach s)) [a] → current_task s = a →
  0 ≤ frame < 2 ^ 32 →
  ∃ s', schedule fuel s frame = Ok (frame, s') ∧ current_task s' = a ∧ tasks_ok fuel (kheap (mach s')) [a].
Proof.
  intros Hok <- Hf. set (a := current_task s) in *. assert (Ha : a ∈ [a]) by (by left).
  destruct (tasks_owned _ _ (tasks_memory _ _ _ Hok) a Ha) as (_ & Hapos & _).
  unfold schedule, task_store, task_next_of. fold a. rewrite !decide_False by lia.
  destruct (state_write fuel s [a] a task_kernel_stack_pointer frame Hok Ha) as
    (k1 & -> & _ & Ok1 & _); [by left|done|]. rewrite bind_Ok. unfold tread, read.
  cbn [current_task set_mach mach set_kheap kheap].
  destruct (proj1 (ring_singleton _ _ _) (tasks_ring _ _ _ Ok1)) as [Hnext _]. unfold tnx in Hnext.
  fold a. rewrite Hnext, bind_Ok, decide_True by done. by eexists.
Qed.

Lemma ticks_spec fuel frames : ∀ s a l vs, tasks_ok fuel (kheap (mach s)) (a :: l) → current_task s = a →
  Forall (λ f, 0 ≤ f < 2 ^ 32) frames → Forall2 (saved (kheap (mach s))) l vs →
  ∃ s', ticks fuel s frames = Ok (take (length frames) (vs ++ frames), s') ∧
    tasks_ok fuel (kheap (mach s')) (Nat.iter (length frames) step_ring (a :: l)) ∧
    head (Nat.iter (length frames) step_ring (a :: l)) = Some (current_task s').
Proof.
  induction frames as [|f frames IH]; intros s a l vs Hok Hc Hf Hv.
  { exists s. by rewrite <- Hc in *. }
  apply Forall_cons in Hf as [Hf Hfs]. cbn [ticks length]. rewrite Nat.iter_succ_r.
  destruct Hv as [|b v l vs Hb Hv].
  - destruct (schedule_alone fuel s a f Hok Hc Hf) as (s1 & -> & Hc1 & Ok1). rewrite bind_Ok.
    destruct (IH s1 a [] [] Ok1 Hc1 Hfs) as (s' & -> & H'); [constructor|]. rewrite bind_Ok. by exists s'.
  - assert (Ha : a ∈ a :: b :: l) by (by left).
    destruct (member_value _ _ a task_n_switches (tasks_memory _ _ _ Hok) Ha) as [n Hn]; [member|].
    destruct (runnable_directory _ _ _ _ (tasks_run _ _ _ Hok b ltac:(by right; left))) as [e He].
    destruct (schedule_spec fuel s a b l f n v e Hok Hc Hf Hn Hb He)
      as (s1 & -> & Hc1 & Ok1 & _ & _ & Hsa & _ & Hmem & _). rewrite bind_Ok.
    destruct (IH s1 b (l ++ [a]) (vs ++ [f]) Ok1 Hc1 Hfs) as (s' & -> & H').
    { apply Forall2_app; [|by repeat constructor].
      apply Forall2_same_length_lookup. split; [by eapply Forall2_length|]. intros i c w Hi Hw. unfold saved.
      rewrite Hmem; [by apply (Forall2_lookup_lr _ _ _ _ _ _ Hv Hi Hw)|right; by eapply list_elem_of_lookup_2|member]. }
    rewrite bind_Ok. exists s'. rewrite <- app_assoc. done.
Qed.

Lemma step_ring_permutation n l : Nat.iter n step_ring l ≡ₚ l.
Proof.
  induction n as [|n IH]; [done|]. rewrite Nat.iter_succ. destruct (Nat.iter n step_ring l) as [|a m]; [done|].
  cbn [step_ring]. by rewrite (Permutation_app_comm m [a]).
Qed.

Lemma step_ring_lookup n : ∀ l i, (i < length l)%nat → Nat.iter n step_ring l !! i = l !! ((i + n) mod length l)%nat.
Proof.
  induction n as [|n IH]; intros l i Hi; [by rewrite Nat.add_0_r, Nat.mod_small|].
  rewrite Nat.iter_succ_r. destruct l as [|a l]; [cbn in Hi; lia|]. cbn [step_ring length] in *.
  assert (Hl : length (l ++ [a]) = S (length l)) by (rewrite length_app; cbn; lia).
  rewrite IH, Hl by lia. replace (i + S n)%nat with (i + n + 1)%nat by lia.
  rewrite <- (Nat.Div0.add_mod_idemp_l (i + n) 1).
  pose proof (Nat.mod_upper_bound (i + n) (S (length l)) ltac:(lia)) as Hm.
  set (m := ((i + n) mod S (length l))%nat) in *. destruct (decide (m < length l)%nat) as [Hlt|Hge].
  - rewrite lookup_app_l by done. rewrite Nat.mod_small by lia. by rewrite Nat.add_1_r.
  - replace m with (length l) by lia. rewrite lookup_app_r, Nat.sub_diag by lia.
    rewrite Nat.add_1_r, Nat.Div0.mod_same. done.
Qed.
(** ** Printing and relinking *)

Lemma print_tasks_ok fuel s a l : tasks_ok fuel (kheap (mach s)) (a :: l) → current_task s = a →
  (length l < fuel)%nat → ∃ t, print_tasks fuel s = Ok (set_mach s (set_console (mach s) t)).
Proof.
  intros Hok Hc Hf. unfold print_tasks. cbv zeta.
  set (s0 := tprint_text s _).
  set (I := λ (i : nat) (st : Z * tasking K), ∃ t, st.2 = set_mach s (set_console (mach s) t) ∧
    (a :: l) !! i = Some st.1 ∧ (i ≤ length l)%nat).
  destruct (while_total_rounds (print_tasks_round fuel) I (length l)
    (λ r, ∃ t, r = set_mach s (set_console (mach s) t)) fuel
    (current_task s0, s0)) as (r & -> & t & ->).
  - eexists. split; [done|]. change (current_task s0) with (current_task s). split; [by rewrite Hc|lia].
  - done.
  - by intros i st (t & _ & _ & ?).
  - intros i [ptr s'] (t & Hs & Hi & Hl). cbn [fst snd] in Hs, Hi. subst s'. unfold print_tasks_round.
    destruct (print_task_name_ok fuel (set_mach s (set_console (mach s) t)) (a :: l) ptr) as [t1 ->].
    { apply (tasks_run _ _ _ Hok). by eapply list_elem_of_lookup_2. }
    rewrite bind_Ok. unfold tread, read. cbn [kheap mach tprint_text set_mach print_bytes set_console].
    destruct (lookup_lt_is_Some_2 (a :: l) (S i mod length (a :: l))) as [b Hb].
    { apply Nat.mod_upper_bound. done. }
    destruct (ring_next _ _ _ _ _ _ (tasks_ring _ _ _ Hok) Hi Hb) as [Hn _]. unfold tnx in Hn.
    rewrite Hn, bind_Ok. case_decide as Hne.
    + left. change (b ≠ current_task s) in Hne. eexists. split; [done|]. eexists. split; [done|].
      cbn [fst snd length] in *.
      destruct (decide (S i < S (length l))%nat) as [Hlt|Hge]; [rewrite Nat.mod_small in Hb by done; split; [done|lia]|].
      replace (S i) with (S (length l)) in Hb by lia. rewrite Nat.Div0.mod_same in Hb.
      injection Hb as ->. by rewrite Hc in Hne.
    + right. eexists. split; [done|]. by eexists.
  - rewrite bind_Ok. unfold tprint_text, print_bytes. by eexists.
Qed.

(** The links of the tasks. *)
Definition links (l : list Z) : list (Z * Z) := (λ c, (c + task_next, 8)) <$> l.

Lemma link_write fuel s l a off v : tasks_set fuel (kheap (mach s)) l → a ∈ l →
  off ∈ [task_next; task_previous] → 0 ≤ v < 2 ^ 32 →
  ∃ k', twrite s (a + off) v = Ok (set_mach s (set_kheap (mach s) k')) ∧
    modifies (links l) (kheap (mach s)) k' ∧ tasks_set fuel k' l ∧
    ∀ c off', c ∈ l → off' ∈ members →
      kread k' (c + off') = if decide (c = a ∧ off' = off) then Ok v else kread (kheap (mach s)) (c + off').
Proof.
  intros [Hmem Hrun] Ha Hoff Hv.
  assert (Hr : off ∈ members ∧ off ≠ task_process ∧ task_next ≤ off ≤ task_next + 4).
  { apply list_elem_of_In in Hoff as [<-|[<-|[]]]; (split; [member|done]). }
  destruct Hr as (Hin & Hp & Hlo & Hhi).
  destruct (member_write s l a off v Hmem Ha Hin Hv) as (k' & E & M & Hmem' & F).
  exists k'. split; [done|]. split; [|split; [split; [done|]|done]].
  - apply (modifies_sub _ _ _ _ M). intros b n Hn _ Hb. apply Forall_singleton. cbn [fst snd].
    unfold apart_all, links in Hb. rewrite Forall_fmap, Forall_forall in Hb. specialize (Hb a Ha).
    unfold apart in *. cbn in Hb. lia.
  - by apply (runs_member fuel (kheap (mach s)) k' l a off v).
Qed.

Lemma modifies_again cs k1 k2 k3 : modifies cs k1 k2 → modifies cs k2 k3 → modifies cs k1 k3.
Proof. intros M1 M2. by apply (modifies_step _ cs _ k2). Qed.

(** The ring seen from the task after the first. *)
Lemma ring_successor nx pv a l : ring nx pv (a :: l) → ∃ n l', l ++ [a] = n :: l' ∧ last_of n l' = a ∧ nx a n ∧
  ring nx pv (n :: l').
Proof.
  intros Hr. pose proof (ring_rotate_app _ _ [a] l Hr) as Hr'. destruct l as [|b l].
  - exists a, []. apply ring_singleton in Hr as [? ?]. done.
  - exists b, (l ++ [a]). split; [done|]. split; [by rewrite last_of_snoc|]. split; [apply Hr|done].
Qed.
Lemma apart_next : task_next ≠ task_previous.
Proof. done. Qed.

(** What a member holds after a list of member writes. *)
Ltac written := unfold tnx, tpv in *;
  repeat match goal with
    | F : ∀ c off', c ∈ _ → off' ∈ members → kread ?k (c + off') = _ |- context [kread ?k (?x + ?o)] =>
        rewrite (F x o) by (member || (repeat first [done | left; done | right]))
    end;
  pose proof apart_next; repeat case_decide; destruct_and?; try done; try congruence; try tauto.

(** The four writes of [task_list_insert]: [t] is after the current task. *)
Lemma insert_links fuel s a l t : tasks_ok fuel (kheap (mach s)) (a :: l) → current_task s = a →
  t ∉ a :: l → tasks_set fuel (kheap (mach s)) (t :: a :: l) →
  ∃ k', task_list_link s t = Ok (set_mach s (set_kheap (mach s) k')) ∧
    tasks_ok fuel k' (a :: t :: l) ∧ modifies (links (t :: a :: l)) (kheap (mach s)) k' ∧
    ∀ c off, c ∈ t :: a :: l → off ∈ members → off ≠ task_next → off ≠ task_previous →
      kread k' (c + off) = kread (kheap (mach s)) (c + off).
Proof.
  intros Hok Hc Hta Hs0. destruct (ring_successor _ _ _ _ (tasks_ring _ _ _ Hok)) as (n & l' & El & Hlast & Han & Hr).
  assert (Hin : ∀ x, x ∈ n :: l' → x ∈ t :: a :: l).
  { intros x Hx. rewrite <- El in Hx. right. rewrite (Permutation_app_comm l [a]) in Hx. done. }
  assert (Hta' : t ∉ n :: l') by (rewrite <- El, (Permutation_app_comm l [a]); done).
  assert (Ht : t ∈ t :: a :: l) by (by left). assert (Ha : a ∈ t :: a :: l) by (by right; left).
  assert (Hn : n ∈ t :: a :: l) by (apply Hin; by left).
  assert (Hrange : ∀ x, x ∈ t :: a :: l → 0 ≤ x < 2 ^ 32).
  { intros x Hx. destruct (tasks_owned _ _ (proj1 Hs0) x Hx) as (_ & ? & ?).
    unfold SIZEOF_TASK, TASK_KERNEL_STACK_SIZE in *. lia. }
  assert (Hat : a ≠ t) by (intros ->; apply Hta; by left).
  assert (Hnt : n ≠ t) by (intros ->; apply Hta'; by left).
  unfold task_list_link. rewrite Hc. set (k := kheap (mach s)) in *.
  destruct (link_write fuel s _ t task_previous a Hs0 Ht) as (k1 & -> & M1 & S1 & F1); [by right; left|by apply Hrange|].
  rewrite bind_Ok. set (s1 := set_mach s (set_kheap (mach s) k1)). fold k in M1, F1.
  change (current_task s1) with (current_task s). rewrite Hc. unfold tread, read. change (kheap (mach s1)) with k1.
  assert (E1 : kread k1 (a + task_next) = Ok n) by written. rewrite E1, bind_Ok.
  destruct (link_write fuel s1 _ t task_next n S1 Ht) as (k2 & -> & M2 & S2 & F2); [by left|by apply Hrange|].
  rewrite bind_Ok. set (s2 := set_mach s1 (set_kheap (mach s1) k2)). change (kheap (mach s1)) with k1 in M2, F2.
  change (current_task s2) with (current_task s). rewrite Hc.
  destruct (link_write fuel s2 _ a task_next t S2 Ha) as (k3 & -> & M3 & S3 & F3); [by left|by apply Hrange|].
  rewrite bind_Ok. set (s3 := set_mach s2 (set_kheap (mach s2) k3)). change (kheap (mach s2)) with k2 in M3, F3.
  change (kheap (mach s3)) with k3. assert (E3 : kread k3 (t + task_next) = Ok n) by written. rewrite E3, bind_Ok.
  destruct (link_write fuel s3 _ n task_previous t S3 Hn) as (k4 & -> & M4 & S4 & F4); [by right; left|by apply Hrange|].
  change (kheap (mach s3)) with k3 in M4, F4. exists k4. split; [done|].
  split; [|split; [do 3 (eapply modifies_again; [eassumption|]); done|]].
  2: { intros c off Hcl Hoff Hne1 Hne2. rewrite F4, F3, F2, F1, !decide_False by (done || tauto). done. }
  assert (Hrest : ∀ x, x ∈ n :: l' → x ≠ t) by (by intros x Hx ->).
  pose proof (ring_NoDup _ _ _ Hr) as [Hnl _]%NoDup_cons.
  assert (Hring : ring (tnx k4) (tpv k4) (n :: l' ++ [t])).
  { apply (ring_insert (tnx k) (tpv k) _ _ n l' t Hr Hta'); rewrite ?Hlast; [written..| |].
    - intros x y Hx Hxa Hxy. pose proof (Hrest x Hx). pose proof (Hin x Hx). written.
    - intros x y Hx Hxy. assert (x ∈ n :: l') as Hx' by (by right). pose proof (Hrest x Hx').
      pose proof (Hin x Hx'). assert (x ≠ n) by (by intros ->). written. }
  apply tasks_of_set; [|by apply (tasks_set_permute fuel k4 (t :: a :: l)); [constructor|]].
  rewrite app_comm_cons, <- El, <- app_assoc in Hring. exact (ring_rotate_app _ _ l [a; t] Hring).
Qed.
(** [joins fuel k l t]: [t] is ready to be inserted among [l]. *)
Definition joins (fuel : nat) k (l : list Z) (t : Z) : Prop := (t ∉ l) ∧ tasks_set fuel k (t :: l).

Lemma list_insert_spec fuel s a l t : tasks_ok fuel (kheap (mach s)) (a :: l) → current_task s = a →
  joins fuel (kheap (mach s)) (a :: l) t → (S (length l) < fuel)%nat →
  ∃ s', task_list_insert fuel s t = Ok (t, s') ∧ tasks_ok fuel (kheap (mach s')) (a :: t :: l) ∧
    current_task s' = a ∧ gdt s' = gdt s ∧ cr3 (mach s') = cr3 (mach s) ∧
    modifies (links (t :: a :: l)) (kheap (mach s)) (kheap (mach s')) ∧
    ∀ c off, c ∈ t :: a :: l → off ∈ members → off ≠ task_next → off ≠ task_previous →
      kread (kheap (mach s')) (c + off) = kread (kheap (mach s)) (c + off).
Proof.
  intros Hok Hc [Hta Hset] Hf. unfold task_list_insert.
  destruct (insert_links fuel s a l t Hok Hc Hta Hset) as (k' & -> & Ok' & M & Hmem). rewrite bind_Ok.
  set (s1 := set_mach s (set_kheap (mach s) k')).
  destruct (print_task_name_ok fuel s1 (a :: t :: l) (current_task s1)) as [t1 ->].
  { apply (tasks_run _ _ _ Ok'). change (current_task s1) with (current_task s). rewrite Hc. by left. }
  rewrite bind_Ok. cbv zeta. set (s2 := tprint_text _ _).
  destruct (print_task_name_ok fuel s2 (a :: t :: l) t) as [t2 ->]; [apply (tasks_run _ _ _ Ok'); by right; left|].
  rewrite bind_Ok. set (s3 := set_mach s2 _).
  destruct (print_tasks_ok fuel s3 a (t :: l)) as [t3 ->]; [exact Ok'|exact Hc|done|].
  rewrite bind_Ok. eexists. split; [done|]. cbn. done.
Qed.

(** The writes of [task_list_remove] on the first of several tasks. *)
Lemma list_remove_spec fuel s t b l : tasks_ok fuel (kheap (mach s)) (t :: b :: l) →
  ∃ k', task_list_remove s t = Ok (t, set_mach s (set_kheap (mach s) k')) ∧ tasks_ok fuel k' (b :: l) ∧
    tnx k' t 0 ∧ tpv k' t 0 ∧ modifies (links (t :: b :: l)) (kheap (mach s)) k' ∧
    ∀ c off, c ∈ t :: b :: l → off ∈ members → off ≠ task_next → off ≠ task_previous →
      kread k' (c + off) = kread (kheap (mach s)) (c + off).
Proof.
  intros Hok. pose proof (tasks_ring _ _ _ Hok) as Hr. pose proof (ring_NoDup _ _ _ Hr) as Hnd.
  apply NoDup_cons in Hnd as [Htb Hnd]. destruct (proj1 (ring_head _ _ _ _) Hr) as (_ & (Hnx & _) & _ & Hpv).
  rewrite last_of_cons in Hpv. set (p := last_of b l) in *. assert (Hpin : p ∈ b :: l) by apply last_of_in.
  assert (Ht : t ∈ t :: b :: l) by (by left). assert (Hb : b ∈ t :: b :: l) by (by right; left).
  assert (Hp : p ∈ t :: b :: l) by (by right). assert (Hpt : p ≠ t) by (intros E; by rewrite E in Hpin).
  assert (Hbt : b ≠ t) by (intros ->; apply Htb; by left).
  assert (Hrange : ∀ x, x ∈ t :: b :: l → 0 ≤ x < 2 ^ 32).
  { intros x Hx. destruct (tasks_owned _ _ (tasks_memory _ _ _ Hok) x Hx) as (_ & ? & ?).
    unfold SIZEOF_TASK, TASK_KERNEL_STACK_SIZE in *. lia. }
  assert (Hs0 : tasks_set fuel (kheap (mach s)) (t :: b :: l)) by (destruct Hok; by split).
  unfold task_list_remove, tread, read. unfold tnx, tpv in Hnx, Hpv. set (k := kheap (mach s)) in *.
  rewrite Hpv, Hnx, !bind_Ok.
  destruct (link_write fuel s _ p task_next b Hs0 Hp) as (k1 & -> & M1 & S1 & F1); [by left|by apply Hrange|].
  rewrite bind_Ok. set (s1 := set_mach s _). fold k in M1, F1. change (kheap (mach s1)) with k1.
  assert (E1 : kread k1 (t + task_next) = Ok b) by written.
  assert (E1' : kread k1 (t + task_previous) = Ok p) by written. rewrite E1, E1', !bind_Ok.
  destruct (link_write fuel s1 _ b task_previous p S1 Hb) as (k2 & -> & M2 & S2 & F2); [by right; left|by apply Hrange|].
  rewrite bind_Ok. set (s2 := set_mach s1 _). change (kheap (mach s1)) with k1 in M2, F2.
  destruct (link_write fuel s2 _ t task_next 0 S2 Ht) as (k3 & -> & M3 & S3 & F3); [by left|done|].
  rewrite bind_Ok. set (s3 := set_mach s2 _). change (kheap (mach s2)) with k2 in M3, F3.
  destruct (link_write fuel s3 _ t task_previous 0 S3 Ht) as (k4 & -> & M4 & S4 & F4); [by right; left|done|].
  rewrite bind_Ok. change (kheap (mach s3)) with k3 in M4, F4. exists k4. split; [done|].
  split; [|split; [written|split; [written|split; [do 3 (eapply modifies_again; [eassumption|]); done|]]]].
  2: { intros c off Hcl Hoff Hne1 Hne2. rewrite F4, F3, F2, F1, !decide_False by (done || tauto). done. }
  assert (Hin : ∀ x, x ∈ b :: l → x ∈ t :: b :: l ∧ x ≠ t).
  { intros x Hx. split; [by right|]. by intros ->. }
  apply tasks_of_set.
  - pose proof Hnd as [Hbl _]%NoDup_cons.
    apply (ring_remove (tnx k) (tpv k) _ _ t b l Hr); fold p; [written..| |].
    + intros x y Hx Hxp Hxy. destruct (Hin x Hx). written.
    + intros x y Hx Hxy. destruct (Hin x ltac:(by right)). assert (x ≠ b) by (by intros ->). written.
  - destruct S4 as [[Hi Ho Ha] Hrun]. split; [split; [done|..]|].
    + intros c Hcl. apply Ho. by right.
    + intros c d Hcl Hdl. apply Ha; by right.
    + intros c Hcl. apply (runnable_sub fuel k4 (t :: b :: l)); [intros x Hx; by right|]. apply Hrun. by right.
Qed.
(** ** New tasks *)

(** A change that only touches what is new. *)
Lemma tasks_frame fuel k k' l : modifies [] k k' → tasks_ok fuel k l → tasks_ok fuel k' l.
Proof.
  intros M [Hring Hmem Hrun].
  assert (HF : ∀ x off, x ∈ l → off ∈ members → kread k' (x + off) = kread k (x + off)).
  { intros x off Hx Hoff. apply (modifies_read _ _ _ _ M); [by eapply member_owned|constructor]. }
  split; [|by eapply tasks_mem_modifies|].
  - apply (ring_frame _ _ _ _ _ Hring); intros x y Hx; unfold tnx, tpv; rewrite HF; [done|done|member|done|done|member].
  - intros a Ha. apply (runnable_modifies fuel [] k); [done|constructor|rewrite HF; [done|done|member]|by apply Hrun].
Qed.

Lemma process_fresh fuel k l p t : fresh k t SIZEOF_TASK → process_of fuel k l p → process_of fuel k (t :: l) p.
Proof.
  intros Hf. apply process_outside. intros b n Hn [Ho Ha]. split; [done|].
  intros c [-> | Hc]%elem_of_cons; [by apply Hf|by apply Ha].
Qed.

(** The frame a new task starts from: what [iret] and the handler's return pop. *)
Definition first_frame (privileged entry_point esp : Z) : list Z :=
  let cs := if decide (privileged ≠ 0) then GDT_KERNEL_CODE_SEGMENT_SELECTOR
            else Z.lor GDT_USER_CODE_SEGMENT_SELECTOR 0x3 in
  let ss := if decide (privileged ≠ 0) then GDT_KERNEL_DATA_SEGMENT_SELECTOR
            else Z.lor GDT_USER_DATA_SEGMENT_SELECTOR 0x3 in
  [ss; ss; ss; ss; 0; 0; 0; esp; 0; 0; 0; 0xDEADC0DE; 0xDEADC0DE; 0xDEADC0DE; entry_point; cs; 0x202] ++
  (if decide (privileged ≠ 0) then [] else [esp; ss]).

Definition first_stack (t privileged : Z) : Z :=
  t + SIZEOF_TASK - (if decide (privileged ≠ 0) then SIZEOF_INTERRUPT_FRAME_KERNEL else SIZEOF_INTERRUPT_FRAME).

Definition word (w : Z) : Prop := 0 ≤ w < 2 ^ 32.

Lemma mapM_Ok {A B} (f : A → outcome B) l r : Forall2 (λ x y, f x = Ok y) l r → mapM f l = Ok r.
Proof. induction 1 as [|x y l r E _ IH]; [done|]. cbn. by rewrite E, bind_Ok, IH. Qed.

Lemma push_state_spec s t p privileged entry_point esp : let k := kheap (mach s) in
  alloc_inv k → kowned k t SIZEOF_TASK → 0 < t → t + SIZEOF_TASK < 2 ^ 32 → word entry_point → word esp →
  words_at k t (new_task_words t p privileged entry_point esp) →
  ∃ k', task_push_state_to_kstack s t = Ok (set_mach s (set_kheap (mach s) k')) ∧
    modifies [(t, SIZEOF_TASK)] k k' ∧ kread k' (t + task_process) = Ok p ∧
    saved k' t (first_stack t privileged) ∧
    words_at k' (first_stack t privileged) (first_frame privileged entry_point esp).
Proof.
  intros k Hi Ho Hpos Htop He Hesp W.
  set (cs := if decide (privileged ≠ 0) then GDT_KERNEL_CODE_SEGMENT_SELECTOR else Z.lor GDT_USER_CODE_SEGMENT_SELECTOR 0x3).
  set (ss := if decide (privileged ≠ 0) then GDT_KERNEL_DATA_SEGMENT_SELECTOR else Z.lor GDT_USER_DATA_SEGMENT_SELECTOR 0x3).
  set (size := if decide (privileged ≠ 0) then SIZEOF_INTERRUPT_FRAME_KERNEL else SIZEOF_INTERRUPT_FRAME).
  assert (Hm : mapM (frame_member s t) frame_members =
    Ok [ss; ss; ss; ss; 0; 0; 0; esp; 0; 0; 0; 0xDEADC0DE; 0xDEADC0DE; 0xDEADC0DE; entry_point; cs; 0x202; esp; ss]).
  { apply mapM_Ok. unfold frame_members. cbn [fmap list_fmap app].
    repeat (apply Forall2_cons; split; [first [exact (W 0%nat _ eq_refl) | exact (W 1%nat _ eq_refl)
      | exact (W 2%nat _ eq_refl) | exact (W 3%nat _ eq_refl) | exact (W 4%nat _ eq_refl) | exact (W 5%nat _ eq_refl)
      | exact (W 6%nat _ eq_refl) | exact (W 7%nat _ eq_refl) | exact (W 8%nat _ eq_refl) | exact (W 9%nat _ eq_refl)
      | exact (W 10%nat _ eq_refl) | exact (W 11%nat _ eq_refl) | exact (W 12%nat _ eq_refl) | exact (W 13%nat _ eq_refl)
      | exact (W 14%nat _ eq_refl) | exact (W 15%nat _ eq_refl) | reflexivity]|]). constructor. }
  assert (Hsize : (if decide (Z.land cs 0x3 ≠ 0) then SIZEOF_INTERRUPT_FRAME else SIZEOF_INTERRUPT_FRAME_KERNEL) = size).
  { subst cs size. by destruct (decide (privileged ≠ 0)). }
  set (frame := [ss; _; _; _; _; _; _; _; _; _; _; _; _; _; _; _; _; _; _]) in Hm.
  assert (Hframe : take (Z.to_nat (size / 4)) frame = first_frame privileged entry_point esp ∧
    4 * Z.of_nat (length (first_frame privileged entry_point esp)) = size).
  { subst frame size cs ss. unfold first_frame. by destruct (decide (privileged ≠ 0)). }
  destruct Hframe as [Hframe Hlen].
  assert (Hsz : 0 < size ≤ 76) by (subst size; by destruct (decide (privileged ≠ 0))).
  unfold word, SIZEOF_TASK, TASK_KERNEL_STACK_SIZE in *.
  assert (Htopv : kread k (t + task_kernel_stack_pointer) = Ok (t + 16384)).
  { rewrite <- (u32_id (t + 16384)) by lia. exact (W 20%nat _ eq_refl). }
  assert (Hstack : first_stack t privileged = t + 16384 - size) by done.
  destruct (write_step (Q := λ _, True) [] k (t + task_kernel_stack_pointer) (t + 16384 - size) Hi) as (k1 & E1 & M1 & _ & R1);
    [apply (kowned_sub _ _ _ _ _ Ho); unfold task_kernel_stack_pointer; lia|lia|done|].
  destruct (words_step (Q := λ _, True) [] (first_frame privileged entry_point esp) k1 (t + 16384 - size) (modifies_inv _ _ _ M1))
    as (k2 & E2 & M2 & _ & W2); [|clear - He Hesp; unfold first_frame; destruct (decide (privileged ≠ 0)); repeat first [apply Forall_nil_2 | apply Forall_cons_2; [done|]]|done|].
  { rewrite Hlen. apply (kowned_sub k1 t 16384); [|lia|lia]. by apply (modifies_owned _ _ _ _ _ M1). }
  rewrite Hlen in M2.
  assert (Hread : ∀ off v, off ∈ [task_process; task_kernel_stack_pointer] → kread k1 (t + off) = Ok v → kread k2 (t + off) = Ok v).
  { intros off v Hoff <-. apply list_elem_of_In in Hoff. cbn [In] in Hoff.
    unfold task_process, task_kernel_stack_pointer in Hoff. apply (modifies_read _ _ _ _ M2).
    - apply (modifies_owned _ _ _ _ _ M1); [|done]. apply (kowned_sub _ _ _ _ _ Ho); lia.
    - apply Forall_singleton. unfold apart. cbn [fst snd]. lia. }
  exists k2. split; [|split; [|split; [|split]]].
  - unfold task_push_state_to_kstack. unfold tread at 1, read. fold k.
    pose proof (W 4%nat _ eq_refl) as Wcs. change (t + 4 * Z.of_nat 4) with (t + registers_cs) in Wcs.
    rewrite Wcs, bind_Ok. fold cs. rewrite Hsize. cbv zeta. rewrite Hm, bind_Ok.
    unfold task_push_data_to_kstack, tread, read, twrite, write. fold k. rewrite Htopv, bind_Ok.
    rewrite (u32_id (t + 16384 - size)), E1, !bind_Ok by lia. cbn [mach set_mach kheap set_kheap].
    rewrite R1, bind_Ok, Hframe, E2. done.
  - eapply (modifies_step _ _ k k1); [apply (modifies_sub _ _ _ _ M1)|exact M2|];
      intros b n Hn Hb Hap; unfold apart_all in *; rewrite ?Forall_singleton in *; unfold apart, task_kernel_stack_pointer in *;
      cbn [fst snd] in *; lia.
  - apply Hread; [by left|]. rewrite (modifies_read _ _ _ _ M1); [exact (W 19%nat _ eq_refl)| |].
    + apply (kowned_sub _ _ _ _ _ Ho); unfold task_process; lia.
    + apply Forall_singleton. unfold apart, task_process, task_kernel_stack_pointer. cbn [fst snd]. lia.
  - apply Hread; [by right; left|done].
  - done.
Qed.

(** Every task of [a :: l] and the new one at [t] after a change in new memory. *)
Lemma joins_fresh fuel k k1 k2 l t p : tasks_ok fuel k l → fresh k t SIZEOF_TASK → modifies [] k k1 →
  kowned k1 t SIZEOF_TASK → 0 < t → t + SIZEOF_TASK < 2 ^ 32 → modifies [(t, SIZEOF_TASK)] k1 k2 →
  kread k2 (t + task_process) = Ok p → process_of fuel k l p → joins fuel k2 l t.
Proof.
  intros Hok Hfr M1 Ho Hpos Htop M2 Hp Hproc. pose proof (tasks_memory _ _ _ Hok) as Hm.
  assert (Hap : ∀ c, c ∈ l → apart c SIZEOF_TASK t SIZEOF_TASK).
  { intros c Hc. apply Hfr; [done|]. by destruct (tasks_owned _ _ Hm c Hc). }
  assert (Htl : t ∉ l).
  { intros Ht. pose proof (Hap t Ht). unfold apart, SIZEOF_TASK, TASK_KERNEL_STACK_SIZE in *. lia. }
  assert (M : modifies [(t, SIZEOF_TASK)] k k2).
  { eapply modifies_step; [apply (modifies_sub _ _ _ _ M1); by constructor|exact M2|done]. }
  assert (Hw : Forall (within (t :: l)) [(t, SIZEOF_TASK)]).
  { apply Forall_singleton. exists t, 0. cbn [fst snd]. split; [by left|lia]. }
  split; [done|]. split; [split|].
  - by apply (modifies_inv _ _ _ M).
  - intros c [-> | Hc]%elem_of_cons; [split; [by apply (modifies_owned _ _ _ _ _ M2)|done]|].
    destruct (tasks_owned _ _ Hm c Hc) as [Hoc ?]. split; [by apply (modifies_owned _ _ _ _ _ M)|done].
  - intros c d [-> | Hc]%elem_of_cons [-> | Hd]%elem_of_cons Hcd; [done|..].
    + pose proof (Hap d Hd). unfold apart in *. lia.
    + by apply Hap.
    + by apply (tasks_apart _ _ Hm).
  - intros c [-> | Hc]%elem_of_cons.
    + exists p. split; [done|]. apply (process_modifies fuel [(t, SIZEOF_TASK)] k); [done..|]. by apply process_fresh.
    + destruct (tasks_run _ _ _ Hok c Hc) as (q & Hq & Hproc'). exists q. split.
      * rewrite (modifies_read _ _ _ _ M); [done|eapply member_owned; [done|done|member]|].
        apply Forall_singleton. cbn [fst snd]. pose proof (Hap c Hc).
        unfold apart, SIZEOF_TASK, TASK_KERNEL_STACK_SIZE, task_process in *. lia.
      * apply (process_modifies fuel [(t, SIZEOF_TASK)] k); [done..|]. by apply process_fresh.
Qed.

Lemma new_task_words_ok t p privileged entry_point esp : 0 < t → t + SIZEOF_TASK < 2 ^ 32 → word p → word entry_point →
  word esp → Forall word (new_task_words t p privileged entry_point esp).
Proof.
  intros Hpos Htop Hp He Hesp. pose proof (u32_range (t + SIZEOF_TASK)) as Ht. unfold new_task_words, word in *.
  destruct (decide (privileged ≠ 0)); repeat first [apply Forall_nil_2 | apply Forall_cons_2; [done|]].
Qed.

Lemma first_stack_place t privileged entry_point esp : t + 92 ≤ first_stack t privileged ∧
  first_stack t privileged + 4 * Z.of_nat (length (first_frame privileged entry_point esp)) = t + SIZEOF_TASK.
Proof.
  unfold first_stack, first_frame, SIZEOF_TASK, TASK_KERNEL_STACK_SIZE, SIZEOF_INTERRUPT_FRAME, SIZEOF_INTERRUPT_FRAME_KERNEL.
  destruct (decide (privileged ≠ 0)); cbn [app length]; lia.
Qed.

Lemma links_apart l b n : apart_all (links l) b n ↔ ∀ c, c ∈ l → apart b n (c + task_next) 8.
Proof. unfold apart_all, links. rewrite Forall_fmap, Forall_forall. done. Qed.

Lemma task_new_spec fuel sizes s a l p privileged entry_point esp :
  let k := kheap (mach s) in
  tasks_ok fuel k (a :: l) → current_task s = a → (S (length l) < fuel)%nat → room (SIZEOF_TASK :: sizes) k →
  word p → process_of fuel k (a :: l) p → word entry_point → word esp →
  ∃ t s', task_new fuel s p privileged entry_point esp = Ok (t, s') ∧
    fresh k t SIZEOF_TASK ∧ tasks_ok fuel (kheap (mach s')) (a :: t :: l) ∧ current_task s' = a ∧
    kread (kheap (mach s')) (t + task_process) = Ok p ∧
    saved (kheap (mach s')) t (first_stack t privileged) ∧
    words_at (kheap (mach s')) (first_stack t privileged) (first_frame privileged entry_point esp) ∧
    modifies (links (a :: l)) k (kheap (mach s')).
Proof.
  intros k Hok Hc Hf Hroom Hp Hproc He Hesp. pose proof (tasks_inv _ _ (tasks_memory _ _ _ Hok)) as Hi.
  destruct (alloc_step (Q := λ _, True) SIZEOF_TASK sizes k Hi) as (t & k1 & E1 & Hpos & Htop & _ & M1 & R1 & O1 & Fr & _); [done|done|].
  assert (Hlen : 4 * Z.of_nat (length (new_task_words t p privileged entry_point esp)) = 92) by done.
  destruct (words_step (Q := λ _, True) sizes (new_task_words t p privileged entry_point esp) k1 t (modifies_inv _ _ _ M1))
    as (k2 & E2 & M2 & R2 & W2).
  { rewrite Hlen. by apply (kowned_sub _ _ _ _ _ O1); [lia|unfold SIZEOF_TASK, TASK_KERNEL_STACK_SIZE; lia]. }
  { by apply new_task_words_ok. }
  { done. }
  rewrite Hlen in M2. set (s2 := set_mach s (set_kheap (mach s) k2)).
  destruct (push_state_spec s2 t p privileged entry_point esp) as (k3 & E3 & M3 & Hp3 & Hs3 & W3);
    [by apply (modifies_inv _ _ _ M2)|by apply (modifies_owned _ _ _ _ _ M2)|done..|].
  change (kheap (mach s2)) with k2 in M3.
  assert (M23 : modifies [(t, SIZEOF_TASK)] k1 k3).
  { eapply modifies_step; [apply (modifies_sub _ _ _ _ M2)|exact M3|done].
    intros b n Hn _ Hb. unfold apart_all in *. rewrite Forall_singleton in *. unfold apart, SIZEOF_TASK, TASK_KERNEL_STACK_SIZE in *.
    cbn [fst snd] in *. lia. }
  assert (M0 : modifies [] k k3).
  { eapply modifies_step; [exact M1|exact M23|]. intros b n Hn Hb _. apply Forall_singleton. by apply Fr. }
  set (s3 := set_mach s2 (set_kheap (mach s2) k3)).
  destruct (list_insert_spec fuel s3 a l t) as (s4 & E4 & Ok4 & Hc4 & _ & _ & M4 & Hm4).
  { exact (tasks_frame _ _ _ _ M0 Hok). }
  { exact Hc. }
  { exact (joins_fresh fuel k k1 k3 (a :: l) t p Hok Fr M1 O1 Hpos Htop M23 Hp3 Hproc). }
  { done. }
  change (kheap (mach s3)) with k3 in M4, Hm4.
  destruct (first_stack_place t privileged entry_point esp) as [Hfs Hfl].
  assert (Hnew : ∀ c, c ∈ a :: l → apart c SIZEOF_TASK t SIZEOF_TASK).
  { intros c Hcl. apply Fr; [done|]. by destruct (tasks_owned _ _ (tasks_memory _ _ _ Hok) c Hcl). }
  exists t, s4. split; [|split; [done|split; [done|split; [done|split; [|split; [|split]]]]]].
  - unfold task_new, alloc. fold k. rewrite E1, !bind_Ok. cbv zeta. rewrite decide_False by lia.
    cbn [mach set_mach kheap set_kheap]. rewrite E2, bind_Ok.
    change (set_mach _ _) with s2. rewrite E3, bind_Ok. fold s3. by rewrite E4, bind_Ok.
  - rewrite Hm4; [done|by left|member|done|done].
  - unfold saved. rewrite Hm4; [done|by left|member|done|done].
  - apply (words_at_modifies _ _ _ _ _ M4); [| |done].
    + apply (kowned_sub k3 t SIZEOF_TASK); [by apply (modifies_owned _ _ _ _ _ M23)|lia..].
    + apply links_apart. intros c [-> | Hcl]%elem_of_cons; [unfold apart, task_next; lia|].
      pose proof (Hnew c Hcl). unfold apart, task_next, SIZEOF_TASK, TASK_KERNEL_STACK_SIZE in *. lia.
  - eapply modifies_step; [apply (modifies_sub _ _ _ _ M0); by constructor|exact M4|]. intros b n Hn Hb Hap.
    rewrite links_apart in Hap |- *. intros c [-> | Hcl]%elem_of_cons; [|by apply Hap].
    pose proof (Fr b n Hn Hb). unfold apart, task_next, SIZEOF_TASK, TASK_KERNEL_STACK_SIZE in *. lia.
Qed.
(** ** The claims *)

(** C5: the scheduler is round robin. Over any sequence of ticks the task that runs
    is the one as many places further round the ring as there were ticks, and tick
    after tick the stack pointers handed out are those the waiting tasks were left
    with, then the frames of the ticks themselves, in order: no task waits longer
    than one round, and each is resumed where it was interrupted. *)
Theorem schedule_round_robin fuel s a l vs frames :
  tasks_ok fuel (kheap (mach s)) (a :: l) → current_task s = a → Forall word frames →
  Forall2 (saved (kheap (mach s))) l vs →
  ∃ s', ticks fuel s frames = Ok (take (length frames) (vs ++ frames), s') ∧
    (a :: l) !! (length frames mod length (a :: l))%nat = Some (current_task s') ∧
    ∃ l', tasks_ok fuel (kheap (mach s')) (current_task s' :: l') ∧ current_task s' :: l' ≡ₚ a :: l.
Proof.
  intros Hok Hc Hf Hv. destruct (ticks_spec fuel frames s a l vs Hok Hc Hf Hv) as (s' & E & Hok' & Hh).
  pose proof (step_ring_permutation (length frames) (a :: l)) as Hp.
  exists s'. split; [done|]. rewrite head_lookup, step_ring_lookup, Nat.add_0_l in Hh by (cbn [length]; lia).
  split; [done|].
  assert (Hhd : head (Nat.iter (length frames) step_ring (a :: l)) = Some (current_task s')).
  { by rewrite head_lookup, step_ring_lookup, Nat.add_0_l by (cbn [length]; lia). }
  destruct (Nat.iter (length frames) step_ring (a :: l)) as [|b l']; [done|]. injection Hhd as <-. by exists l'.
Qed.

(** C19: [task_new] with room for the task. The new task goes into the ring after the
    current one, and the next tick runs it: what it returns points at a frame, in the
    new task's own stack, that pops the task's first registers (all but three of the
    general ones zero) and returns to the entry point with interrupts enabled, on kernel segments when the task is privileged and else
    on ring 3 segments and the given stack. *)
Theorem task_new_runs_next fuel sizes s a l p privileged entry_point esp :
  tasks_ok fuel (kheap (mach s)) (a :: l) → current_task s = a → (S (length l) < fuel)%nat →
  room (SIZEOF_TASK :: sizes) (kheap (mach s)) → word p → process_of fuel (kheap (mach s)) (a :: l) p →
  word entry_point → word esp →
  ∃ t s', task_new fuel s p privileged entry_point esp = Ok (t, s') ∧ (t ∉ a :: l) ∧
    tasks_ok fuel (kheap (mach s')) (a :: t :: l) ∧ current_task s' = a ∧
    ∀ frame, word frame → ∃ s2, schedule fuel s' frame = Ok (first_stack t privileged, s2) ∧
      current_task s2 = t ∧ t + 92 ≤ first_stack t privileged ∧ gdt s2 = tss_set_kernel_stack (gdt s') (t + SIZEOF_TASK) ∧
      words_at (kheap (mach s2)) (first_stack t privileged) (first_frame privileged entry_point esp).
Proof.
  intros Hok Hc Hf Hroom Hp Hproc He Hesp.
  destruct (task_new_spec fuel sizes s a l p privileged entry_point esp Hok Hc Hf Hroom Hp Hproc He Hesp)
    as (t & s1 & E & Fr & Ok1 & Hc1 & Hp1 & Hsv & W & _).
  pose proof (ring_NoDup _ _ _ (tasks_ring _ _ _ Ok1)) as Hnd. rewrite (Permutation_swap t a l) in Hnd.
  apply NoDup_cons in Hnd as [Hta _]. exists t, s1. do 4 (split; [done|]). intros frame Hframe.
  pose proof (tasks_memory _ _ _ Ok1) as Hm.
  destruct (member_value _ _ a task_n_switches Hm) as [n Hn]; [by left|member|].
  destruct (runnable_directory _ _ _ _ (tasks_run _ _ _ Ok1 t ltac:(by right; left))) as [e He'].
  destruct (schedule_spec fuel s1 a t l frame n _ e Ok1 Hc1 Hframe Hn Hsv He')
    as (s2 & E2 & Hc2 & Ok2 & Hg & _ & _ & _ & _ & M2).
  destruct (first_stack_place t privileged entry_point esp) as [Hlo Hhi].
  exists s2. do 4 (split; [done|]). apply (words_at_modifies _ _ _ _ _ M2); [| |done].
  - destruct (tasks_owned _ _ Hm t ltac:(by right; left)) as [Ho _]. apply (kowned_sub _ _ _ _ _ Ho); lia.
  - assert (Hat : a ≠ t) by (intros ->; apply Hta; by left).
    pose proof (tasks_apart _ _ Hm a t ltac:(by left) ltac:(by right; left) Hat).
    unfold apart_all. rewrite !Forall_cons. cbn [fst snd].
    unfold apart, task_kernel_stack_pointer, task_n_switches, SIZEOF_TASK, TASK_KERNEL_STACK_SIZE in *.
    split; [lia|]. split; [lia|constructor].
Qed.

(** C38: [task_list_remove] undoes [task_list_insert]: the ring is as it was before, and
    the removed task's links are NULL. *)
Theorem task_list_remove_undoes_insert fuel s a l t :
  tasks_ok fuel (kheap (mach s)) (a :: l) → current_task s = a → joins fuel (kheap (mach s)) (a :: l) t →
  (S (length l) < fuel)%nat →
  ∃ s' k', task_list_insert fuel s t = Ok (t, s') ∧ tasks_ok fuel (kheap (mach s')) (a :: t :: l) ∧
    task_list_remove s' t = Ok (t, set_mach s' (set_kheap (mach s') k')) ∧ tasks_ok fuel k' (a :: l) ∧
    tnx k' t 0 ∧ tpv k' t 0.
Proof.
  intros Hok Hc Hj Hf. destruct (list_insert_spec fuel s a l t Hok Hc Hj Hf) as (s' & E & Ok' & _).
  pose proof (tasks_rotate _ _ _ _ Ok') as Hr. destruct l as [|b l].
  - destruct (list_remove_spec fuel s' t a [] Hr) as (k' & E' & Ok2 & ? & ? & _). by exists s', k'.
  - destruct (list_remove_spec fuel s' t b (l ++ [a]) Hr) as (k' & E' & Ok2 & ? & ? & _). exists s', k'.
    do 3 (split; [done|]). split; [|done].
    apply (tasks_permute fuel k' (b :: l ++ [a])); [done| |].
    + exact (ring_rotate_app _ _ (b :: l) [a] (tasks_ring _ _ _ Ok2)).
    + symmetry. exact (Permutation_app_comm [a] (b :: l)).
Qed.
End tasks.

(** ** Two tasks of one process "p", and a third task's memory

    The heap has one block taken and four free ones; the tasks and their process lie
    past it. In the stack of the first task are the frames of an interrupt 0x20, at
    0x18000, and of an interrupt 0x2E, at 0x18100. *)
Definition task_words (next ksp : Z) : list Z := concat (split4 <$> [0; 0; 0; 0x1D000; ksp; next; next]).

Definition witness_tasking_kernel : kernel :=
  example_kernel (Used 1 :: replicate 4 Free) 0x13000
    [(0x15000 + task_n_switches, task_words 0x19000 0x18F00); (0x19000 + task_n_switches, task_words 0x15000 0x1CF00);
     (0x1F000 + task_n_switches, task_words 0 0x22F00);
     (0x1D000 + process_name, [112; 0]); (0x1D000 + process_page_directory, split4 0x1D200);
     (0x1D200, split4 0x1E000); (0x1EFFC, split4 0x5003); (0x18030, split4 0x20); (0x18130, split4 0x2E)].

Definition witness_tasking : tasking kernel :=
  Tasking (Machine witness_tasking_kernel 0 0 0 0 0 0 (Terminal ∅ 0 0)) witness_gdt 0x15000.

Lemma witness_tasking_ok : kernel_ok witness_tasking_kernel (Used 1 :: replicate 4 Free).
Proof. by apply example_kernel_ok; repeat constructor. Qed.

Lemma witness_tasking_outside a n : 0x15000 ≤ a → a + n ≤ 0x23000 → kowned witness_tasking_kernel a n.
Proof. intros Ha Hn. apply example_outside; [exact Ha|]. change (0x10000 + 0x13000) with 0x23000. done. Qed.

#[local] Opaque SIZEOF_TASK.
Lemma witness_process l : (∀ c, c ∈ l → c ∈ [0x15000; 0x19000; 0x1F000]) → process_of 9 witness_tasking_kernel l 0x1D000.
Proof.
  intros Hl. assert (Ho : ∀ b n, 0x1D000 ≤ b → b + n ≤ 0x1F000 → outside witness_tasking_kernel l b n).
  { intros b n Hb Hn. split; [apply witness_tasking_outside; lia|]. intros c Hc.
    apply Hl, list_elem_of_In in Hc. cbn [In] in Hc. unfold apart. change SIZEOF_TASK with 0x4000. lia. }
  exists [112], 0x1D200, 0x1E000, 0x5003. split; [|cbn; lia].
  split; (split; [|apply Ho; unfold process_name, process_page_directory; cbn; lia]); [|example_mem..].
  split; [example_mem|by repeat constructor].
Qed.

Lemma witness_task_process c : c ∈ [0x15000; 0x19000; 0x1F000] → kread witness_tasking_kernel (c + task_process) = Ok 0x1D000.
Proof. intros Hc. apply list_elem_of_In in Hc. destruct Hc as [<- | [<- | [<- | []]]]; example_mem. Qed.

Lemma witness_tasks_set l : (∀ c, c ∈ l → c ∈ [0x15000; 0x19000; 0x1F000]) → tasks_set 9 witness_tasking_kernel l.
Proof.
  intros Hl. split; [split|].
  - eexists. exact witness_tasking_ok.
  - intros a Ha. apply Hl, list_elem_of_In in Ha. cbn [In] in Ha. change SIZEOF_TASK with 0x4000.
    split; [apply witness_tasking_outside; lia|lia].
  - intros a b Ha Hb Hab. apply Hl, list_elem_of_In in Ha, Hb. cbn [In] in Ha, Hb. unfold apart.
    change SIZEOF_TASK with 0x4000. lia.
  - intros c Hc. exists 0x1D000. split; [by apply witness_task_process, Hl|]. by apply witness_process.
Qed.

Lemma witness_tasks : tasks_ok 9 witness_tasking_kernel [0x15000; 0x19000].
Proof.
  apply tasks_of_set.
  - split; [by apply (bool_decide_unpack (NoDup _)); vm_compute|]. unfold tnx, tpv. cbn [app chain]. split_and!; [example_mem..|done].
  - apply witness_tasks_set. intros c Hc. rewrite list_elem_of_In in Hc |- *. cbn [In] in *. tauto.
Qed.

Lemma schedule_round_robin_witness :
  ∃ s', ticks 9 witness_tasking [0x18000; 0x1C000; 0x18100] = Ok ([0x1CF00; 0x18000; 0x1C000], s') ∧
    Some 0x19000 = Some (current_task s') ∧
    ∃ l', tasks_ok 9 (kheap (mach s')) (current_task s' :: l') ∧ current_task s' :: l' ≡ₚ [0x15000; 0x19000].
Proof.
  apply (schedule_round_robin 9 witness_tasking 0x15000 [0x19000] [0x1CF00] [0x18000; 0x1C000; 0x18100]).
  - exact witness_tasks.
  - done.
  - by repeat constructor.
  - constructor; [example_mem|constructor].
Defined.

Lemma task_new_runs_next_witness :
  ∃ t s', task_new 9 witness_tasking 0x1D000 0 0x400000 0x4001000 = Ok (t, s') ∧ (t ∉ [0x15000; 0x19000]) ∧
    tasks_ok 9 (kheap (mach s')) [0x15000; t; 0x19000] ∧ current_task s' = 0x15000 ∧
    ∀ frame, word frame → ∃ s2, schedule 9 s' frame = Ok (first_stack t 0, s2) ∧
      current_task s2 = t ∧ t + 92 ≤ first_stack t 0 ∧ gdt s2 = tss_set_kernel_stack (gdt s') (t + SIZEOF_TASK) ∧
      words_at (kheap (mach s2)) (first_stack t 0) (first_frame 0 0x400000 0x4001000).
Proof.
  apply (task_new_runs_next 9 [] witness_tasking 0x15000 [0x19000] 0x1D000 0 0x400000 0x4001000).
  - exact witness_tasks.
  - done.
  - cbn. lia.
  - apply (heap_room_ok _ _ _ witness_tasking_ok). by vm_compute.
  - done.
  - apply witness_process. intros c Hc. rewrite list_elem_of_In in Hc |- *. cbn [In] in *. tauto.
  - done.
  - done.
Defined.

Lemma task_list_remove_undoes_insert_witness :
  ∃ s' k', task_list_insert 9 witness_tasking 0x1F000 = Ok (0x1F000, s') ∧
    tasks_ok 9 (kheap (mach s')) [0x15000; 0x1F000; 0x19000] ∧
    task_list_remove s' 0x1F000 = Ok (0x1F000, set_mach s' (set_kheap (mach s') k')) ∧
    tasks_ok 9 k' [0x15000; 0x19000] ∧ tnx k' 0x1F000 0 ∧ tpv k' 0x1F000 0.
Proof.
  apply (task_list_remove_undoes_insert 9 witness_tasking 0x15000 [0x19000] 0x1F000).
  - exact witness_tasks.
  - done.
  - split; [by apply (bool_decide_unpack (_ ∉ _)); vm_compute|]. apply witness_tasks_set.
    intros c Hc. rewrite list_elem_of_In in Hc |- *. cbn [In] in *. tauto.
  - cbn. lia.
Defined.
