(* ===== verification/Idt.v ===== *)
(** [src/idt/idt.c]: the interrupt descriptor table, the handlers and the
    dispatcher.

    [system] is what an interrupt can touch: the tasks with the machine under them,
    the device behind the ports, and the globals of [idt.c]. A handler is a value of
    [isr_handler], one per function whose address the table can hold; [None] is a
    NULL entry. The dispatcher and the handlers take the address of the frame that
    [isr_wrapper] pushed. *)
From S2P Require Import Prelude Mem CString Heap Kheap Store Ring Termio Disk Gdt Paging Pic Task.

Definition KERNEL_TOTAL_INTERRUPTS : Z := 256.
Definition INTGATE : Z := 0x8E.
Definition TRAPGATE : Z := 0xEF.

(** Members of [struct interrupt_frame]. *)
Definition frame_int_no : Z := 48.
Definition frame_error_code : Z := 52.
Definition frame_eip : Z := 56.

Record idt_desc := IdtDesc { offset_1 : Z; selector : Z; zero : Z; type_attr : Z; offset_2 : Z }.

Definition SIZEOF_IDT_DESC : Z := 8.

Inductive isr_handler :=
  | isr_0x0_handler | isr_0x1_handler | isr_0x6_handler | isr_0xE_handler
  | int_0x20_handler | int_0x21_handler | int_0xD_handler | no_int_handler.

Record idt_state := IdtState {
  idt_descriptors : list idt_desc;
  idtr_descriptor : Z * Z;   (* limit and base *)
  isr_handlers : list (option isr_handler);
  idtr : Z * Z               (* what lidt loaded *)
}.

Definition set_descriptors (st : idt_state) (l : list idt_desc) : idt_state :=
  IdtState l (idtr_descriptor st) (isr_handlers st) (idtr st).
Definition set_handlers (st : idt_state) (l : list (option isr_handler)) : idt_state :=
  IdtState (idt_descriptors st) (idtr_descriptor st) l (idtr st).
Definition idt_load (st : idt_state) : idt_state :=
  IdtState (idt_descriptors st) (idtr_descriptor st) (isr_handlers st) (idtr_descriptor st).

Definition idt_set (st : idt_state) (int_number addr type : Z) : outcome idt_state :=
  let desc := IdtDesc (Z.land addr 0xffff) GDT_KERNEL_CODE_SEGMENT_SELECTOR 0 (u8 (Z.lor type 0x60))
                (Z.land (Z.shiftr addr 16) 0xffff) in
  l ← arr_set (idt_descriptors st) int_number desc; Ok (set_descriptors st l).

(** One round of the loops that fill the table from [isr_table]. *)
Definition set_from_table (isr_table : list Z) (type i : Z) (st : idt_state) : outcome idt_state :=
  addr ← arr_get isr_table i; idt_set st i addr type.

Definition set_handler (st : idt_state) (i : Z) (h : isr_handler) : outcome idt_state :=
  l ← arr_set (isr_handlers st) i (Some h); Ok (set_handlers st l).

(** Assignments [isr_handlers[i] = h], in order. *)
Fixpoint set_handlers_list (st : idt_state) (l : list (Z * isr_handler)) : outcome idt_state :=
  match l with
  | [] => Ok st
  | (i, h) :: l => st ← set_handler st i h; set_handlers_list st l
  end.

(** [table_address] is the address of [idt_descriptors]. *)
Definition idt_init (st : idt_state) (isr_table : list Z) (table_address : Z) : outcome idt_state :=
  let st := set_descriptors st (replicate (Z.to_nat KERNEL_TOTAL_INTERRUPTS) (IdtDesc 0 0 0 0 0)) in
  let st := IdtState (idt_descriptors st) (KERNEL_TOTAL_INTERRUPTS * SIZEOF_IDT_DESC - 1, table_address)
              (isr_handlers st) (idtr st) in
  st ← for_loop 3 0 (set_from_table isr_table INTGATE) st;
  st ← set_from_table isr_table TRAPGATE 3 st;
  st ← set_from_table isr_table TRAPGATE 4 st;
  st ← for_loop 43 5 (set_from_table isr_table INTGATE) st;
  st ← for_loop (Z.to_nat KERNEL_TOTAL_INTERRUPTS) 0 (λ i st, set_handler st i no_int_handler) st;
  st ← set_handlers_list st
    [(0, isr_0x0_handler); (1, isr_0x1_handler); (6, isr_0x6_handler); (0xE, isr_0xE_handler);
     (0x20, int_0x20_handler); (0x21, int_0x21_handler); (0xD, int_0xD_handler)];
  Ok (idt_load st).

Record system (K D : Type) := System { tasks : tasking K; bus : D; idt : idt_state }.
Arguments System {K D}.
Arguments tasks {K D}.
Arguments bus {K D}.
Arguments idt {K D}.

Definition set_tasks {K D} (s : system K D) (t : tasking K) : system K D := System t (bus s) (idt s).
Definition set_bus {K D} (s : system K D) (d : D) : system K D := System (tasks s) d (idt s).

Section handlers.
Context {K : Type} `{Allocator K} {D : Type} `{Ports D}.
Implicit Type s : system K D.

Definition isr_print s (l : list Z) : system K D := set_tasks s (tprint_text (tasks s) l).

(** The functions of the handlers: the frame to return to. *)
Definition isr_handle (fuel : nat) (h : isr_handler) s (interrupt_frame : Z) : outcome (Z * system K D) :=
  match h with
  | isr_0x0_handler => Ok (interrupt_frame, isr_print s (text "DIV0" ++ [10]))
  | isr_0x1_handler => Ok (interrupt_frame, isr_print s (text "ISR1" ++ [10]))
  | isr_0x6_handler =>
      eip ← tread (tasks s) (interrupt_frame + frame_eip);
      buff ← itoa_string 100 eip;
      while_loop fuel (λ s, Ok (inl s)) (isr_print s (text "ISR 6 -> " ++ buff ++ [10]))
  | isr_0xE_handler =>
      error_code ← tread (tasks s) (interrupt_frame + frame_error_code);
      buff ← itoa_string 100 error_code;
      Panic "Int 0xE - Page Fault"
  | int_0x21_handler => Ok (interrupt_frame, isr_print s (text "Int 0x21 - Keyboard" ++ [10]))
  | int_0x20_handler =>
      r ← schedule fuel (tasks s) interrupt_frame;
      let s := set_tasks s r.2 in
      ksp ← tread (tasks s) (current_task (tasks s) + task_kernel_stack_pointer);
      Ok (ksp, s)
  | int_0xD_handler => Panic "GPF"
  | no_int_handler =>
      let s := set_bus s (outb (bus s) 0x20 0x0B) in
      let s := set_bus s (insb (bus s) 0x20).2 in
      int_no ← tread (tasks s) (interrupt_frame + frame_int_no);
      buffer ← itoa_string 20 int_no;
      Ok (interrupt_frame, isr_print s (text "No Int handler -> " ++ buffer ++ [32; 10]))
  end.

Definition isr_dispatcher (fuel : nat) s (interrupt_frame : Z) : outcome (Z * system K D) :=
  int_no ← tread (tasks s) (interrupt_frame + frame_int_no);
  let s := if decide (int_no > 31) then set_bus s (pic_ack (bus s) (s32 (int_no - 32))) else s in
  h ← arr_get (isr_handlers (idt s)) int_no;
  match h with
  | Some h => isr_handle fuel h s interrupt_frame
  | None => Ok (interrupt_frame, isr_print s (text "Unhandled Interrupt!" ++ [10]))
  end.
End handlers.

(** * The table *)

(** A descriptor in memory, and the gate the processor reads in its eight bytes. *)
Definition desc_bytes (d : idt_desc) : list Z :=
  [offset_1 d mod 256; offset_1 d / 256; selector d mod 256; selector d / 256; zero d; type_attr d;
   offset_2 d mod 256; offset_2 d / 256].

Record gate := Gate { gate_offset : Z; gate_selector : Z; gate_present : bool; gate_dpl : Z; gate_type : Z }.

Definition decode_gate (b : list Z) : option gate :=
  match b with
  | [b0; b1; b2; b3; _; b5; b6; b7] =>
      Some (Gate (b0 + 256 * b1 + 2 ^ 16 * (b6 + 256 * b7)) (b2 + 256 * b3) (Z.testbit b5 7) (b5 / 2 ^ 5 mod 4) (b5 mod 2 ^ 4))
  | _ => None
  end.

Definition gate_desc (addr type : Z) : idt_desc :=
  IdtDesc (Z.land addr 0xffff) GDT_KERNEL_CODE_SEGMENT_SELECTOR 0 (u8 (Z.lor type 0x60))
    (Z.land (Z.shiftr addr 16) 0xffff).

Lemma decode_gate_desc addr type : word addr → type = INTGATE ∨ type = TRAPGATE →
  decode_gate (desc_bytes (gate_desc addr type)) =
  Some (Gate addr GDT_KERNEL_CODE_SEGMENT_SELECTOR true 3 (if decide (type = TRAPGATE) then 0xF else 0xE)).
Proof.
  intros Ha Ht. unfold decode_gate, desc_bytes, gate_desc. cbn [offset_1 offset_2 selector zero type_attr].
  assert (Hoff : Z.land addr 0xffff mod 256 + 256 * (Z.land addr 0xffff / 256) +
    2 ^ 16 * (Z.land (Z.shiftr addr 16) 0xffff mod 256 + 256 * (Z.land (Z.shiftr addr 16) 0xffff / 256)) = addr).
  { change 0xffff with (2 ^ 16 - 1). rewrite !land_mask, Z.shiftr_div_pow2 by lia. unfold word in Ha.
    change (2 ^ 16) with 65536. change (2 ^ 32) with 4294967296 in Ha. Z.div_mod_to_equations. lia. }
  rewrite Hoff. by destruct Ht as [-> | ->].
Qed.

Definition idt_wf (st : idt_state) : Prop := length (idt_descriptors st) = 256%nat ∧ length (isr_handlers st) = 256%nat.

(** From [st] to [st'] the entries [lo] to [hi - 1] were set from [t]. *)
Definition installed (t : list Z) (type : Z) (lo hi : nat) (st st' : idt_state) : Prop :=
  idt_wf st' ∧ isr_handlers st' = isr_handlers st ∧ idtr_descriptor st' = idtr_descriptor st ∧
  ∀ k, idt_descriptors st' !! k =
    if decide (lo ≤ k < hi)%nat then (λ a, gate_desc a type) <$> t !! k else idt_descriptors st !! k.

Lemma set_from_table_ok t type i st : idt_wf st → (i < 256)%nat → (i < length t)%nat →
  ∃ st', set_from_table t type (Z.of_nat i) st = Ok st' ∧ installed t type i (S i) st st'.
Proof.
  intros [Hd Hh] Hi Ht. destruct (lookup_lt_is_Some_2 t i Ht) as [a Ha]. unfold set_from_table.
  rewrite arr_get_nat, Ha. cbn [or_ub]. rewrite bind_Ok. unfold idt_set. rewrite arr_set_in, bind_Ok by lia.
  eexists. split; [done|]. rewrite Nat2Z.id. unfold installed, idt_wf. cbn. rewrite length_insert.
  do 3 (split; [done|]). intros k. case_decide as Hk.
  - replace k with i by lia. rewrite list_lookup_insert_eq by lia. by rewrite Ha.
  - apply list_lookup_insert_ne. lia.
Qed.

Lemma set_table_ok t type n : ∀ lo st, idt_wf st → (lo + n ≤ 256)%nat → (lo + n ≤ length t)%nat →
  ∃ st', for_loop n (Z.of_nat lo) (set_from_table t type) st = Ok st' ∧ installed t type lo (lo + n) st st'.
Proof.
  induction n as [|n IH]; intros lo st Hwf Hn Ht.
  { exists st. split; [done|]. do 3 (split; [done|]). intros k. by rewrite decide_False by lia. }
  destruct (set_from_table_ok t type lo st Hwf) as (st1 & E1 & Hwf1 & Hh1 & Hi1 & Hd1); [lia..|].
  destruct (IH (S lo) st1 Hwf1) as (st2 & E2 & Hwf2 & Hh2 & Hi2 & Hd2); [lia..|].
  exists st2. cbn [for_loop]. rewrite E1, bind_Ok. replace (Z.of_nat lo + 1) with (Z.of_nat (S lo)) by lia.
  split; [done|]. split; [done|]. split; [congruence|]. split; [congruence|]. intros k. rewrite Hd2, Hd1.
  repeat case_decide; try lia; done.
Qed.

(** Setting handlers only sets handlers. *)
Definition handlers_set (f : nat → option (option isr_handler)) (st st' : idt_state) : Prop :=
  idt_wf st' ∧ idt_descriptors st' = idt_descriptors st ∧ idtr_descriptor st' = idtr_descriptor st ∧
  ∀ k, isr_handlers st' !! k = f k.

Lemma set_handler_ok i h st : idt_wf st → 0 ≤ i < 256 →
  ∃ st', set_handler st i h = Ok st' ∧
    handlers_set (λ k, if decide (Z.of_nat k = i) then Some (Some h) else isr_handlers st !! k) st st'.
Proof.
  intros [Hd Hh] Hi. unfold set_handler. rewrite arr_set_in, bind_Ok by lia. eexists. split; [done|].
  unfold handlers_set, idt_wf. cbn. rewrite length_insert. do 3 (split; [done|]). intros k. case_decide as Hk.
  - rewrite <- Hk, Nat2Z.id. apply list_lookup_insert_eq. lia.
  - apply list_lookup_insert_ne. lia.
Qed.

Lemma set_handlers_ok h n : ∀ lo st, idt_wf st → (lo + n ≤ 256)%nat →
  ∃ st', for_loop n (Z.of_nat lo) (λ i st, set_handler st i h) st = Ok st' ∧
    handlers_set (λ k, if decide (lo ≤ k < lo + n)%nat then Some (Some h) else isr_handlers st !! k) st st'.
Proof.
  induction n as [|n IH]; intros lo st Hwf Hn.
  { exists st. split; [done|]. do 3 (split; [done|]). intros k. by rewrite decide_False by lia. }
  destruct (set_handler_ok (Z.of_nat lo) h st Hwf) as (st1 & E1 & Hwf1 & Hd1 & Hi1 & Hh1); [lia|].
  destruct (IH (S lo) st1 Hwf1) as (st2 & E2 & Hwf2 & Hd2 & Hi2 & Hh2); [lia|].
  exists st2. cbn [for_loop]. rewrite E1, bind_Ok. replace (Z.of_nat lo + 1) with (Z.of_nat (S lo)) by lia.
  split; [done|]. split; [done|]. split; [congruence|]. split; [congruence|]. intros k. rewrite Hh2, Hh1.
  repeat case_decide; try lia; done.
Qed.

Lemma set_handlers_list_ok l : ∀ st, idt_wf st → Forall (λ p, 0 ≤ p.1 < 256) l →
  ∃ st', set_handlers_list st l = Ok st' ∧
    handlers_set (λ k, foldl (λ r p, if decide (Z.of_nat k = p.1) then Some (Some p.2) else r) (isr_handlers st !! k) l) st st'.
Proof.
  induction l as [|[i h] l IH]; intros st Hwf Hl; [by exists st|]. apply Forall_cons in Hl as [Hi Hl].
  destruct (set_handler_ok i h st Hwf Hi) as (st1 & E1 & Hwf1 & Hd1 & Hi1 & Hh1).
  destruct (IH st1 Hwf1 Hl) as (st2 & E2 & Hwf2 & Hd2 & Hi2 & Hh2). exists st2. cbn [set_handlers_list].
  rewrite E1, bind_Ok. split; [done|]. split; [done|]. split; [congruence|]. split; [congruence|].
  intros k. rewrite Hh2, Hh1. done.
Qed.

(** The handler [idt_init] sets for a vector. *)
Definition handler_of (i : Z) : isr_handler :=
  if decide (i = 0) then isr_0x0_handler else if decide (i = 1) then isr_0x1_handler
  else if decide (i = 6) then isr_0x6_handler else if decide (i = 0xD) then int_0xD_handler
  else if decide (i = 0xE) then isr_0xE_handler else if decide (i = 0x20) then int_0x20_handler
  else if decide (i = 0x21) then int_0x21_handler else no_int_handler.

Lemma idt_init_spec st isr_table table_address : idt_wf st → (48 ≤ length isr_table)%nat → Forall word isr_table →
  ∃ st', idt_init st isr_table table_address = Ok st' ∧ idt_wf st' ∧ idtr st' = (2047, table_address) ∧
    (∀ i a, (i < 48)%nat → isr_table !! i = Some a → ∃ d, idt_descriptors st' !! i = Some d ∧
       decode_gate (desc_bytes d) = Some (Gate a GDT_KERNEL_CODE_SEGMENT_SELECTOR true 3
         (if decide (i = 3 ∨ i = 4)%nat then 0xF else 0xE))) ∧
    (∀ i, (48 ≤ i < 256)%nat → ∃ d, idt_descriptors st' !! i = Some d ∧ gate_present <$> decode_gate (desc_bytes d) = Some false) ∧
    ∀ i, 0 ≤ i < 256 → isr_handlers st' !! Z.to_nat i = Some (Some (handler_of i)).
Proof.
  intros [_ Hh] Hl Hw. unfold idt_init. cbv zeta. set (st0 := IdtState _ _ _ _).
  assert (W0 : idt_wf st0) by done.
  destruct (set_table_ok isr_table INTGATE 3 0 st0 W0) as (s1 & E1 & W1 & H1 & I1 & D1); [lia..|].
  change (Z.of_nat 0) with 0 in E1. rewrite E1, bind_Ok.
  destruct (set_from_table_ok isr_table TRAPGATE 3 s1 W1) as (s2 & E2 & W2 & H2 & I2 & D2); [lia..|].
  change (Z.of_nat 3) with 3 in E2. rewrite E2, bind_Ok.
  destruct (set_from_table_ok isr_table TRAPGATE 4 s2 W2) as (s3 & E3 & W3 & H3 & I3 & D3); [lia..|].
  change (Z.of_nat 4) with 4 in E3. rewrite E3, bind_Ok.
  destruct (set_table_ok isr_table INTGATE 43 5 s3 W3) as (s4 & E4 & W4 & H4 & I4 & D4); [lia..|].
  change (Z.of_nat 5) with 5 in E4. rewrite E4, bind_Ok.
  destruct (set_handlers_ok no_int_handler 256 0 s4 W4) as (s5 & E5 & W5 & D5 & I5 & H5); [lia..|].
  change (Z.of_nat 0) with 0 in E5. change (Z.to_nat KERNEL_TOTAL_INTERRUPTS) with 256%nat.
  rewrite E5, bind_Ok.
  edestruct (set_handlers_list_ok [(0, isr_0x0_handler); (1, isr_0x1_handler); (6, isr_0x6_handler);
    (0xE, isr_0xE_handler); (0x20, int_0x20_handler); (0x21, int_0x21_handler); (0xD, int_0xD_handler)] s5 W5)
    as (s6 & E6 & W6 & D6 & I6 & H6); [by repeat constructor|].
  rewrite E6, bind_Ok. eexists. split; [done|]. split; [done|]. cbn [idt_load idtr idt_descriptors isr_handlers].
  split; [by rewrite I6, I5, I4, I3, I2, I1|].
  assert (HD : ∀ k, idt_descriptors s6 !! k = if decide (k < 48)%nat
    then (λ a, gate_desc a (if decide (k = 3 ∨ k = 4)%nat then TRAPGATE else INTGATE)) <$> isr_table !! k
    else replicate 256 (IdtDesc 0 0 0 0 0) !! k).
  { intros k. rewrite D6, D5, D4, D3, D2, D1. repeat case_decide; try lia; done. }
  split; [|split].
  - intros i a Hi Ha. eexists. rewrite HD, decide_True, Ha by done. split; [done|].
    pose proof (Forall_lookup_1 _ _ _ _ Hw Ha). rewrite decode_gate_desc by (done || case_decide; auto).
    by repeat case_decide.
  - intros i Hi. eexists. rewrite HD, decide_False, lookup_replicate_2 by lia. done.
  - intros i Hi. rewrite H6. cbn [foldl fst snd]. rewrite H5, !Z2Nat.id by lia.
    rewrite (decide_True (P := (0 ≤ Z.to_nat i < 0 + 256)%nat)) by lia. unfold handler_of.
    repeat case_decide; congruence || done.
Qed.

(** [idt_init] gives the processor a table of 256 descriptors, in which vectors 0
    to 47 are present gates to the assembly routines of [isr_table] in the kernel code
    segment, trap gates for 3 and 4 and interrupt gates otherwise, all of them open
    to ring 3, and the others are not present; and every vector has its handler. *)
Theorem idt_init_installs st isr_table table_address : idt_wf st → (48 ≤ length isr_table)%nat → Forall word isr_table →
  ∃ st', idt_init st isr_table table_address = Ok st' ∧ idt_wf st' ∧ idtr st' = (2047, table_address) ∧
    (∀ i a, (i < 48)%nat → isr_table !! i = Some a → ∃ d, idt_descriptors st' !! i = Some d ∧
       decode_gate (desc_bytes d) = Some (Gate a GDT_KERNEL_CODE_SEGMENT_SELECTOR true 3
         (if decide (i = 3 ∨ i = 4)%nat then 0xF else 0xE))) ∧
    (∀ i, (48 ≤ i < 256)%nat → ∃ d, idt_descriptors st' !! i = Some d ∧ gate_present <$> decode_gate (desc_bytes d) = Some false) ∧
    ∀ i, 0 ≤ i < 256 → isr_handlers st' !! Z.to_nat i = Some (Some (handler_of i)).
Proof. apply idt_init_spec. Qed.

(** * Dispatching *)

Section dispatch.
Context {K : Type} `{AllocatorLaws K} {D : Type} `{PicLaws D}.
Implicit Type s : system K D.

Lemma dispatch_irq fuel s frame irq h : 0 ≤ irq < 16 →
  kread (kheap (mach (tasks s))) (frame + frame_int_no) = Ok (0x20 + irq) →
  isr_handlers (idt s) !! Z.to_nat (0x20 + irq) = Some (Some h) →
  isr_dispatcher fuel s frame = isr_handle fuel h (set_bus s (pic_ack (bus s) irq)) frame.
Proof.
  intros Hi Hn Hh. unfold isr_dispatcher, tread, read. rewrite Hn, bind_Ok. cbv zeta. rewrite decide_True by lia.
  cbn [idt set_bus]. unfold arr_get. rewrite decide_True, Hh by lia. cbn [or_ub]. rewrite bind_Ok.
  rewrite s32_id by lia. do 3 f_equal. lia.
Qed.

(** C16: a timer interrupt, from the processor's acceptance of line 0 to the return of
    the dispatcher: the interrupt controller is acknowledged, and what is returned is
    the stack pointer of the next task, which is the current one now; the interrupted
    task keeps the pointer to its frame. *)
Theorem timer_interrupt_switches fuel s d0 a b l frame v :
  tasks_ok fuel (kheap (mach (tasks s))) (a :: b :: l) → current_task (tasks s) = a → word frame →
  saved (kheap (mach (tasks s))) b v → kread (kheap (mach (tasks s))) (frame + frame_int_no) = Ok 0x20 →
  isr_handlers (idt s) !! 32%nat = Some (Some int_0x20_handler) → idle (pics_of d0) →
  pics_of (bus s) = accept (pics_of d0) 0 →
  ∃ s', isr_dispatcher fuel s frame = Ok (v, s') ∧ current_task (tasks s') = b ∧
    tasks_ok fuel (kheap (mach (tasks s'))) (b :: l ++ [a]) ∧ saved (kheap (mach (tasks s'))) a frame ∧
    pics_of (bus s') = pics_of d0 ∧ idt s' = idt s.
Proof.
  intros Hok Hc Hf Hv Hn Hh Hid Hacc. rewrite (dispatch_irq fuel s frame 0 int_0x20_handler) by done.
  pose proof (tasks_memory _ _ _ Hok) as Hm.
  destruct (member_value _ _ a task_n_switches Hm) as [n Hns]; [by left|member|].
  destruct (runnable_directory _ _ _ _ (tasks_run _ _ _ Hok b ltac:(by right; left))) as [e He].
  destruct (schedule_spec fuel (tasks s) a b l frame n v e Hok Hc Hf Hns Hv He)
    as (t' & E & Hc' & Hok' & _ & _ & Hs & _ & Hmem & _).
  unfold isr_handle. cbn [tasks set_bus]. rewrite E, bind_Ok. cbv zeta. cbn [snd tasks set_tasks].
  unfold tread, read. rewrite Hc', Hmem by (by left || member). unfold saved in Hv. rewrite Hv, bind_Ok.
  eexists. split; [done|]. cbn [tasks set_tasks bus set_bus idt]. do 3 (split; [done|]). split; [|done].
  apply (ack_ends_iff d0 (bus s) 0 0); [done|lia|done|left; lia].
Qed.

(** The handlers that only print. *)
Lemma quiet_handler fuel s h frame n : h = no_int_handler ∨ h = int_0x21_handler →
  kread (kheap (mach (tasks s))) (frame + frame_int_no) = Ok n →
  ∃ s', isr_handle fuel h s frame = Ok (frame, s') ∧ pics_of (bus s') = pics_of (bus s).
Proof.
  intros [-> | ->] Hn; [|by eexists]. unfold isr_handle. cbv zeta. unfold tread, read. cbn [tasks set_bus].
  rewrite Hn, bind_Ok. destruct (itoa_string_ok 20 n ltac:(by right)) as [txt ->]. rewrite bind_Ok.
  eexists. split; [done|]. cbn [bus isr_print set_tasks set_bus]. rewrite pics_insb_command, pics_outb by done.
  by destruct (pics_of (bus s)).
Qed.

(** C39: after the dispatcher has handled an interrupt of line [irq] the line can
    interrupt again exactly when it is one of the master controller's: the dispatcher
    passes the number of the line, not of the vector, to [pic_ack], which tests
    it against 40, so a line of the slave stays in service for ever. *)
Theorem dispatcher_rearms_iff fuel s d0 irq h frame : 0 ≤ irq < 16 →
  kread (kheap (mach (tasks s))) (frame + frame_int_no) = Ok (0x20 + irq) →
  isr_handlers (idt s) !! Z.to_nat (0x20 + irq) = Some (Some h) → h = no_int_handler ∨ h = int_0x21_handler →
  idle (pics_of d0) → deliverable (pics_of d0) irq → pics_of (bus s) = accept (pics_of d0) irq →
  ∃ s', isr_dispatcher fuel s frame = Ok (frame, s') ∧ (deliverable (pics_of (bus s')) irq ↔ irq < 8).
Proof.
  intros Hi Hn Hh Hq Hid Hdel Hacc. rewrite (dispatch_irq fuel s frame irq h) by done.
  destruct (quiet_handler fuel (set_bus s (pic_ack (bus s) irq)) h frame (0x20 + irq) Hq Hn) as (s' & -> & Hp).
  exists s'. split; [done|]. rewrite Hp. cbn [bus set_bus]. destruct (decide (irq < 8)) as [Hlt|Hge].
  - rewrite (proj2 (ack_ends_iff d0 (bus s) irq irq Hid Hi Hacc)) by (by left). done.
  - split; [|done]. intros Hd. exfalso. unfold deliverable in Hd. rewrite decide_False in Hd by done.
    destruct Hd as [_ [_ Hd]]. specialize (Hd (irq - 8) ltac:(lia)).
    unfold pic_ack in Hd. rewrite decide_False, pics_outb, Hacc in Hd by (lia || done).
    unfold accept, pics_write in Hd. rewrite (decide_False (P := irq < 8)), (decide_True (P := 0x20 = 0x20)) in Hd by done.
    cbn [snd in_service isr] in Hd. destruct Hid as [_ [_ Hz]]. rewrite Hz in Hd.
    rewrite Z.lor_0_l, bit_testbit, bool_decide_eq_true_2 in Hd; [done|done|lia|lia].
Qed.
End dispatch.

(** ** An interrupt of the timer, and one of the disk

    The two tasks of [Task], with a frame in the first one's stack. *)
Definition witness_idt : idt_state :=
  IdtState (replicate 256 (IdtDesc 0 0 0 0 0)) (0, 0) (replicate 256 None) (0, 0).

Definition witness_isr_table : list Z := (λ i, 0xC0100000 + 32 * i) <$> seqZ 0 128.

Lemma idt_init_installs_witness :
  ∃ st', idt_init witness_idt witness_isr_table 0xC0001000 = Ok st' ∧ idt_wf st' ∧ idtr st' = (2047, 0xC0001000) ∧
    (∀ i a, (i < 48)%nat → witness_isr_table !! i = Some a → ∃ d, idt_descriptors st' !! i = Some d ∧
       decode_gate (desc_bytes d) = Some (Gate a GDT_KERNEL_CODE_SEGMENT_SELECTOR true 3
         (if decide (i = 3 ∨ i = 4)%nat then 0xF else 0xE))) ∧
    (∀ i, (48 ≤ i < 256)%nat → ∃ d, idt_descriptors st' !! i = Some d ∧
       gate_present <$> decode_gate (desc_bytes d) = Some false) ∧
    ∀ i, 0 ≤ i < 256 → isr_handlers st' !! Z.to_nat i = Some (Some (handler_of i)).
Proof.
  apply idt_init_installs; [done|by apply (bool_decide_unpack (48 ≤ length witness_isr_table)%nat); vm_compute|]. apply (bool_decide_unpack (Forall word witness_isr_table)). by vm_compute.
Defined.

Definition witness_handlers : idt_state :=
  IdtState (replicate 256 (IdtDesc 0 0 0 0 0)) (0, 0) ((λ i, Some (handler_of i)) <$> seqZ 0 256) (0, 0).

Definition witness_system (irq : Z) : system kernel pics :=
  System witness_tasking (accept (remap_master_pic_C power_up) irq) witness_handlers.

Lemma timer_interrupt_switches_witness :
  ∃ s', isr_dispatcher 9 (witness_system 0) 0x18000 = Ok (0x1CF00, s') ∧ current_task (tasks s') = 0x19000 ∧
    tasks_ok 9 (kheap (mach (tasks s'))) [0x19000; 0x15000] ∧ saved (kheap (mach (tasks s'))) 0x15000 0x18000 ∧
    pics_of (bus s') = pics_of (remap_master_pic_C power_up) ∧ idt s' = witness_handlers.
Proof.
  apply (timer_interrupt_switches 9 (witness_system 0) (remap_master_pic_C power_up) 0x15000 0x19000 [] 0x18000 0x1CF00).
  - exact witness_tasks.
  - done.
  - done.
  - first [example_mem | by vm_compute].
  - first [example_mem | by vm_compute].
  - first [example_mem | by vm_compute].
  - first [example_mem | by vm_compute].
  - done.
Defined.

(** The disk interrupts on line 14, vector 0x2E, which has no handler of its own. *)
Lemma dispatcher_rearms_iff_witness :
  ∃ s', isr_dispatcher 9 (witness_system 14) 0x18100 = Ok (0x18100, s') ∧
    (deliverable (pics_of (bus s')) 14 ↔ 14 < 8).
Proof.
  apply (dispatcher_rearms_iff 9 (witness_system 14) (remap_master_pic_C power_up) 14 no_int_handler 0x18100).
  - done.
  - first [example_mem | by vm_compute].
  - first [example_mem | by vm_compute].
  - by left.
  - first [example_mem | by vm_compute].
  - split; (split; [done|]); intros l Hl; apply Z.bits_0.
  - done.
Defined.
