(* ===== verification/FileTable.v ===== *)
(** [src/fs/file_table.c]: the table of open files.

    [file_table_t] is the global [file_table]; the descriptors, [struct FILE]s, are
    in the allocator's memory, a descriptor is its address and NULL is 0. The member
    [fileno] is an [int], so a read of it is signed. *)
From S2P Require Import Prelude Mem CString Heap Kheap Store.

Definition MAX_OPEN_FILES : Z := 100.
Definition EBADF : Z := 9.
Definition EMFILE : Z := 24.

(** Members of [struct FILE]. *)
Definition file_disk : Z := 0.
Definition file_path : Z := 4.
Definition file_private_data : Z := 8.
Definition file_fileno : Z := 12.
Definition SIZEOF_FILE : Z := 20.

Record file_table_t := FileTable { table : list Z; table_len : Z }.

Definition file_table_init (ft : file_table_t) : Z * file_table_t :=
  (0, FileTable (replicate (Z.to_nat MAX_OPEN_FILES) 0) MAX_OPEN_FILES).

(** One round of the search for a free slot. *)
Definition slot_round (ft : file_table_t) (i : Z) : outcome (Z + Z) :=
  if decide (i < table_len ft) then
    d ← arr_get (table ft) i;
    Ok (if decide (d = 0) then inr i else inl (i + 1))
  else Ok (inr (- EMFILE)).

(** At most [table_len] rounds and the last test. *)
Definition file_table_find_free_slot (ft : file_table_t) : outcome Z :=
  while_loop (S (Z.to_nat (table_len ft))) (slot_round ft) 0.

Section file_table.
Context {K : Type} `{Allocator K}.

Definition file_table_open_file (k : K) (ft : file_table_t) (descriptor : Z) : outcome (Z * K * file_table_t) :=
  index ← file_table_find_free_slot ft;
  if decide (index < 0) then Ok (index, k, ft)
  else
    k ← kwrite k (descriptor + file_fileno) (u32 index);
    t ← arr_set (table ft) index descriptor;
    Ok (index, k, FileTable t (table_len ft)).

Definition file_table_close_file (k : K) (ft : file_table_t) (descriptor : Z) : outcome (Z * K * file_table_t) :=
  fileno ← kread k (descriptor + file_fileno);
  if decide (0 > s32 fileno ∨ table_len ft ≤ s32 fileno) then Ok (- EBADF, k, ft)
  else
    t ← arr_set (table ft) (s32 fileno) 0;
    k ← kwrite k (descriptor + file_fileno) (u32 (-1));
    Ok (0, k, FileTable t (table_len ft)).
End file_table.

Definition file_table_get_descriptor (ft : file_table_t) (fd : Z) : outcome Z :=
  if decide (fd < 0 ∨ table_len ft ≤ fd) then Ok 0 else arr_get (table ft) fd.

(** * The table as a map from numbers to descriptors *)

Lemma find_slot_spec ft : table_len ft = Z.of_nat (length (table ft)) →
  (Forall (λ d, d ≠ 0) (table ft) ∧ file_table_find_free_slot ft = Ok (- EMFILE)) ∨
  ∃ i, file_table_find_free_slot ft = Ok (Z.of_nat i) ∧ table ft !! i = Some 0 ∧
    ∀ j d, (j < i)%nat → table ft !! j = Some d → d ≠ 0.
Proof.
  intros Hl. unfold file_table_find_free_slot. rewrite Hl, Nat2Z.id. apply search_spec.
  - intros i x Hx. pose proof (lookup_lt_Some _ _ _ Hx). unfold slot_round.
    by rewrite decide_True, arr_get_nat, Hx by lia.
  - unfold slot_round. by rewrite decide_False by lia.
Qed.

Section table_ok.
Context {K : Type} `{AllocatorLaws K}.
Implicit Type k : K.

(** The open files are separate descriptors, each numbered with its slot. *)
Record table_ok k (ft : file_table_t) : Prop := TableOk {
  table_inv : alloc_inv k;
  table_length : table_len ft = MAX_OPEN_FILES ∧ length (table ft) = 100%nat;
  table_fileno : ∀ i d, table ft !! i = Some d → d ≠ 0 → kowned k d SIZEOF_FILE ∧ kread k (d + file_fileno) = Ok (Z.of_nat i);
  table_apart : ∀ i j d e, table ft !! i = Some d → table ft !! j = Some e → d ≠ 0 → e ≠ 0 → i ≠ j →
    apart d SIZEOF_FILE e SIZEOF_FILE
}.

(** A descriptor that is not open. *)
Definition closed k (ft : file_table_t) (d : Z) : Prop :=
  d ≠ 0 ∧ kowned k d SIZEOF_FILE ∧
  ∀ i e, table ft !! i = Some e → e ≠ 0 → apart d SIZEOF_FILE e SIZEOF_FILE.

Definition descriptor_at (ft : file_table_t) (fd : Z) : Z := default 0 (table ft !! Z.to_nat fd).

Lemma fileno_write k ft d v : table_ok k ft → kowned k d SIZEOF_FILE → 0 ≤ v < 2 ^ 32 →
  ∃ k', kwrite k (d + file_fileno) v = Ok k' ∧ modifies [(d + file_fileno, 4)] k k' ∧ kread k' (d + file_fileno) = Ok v ∧
    ∀ i e, table ft !! i = Some e → e ≠ 0 → apart d SIZEOF_FILE e SIZEOF_FILE →
      kowned k' e SIZEOF_FILE ∧ kread k' (e + file_fileno) = Ok (Z.of_nat i).
Proof.
  intros Hok Ho Hv. destruct (write_step (Q := λ _, True) [] k (d + file_fileno) v (table_inv _ _ Hok)) as (k' & E & M & _ & R);
    [apply (kowned_sub _ _ _ _ _ Ho); unfold file_fileno, SIZEOF_FILE; lia|done|done|].
  exists k'. split; [done|]. split; [done|]. split; [done|]. intros i e He Hne Hap.
  destruct (table_fileno _ _ Hok i e He Hne) as [Hoe Hr]. split; [by apply (modifies_owned _ _ _ _ _ M)|].
  rewrite <- Hr. apply (modifies_read _ _ _ _ M).
  - apply (kowned_sub _ _ _ _ _ Hoe); unfold file_fileno, SIZEOF_FILE; lia.
  - apply Forall_singleton. unfold apart, file_fileno, SIZEOF_FILE in *. cbn [fst snd]. lia.
Qed.

(** What is done to new memory keeps the table. *)
Lemma table_frame k k' ft : modifies [] k k' → table_ok k ft → table_ok k' ft.
Proof.
  intros M [Hi Hl Hf Ha]. split; [by apply (modifies_inv _ _ _ M)|done| |done]. intros i d Hd Hne.
  destruct (Hf i d Hd Hne) as [Ho Hr]. split; [by apply (modifies_owned _ _ _ _ _ M)|]. rewrite <- Hr.
  apply (modifies_read _ _ _ _ M); [|constructor].
  apply (kowned_sub _ _ _ _ _ Ho); unfold file_fileno, SIZEOF_FILE; lia.
Qed.

Lemma open_file_spec k ft d : table_ok k ft → closed k ft d →
  (Forall (λ e, e ≠ 0) (table ft) ∧ file_table_open_file k ft d = Ok (- EMFILE, k, ft)) ∨
  ∃ i k', let ft' := FileTable (<[i := d]> (table ft)) (table_len ft) in
    file_table_open_file k ft d = Ok (Z.of_nat i, k', ft') ∧ table ft !! i = Some 0 ∧
    (∀ j e, (j < i)%nat → table ft !! j = Some e → e ≠ 0) ∧ modifies [(d + file_fileno, 4)] k k' ∧ table_ok k' ft'.
Proof.
  intros Hok (Hd & Ho & Hap). destruct (table_length _ _ Hok) as [Hlen Hl].
  unfold file_table_open_file. destruct (find_slot_spec ft) as [[Hfull ->] | (i & -> & Hi & Hlow)].
  - rewrite Hlen, Hl. done.
  - left. split; [done|]. rewrite bind_Ok, decide_True by (unfold EMFILE; lia). done.
  - right. pose proof (lookup_lt_Some _ _ _ Hi) as Hil.
    destruct (fileno_write k ft d (Z.of_nat i) Hok Ho) as (k' & E & M & R & Hrest); [lia|].
    exists i, k'. rewrite bind_Ok, decide_False, u32_id, E, bind_Ok, arr_set_in, bind_Ok, Nat2Z.id by lia.
    split; [done|]. split; [done|]. split; [done|]. split; [done|]. split.
    + by apply (modifies_inv _ _ _ M).
    + cbn [table table_len]. by rewrite length_insert.
    + cbn [table]. intros j e [(<- & <- & _)|(Hne & He)]%list_lookup_insert_Some Hnz.
      * split; [by apply (modifies_owned _ _ _ _ _ M)|done].
      * apply Hrest; [done|done|by eapply Hap].
    + cbn [table]. intros j l e f [(<- & <- & _)|(Hj & He)]%list_lookup_insert_Some
        [(<- & <- & _)|(Hl' & Hf)]%list_lookup_insert_Some Hnz Hnz' Hne; [done|by eapply Hap|..].
      * pose proof (Hap _ _ He Hnz). unfold apart in *. lia.
      * by apply (table_apart _ _ Hok j l).
Qed.

Lemma close_file_spec k ft i d : table_ok k ft → table ft !! i = Some d → d ≠ 0 →
  ∃ k', let ft' := FileTable (<[i := 0]> (table ft)) (table_len ft) in
    file_table_close_file k ft d = Ok (0, k', ft') ∧ table_ok k' ft' ∧ closed k' ft' d ∧
    modifies [(d + file_fileno, 4)] k k' ∧ kread k' (d + file_fileno) = Ok (u32 (-1)).
Proof.
  intros Hok Hi Hd. destruct (table_fileno _ _ Hok i d Hi Hd) as [Ho Hr].
  destruct (table_length _ _ Hok) as [Hlen Hl]. pose proof (lookup_lt_Some _ _ _ Hi) as Hil.
  assert (Hap : ∀ j e, table ft !! j = Some e → e ≠ 0 → j ≠ i → apart d SIZEOF_FILE e SIZEOF_FILE).
  { intros j e He Hne Hji. by apply (table_apart _ _ Hok i j). }
  unfold file_table_close_file. rewrite Hr, bind_Ok, s32_id, Hlen, decide_False by (unfold MAX_OPEN_FILES; lia).
  rewrite arr_set_in, bind_Ok by lia.
  destruct (fileno_write k ft d (u32 (-1)) Hok Ho ltac:(by vm_compute)) as (k' & -> & M & R & Hrest).
  exists k'. rewrite bind_Ok, Nat2Z.id. split; [done|]. split; [|split; [|done]].
  - split.
    + by apply (modifies_inv _ _ _ M).
    + cbn [table table_len]. by rewrite length_insert.
    + cbn [table]. intros j e [(<- & <- & _)|(Hne & He)]%list_lookup_insert_Some Hnz; [done|].
      apply Hrest; [done|done|by apply (Hap j)].
    + cbn [table]. intros j l e f [(<- & <- & _)|(Hj & He)]%list_lookup_insert_Some
        [(<- & <- & _)|(Hl' & Hf)]%list_lookup_insert_Some Hnz Hnz' Hne; [done|done|done|].
      by apply (table_apart _ _ Hok j l).
  - split; [done|]. split; [by apply (modifies_owned _ _ _ _ _ M)|]. cbn [table].
    intros j e [(<- & <- & _)|(Hne & He)]%list_lookup_insert_Some Hnz; [done|by apply (Hap j)].
Qed.

(** C23: opening a file numbers its descriptor with the lowest free number, under
    which it is then found, or fails with [EMFILE], changing nothing, when all
    hundred are taken; the other files stay open, each under its number; and closing it
    again gives the table back. *)
Theorem file_table_open_close k ft d : table_ok k ft → closed k ft d →
  (Forall (λ e, e ≠ 0) (table ft) ∧ file_table_open_file k ft d = Ok (- EMFILE, k, ft)) ∨
  ∃ fd k1 ft1, file_table_open_file k ft d = Ok (fd, k1, ft1) ∧ 0 ≤ fd < 100 ∧ table_ok k1 ft1 ∧
    (∀ n, 0 ≤ n < fd → ∃ e, file_table_get_descriptor ft n = Ok e ∧ e ≠ 0) ∧
    (∀ n, file_table_get_descriptor ft1 n = if decide (n = fd) then Ok d else file_table_get_descriptor ft n) ∧
    ∃ k2, file_table_close_file k1 ft1 d = Ok (0, k2, ft) ∧ table_ok k2 ft ∧ closed k2 ft d.
Proof.
  intros Hok Hc. destruct (open_file_spec k ft d Hok Hc) as [? | (i & k1 & E & Hi & Hlow & M & Hok1)]; [by left|right].
  pose proof (lookup_lt_Some _ _ _ Hi) as Hil. destruct (table_length _ _ Hok) as [Hlen Hl].
  set (ft1 := FileTable _ _) in *. exists (Z.of_nat i), k1, ft1. split; [done|]. split; [lia|]. split; [done|].
  unfold file_table_get_descriptor. split; [|split].
  - intros n Hn. rewrite Hlen, decide_False by (unfold MAX_OPEN_FILES; lia).
    destruct (arr_get_in (table ft) n) as (e & -> & He); [lia|]. exists e. split; [done|]. eapply Hlow; [|done]. lia.
  - intros n. cbn [ft1 table table_len]. rewrite Hlen. unfold MAX_OPEN_FILES. case_decide as Hn.
    + by rewrite decide_False by lia.
    + unfold arr_get. rewrite !(decide_True (P := 0 ≤ n)) by lia. case_decide as Hni.
      * subst n. rewrite Nat2Z.id, list_lookup_insert_eq by lia. done.
      * rewrite list_lookup_insert_ne by lia. done.
  - destruct (close_file_spec k1 ft1 i d Hok1) as (k2 & E2 & Hok2 & Hc2 & _); [by apply list_lookup_insert_eq|apply Hc|].
    assert (Hft : FileTable (<[i := 0]> (table ft1)) (table_len ft1) = ft).
    { cbn [ft1 table table_len]. rewrite list_insert_insert_eq, list_insert_id by done. by destruct ft. }
    rewrite Hft in *. by exists k2.
Qed.
End table_ok.

(** One descriptor, past the heap, and an empty table. *)
Definition witness_files : kernel := example_kernel (Used 1 :: replicate 2 Free) 0x4000 [].

Lemma file_table_open_close_witness : let ft := (file_table_init (FileTable [] 0)).2 in
  (Forall (λ e, e ≠ 0) (table ft) ∧ file_table_open_file witness_files ft 0x13000 = Ok (- EMFILE, witness_files, ft)) ∨
  ∃ fd k1 ft1, file_table_open_file witness_files ft 0x13000 = Ok (fd, k1, ft1) ∧ 0 ≤ fd < 100 ∧ table_ok k1 ft1 ∧
    (∀ n, 0 ≤ n < fd → ∃ e, file_table_get_descriptor ft n = Ok e ∧ e ≠ 0) ∧
    (∀ n, file_table_get_descriptor ft1 n = if decide (n = fd) then Ok 0x13000 else file_table_get_descriptor ft n) ∧
    ∃ k2, file_table_close_file k1 ft1 0x13000 = Ok (0, k2, ft) ∧ table_ok k2 ft ∧ closed k2 ft 0x13000.
Proof.
  assert (Hz : ∀ i d, table (file_table_init (FileTable [] 0)).2 !! i = Some d → d = 0).
  { intros i d Hi. by apply lookup_replicate in Hi as [-> _]. }
  apply (file_table_open_close witness_files (file_table_init (FileTable [] 0)).2 0x13000).
  - split; [|done|..].
    + eexists. by apply (example_kernel_ok (Used 1 :: replicate 2 Free)); repeat constructor.
    + intros i d Hi Hd. by apply Hz in Hi.
    + intros i j d e Hi _ Hd. by apply Hz in Hi.
  - split; [done|]. split; [by apply example_outside|]. intros i e Hi Hne. by apply Hz in Hi.
Defined.
