(* ===== verification/File.v ===== *)
(** [src/fs/file.c]: the file interface over the registered file systems.

    A [struct filesystem_operations_t] is a record of the functions its members
    point to, [None] for NULL; [operations_at] says which addresses hold one. The
    functions act on the allocator's memory and on a state [F] of their own, with the
    disks. [disks_address] is the address of [disks[0]], and [w_str], [r_str], [a_str]
    and [colon_slash] those of string literals. *)
From S2P Require Import Prelude Mem CString Heap Kheap Store Disk PathParser FileTable.

Definition MAX_FILESYSTEMS : Z := 5.
Definition EIO : Z := 5.
Definition SIZEOF_FILESYSTEM_OPERATIONS : Z := 32.

Inductive fopen_mode := OPEN_MODE_INVALID | OPEN_MODE_READ | OPEN_MODE_WRITE | OPEN_MODE_RW | OPEN_MODE_APPEND.
#[export] Instance fopen_mode_eq_dec : EqDecision fopen_mode.
Proof. solve_decision. Defined.

Record filesystem_operations_t (K F : Type) := Operations {
  probe : option (K → F → Z → outcome (Z * K * F));
  open : option (K → F → Z → Z → fopen_mode → outcome (Z * K * F));
  close : option (K → F → Z → outcome (Z * K * F));
  read : option (K → F → Z → Z → Z → Z → outcome (Z * K * F));
  seek : option (K → F → Z → Z → Z → outcome (Z * K * F));
  stat : option (K → F → Z → Z → outcome (Z * K * F))
}.
Arguments Operations {K F}.
Arguments probe {K F}.
Arguments open {K F}.
Arguments close {K F}.
Arguments read {K F}.
Arguments seek {K F}.
Arguments stat {K F}.

(** [disk_fs] is [disks[0].fs_operations]. *)
Record vfs (K F : Type) := Vfs {
  vmem : K;
  vstate : F;
  file_table : file_table_t;
  registered_filesystems : list Z;
  disk_fs : Z
}.
Arguments Vfs {K F}.
Arguments vmem {K F}.
Arguments vstate {K F}.
Arguments file_table {K F}.
Arguments registered_filesystems {K F}.
Arguments disk_fs {K F}.

Definition set_vmem {K F} (s : vfs K F) (k : K) : vfs K F :=
  Vfs k (vstate s) (file_table s) (registered_filesystems s) (disk_fs s).
Definition set_vstate {K F} (s : vfs K F) (k : K) (f : F) : vfs K F :=
  Vfs k f (file_table s) (registered_filesystems s) (disk_fs s).
Definition set_files {K F} (s : vfs K F) (k : K) (ft : file_table_t) : vfs K F :=
  Vfs k (vstate s) ft (registered_filesystems s) (disk_fs s).

Section file.
Context {K F : Type} `{Allocator K}.
Variable operations_at : Z → option (filesystem_operations_t K F).
Variables disks_address w_str r_str a_str colon_slash : Z.
Implicit Type s : vfs K F.

(** One round of the search for a free entry. *)
Definition register_round (operations i : Z) (l : list Z) : outcome (Z + (Z * list Z)) :=
  if decide (i < MAX_FILESYSTEMS) then
    r ← arr_get l i;
    if decide (r = 0) then l ← arr_set l i operations; Ok (inr (0, l)) else Ok (inl (i + 1))
  else Ok (inr (- EIO, l)).

Definition fs_register_fs s (operations : Z) : outcome (Z * vfs K F) :=
  rl ← while_loop (S (Z.to_nat MAX_FILESYSTEMS)) (λ i, register_round operations i (registered_filesystems s)) 0;
  let '(res, l) := rl in
  Ok (res, Vfs (vmem s) (vstate s) (file_table s) l (disk_fs s)).

Definition fs_init s (fat16_operations : Z) : outcome (Z * vfs K F) := fs_register_fs s fat16_operations.

(** One round of [fs_probe_fs] on [(fs_op, s)]: the next candidate is the struct that
    follows in memory. *)
Definition probe_round (disk : Z) (st : Z * vfs K F) : outcome ((Z * vfs K F) + (Z * vfs K F)) :=
  let '(fs_op, s) := st in
  if decide (fs_op = 0) then Ok (inr (0, s))
  else
    ops ← or_ub (operations_at fs_op);
    f ← or_ub (probe ops);
    r ← f (vmem s) (vstate s) disk;
    let '(res, k, f) := r in
    let s := set_vstate s k f in
    Ok (if decide (res = 0) then inr (fs_op, s) else inl (fs_op + SIZEOF_FILESYSTEM_OPERATIONS, s)).

Definition fs_probe_fs (fuel : nat) s (disk : Z) : outcome (Z * vfs K F) :=
  fs_op ← arr_get (registered_filesystems s) 0;
  while_loop fuel (probe_round disk) (fs_op, s).

Definition file_mode_from_string (m : mem) (str : Z) : outcome fopen_mode :=
  w ← strncmp 2 m str w_str 1;
  if decide (w = 0) then Ok OPEN_MODE_WRITE
  else
    r ← strncmp 2 m str r_str 1;
    if decide (r = 0) then Ok OPEN_MODE_READ
    else
      a ← strncmp 2 m str a_str 1;
      Ok (if decide (a = 0) then OPEN_MODE_APPEND else OPEN_MODE_INVALID).

(** A member of the struct at [p]. *)
Definition member_of (k : K) (p off : Z) : outcome Z := if decide (p = 0) then Ub else kread k (p + off).

(** [descriptor->disk->fs_operations]. *)
Definition descriptor_operations s (descriptor : Z) : outcome Z :=
  disk ← member_of (vmem s) descriptor file_disk;
  if decide (disk = disks_address ∧ disk ≠ 0) then Ok (disk_fs s) else Ub.

(** The value of a [struct disk_t *]. *)
Definition disk_pointer (r : disk_ref) : Z :=
  match r with NullDisk => 0 | DiskAt i => disks_address end.

(** The block at [out] after a failure. *)
Definition fopen_fail (fuel : nat) s (path descriptor : Z) : outcome (Z * vfs K F) :=
  k ← pathparse_path_free fuel (vmem s) path;
  let s := set_vmem s k in
  if decide (descriptor = 0) then Ok (0, s)
  else
    ops ← descriptor_operations s descriptor;
    s ← (if decide (ops = 0) then Ok s
         else
           private_data ← member_of (vmem s) descriptor file_private_data;
           if decide (private_data = 0) then Ok s
           else
             ops ← or_ub (operations_at ops);
             f ← or_ub (close ops);
             r ← f (vmem s) (vstate s) private_data;
             let '(_, k, f) := r in Ok (set_vstate s k f));
    k ← kfree (vmem s) descriptor;
    Ok (0, set_vmem s k).

(** From the test of [disk_get]'s result on: the result, and whether to go to the
    failure block. *)
Definition fopen_descriptor s (path descriptor : Z) (mode : fopen_mode) : outcome (Z * vfs K F) :=
  drive ← member_of (vmem s) path 0;
  let '(res, disk) := disk_get (s32 drive) in
  k ← kwrite (vmem s) (descriptor + file_disk) (disk_pointer disk);
  let s := set_vmem s k in
  if decide (res ≠ 0) then Ok (- EIO, s)
  else
    ops ← descriptor_operations s descriptor;
    if decide (ops = 0) then Ok (- EIO, s)
    else
      k ← kwrite (vmem s) (descriptor + file_path) path;
      let s := set_vmem s k in
      disk ← member_of (vmem s) descriptor file_disk;
      first ← member_of (vmem s) path 4;
      ops ← or_ub (operations_at ops);
      f ← or_ub (open ops);
      r ← f (vmem s) (vstate s) disk first mode;
      let '(private_data, k, f) := r in
      k ← kwrite k (descriptor + file_private_data) private_data;
      let s := set_vstate s k f in
      if decide (private_data = 0) then Ok (- EIO, s)
      else
        r ← file_table_open_file (vmem s) (file_table s) descriptor;
        let '(res, k, ft) := r in Ok (res, set_files s k ft).

Definition fopen (fuel : nat) s (filename str_mode : Z) : outcome (Z * vfs K F) :=
  mode ← file_mode_from_string (memory (vmem s)) str_mode;
  if decide (mode = OPEN_MODE_INVALID) then Ok (0, s)
  else
    pk ← pathparser_path_parse fuel (vmem s) colon_slash filename; let '(path, k) := pk in
    let s := set_vmem s k in
    if decide (path = 0) then Ok (0, s)
    else
      first ← member_of (vmem s) path 4;
      if decide (first = 0) then k ← pathparse_path_free fuel (vmem s) path; Ok (0, set_vmem s k)
      else
        dk ← kzalloc (vmem s) SIZEOF_FILE; let '(descriptor, k) := dk in
        let s := set_vmem s k in
        if decide (descriptor = 0) then fopen_fail fuel s path descriptor
        else
          rs ← fopen_descriptor s path descriptor mode;
          let '(res, s) := rs in
          if decide (res < 0) then fopen_fail fuel s path descriptor else Ok (descriptor, s).

(** [file_table.table[stream->fileno]], and the operations of its file system. *)
Definition stream_descriptor s (stream : Z) : outcome Z :=
  fileno ← member_of (vmem s) stream file_fileno;
  arr_get (table (file_table s)) (s32 fileno).

Definition stream_operations s (descriptor : Z) : outcome (filesystem_operations_t K F) :=
  ops ← descriptor_operations s descriptor; or_ub (operations_at ops).

Definition fclose (fuel : nat) s (stream : Z) : outcome (Z * vfs K F) :=
  descriptor ← stream_descriptor s stream;
  if decide (descriptor = 0) then Ok (- EBADF, s)
  else
    r ← file_table_close_file (vmem s) (file_table s) descriptor;
    let '(res, k, ft) := r in
    let s := set_files s k ft in
    if decide (res ≠ 0) then Ok (res, s)
    else
      ops ← stream_operations s descriptor;
      f ← or_ub (close ops);
      private_data ← member_of (vmem s) descriptor file_private_data;
      r ← f (vmem s) (vstate s) private_data;
      let '(res, k, f) := r in
      let s := set_vstate s k f in
      if decide (res ≠ 0) then Ok (res, s)
      else
        path ← member_of (vmem s) descriptor file_path;
        k ← pathparse_path_free fuel (vmem s) path;
        k ← kfree k descriptor;
        Ok (res, set_vmem s k).

Definition fread s (ptr size nmemb stream : Z) : outcome (Z * vfs K F) :=
  descriptor ← stream_descriptor s stream;
  if decide (descriptor = 0) then Ok (0, s)
  else
    ops ← stream_operations s descriptor;
    f ← or_ub (read ops);
    private_data ← member_of (vmem s) descriptor file_private_data;
    r ← f (vmem s) (vstate s) private_data size nmemb ptr;
    let '(res, k, f) := r in Ok (res, set_vstate s k f).

Definition fseek s (stream offset whence : Z) : outcome (Z * vfs K F) :=
  descriptor ← stream_descriptor s stream;
  if decide (descriptor = 0) then Ok (- EBADF, s)
  else
    ops ← stream_operations s descriptor;
    f ← or_ub (seek ops);
    private_data ← member_of (vmem s) descriptor file_private_data;
    r ← f (vmem s) (vstate s) private_data offset whence;
    let '(res, k, f) := r in Ok (res, set_vstate s k f).

Definition fstat s (fd buf : Z) : outcome (Z * vfs K F) :=
  descriptor ← arr_get (table (file_table s)) fd;
  if decide (descriptor = 0) then Ok (- EBADF, s)
  else
    ops ← stream_operations s descriptor;
    f ← or_ub (stat ops);
    private_data ← member_of (vmem s) descriptor file_private_data;
    r ← f (vmem s) (vstate s) private_data buf;
    let '(res, k, f) := r in Ok (res, set_vstate s k f).
End file.

(** * Opening a file *)

(** What [fopen] and [fread] rely on of the file system of the disk at [disk]. A path
    names a file with contents, when [file_in] says so of the parts linked from a cell;
    opening it gives a descriptor of the file system's own, at the file's start, and
    disturbs nothing in memory; reading from a descriptor stores the next bytes. *)
Class FileSystem {K F} `{AllocatorLaws K} (disk : Z) (ops : filesystem_operations_t K F) := {
  file_in : K → F → list (list Z) → list Z → Prop;
  opened : F → Z → list Z → Z → Prop;
  open_law : ∃ f, open ops = Some f ∧ ∀ k st cell first parts bytes mode,
    alloc_inv k → kowned k cell 4 → kread k cell = Ok first → parts_at k cell parts → file_in k st parts bytes →
    ∃ priv k' st', f k st disk first mode = Ok (priv, k', st') ∧ 0 < priv < 2 ^ 32 ∧ modifies [] k k' ∧
      opened st' priv bytes 0;
  read_law : ∃ f, read ops = Some f ∧ ∀ k st priv bytes pos size nmemb ptr,
    let n := Z.min (size * nmemb) (Z.of_nat (length bytes) - pos) in
    alloc_inv k → opened st priv bytes pos → 0 ≤ pos < Z.of_nat (length bytes) → 0 ≤ size * nmemb < 2 ^ 31 →
    mapped (memory k) ptr n →
    ∃ st', f k st priv size nmemb ptr =
        Ok (n, with_memory k (write_bytes (memory k) ptr (take (Z.to_nat n) (drop (Z.to_nat pos) bytes))), st') ∧
      opened st' priv bytes (pos + n)
}.

Section opening.
Context {K F : Type} `{AllocatorLaws K}.
Variable operations_at : Z → option (filesystem_operations_t K F).
Variables disks_address w_str r_str a_str colon_slash : Z.
Implicit Type s : vfs K F.

(** The string literals of [file.c] and [path_parser.c]. *)
Definition literals (m : mem) : Prop :=
  bytes_at m w_str [119] ∧ bytes_at m r_str [114] ∧ bytes_at m a_str [97] ∧ bytes_at m colon_slash [58; 47].

Definition mode_of (c : Z) : fopen_mode :=
  if decide (c = 119) then OPEN_MODE_WRITE else if decide (c = 114) then OPEN_MODE_READ
  else if decide (c = 97) then OPEN_MODE_APPEND else OPEN_MODE_INVALID.

Lemma strncmp_char m str lit c x : bytes_at m str [c] → bytes_at m lit [x] → 0 < c < 128 → 0 < x < 128 →
  ∃ r, strncmp 2 m str lit 1 = Ok r ∧ (r = 0 ↔ c = x).
Proof.
  intros Hc Hx Hcr Hxr. exists (cmp_bytes [c] [x]). split.
  - apply (strncmp_arrays 2 m str lit [c] [x]); try done; [by apply Forall_singleton; unfold is_byte; lia..|cbn; lia].
  - cbn [cmp_bytes]. rewrite !s8_id by lia. case_decide; lia.
Qed.

Lemma file_mode_ok m str c : literals m → bytes_at m str [c] → 0 < c < 128 →
  file_mode_from_string w_str r_str a_str m str = Ok (mode_of c).
Proof.
  intros (Hw & Hr & Ha & _) Hc Hrange. unfold file_mode_from_string, mode_of.
  destruct (strncmp_char m str w_str c 119 Hc Hw ltac:(lia) ltac:(lia)) as (rw & -> & Ew). rewrite bind_Ok.
  destruct (strncmp_char m str r_str c 114 Hc Hr ltac:(lia) ltac:(lia)) as (rr & -> & Er).
  destruct (strncmp_char m str a_str c 97 Hc Ha ltac:(lia) ltac:(lia)) as (ra & -> & Ea). rewrite !bind_Ok.
  repeat case_decide; tauto || done.
Qed.

(** Writing a member of a struct at [d] that is new since [k]. *)
Lemma field_write {Q} k kc d off v : modifies [] k kc → fresh k d SIZEOF_FILE → kowned kc d SIZEOF_FILE →
  room_then Q [] kc → 0 ≤ off → off + 4 ≤ SIZEOF_FILE → 0 ≤ v < 2 ^ 32 →
  ∃ k', kwrite kc (d + off) v = Ok k' ∧ modifies [] k k' ∧ kowned k' d SIZEOF_FILE ∧ kread k' (d + off) = Ok v ∧
    room_then Q [] k' ∧
    ∀ off', 0 ≤ off' → off' + 4 ≤ SIZEOF_FILE → apart off' 4 off 4 → kread k' (d + off') = kread kc (d + off').
Proof.
  intros M Hf Ho Hq Hlo Hhi Hv.
  destruct (write_step (Q := Q) [] kc (d + off) v (modifies_inv _ _ _ M)) as (k' & E & M' & Q' & R);
    [apply (kowned_sub _ _ _ _ _ Ho); lia|done|done|].
  exists k'. split; [done|]. split; [|split; [|split; [done|split; [done|]]]].
  - apply (modifies_step _ [(d + off, 4)] k kc); [done..|]. intros a n Hn Hoa _. apply Forall_singleton.
    pose proof (Hf a n Hn Hoa). unfold apart in *. cbn [fst snd]. lia.
  - by apply (modifies_owned _ _ _ _ _ M').
  - intros off' Hlo' Hhi' Hap. apply (modifies_read _ _ _ _ M'); [apply (kowned_sub _ _ _ _ _ Ho); lia|].
    apply Forall_singleton. unfold apart in *. cbn [fst snd]. lia.
Qed.

Ltac field_range := unfold file_disk, file_path, file_private_data, file_fileno, SIZEOF_FILE in *; lia.

(** The descriptor at [d] is open on the file [priv] of the disk's file system. *)
Record is_open s (d priv fd : Z) : Prop := IsOpen {
  open_slot : 0 ≤ fd < 100 ∧ table (file_table s) !! Z.to_nat fd = Some d;
  open_fileno : kread (vmem s) (d + file_fileno) = Ok fd;
  open_disk : kread (vmem s) (d + file_disk) = Ok disks_address;
  open_private : kread (vmem s) (d + file_private_data) = Ok priv
}.

Lemma is_open_stream s d priv fd ops : d ≠ 0 → disks_address ≠ 0 → is_open s d priv fd →
  operations_at (disk_fs s) = Some ops →
  stream_descriptor s d = Ok d ∧ stream_operations operations_at disks_address s d = Ok ops ∧
  member_of (vmem s) d file_private_data = Ok priv.
Proof.
  intros Hd Hda [[Hfd Hs] Hf Hdk Hp] Hops.
  unfold stream_descriptor, stream_operations, descriptor_operations, member_of. rewrite !decide_False, Hf, Hdk, Hp by done.
  rewrite !bind_Ok, s32_id, decide_True by (done || lia). rewrite bind_Ok, Hops. split; [|done].
  unfold arr_get. by rewrite decide_True, Hs by lia.
Qed.

Context (ops : filesystem_operations_t K F) {Hfs : FileSystem disks_address ops}.

Lemma fopen_descriptor_spec k0 s path d parts bytes mode i :
  operations_at (disk_fs s) = Some ops → disk_fs s ≠ 0 → 0 < disks_address < 2 ^ 32 →
  modifies [] k0 (vmem s) → fresh k0 d SIZEOF_FILE → kowned (vmem s) d SIZEOF_FILE → 0 < d →
  0 < path < 2 ^ 32 → kowned k0 path 8 → kread k0 path = Ok 0 → parts_at k0 (path + 4) parts →
  room_then (λ k, file_in k (vstate s) parts bytes) [] (vmem s) → table_ok k0 (file_table s) → table (file_table s) !! i = Some 0 →
  ∃ s' priv fd, fopen_descriptor operations_at disks_address s path d mode = Ok (fd, s') ∧
    is_open s' d priv fd ∧ opened (vstate s') priv bytes 0 ∧ table_ok (vmem s') (file_table s') ∧ disk_fs s' = disk_fs s ∧
    modifies [] k0 (vmem s') ∧ (∀ n, 0 ≤ n < fd → ∃ e, table (file_table s) !! Z.to_nat n = Some e ∧ e ≠ 0).
Proof.
  intros Hops Hnz Hda M0 Hfr Ho Hd Hp Hop Hdrive Hparts Hin Hok Hfree.
  set (Q := λ k, file_in k (vstate s) parts bytes) in *.
  assert (Hop4 : kowned k0 (path + 4) 4) by (apply (kowned_sub _ _ _ _ _ Hop); lia).
  assert (Hkeep : ∀ k a, modifies [] k0 k → kowned k0 a 4 → kread k a = kread k0 a).
  { intros k a M Hoa. apply (modifies_read _ _ _ _ M Hoa). constructor. }
  assert (Hfirst : ∃ first, kread k0 (path + 4) = Ok first).
  { destruct parts as [|c l]; cbn [parts_at] in Hparts; [eauto|]. destruct Hparts as (node & ? & _). eauto. }
  destruct Hfirst as [first Hfirst].
  unfold fopen_descriptor, descriptor_operations, member_of. rewrite (decide_False (P := path = 0)) by lia.
  rewrite (Z.add_0_r path), (Hkeep _ path M0), Hdrive, bind_Ok by (apply (kowned_sub _ _ _ _ _ Hop); lia).
  unfold disk_get. rewrite s32_id, (decide_False (P := 0 ≠ 0)) by lia. cbn [disk_pointer].
  destruct (field_write k0 (vmem s) d file_disk disks_address M0 Hfr Ho Hin) as (k1 & -> & M1 & O1 & R1 & Q1 & _); [done|done|lia|].
  rewrite bind_Ok, (decide_False (P := 0 ≠ 0)) by lia. cbn [vmem set_vmem].
  rewrite (decide_False (P := d = 0)), R1, !bind_Ok, decide_True by lia. rewrite bind_Ok. cbn [disk_fs].
  rewrite decide_False by done.
  destruct (field_write k0 k1 d file_path path M1 Hfr O1 Q1) as (k2 & -> & M2 & O2 & R2 & Q2 & F2); [done|done|lia|].
  rewrite bind_Ok. cbn [vmem].
  rewrite ?(decide_False (P := d = 0)), ?(decide_False (P := path = 0)) by lia.
  rewrite F2, R1, bind_Ok by (done || (left; done)). rewrite ?(decide_False (P := path = 0)) by lia.
  rewrite (Hkeep _ _ M2 Hop4), Hfirst, bind_Ok. cbn [set_vmem disk_fs]. rewrite Hops. cbn [or_ub]. rewrite bind_Ok.
  destruct open_law as (f & Hf & Hlaw). rewrite Hf. cbn [or_ub]. rewrite bind_Ok. cbn [vmem vstate set_vmem].
  destruct (Hlaw k2 (vstate s) (path + 4) first parts bytes mode) as (priv & k3 & st' & -> & Hpriv & M3 & Hopened).
  { by apply (modifies_inv _ _ _ M2). }
  { by apply (modifies_owned _ _ _ _ _ M2). }
  { by rewrite (Hkeep _ _ M2 Hop4). }
  { by apply (parts_frame k0). }
  { apply (room_end Q); [by apply (modifies_inv _ _ _ M2)|exact Q2]. }
  rewrite bind_Ok. cbv zeta.
  assert (M03 : modifies [] k0 k3) by (by apply (modifies_step _ [] k0 k2)).
  assert (O3 : kowned k3 d SIZEOF_FILE) by (by apply (modifies_owned _ _ _ _ _ M3)).
  assert (R3 : kread k3 (d + file_disk) = Ok disks_address).
  { rewrite (modifies_read _ _ _ _ M3); [rewrite F2; [done|done|done|left; done]|apply (kowned_sub _ _ _ _ _ O2); field_range|constructor]. }
  destruct (field_write (Q := λ _, True) k0 k3 d file_private_data priv M03 Hfr O3) as (k4 & -> & M4 & O4 & R4 & _ & F4); [done|done|done|lia|].
  rewrite bind_Ok, decide_False by lia. cbn [vmem set_vstate set_vmem file_table].
  assert (Hclosed : closed k4 (file_table s) d).
  { split; [lia|]. split; [done|]. intros j e He Hne. destruct (table_fileno _ _ Hok j e He Hne) as [Hoe _].
    pose proof (Hfr e SIZEOF_FILE ltac:(done) Hoe). unfold apart in *. lia. }
  destruct (open_file_spec k4 (file_table s) d (table_frame _ _ _ M4 Hok) Hclosed)
    as [[Hfull _] | (n & k5 & -> & Hn & Hlow & M5 & Hok5)].
  { by eapply Forall_lookup_1 in Hfull; [|exact Hfree]. }
  pose proof (lookup_lt_Some _ _ _ Hn) as Hlt. destruct (table_length _ _ Hok) as [_ Hlen].
  rewrite bind_Ok. eexists _, priv, (Z.of_nat n). split; [done|]. cbn [vmem set_files vstate set_vstate set_vmem file_table table disk_fs].
  assert (HF5 : ∀ off, 0 ≤ off → off + 4 ≤ SIZEOF_FILE → apart off 4 file_fileno 4 → kread k5 (d + off) = kread k4 (d + off)).
  { intros off Hlo Hhi Hap. apply (modifies_read _ _ _ _ M5); [apply (kowned_sub _ _ _ _ _ O4); field_range|].
    apply Forall_singleton. unfold apart in *. cbn [fst snd]. lia. }
  split; [|split; [done|split; [done|split; [done|split]]]].
  - split; cbn [vmem set_files set_vstate set_vmem file_table table].
    + rewrite Nat2Z.id, list_lookup_insert_eq by lia. split; [lia|done].
    + apply (table_fileno _ _ Hok5 n d); [by apply list_lookup_insert_eq|lia].
    + rewrite HF5, F4; [done|done|done|by left|done|done|by left].
    + rewrite HF5; [done|done|done|by left].
  - apply (modifies_step _ [(d + file_fileno, 4)] k0 k4); [done..|]. intros a m Hm Hoa _. apply Forall_singleton.
    pose proof (Hfr a m Hm Hoa). unfold apart, file_fileno, SIZEOF_FILE in *. cbn [fst snd]. lia.
  - intros m Hm. destruct (lookup_lt_is_Some_2 (table (file_table s)) (Z.to_nat m)) as [e He]; [lia|].
    exists e. split; [done|]. eapply Hlow; [|done]. lia.
Qed.

(** A stream open on the disk's file system, at offset [pos] of a file that holds [bytes]. *)
Record stream_at s (d : Z) (bytes : list Z) (pos : Z) : Prop := StreamAt {
  stream_open : ∃ priv fd, is_open s d priv fd ∧ opened (vstate s) priv bytes pos;
  stream_inv : alloc_inv (vmem s);
  stream_operations_at : operations_at (disk_fs s) = Some ops
}.

(** [fread] from a stream stores the next bytes of the file. *)
Lemma fread_spec s d bytes pos size nmemb ptr : let n := Z.min (size * nmemb) (Z.of_nat (length bytes) - pos) in
  d ≠ 0 → disks_address ≠ 0 → stream_at s d bytes pos → 0 ≤ pos < Z.of_nat (length bytes) → 0 ≤ size * nmemb < 2 ^ 31 →
  mapped (memory (vmem s)) ptr n →
  ∃ s', fread operations_at disks_address s ptr size nmemb d = Ok (n, s') ∧
    memory (vmem s') = write_bytes (memory (vmem s)) ptr (take (Z.to_nat n) (drop (Z.to_nat pos) bytes)) ∧
    file_table s' = file_table s ∧ ∃ priv, opened (vstate s') priv bytes (pos + n).
Proof.
  intros n Hd Hda [(priv & fd & Hopen & Hpriv) Hi Hops] Hpos Hsz Hm.
  destruct (is_open_stream s d priv fd ops Hd Hda Hopen Hops) as (E & E' & E'').
  destruct read_law as (g & Hg & Hlaw).
  destruct (Hlaw (vmem s) (vstate s) priv bytes pos size nmemb ptr Hi Hpriv Hpos Hsz Hm) as (st & Er & Hst).
  fold n in Er, Hst. eexists. split.
  { unfold fread. rewrite E, bind_Ok, decide_False, E', bind_Ok, Hg by done. cbn [or_ub].
    rewrite bind_Ok, E'', bind_Ok, Er, bind_Ok. reflexivity. }
  split; [apply memory_with_memory|]. split; [done|]. exists priv. exact Hst.
Qed.

Lemma fopen_spec fuel s filename str_mode c t rest parts bytes i :
  alloc_inv (vmem s) → literals (memory (vmem s)) → bytes_at (memory (vmem s)) str_mode [c] →
  c ∈ [119; 114; 97] → cstr (memory (vmem s)) filename t →
  kowned (vmem s) filename (Z.of_nat (length t) + 1) → 0 < filename → path_text t 48 rest → splits rest parts →
  parts ≠ [] →
  room_then (λ k, file_in k (vstate s) parts bytes) (SIZEOF_PATH_ROOT :: part_sizes parts ++ [SIZEOF_FILE]) (vmem s) →
  (length parts < fuel)%nat →
  operations_at (disk_fs s) = Some ops → disk_fs s ≠ 0 → 0 < disks_address < 2 ^ 32 →
  table_ok (vmem s) (file_table s) → table (file_table s) !! i = Some 0 →
  ∃ d s' fd, fopen operations_at disks_address w_str r_str a_str colon_slash fuel s filename str_mode = Ok (d, s') ∧
    d ≠ 0 ∧ stream_at s' d bytes 0 ∧ table_ok (vmem s') (file_table s') ∧ 0 ≤ fd < 100 ∧
    file_table_get_descriptor (file_table s') fd = Ok d ∧
    (∀ n, 0 ≤ n < fd → ∃ e, table (file_table s) !! Z.to_nat n = Some e ∧ e ≠ 0) ∧ modifies [] (vmem s) (vmem s').
Proof.
  intros Hi Hlit Hmode Hc Ht Ho Hf0 Hpt Hsp Hne Hroom Hfuel Hops Hnz Hda Hok Hfree.
  assert (Hm : 0 < c < 128 ∧ mode_of c ≠ OPEN_MODE_INVALID).
  { rewrite list_elem_of_In in Hc. destruct Hc as [<- | [<- | [<- | []]]]; (split; [lia|done]). }
  destruct Hm as [Hcr Hmi]. unfold fopen.
  rewrite (file_mode_ok _ _ _ Hlit Hmode Hcr), bind_Ok, decide_False by done.
  destruct (parse_spec fuel [SIZEOF_FILE] (vmem s) colon_slash filename t 48 rest parts Hi Ht Ho Hf0 (proj2 (proj2 (proj2 Hlit))) Hpt Hsp Hroom Hfuel)
    as (p & k1 & -> & Hp & M1 & R1 & _ & O1 & Hd1 & P1).
  rewrite bind_Ok, decide_False by lia. cbn [vmem set_vmem].
  assert (Hfirst : ∃ first, kread k1 (p + 4) = Ok first ∧ first ≠ 0).
  { destruct parts as [|x l]; [done|]. destruct P1 as (node & ? & ? & _). eauto. }
  destruct Hfirst as (first & Hfirst & Hfnz). unfold member_of at 1.
  rewrite decide_False, Hfirst, bind_Ok, decide_False by (done || lia).
  destruct (alloc_step SIZEOF_FILE [] k1 (modifies_inv _ _ _ M1) ltac:(by vm_compute) R1)
    as (d & k2 & E2 & Hd & Hdtop & _ & M2 & R2 & O2 & F2 & _).
  cbn [vmem set_vmem]. rewrite E2, bind_Ok, decide_False by lia.
  destruct (fopen_descriptor_spec k1 (set_vmem (set_vmem s k1) k2) p d parts bytes (mode_of c) i) as
    (s' & priv & fd & -> & Hopen & Hopened & Hok' & Hfs' & M3 & Hlow); try done; [by apply (table_frame (vmem s))|].
  pose proof (open_slot _ _ _ _ Hopen) as [Hfd Hslot]. rewrite bind_Ok, decide_False by lia.
  exists d, s', fd. split; [done|]. split; [lia|]. split; [split; [by exists priv, fd|apply M3|by rewrite Hfs']|].
  split; [done|]. split; [done|]. split; [|split; [done|by apply (modifies_step _ [] _ k1)]].
  unfold file_table_get_descriptor. destruct (table_length _ _ Hok') as [-> _].
  rewrite decide_False by (unfold MAX_OPEN_FILES; lia). unfold arr_get. by rewrite decide_True, Hslot by lia.
Qed.

(** C8: [fopen] on a path of drive 0 that names a file of the disk's file system, with room
    for the path and the descriptor and a free number: it returns a new descriptor under
    the lowest free number, and nothing that was in use has changed; [fread] on it stores
    the file's first bytes, as many as asked or as there are. *)
Theorem fopen_opens fuel s filename str_mode c t rest parts bytes i :
  alloc_inv (vmem s) → literals (memory (vmem s)) → bytes_at (memory (vmem s)) str_mode [c] →
  c ∈ [119; 114; 97] → cstr (memory (vmem s)) filename t →
  kowned (vmem s) filename (Z.of_nat (length t) + 1) → 0 < filename → path_text t 48 rest → splits rest parts →
  parts ≠ [] →
  room_then (λ k, file_in k (vstate s) parts bytes) (SIZEOF_PATH_ROOT :: part_sizes parts ++ [SIZEOF_FILE]) (vmem s) →
  (length parts < fuel)%nat →
  operations_at (disk_fs s) = Some ops → disk_fs s ≠ 0 → 0 < disks_address < 2 ^ 32 →
  table_ok (vmem s) (file_table s) → table (file_table s) !! i = Some 0 →
  ∃ d s' fd, fopen operations_at disks_address w_str r_str a_str colon_slash fuel s filename str_mode = Ok (d, s') ∧
    d ≠ 0 ∧ table_ok (vmem s') (file_table s') ∧ 0 ≤ fd < 100 ∧
    file_table_get_descriptor (file_table s') fd = Ok d ∧
    (∀ n, 0 ≤ n < fd → ∃ e, table (file_table s) !! Z.to_nat n = Some e ∧ e ≠ 0) ∧
    (∀ a n x, kowned (vmem s) a n → a ≤ x < a + n → memory (vmem s') !! x = memory (vmem s) !! x) ∧
    ∀ ptr size nmemb, let n := Z.min (size * nmemb) (Z.of_nat (length bytes)) in
      0 < Z.of_nat (length bytes) → 0 ≤ size * nmemb < 2 ^ 31 → mapped (memory (vmem s')) ptr n →
      ∃ s'', fread operations_at disks_address s' ptr size nmemb d = Ok (n, s'') ∧
        memory (vmem s'') = write_bytes (memory (vmem s')) ptr (take (Z.to_nat n) bytes).
Proof.
  intros ?????????????????.
  destruct (fopen_spec fuel s filename str_mode c t rest parts bytes i) as (d & s' & fd & E & Hd & Hst & Hok & Hfd & Hg & Hlow & M);
    [assumption..|].
  exists d, s', fd. split; [exact E|]. split; [exact Hd|]. do 4 (split; [assumption|]). split.
  - intros a n x Ho Hx. apply (modifies_bytes _ _ _ M a n); [lia|done|constructor|done].
  - intros ptr size nmemb n Hlen Hsz Hm. unfold n in *. rewrite <- (Z.sub_0_r (Z.of_nat (length bytes))) in Hm.
    destruct (fread_spec s' d bytes 0 size nmemb ptr Hd ltac:(lia) Hst ltac:(lia) Hsz Hm) as (s'' & Er & Hmem & _).
    rewrite Z.sub_0_r in *. by exists s''.
Qed.
End opening.

(** ** A file system with the one file "a", which holds "hi", and the kernel with its path "0:/a"

    Its state is the position of the descriptor, 7. *)
Definition witness_bytes : list Z := [104; 105].

Definition witness_read (k : kernel) (pos priv size nmemb ptr : Z) : outcome (Z * kernel * Z) :=
  let n := Z.min (size * nmemb) (2 - pos) in
  Ok (n, with_memory k (write_bytes (memory k) ptr (take (Z.to_nat n) (drop (Z.to_nat pos) witness_bytes))), pos + n).

Definition witness_operations : filesystem_operations_t kernel Z :=
  Operations (Some (λ k f disk, Ok (0, k, f))) (Some (λ k f disk first mode, Ok (7, k, 0))) (Some (λ k f priv, Ok (0, k, f)))
    (Some witness_read) None (Some (λ k f priv buf, Ok (0, k, f))).

#[export] Program Instance witness_file_system : FileSystem 0x1B000 witness_operations := {
  file_in k f parts bytes := parts = [[97]] ∧ bytes = witness_bytes;
  opened f priv bytes pos := f = pos ∧ priv = 7 ∧ bytes = witness_bytes
}.
Next Obligation.
  eexists. split; [done|]. intros k st cell first parts bytes mode Hi _ _ _ [_ ->]. exists 7, k, 0.
  split; [done|]. split; [done|]. split; [by apply modifies_refl|done].
Qed.
Next Obligation.
  eexists. split; [done|]. intros k st priv bytes pos size nmemb ptr n _ (-> & -> & ->) _ _ _. by eexists.
Qed.

Definition witness_file_kernel : kernel :=
  example_kernel (Used 1 :: replicate 8 Free) 0xA000
    [(0x19000, [48; 58; 47; 97; 0]); (0x19010, [58; 47]); (0x19020, [119]); (0x19024, [114]); (0x19028, [97])].

Definition witness_vfs : vfs kernel Z :=
  Vfs witness_file_kernel 0 (file_table_init (FileTable [] 0)).2 (0x1A000 :: replicate 9 0) 0x1A000.

Definition witness_operations_at (a : Z) : option (filesystem_operations_t kernel Z) :=
  if decide (a = 0x1A000) then Some witness_operations else None.

Lemma fopen_opens_witness :
  ∃ d s' fd, fopen witness_operations_at 0x1B000 0x19020 0x19024 0x19028 0x19010 9 witness_vfs 0x19000 0x19024 = Ok (d, s') ∧
    d ≠ 0 ∧ table_ok (vmem s') (file_table s') ∧ 0 ≤ fd < 100 ∧
    file_table_get_descriptor (file_table s') fd = Ok d ∧
    (∀ n, 0 ≤ n < fd → ∃ e, table (file_table witness_vfs) !! Z.to_nat n = Some e ∧ e ≠ 0) ∧
    (∀ a n x, kowned (vmem witness_vfs) a n → a ≤ x < a + n → memory (vmem s') !! x = memory (vmem witness_vfs) !! x) ∧
    ∀ ptr size nmemb, let n := Z.min (size * nmemb) 2 in
      0 < 2 → 0 ≤ size * nmemb < 2 ^ 31 → mapped (memory (vmem s')) ptr n →
      ∃ s'', fread witness_operations_at 0x1B000 s' ptr size nmemb d = Ok (n, s'') ∧
        memory (vmem s'') = write_bytes (memory (vmem s')) ptr (take (Z.to_nat n) witness_bytes).
Proof.
  assert (Hk : kernel_ok witness_file_kernel (Used 1 :: replicate 8 Free))
    by (by apply example_kernel_ok; repeat constructor).
  assert (Hinv : alloc_inv witness_file_kernel) by (by eexists).
  assert (Hz : ∀ i d, table (file_table witness_vfs) !! i = Some d → d = 0).
  { intros i d Hi. by apply lookup_replicate in Hi as [-> _]. }
  apply (fopen_opens witness_operations_at 0x1B000 0x19020 0x19024 0x19028 0x19010 witness_operations 9 witness_vfs
    0x19000 0x19024 114 [48; 58; 47; 97] [97] [[97]] witness_bytes 0).
  - exact Hinv.
  - split_and!; example_mem.
  - example_mem.
  - apply list_elem_of_In. cbn. tauto.
  - split; [example_mem|by repeat constructor].
  - by apply example_outside.
  - done.
  - done.
  - apply splits_last; [done|by repeat constructor].
  - done.
  - apply (room_mono (λ _, True)); [done|]. apply (heap_room_ok _ _ _ Hk). by vm_compute.
  - cbn. lia.
  - done.
  - done.
  - done.
  - split; [exact Hinv|done|..].
    + intros i d Hi Hd. by apply Hz in Hi.
    + intros i j d e Hi _ Hd. by apply Hz in Hi.
  - done.
Defined.
