(* ===== verification/Volume.v ===== *)
(** [fat16_operations] of [src/fs/fat16.c]: the FAT16 functions behind the pointers of a
    [struct filesystem_operations_t], and the mounted volume as a [FileSystem].

    The state of the file system is the device with the struct of its disk. A [volume] is
    what [disk->fs_private] points to, with the stream it owns and the descriptors that
    are open, by their addresses; [device] gives the block device of a disk. *)
From S2P Require Import Prelude Mem CString Heap Kheap Store Disk DiskStream Fat16 PathParser FileTable File.

Record volume := Volume {
  private : fat_private_data_t;
  private_stream : disk_stream;
  descriptors : gmap Z fat_descriptor_t
}.

Definition set_fs_private (d : disk_t volume) (v : volume) : disk_t volume :=
  Disk (Disk.type d) (sector_size d) (master_slave_flag d) (id d) (fs_operations d) (Some v) (ata_ports d).

Section operations.
Context {W K : Type} `{Allocator K}.
Variable device : disk_t volume → BlockDevice W.
Variable fuel : nat.

(** The functions of [Fat16] run on the disk's device. *)
Definition volume_fs (w : W) (v : volume) (k : K) : fs W K := Fs (private_stream v) w k.
Definition volume_state (disk : disk_t volume) (v : volume) (s : fs W K) (ds : gmap Z fat_descriptor_t) : K * (W * disk_t volume) :=
  (kern s, (Fat16.device s, set_fs_private disk (Volume (private v) (stream s) ds))).

Definition probe_member (k : K) (f : W * disk_t volume) (disk_address : Z) : outcome (Z * K * (W * disk_t volume)) :=
  let '(w, disk) := f in
  r ← fat16_probe (H := device disk) fuel w k (id disk);
  let '(res, mounted, w, k) := r in
  Ok (res, k, (w, match mounted with
                  | Some (p, st) => set_fs_private disk (Volume p st ∅)
                  | None => disk
                  end)).

(** [disk->fs_private] is dereferenced. *)
Definition open_member (k : K) (f : W * disk_t volume) (disk_address path : Z) (mode : fopen_mode) :
    outcome (Z * K * (W * disk_t volume)) :=
  let '(w, disk) := f in
  v ← or_ub (fs_private disk);
  r ← fat16_open (H := device disk) fuel (private v) (volume_fs w v k) (DiskAt 0) path;
  let '(found, s) := r in
  let '(p, ds) := match found with
                  | Some (p, d) => (p, <[p := d]> (descriptors v))
                  | None => (0, descriptors v)
                  end in
  let '(k, f) := volume_state disk v s ds in Ok (p, k, f).

Definition close_member (k : K) (f : W * disk_t volume) (priv : Z) : outcome (Z * K * (W * disk_t volume)) :=
  let '(w, disk) := f in
  v ← or_ub (fs_private disk);
  r ← fat16_close (volume_fs w v k) priv;
  let '(res, s) := r in
  let '(k, f) := volume_state disk v s (delete priv (descriptors v)) in Ok (res, k, f).

(** The bytes read are stored at [out]. *)
Definition read_member (k : K) (f : W * disk_t volume) (priv size nmemb out : Z) : outcome (Z * K * (W * disk_t volume)) :=
  let '(w, disk) := f in
  v ← or_ub (fs_private disk);
  d ← or_ub (descriptors v !! priv);
  r ← fat16_read (H := device disk) fuel (private v) (volume_fs w v k) d size nmemb;
  let '(n, bytes, d, s) := r in
  if mapped_b (memory k) out (Z.of_nat (length bytes)) then
    let '(k, f) := volume_state disk v s (<[priv := d]> (descriptors v)) in
    Ok (n, with_memory k (write_bytes (memory k) out bytes), f)
  else Ub.

Definition stat_member (k : K) (f : W * disk_t volume) (priv buf : Z) : outcome (Z * K * (W * disk_t volume)) :=
  let '(w, disk) := f in
  v ← or_ub (fs_private disk);
  d ← or_ub (descriptors v !! priv);
  let '(res, (st_dev, st_size)) := fat16_stat (id disk) d in
  k ← kwrite k buf st_dev;
  k ← kwrite k (buf + 4) st_size;
  Ok (res, k, f).

(** [seek] is not among the members that are set. *)
Definition fat16_operations : filesystem_operations_t K (W * disk_t volume) :=
  Operations (Some probe_member) (Some open_member) (Some close_member) (Some read_member) None (Some stat_member).
End operations.

(** ** Probing *)

(** The volume a header describes, with its stream at [dev]. *)
Definition header_ok (h : fat_header_t) : bool :=
  bool_decide (signature h = FAT16_SIGNATURE) && same_name (system_id_string h) FAT16_SYSTEM_ID.

Definition layout_of (h : fat_header_t) (dev : Z) : fat_private_data_t :=
  let first_sector := u32 (reserved_sectors h + fat_copies h * sectors_per_fat h) in
  FatPrivate h (bytes_per_sector h * sectors_per_cluster h)
    (u32 (first_sector + u32 (root_dir_entries h * SIZEOF_FAT_ENTRY + bytes_per_sector h - 1) / bytes_per_sector h))
    (FatItem FAT16_ROOT_DIRECTORY_FLAG zero_entry first_sector 0 0) dev.

Section probing.
Context {W : Type} `{BlockDeviceLaws W}.

(** The header on the disk. *)
Definition disk_header : fat_header_t := decode_header (disk_slice 0 SIZEOF_FAT_HEADER).

Lemma new_stream_since k0 k segs f : front_since k0 k segs f → (0 < f)%nat →
  let p := front_address (base_addr (kernel_heap k0)) segs in
  ∃ k', diskstream_new k 0 = Ok (Some (p, DiskStream 0 (DiskAt 0)), k') ∧ fresh k0 p SIZEOF_DISK_STREAM ∧ p ≠ 0 ∧
    front_since k0 k' (segs ++ [Used 1]) (f - 1).
Proof.
  intros Hf Hf0 p. destruct (since_object k0 k segs f SIZEOF_DISK_STREAM Hf ltac:(done) Hf0) as (k' & E & Hp & Hfr & Hf').
  fold p in E, Hp, Hfr. exists k'. split; [|split; [exact Hfr|split; [lia|exact Hf']]].
  unfold diskstream_new. change (disk_get 0) with (0, DiskAt 0). cbn beta iota. rewrite decide_False by (intros Hn; by apply Hn).
  rewrite E, bind_Ok, decide_False by lia. done.
Qed.

Lemma private_of_header_ok h dev : bytes_per_sector h ≠ 0 → private_of_header h dev = Ok (layout_of h dev).
Proof. intros Hb. unfold private_of_header. by rewrite decide_False. Qed.

(** On a heap with room at its end, [fat16_probe] mounts the disk's volume or says that
    it is no FAT16 volume, and what was in use stays. *)
Lemma fat16_probe_spec fuel w k segs f : kernel_front k segs f → (3 < f)%nat → block_ready w → SIZEOF_FAT_HEADER ≤ disk_size →
  (62 < fuel)%nat → (header_ok disk_header = true → bytes_per_sector disk_header ≠ 0) →
  ∃ w' k' segs', block_ready w' ∧ modifies [] k k' ∧ base_addr (kernel_heap k') = base_addr (kernel_heap k) ∧
    if header_ok disk_header then
      ∃ dev, dev ≠ 0 ∧ fat16_probe fuel w k 0 = Ok (0, Some (layout_of disk_header dev, DiskStream 0 (DiskAt 0)), w', k') ∧
        kernel_front k' segs' (f - 3)
    else fat16_probe fuel w k 0 = Ok (- EMEDIUMTYPE, None, w', k') ∧ kernel_front k' segs' (f - 1).
Proof.
  intros Hk Hf Hw Hsize Hfuel Hbps. unfold fat16_probe. pose proof (since_refl _ _ _ Hk) as S0.
  destruct (new_stream_since k k segs f S0) as (k1 & -> & Hfr & Hp & S1); [lia|]. rewrite bind_Ok.
  destruct (diskstream_read_spec fuel w (DiskStream 0 (DiskAt 0)) SIZEOF_FAT_HEADER) as (w' & -> & Hw');
    [done..|apply Nat.leb_le, Nat.leb_le; unfold SIZEOF_FAT_HEADER; lia|].
  rewrite bind_Ok. cbn [ppos]. cbv zeta.
  assert (Hh : overlay (disk_slice 0 SIZEOF_FAT_HEADER) (replicate 62 0) = disk_slice 0 SIZEOF_FAT_HEADER).
  { unfold overlay. rewrite drop_ge, app_nil_r; [done|]. pose proof (disk_slice_length 0 SIZEOF_FAT_HEADER ltac:(done)).
    rewrite length_replicate. unfold SIZEOF_FAT_HEADER in *. lia. }
  rewrite Hh. fold disk_header. unfold diskstream_close.
  destruct (since_free k k1 segs 1 [] (f - 1) SIZEOF_DISK_STREAM) as (k2 & -> & S2); [exact S1|lia|done|exact Hfr|].
  rewrite bind_Ok, decide_False by (unfold SIZEOF_FAT_HEADER; lia).
  unfold header_ok in *. destruct (bool_decide_reflect (signature disk_header = FAT16_SIGNATURE)) as [Hs|Hs]; cycle 1.
  { eexists w', k2, _. rewrite decide_True by done. split; [done|]. split; [apply S2|]. split; [apply S2|]. cbn [andb].
    split; [done|apply S2]. }
  rewrite decide_False by (intros Hn; by apply Hn). cbn [andb] in *.
  destruct (same_name _ _) eqn:Hn; cbn [negb]; cycle 1.
  { eexists w', k2, _. split; [done|]. split; [apply S2|]. split; [apply S2|]. split; [done|apply S2]. }
  destruct (since_object k k2 _ _ SIZEOF_FAT_PRIVATE S2) as (k3 & -> & Hp3 & _ & S3); [done|lia|].
  rewrite bind_Ok, decide_False by lia. rewrite !private_of_header_ok by auto. rewrite bind_Ok.
  destruct (new_stream_since k k3 _ _ S3) as (k4 & -> & _ & Hp4 & S4); [lia|]. rewrite bind_Ok.
  rewrite private_of_header_ok by auto. rewrite bind_Ok.
  eexists w', k4, _. split; [done|]. split; [apply S4|]. split; [apply S4|]. eexists. split; [exact Hp4|]. split; [done|].
  replace (f - 3)%nat with (f - 1 - 1 - 1)%nat by lia. apply S4.
Qed.
End probing.

(** ** Opening *)

Lemma front_address_same base segs segs' : length (layout segs) = length (layout segs') →
  front_address base segs = front_address base segs'.
Proof. intros E. unfold front_address. by rewrite E. Qed.

Section mounted.
Context {W : Type} `{BlockDeviceLaws W}.
Context (p : fat_private_data_t) (fuel : nat).

(** What [__fat16_open] makes of an item. *)
Definition opened_item (i : fat_item_t) : fat_item_t :=
  set_type i (if fat16_item_is_root_dir p i then FAT16_ROOT_DIRECTORY_FLAG
              else if decide (Z.land (attributes (entry i)) FAT16_FILE_SUBDIRECTORY ≠ 0) then FAT16_DIRECTORY_FLAG
              else FAT16_FILE_FLAG).
Definition fresh_descriptor (i : fat_item_t) : fat_descriptor_t :=
  FatDescriptor (opened_item i) 0 0 0 (first_sector i) (DiskAt 0) 0.

(** The entries of the root directory that a look-up sees are on the disk. *)
Record root_ok : Prop := RootOk {
  root_sector : 0 < data_sector p < 2 ^ 31 ∧ data_sector p + 32 ≤ bytes_per_cluster p;
  root_first : 0 ≤ first_sector (root_directory p);
  root_on_disk : root_addr p (data_sector p / 32) + 32 ≤ disk_size ∧ root_addr p (data_sector p / 32) + 32 < 2 ^ 32;
  root_fuel : (Z.to_nat (data_sector p) < fuel)%nat
}.

(** [e], number [n], is the entry a look-up of [name] and [ext] in the directory [i] finds. *)
Inductive directory_entry (i : fat_item_t) (name ext : list Z) (e : fat_entry_t) (n : Z) : Prop :=
  | in_root : root_ok → fat16_item_is_root_dir p i = true →
      search (pad 8 name) (pad 3 ext) (root_entries p (Z.to_nat (data_sector p / 32))) 0 = Some (e, n) →
      directory_entry i name ext e n
  | in_subdirectory c cs m : file_ok p (fresh_descriptor i) c cs → type (opened_item i) = FAT16_DIRECTORY_FLAG →
      capacity p cs = 32 * Z.of_nat m → capacity p cs < 2 ^ 31 → (m < fuel)%nat →
      search (pad 8 name) (pad 3 ext) (dir_entries p cs m) 0 = Some (e, n) → directory_entry i name ext e n.

(** From the item [i] the parts lead to the item [r]. *)
Fixpoint leads_to (i : fat_item_t) (parts : list (list Z)) (r : fat_item_t) : Prop :=
  match parts with
  | [] => r = i
  | c :: parts => ∃ name ext e n, split_shown (take 12 c) = Ok (name, ext) ∧ directory_entry i name ext e n ∧
      leads_to (item_of p (opened_item i) e n) parts r
  end.

Context (Hv : volume_ok p) (Hfuel : (32 < fuel)%nat ∧ (Z.to_nat (bytes_per_cluster p) < fuel)%nat).

Lemma open_item_since k0 k segs f st (w : W) i : front_since k0 k segs f → (0 < f)%nat →
  let q := front_address (base_addr (kernel_heap k0)) segs in
  ∃ k', __fat16_open p (Fs st w k) (DiskAt 0) i = Ok (Some (q, fresh_descriptor i), Fs st w k') ∧ 0 < q < 2 ^ 32 ∧
    fresh k0 q SIZEOF_FAT_DESCRIPTOR ∧ front_since k0 k' (segs ++ [Used 1]) (f - 1).
Proof.
  intros Hk Hf q. destruct (since_object k0 k segs f SIZEOF_FAT_DESCRIPTOR Hk ltac:(done) Hf) as (k' & E & Hq & Hfr & Hk').
  exists k'. split; [|done]. unfold __fat16_open. cbn [kern stream Fat16.device]. rewrite E, bind_Ok, decide_False by (fold q in Hq; lia).
  reflexivity.
Qed.

Lemma opened_root i : fat16_item_is_root_dir p i = true → fat16_item_is_root_dir p (opened_item i) = true.
Proof.
  intros Hi. unfold opened_item. rewrite Hi. unfold fat16_item_is_root_dir in *. case_decide; [done|].
  rewrite decide_False by (intros Hn; by apply Hn). exact Hi.
Qed.

(** The look-up of a name, with the item that is allocated. *)
Lemma find_since k0 k segs f st (w : W) i name ext e n : front_since k0 k segs f → (0 < f)%nat → fs_ready (Fs st w k) →
  directory_entry i name ext e n → let q := front_address (base_addr (kernel_heap k0)) segs in
  ∃ k' d' s', fat16_find_entry_in_dir fuel p (Fs st w k) (fresh_descriptor i) name ext =
      Ok (Some (q, item_of p (opened_item i) e n), d', s') ∧ kern s' = k' ∧ fs_ready s' ∧ fresh k0 q SIZEOF_FAT_ITEM ∧
    front_since k0 k' (segs ++ [Used 1]) (f - 1).
Proof.
  intros Hk Hf Hs He q. destruct (since_object k0 k segs f SIZEOF_FAT_ITEM Hk ltac:(done) Hf) as (k' & E & Hq & Hfr & Hk').
  fold q in E, Hq, Hfr. exists k'. destruct He as [[[? ?] ? [? ?] ?] Hroot Hsearch|c cs m Hfile Htype Hcap Hmax Hm Hsearch].
  - pose proof (root_search p Hv fuel (Fs st w k) (fresh_descriptor i) name ext Hs) as R. rewrite Hsearch in R.
    destruct (R (opened_root _ Hroot) ltac:(done) ltac:(done) ltac:(done) ltac:(done) ltac:(done) ltac:(done) ltac:(lia) q k' E) as (d' & s' & ? & ? & ?); [lia|].
    exists d', s'. done.
  - pose proof (subdirectory_search p Hv fuel (Fs st w k) (fresh_descriptor i) c cs m name ext Hs Hfile Htype Hcap Hmax) as R.
    rewrite Hsearch in R. destruct (R ltac:(lia) Hm ltac:(lia) q k' E) as (d' & s' & ? & ? & ?); [lia|]. exists d', s'. done.
Qed.
Lemma fs_free_ok (s : fs W kernel) q k' : kfree (kern s) q = Ok k' → fs_free s q = Ok (Fs (stream s) (Fat16.device s) k').
Proof. intros E. unfold fs_free. by rewrite E. Qed.

(** [fat16_split_entry_name] on a part of the path. *)
Lemma split_name k0 k node c : modifies [] k0 k → part_at k0 node c → kowned k0 node 8 →
  ∃ str, kread k node = Ok str ∧ fat16_split_entry_name (memory k) str = split_shown (take 12 c).
Proof.
  intros M (str & Hr & _ & Ht & Ho & _) Hon. exists str. split.
  { rewrite (modifies_read _ _ _ _ M); [done|apply (kowned_sub _ _ _ _ _ Hon); lia|constructor]. }
  apply (modifies_cstr _ _ _ _ _ M Ho) in Ht; [|constructor]. unfold fat16_split_entry_name.
  rewrite (strnlen_cstr _ _ _ 12 Ht), bind_Ok, Nat2Z.id by done. change (Z.to_nat 12) with 12%nat.
  rewrite load_bytes_ok; [done|]. destruct Ht as [Ht _]. rewrite <- (take_drop 12 c), <- app_assoc in Ht.
  by apply bytes_at_app in Ht as [Ht _].
Qed.

(** One part: the item's descriptor is opened, the name looked up, and the item and the
    descriptor freed. *)
Lemma traverse_round_since k0 k segs f st w i node c parts name ext e n :
  front_since k0 k (segs ++ [Used 1]) f → (2 < f)%nat → fs_ready (Fs st w k) →
  let q := front_address (base_addr (kernel_heap k0)) segs in
  fresh k0 q SIZEOF_FAT_ITEM → node ≠ 0 → part_at k0 node c → kowned k0 node 8 → parts_at k0 (node + 4) parts →
  split_shown (take 12 c) = Ok (name, ext) → directory_entry i name ext e n →
  let segs' := segs ++ [Free; Free] in let q' := front_address (base_addr (kernel_heap k0)) segs' in
  ∃ k' st' w' next, traverse_round fuel p (DiskAt 0) (node, q, i, Fs st w k) =
      Ok (inl (next, q', item_of p (opened_item i) e n, Fs st' w' k')) ∧
    kread k0 (node + 4) = Ok next ∧ fs_ready (Fs st' w' k') ∧ fresh k0 q' SIZEOF_FAT_ITEM ∧
    front_since k0 k' (segs' ++ [Used 1]) (f - 2).
Proof.
  intros Sk Hf Hs q Hq Hnode Hpart Hon Hparts Hsplit He segs' q'. subst q. unfold traverse_round. rewrite decide_False by done.
  destruct (open_item_since k0 k _ f st w i Sk) as (k1 & -> & Hdp & Hdf & S1); [lia|]. rewrite bind_Ok.
  rewrite <- app_assoc in S1. cbn [app] in S1.
  destruct (since_free k0 k1 segs 1 [Used 1] (f - 1) SIZEOF_FAT_ITEM S1) as (k2 & E2 & S2); [lia|done|exact Hq|].
  rewrite (fs_free_ok (Fs st w k1) _ k2 E2), bind_Ok. cbn [kern stream Fat16.device]. cbn [replicate app] in S2. destruct (split_name k0 k2 node c (since_modifies _ _ _ _ S2) Hpart Hon) as (str & -> & Esplit).
  rewrite bind_Ok, Esplit, Hsplit, bind_Ok.
  destruct (find_since k0 k2 _ _ st w i name ext e n S2) as (k3 & d' & s' & -> & Hk3 & Hs' & Hfr & S3); [lia|exact Hs|exact He|].
  rewrite bind_Ok. set (dp := front_address _ (segs ++ [Used 1])) in *.
  assert (Edp : dp = front_address (base_addr (kernel_heap k0)) (segs ++ [Free])).
  { apply front_address_same. rewrite !layout_app, !length_app. done. }
  rewrite Edp in Hdf |- *. change (segs ++ [Free; Used 1]) with (segs ++ [Free] ++ [Used 1]) in S3.
  rewrite (app_assoc segs), <- (app_assoc _ [Used 1]) in S3. cbn [app] in S3.
  destruct (since_free k0 k3 (segs ++ [Free]) 1 [Used 1] _ SIZEOF_FAT_DESCRIPTOR S3) as (k4 & E4 & S4); [lia|done|exact Hdf|].
  rewrite <- Hk3 in E4. rewrite (fs_free_ok s' _ k4 E4), bind_Ok. assert (Hon4 : kowned k0 (node + 4) 4) by (apply (kowned_sub _ _ _ _ _ Hon); lia).
  assert (Hnext : ∃ next, kread k0 (node + 4) = Ok next).
  { destruct parts; cbn [parts_at] in Hparts; [by eexists|]. destruct Hparts as (next & ? & _). by exists next. }
  destruct Hnext as [next Hnext].
  assert (Eq : front_address (base_addr (kernel_heap k0)) (segs ++ [Free; Used 1]) = q').
  { apply front_address_same. unfold segs'. rewrite !layout_app, !length_app. done. }
  exists k4, (stream s'), (Fat16.device s'), next. rewrite Eq in *. split.
  { cbn [kern]. rewrite (modifies_read _ _ _ _ (since_modifies _ _ _ _ S4) Hon4), Hnext by constructor. reflexivity. }
  split; [exact Hnext|]. split; [exact Hs'|]. split; [exact Hfr|].
  unfold segs'. rewrite <- app_assoc in S4 |- *. replace (f - 2)%nat with (f - 1 - 1)%nat by lia. exact S4.
Qed.

Lemma traverse_since k0 parts : ∀ cell node i r k segs f st w rounds,
  parts_at k0 cell parts → kread k0 cell = Ok node → leads_to i parts r →
  front_since k0 k (segs ++ [Used 1]) f → (2 * length parts < f)%nat → (length parts < rounds)%nat → fs_ready (Fs st w k) →
  fresh k0 (front_address (base_addr (kernel_heap k0)) segs) SIZEOF_FAT_ITEM →
  ∃ k' segs' st' w', let q := front_address (base_addr (kernel_heap k0)) segs' in
    while_loop rounds (traverse_round fuel p (DiskAt 0)) (node, front_address (base_addr (kernel_heap k0)) segs, i, Fs st w k) =
      Ok (Some (q, r), Fs st' w' k') ∧ fs_ready (Fs st' w' k') ∧ fresh k0 q SIZEOF_FAT_ITEM ∧
    front_since k0 k' (segs' ++ [Used 1]) (f - 2 * length parts).
Proof.
  induction parts as [|c parts IH]; intros cell node i r k segs f st w [|rounds] Hparts Hnode Hlead Sk Hf Hrounds Hs Hq;
    try (cbn [length] in Hrounds; lia); cbn [parts_at leads_to] in Hparts, Hlead.
  - rewrite Hparts in Hnode. injection Hnode as <-. subst r. exists k, segs, st, w. split; [apply while_exit; done|].
    split; [exact Hs|]. split; [exact Hq|]. by rewrite Nat.mul_0_r, Nat.sub_0_r.
  - destruct Hparts as (node' & En & Hne & Hon & Hpart & Hparts). rewrite Hnode in En. injection En as <-.
    destruct Hlead as (name & ext & e & n & Hsplit & He & Hlead). cbn [length] in Hf, Hrounds.
    destruct (traverse_round_since k0 k segs f st w i node c parts name ext e n Sk ltac:(lia) Hs Hq Hne Hpart Hon Hparts Hsplit He)
      as (k1 & st1 & w1 & next & E & Hnext & Hs1 & Hq1 & S1).
    destruct (IH (node + 4) next _ r k1 _ (f - 2)%nat st1 w1 rounds Hparts Hnext Hlead S1) as (k' & segs' & st' & w' & E' & Hs' & Hq' & S');
      [lia|lia|exact Hs1|exact Hq1|].
    exists k', segs', st', w'. rewrite (while_continue _ _ _ _ E). split; [exact E'|]. split; [exact Hs'|]. split; [exact Hq'|].
    cbn [length]. replace (f - 2 * S (length parts))%nat with (f - 2 - 2 * length parts)%nat by lia. exact S'.
Qed.

(** [fat16_open]: a descriptor of the item the path leads to. *)
Lemma fat16_open_spec k segs f st w cell path parts r : kernel_front k segs f → (2 * length parts + 2 < f)%nat →
  (length parts < fuel)%nat → parts_at k cell parts → kread k cell = Ok path → leads_to (root_directory p) parts r →
  fs_ready (Fs st w k) →
  ∃ q k' segs' st' w', fat16_open fuel p (Fs st w k) (DiskAt 0) path = Ok (Some (q, fresh_descriptor r), Fs st' w' k') ∧
    0 < q < 2 ^ 32 ∧ modifies [] k k' ∧ fs_ready (Fs st' w' k') ∧ kernel_front k' segs' (f - 2 * length parts - 2).
Proof.
  intros Hk Hf Hl Hparts Hpath Hlead Hs. unfold fat16_open, traverse_path. pose proof (since_refl _ _ _ Hk) as Sk.
  destruct (since_object k k segs f SIZEOF_FAT_ITEM Sk) as (k1 & E1 & Hq & Hfr & S1); [done|lia|].
  cbn [kern stream Fat16.device]. rewrite E1, bind_Ok, decide_False by lia.
  destruct (traverse_since k parts cell path (root_directory p) r k1 segs (f - 1) st w fuel Hparts Hpath Hlead S1)
    as (k2 & segs2 & st2 & w2 & -> & Hs2 & Hq2 & S2); [lia|lia|exact Hs|exact Hfr|]. rewrite bind_Ok.
  destruct (open_item_since k k2 _ _ st2 w2 r S2) as (k3 & -> & Hq3 & _ & S3); [lia|]. rewrite bind_Ok.
  rewrite <- app_assoc in S3. cbn [app] in S3.
  destruct (since_free k k3 segs2 1 [Used 1] _ SIZEOF_FAT_ITEM S3) as (k4 & E4 & S4); [lia|done|exact Hq2|].
  rewrite (fs_free_ok (Fs st2 w2 k3) _ k4 E4), bind_Ok.
  eexists _, k4, _, st2, w2. split; [reflexivity|]. split; [exact Hq3|]. split; [apply S4|]. split; [exact Hs2|].
  replace (f - 2 * length parts - 2)%nat with (f - 1 - 2 * length parts - 1)%nat by lia. apply S4.
Qed.
End mounted.

(** ** The mounted volume is a file system *)

Lemma file_slice_part {W} `{BlockDeviceLaws W} p cs x n size : 0 ≤ x → 0 ≤ n → x + n ≤ size →
  take (Z.to_nat n) (drop (Z.to_nat x) (file_slice p cs 0 size)) = file_slice p cs x n.
Proof.
  intros Hx Hn Hs. pose proof (file_slice_length p cs 0 x Hx). pose proof (file_slice_length p cs x n Hn).
  replace size with (x + (n + (size - x - n))) by lia. rewrite (file_slice_app _ _ 0 x), (file_slice_app _ _ (0 + x) n) by lia.
  change (0 + x) with x.
  rewrite drop_app_length' by lia.
  apply take_app_length'. lia.
Qed.

Section file_system.
Context {W : Type} {B : BlockDevice W} `{!BlockDeviceLaws W}.
Context (device : disk_t volume → BlockDevice W) (disk0 : disk_t volume) (fuel : nat) (disk_address : Z).
Hypothesis Hdevice : ∀ v, device (set_fs_private disk0 v) = B.

(** A volume is mounted on the disk. *)
Record volume_mounted (f : W * disk_t volume) (v : volume) : Prop := VolumeMounted {
  mounted_disk : f.2 = set_fs_private disk0 v;
  mounted_ok : volume_ok (private v);
  mounted_device : block_ready f.1;
  mounted_stream : DiskStream.disk (private_stream v) = DiskAt 0;
  mounted_fuel : (32 < fuel)%nat ∧ (Z.to_nat (bytes_per_cluster (private v)) < fuel)%nat
}.

(** The clusters [cs] hold the bytes of a file of [size] bytes. *)
Record clusters_hold (p : fat_private_data_t) (cs : list Z) (size : Z) (bytes : list Z) : Prop := ClustersHold {
  hold_size : 0 ≤ size ≤ capacity p cs ∧ capacity p cs < 2 ^ 31;
  hold_fuel : (Z.to_nat (capacity p cs) < fuel)%nat;
  hold_bytes : bytes = file_slice p cs 0 size
}.

(** The path leads to a file that holds [bytes], and there is room to open it. *)
Definition fat_file_in (k : kernel) (f : W * disk_t volume) (parts : list (list Z)) (bytes : list Z) : Prop :=
  ∃ v segs n r c cs, volume_mounted f v ∧ kernel_front k segs n ∧ (2 * length parts + 2 < n)%nat ∧ (length parts < fuel)%nat ∧
    leads_to (private v) fuel (root_directory (private v)) parts r ∧ file_ok (private v) (fresh_descriptor (private v) r) c cs ∧
    clusters_hold (private v) cs (size_bytes (entry r)) bytes.

(** [priv] is open on a file that holds [bytes], at [x]. *)
Definition fat_opened (f : W * disk_t volume) (priv : Z) (bytes : list Z) (x : Z) : Prop :=
  ∃ v d c cs, volume_mounted f v ∧ descriptors v !! priv = Some d ∧ file_ok (private v) d c cs ∧ pos d = x ∧
    (x < Z.of_nat (length bytes) → eof d = 0) ∧ clusters_hold (private v) cs (size_bytes (entry (item d))) bytes.

Lemma fat_open_law k f cell path parts bytes mode : parts_at k cell parts → kread k cell = Ok path →
  fat_file_in k f parts bytes →
  ∃ priv k' f', open_member device fuel k f disk_address path mode = Ok (priv, k', f') ∧ 0 < priv < 2 ^ 32 ∧
    modifies [] k k' ∧ fat_opened f' priv bytes 0.
Proof.
  destruct f as [w disk]. intros Hparts Hpath (v & segs & n & r & c & cs & [Hd Hv Hw Hst Hfuel] & Hk & Hn & Hl & Hlead & Hfile & Hc).
  cbn [fst snd] in Hd, Hw. subst disk. unfold open_member. cbn [fs_private set_fs_private or_ub]. rewrite bind_Ok, Hdevice.
  destruct (fat16_open_spec (private v) fuel Hv Hfuel k segs n (private_stream v) w cell path parts r Hk Hn Hl Hparts Hpath Hlead)
    as (q & k' & segs' & st' & w' & E & Hq & M & Hs & _); [by split|].
  unfold volume_fs. rewrite E, bind_Ok. cbn [volume_state kern stream Fat16.device]. eexists q, k', _. split; [reflexivity|].
  split; [exact Hq|]. split; [exact M|].
  exists (Volume (private v) st' (<[q := fresh_descriptor (private v) r]> (descriptors v))), (fresh_descriptor (private v) r), c, cs.
  destruct Hs as [Hw' Hst']. split; [by split|]. split; [apply lookup_insert_eq|]. split; [exact Hfile|].
  split; [done|]. split; [done|]. exact Hc.
Qed.

Lemma fat_read_law k f priv bytes x size nmemb ptr :
  let n := Z.min (size * nmemb) (Z.of_nat (length bytes) - x) in
  fat_opened f priv bytes x → 0 ≤ x < Z.of_nat (length bytes) → 0 ≤ size * nmemb < 2 ^ 31 → mapped (memory k) ptr n →
  ∃ f', read_member device fuel k f priv size nmemb ptr =
      Ok (n, with_memory k (write_bytes (memory k) ptr (take (Z.to_nat n) (drop (Z.to_nat x) bytes))), f') ∧
    fat_opened f' priv bytes (x + n).
Proof.
  intros n. destruct f as [w disk]. intros (v & d & c & cs & [Hd Hv Hw Hst Hfuel] & Hlook & Hfile & Hpos & He & [Hsz Hcf Hb]) Hx Hreq Hm.
  cbn [fst snd] in Hd, Hw. subst disk. unfold read_member. cbn [fs_private set_fs_private or_ub]. rewrite bind_Ok, Hlook.
  cbn [or_ub]. rewrite bind_Ok, Hdevice. set (p := private v) in *.
  assert (Hlen : Z.of_nat (length bytes) = size_bytes (entry (item d))) by (rewrite Hb; apply file_slice_length; lia).
  destruct (fat16_read_spec p Hv fuel (volume_fs w v k) d c cs size nmemb) as (d' & s' & E & [Hw' Hst'] & Hk' & Hit & Hp' & He');
    [by split|exact Hfile|apply He; lia|lia|lia|lia|exact Hreq|lia|lia|lia|].
  rewrite Hpos, <- Hlen in E, Hp', He'. fold n in E, Hp', He'.
  rewrite E, bind_Ok, file_slice_length, mapped_checks by (exact Hm || lia). cbn [volume_state].
  rewrite Hk', Hb, file_slice_part by lia. eexists. split; [reflexivity|].
  exists (Volume p (stream s') (<[priv := d']> (descriptors v))), d', c, cs.
  split; [by split|]. split; [apply lookup_insert_eq|]. split; [by apply (file_ok_item _ d)|]. split; [done|].
  rewrite Hit. split; [|split; [exact Hsz|exact Hcf|reflexivity]]. rewrite <- Hb. intros Hlt. rewrite He', decide_False by lia. done.
Qed.

Program Definition fat16_file_system : FileSystem disk_address (fat16_operations (K := kernel) device fuel) := {|
  file_in := fat_file_in;
  opened := fat_opened
|}.
Next Obligation.
  eexists. split; [reflexivity|]. intros k f cell first parts bytes mode _ _ Hfirst Hparts Hin.
  by apply (fat_open_law k f cell first parts bytes mode).
Qed.
Next Obligation.
  eexists. split; [reflexivity|]. intros k f priv bytes x size nmemb ptr n _ Ho Hx Hreq Hm. by apply fat_read_law.
Qed.
End file_system.

(** ** The layout of a volume *)

Lemma byte_at_range l i : Forall is_byte l → 0 ≤ byte_at l i < 256.
Proof.
  intros Hl. unfold byte_at. destruct (l !! i) as [b|] eqn:E; [|by cbn]. apply (Forall_lookup_1 _ _ _ _ Hl E).
Qed.

Lemma half_at_range l i : Forall is_byte l → 0 ≤ half_at l i < 2 ^ 16.
Proof. intros Hl. unfold half_at. pose proof (byte_at_range l i Hl). pose proof (byte_at_range l (S i) Hl). lia. Qed.

Lemma layout_ok l dev : Forall is_byte l → bytes_per_sector (decode_header l) ≠ 0 → sectors_per_cluster (decode_header l) ≠ 0 →
  volume_ok (layout_of (decode_header l) dev).
Proof.
  intros Hl Hb Hs. pose proof (half_at_range l 11 Hl). pose proof (byte_at_range l 13 Hl). pose proof (half_at_range l 14 Hl).
  cbn [decode_header bytes_per_sector sectors_per_cluster] in Hb, Hs. unfold layout_of.
  split; cbn [header bytes_per_cluster data_sector decode_header bytes_per_sector sectors_per_cluster reserved_sectors]; try lia.
  apply u32_range.
Qed.

(** ** From a path to the file's bytes *)

Lemma part_sizes_blocks parts : Forall (λ c, (length c < 4096)%nat) parts →
  front_blocks (part_sizes parts) = (2 * length parts)%nat ∧ Forall (λ size, 0 < size < 2 ^ 32) (part_sizes parts).
Proof.
  induction 1 as [|c parts Hc _ [IH1 IH2]]; [done|]. unfold part_sizes in *. cbn [flat_map]. split.
  - unfold front_blocks in *. cbn [app sum_list_with length]. rewrite IH1.
    change (Z.to_nat (size_to_nblocks SIZEOF_PATH_PART)) with 1%nat. rewrite size_to_nblocks_object by lia. lia.
  - constructor; [done|]. constructor; [lia|exact IH2].
Qed.

Lemma splits_length l parts : splits l parts → Forall (λ c, (length c ≤ length l)%nat) parts.
Proof.
  induction 1 as [|l|c Hne Hs|c l parts Hne Hs Hsp IH]; [constructor|constructor|by repeat constructor|].
  constructor; [rewrite length_app; lia|]. eapply Forall_impl; [exact IH|]. intros x Hx. rewrite length_app. cbn in *. lia.
Qed.

(** The blocks [fopen] takes before it opens the file. *)
Lemma fopen_room t rest parts (Q : kernel → Prop) k segs f : path_text t 48 rest → splits rest parts →
  kernel_front k segs f → (2 * length parts + 2 ≤ f)%nat →
  (∀ k' segs', kernel_front k' segs' (f - 2 * length parts - 2) → Q k') →
  room_then Q (SIZEOF_PATH_ROOT :: part_sizes parts ++ [SIZEOF_FILE]) k.
Proof.
  intros [Et _] Hsp Hk Hf HQ.
  assert (Hlen : Forall (λ c, (length c < 4096)%nat) parts).
  { eapply Forall_impl; [apply (splits_length _ _ Hsp)|]. cbn. intros c Hc. apply (f_equal length) in Et.
    rewrite length_take in Et. cbn [length] in Et. unfold MAX_PATH_LEN in Et. lia. }
  destruct (part_sizes_blocks parts Hlen) as [Hb Hs].
  assert (E : front_blocks (SIZEOF_PATH_ROOT :: part_sizes parts ++ [SIZEOF_FILE]) = (2 * length parts + 2)%nat).
  { unfold front_blocks in *. cbn [sum_list_with]. rewrite sum_list_with_app, Hb. cbn [sum_list_with].
    change (Z.to_nat (size_to_nblocks SIZEOF_PATH_ROOT)) with 1%nat. change (Z.to_nat (size_to_nblocks SIZEOF_FILE)) with 1%nat. lia. }
  apply (front_room Q _ k segs f Hk); [|rewrite E; lia|].
  - constructor; [done|]. apply Forall_app. split; [exact Hs|by constructor].
  - intros k' Hk' _. rewrite E in Hk'. eapply (HQ k'). replace (f - 2 * length parts - 2)%nat with (f - (2 * length parts + 2))%nat by lia. exact Hk'.
Qed.

(** * The claims *)

(** C9: [fat16_probe] on a heap with room at its end: on a disk whose first sector has the
    FAT16 signature and system id it returns 0 with the volume laid out as the header
    says, a volume the other functions are correct on, having freed the stream it read
    with; on any other disk it returns -EMEDIUMTYPE. What was in use keeps its bytes. *)
Theorem fat16_probe_mounts {W} `{BlockDeviceLaws W} fuel w k segs f :
  kernel_front k segs f → (3 < f)%nat → block_ready w → SIZEOF_FAT_HEADER ≤ disk_size → (62 < fuel)%nat →
  (header_ok disk_header = true → bytes_per_sector disk_header ≠ 0 ∧ sectors_per_cluster disk_header ≠ 0) →
  ∃ w' k', block_ready w' ∧ (∀ a n x, kowned k a n → a ≤ x < a + n → memory k' !! x = memory k !! x) ∧
    if header_ok disk_header then
      ∃ dev, dev ≠ 0 ∧ volume_ok (layout_of disk_header dev) ∧
        fat16_probe fuel w k 0 = Ok (0, Some (layout_of disk_header dev, DiskStream 0 (DiskAt 0)), w', k') ∧
        ∃ segs', kernel_front k' segs' (f - 3)
    else fat16_probe fuel w k 0 = Ok (- EMEDIUMTYPE, None, w', k') ∧ ∃ segs', kernel_front k' segs' (f - 1).
Proof.
  intros Hk Hf Hw Hsize Hfuel Hh. destruct (fat16_probe_spec fuel w k segs f Hk Hf Hw Hsize Hfuel) as (w' & k' & segs' & Hw' & M & _ & E).
  { intros E. by apply Hh. }
  exists w', k'. split; [exact Hw'|]. split.
  { intros a n x Ho Hx. apply (modifies_bytes _ _ _ M a n); [lia|done|constructor|done]. }
  destruct (header_ok disk_header); [|destruct E; eauto]. destruct E as (dev & Hd & E & Hk'). exists dev. split; [exact Hd|].
  split; [|eauto]. destruct (Hh eq_refl). apply layout_ok; [|done..]. apply disk_slice_bytes; [done|done|lia].
Qed.

(** C6: a file is read from its path: with a FAT16 volume mounted on the disk, [fopen] on a
    path of drive 0 that leads, directory by directory, to a file whose clusters are [cs],
    returns a stream under the lowest free number, and [fread] on it stores the file's
    first bytes at [ptr], as many as asked or as there are. *)
Theorem fat16_fopen_fread {W} {B : BlockDevice W} `{!BlockDeviceLaws W} device disk0 fuel operations_at disks_address
    w_str r_str a_str colon_slash pfuel (s : vfs kernel (W * disk_t volume)) v segs f filename str_mode c t rest parts r cl cs bytes i :
  (∀ v, device (set_fs_private disk0 v) = B) → volume_mounted disk0 fuel (vstate s) v →
  operations_at (disk_fs s) = Some (fat16_operations device fuel) → disk_fs s ≠ 0 → 0 < disks_address < 2 ^ 32 →
  literals w_str r_str a_str colon_slash (memory (vmem s)) → bytes_at (memory (vmem s)) str_mode [c] → c ∈ [119; 114; 97] →
  cstr (memory (vmem s)) filename t → kowned (vmem s) filename (Z.of_nat (length t) + 1) → 0 < filename →
  path_text t 48 rest → splits rest parts → parts ≠ [] → (length parts < fuel)%nat → (length parts < pfuel)%nat →
  kernel_front (vmem s) segs f → (4 * length parts + 4 < f)%nat →
  table_ok (vmem s) (file_table s) → table (file_table s) !! i = Some 0 →
  leads_to (private v) fuel (root_directory (private v)) parts r → file_ok (private v) (fresh_descriptor (private v) r) cl cs →
  clusters_hold fuel (private v) cs (size_bytes (entry r)) bytes →
  ∃ d s' fd, fopen operations_at disks_address w_str r_str a_str colon_slash pfuel s filename str_mode = Ok (d, s') ∧
    file_table_get_descriptor (file_table s') fd = Ok d ∧
    (∀ n, 0 ≤ n < fd → ∃ e, table (file_table s) !! Z.to_nat n = Some e ∧ e ≠ 0) ∧
    ∀ ptr size nmemb, let n := Z.min (size * nmemb) (Z.of_nat (length bytes)) in
      0 < Z.of_nat (length bytes) → 0 ≤ size * nmemb < 2 ^ 31 → mapped (memory (vmem s')) ptr n →
      ∃ s'', fread operations_at disks_address s' ptr size nmemb d = Ok (n, s'') ∧
        bytes_at (memory (vmem s'')) ptr (take (Z.to_nat n) bytes).
Proof.
  intros Hdev Hvol Hops Hnz Hda Hlit Hmode Hc Ht Ho Hf0 Hpt Hsp Hne Hl Hpl Hk Hf Hok Hfree Hlead Hfile Hhold.
  pose (fs := fat16_file_system device disk0 fuel disks_address Hdev).
  destruct (fopen_spec operations_at disks_address w_str r_str a_str colon_slash (fat16_operations device fuel) (Hfs := fs)
    pfuel s filename str_mode c t rest parts bytes i) as (d & s' & fd & E & Hd & Hst & _ & _ & Hg & Hlow & _); try assumption.
  { eexists. apply Hk. }
  { apply (fopen_room t rest parts _ _ segs f Hpt Hsp Hk); [lia|]. intros k' segs' Hk'.
    exists v, segs', (f - 2 * length parts - 2)%nat, r, cl, cs. split; [exact Hvol|]. split; [exact Hk'|]. split; [lia|].
    split; [exact Hl|]. split; [exact Hlead|]. by split. }
  exists d, s', fd. split; [exact E|]. split; [exact Hg|]. split; [exact Hlow|]. intros ptr size nmemb n Hlen Hsz Hm. unfold n in *.
  rewrite <- (Z.sub_0_r (Z.of_nat (length bytes))) in Hm.
  destruct (fread_spec operations_at disks_address (fat16_operations device fuel) (Hfs := fs) s' d bytes 0 size nmemb ptr)
    as (s'' & Er & Hmem & _); try assumption; [lia|lia|].
  rewrite Z.sub_0_r in *. exists s''. split; [exact Er|]. rewrite Hmem. apply bytes_at_write.
Qed.

(** ** A disk with a volume, and a kernel that has a path on it

    The volume of [Fat16]'s witnesses with its header in sector 0; "0:/A" is the first
    entry of the root directory, 700 bytes in the clusters 2 and 4. *)
Definition witness_header : list Z :=
  replicate 11 0 ++ [0; 2; 1; 60; 0; 1; 32; 0; 0; 0; 0; 8; 0] ++ replicate 14 0 ++ [FAT16_SIGNATURE] ++ replicate 15 0 ++ FAT16_SYSTEM_ID.

Definition volume_image : gmap Z Z := write_bytes witness_image 0 witness_header.
Definition volume_byte (x : Z) : Z := default 0 (volume_image !! x).

#[local] Instance volume_disk : BlockDevice unit := memory_disk volume_byte.
#[local] Instance volume_disk_laws : BlockDeviceLaws unit := memory_disk_laws volume_byte.

Definition witness_volume_segs : list seg := Used 1 :: replicate 12 Free.
Definition witness_volume_kernel : kernel :=
  example_kernel witness_volume_segs 0xF000
    [(0x1E000, [48; 58; 47; 65; 0]); (0x1E010, [58; 47]); (0x1E020, [119]); (0x1E024, [114]); (0x1E028, [97])].

Lemma witness_volume_kernel_ok : kernel_ok witness_volume_kernel witness_volume_segs.
Proof. by apply example_kernel_ok; repeat constructor. Qed.

Lemma witness_volume_front : kernel_front witness_volume_kernel [Used 1] 12.
Proof. split; [exact witness_volume_kernel_ok|]. split; [apply witness_volume_kernel_ok|done]. Qed.

Lemma fat16_probe_mounts_witness :
  ∃ w' k', block_ready w' ∧ (∀ a n x, kowned witness_volume_kernel a n → a ≤ x < a + n →
      memory k' !! x = memory witness_volume_kernel !! x) ∧
    ∃ dev, dev ≠ 0 ∧ volume_ok (layout_of disk_header dev) ∧
      fat16_probe 100 tt witness_volume_kernel 0 = Ok (0, Some (layout_of disk_header dev, DiskStream 0 (DiskAt 0)), w', k') ∧
      ∃ segs', kernel_front k' segs' (12 - 3).
Proof.
  assert (E : header_ok disk_header = true) by by vm_compute.
  pose proof (fat16_probe_mounts 100 tt witness_volume_kernel [Used 1] 12 witness_volume_front) as R. rewrite E in R.
  apply R; [lia|done|by vm_compute|lia|]. intros _. split; by vm_compute.
Defined.

Definition witness_disk0 : disk_t volume := Disk DISK_TYPE_PHYSICAL DISK_SECTOR_SIZE ATA_MASTER 0 0x1F000 None (Some ATA_PORTS_PRIMARY).
Definition witness_mounted : volume := Volume witness_private (DiskStream 0 (DiskAt 0)) ∅.
Definition witness_device (d : disk_t volume) : BlockDevice unit := volume_disk.

Definition witness_files : vfs kernel (unit * disk_t volume) :=
  Vfs witness_volume_kernel (tt, set_fs_private witness_disk0 witness_mounted) (file_table_init (FileTable [] 0)).2
    (0x1F000 :: replicate 4 0) 0x1F000.

Definition witness_fat16_at (a : Z) : option (filesystem_operations_t kernel (unit * disk_t volume)) :=
  if decide (a = 0x1F000) then Some (fat16_operations witness_device 2000) else None.

(** The item of "A". *)
Definition witness_entry : fat_entry_t := decode_entry (witness_raw_entry 65 2).
Definition witness_item : fat_item_t :=
  item_of witness_private (opened_item witness_private (root_directory witness_private)) witness_entry 1.

Lemma witness_volume_mounted : volume_mounted witness_disk0 2000 (vstate witness_files) witness_mounted.
Proof. split; [done|exact witness_volume_ok|done|done|split; apply Nat.ltb_lt; by vm_compute]. Qed.

Lemma witness_leads : leads_to witness_private 2000 (root_directory witness_private) [[65]] witness_item.
Proof.
  exists ([65] ++ replicate 7 32), (replicate 3 32), witness_entry, 1. split; [done|]. split; [|done]. apply in_root.
  - split; [split; [split|]; by vm_compute|by vm_compute|split; by vm_compute|apply Nat.ltb_lt; by vm_compute].
  - done.
  - by vm_compute.
Qed.

Lemma witness_clusters c : 2 ≤ c < 100 → cluster_ok witness_private c.
Proof.
  intros Hc. assert (Hs : disk_size = 512000) by by vm_compute.
  unfold cluster_ok, fat_addr, cluster_addr, cluster_sector, FAT16_CLUSTER_RESERVED.
  rewrite Hs. cbn [witness_private header data_sector bytes_per_cluster bytes_per_sector sectors_per_cluster reserved_sectors]. lia.
Qed.

Lemma witness_item_file : file_ok witness_private (fresh_descriptor witness_private witness_item) 2 [2; 4].
Proof.
  assert (E2 : fat_next witness_private 2 = 4) by by vm_compute.
  assert (E4 : fat_next witness_private 4 = 0xFFF8) by by vm_compute.
  split; [by vm_compute|by vm_compute|by vm_compute| |done]. cbn [is_chain]. rewrite E2, E4.
  split; [done|]. split; [apply witness_clusters; lia|]. split; [done|].
  split; [apply witness_clusters; lia|]. by unfold FAT16_CLUSTER_CHAIN_END_BEGIN.
Qed.

Definition witness_contents : list Z := replicate 512 7 ++ replicate 188 0.

Lemma fat16_fopen_fread_witness :
  ∃ d s' fd, fopen witness_fat16_at 0x1F800 0x1E020 0x1E024 0x1E028 0x1E010 9 witness_files 0x1E000 0x1E024 = Ok (d, s') ∧
    file_table_get_descriptor (file_table s') fd = Ok d ∧
    (∀ n, 0 ≤ n < fd → ∃ e, table (file_table witness_files) !! Z.to_nat n = Some e ∧ e ≠ 0) ∧
    ∀ ptr size nmemb, let n := Z.min (size * nmemb) (Z.of_nat (length witness_contents)) in
      0 < Z.of_nat (length witness_contents) → 0 ≤ size * nmemb < 2 ^ 31 → mapped (memory (vmem s')) ptr n →
      ∃ s'', fread witness_fat16_at 0x1F800 s' ptr size nmemb d = Ok (n, s'') ∧
        bytes_at (memory (vmem s'')) ptr (take (Z.to_nat n) witness_contents).
Proof.
  apply (fat16_fopen_fread witness_device witness_disk0 2000 witness_fat16_at 0x1F800 0x1E020 0x1E024 0x1E028 0x1E010 9
    witness_files witness_mounted [Used 1] 12 0x1E000 0x1E024 114 [48; 58; 47; 65] [65] [[65]] witness_item 2 [2; 4] witness_contents 0).
  - done.
  - exact witness_volume_mounted.
  - done.
  - done.
  - done.
  - split_and!; example_mem.
  - example_mem.
  - apply list_elem_of_In. cbn. tauto.
  - split; [example_mem|by repeat constructor].
  - by apply example_outside.
  - done.
  - done.
  - apply splits_last; [done|by repeat constructor].
  - done.
  - cbn. lia.
  - cbn. lia.
  - exact witness_volume_front.
  - cbn. lia.
  - split; [eexists; exact witness_volume_kernel_ok|done|..].
    + intros i d Hi Hd. by apply lookup_replicate in Hi as [-> _].
    + intros i j d e Hi _ Hd. by apply lookup_replicate in Hi as [-> _].
  - done.
  - exact witness_leads.
  - exact witness_item_file.
  - split; [split; [split|]; by vm_compute|apply Nat.ltb_lt; by vm_compute|by vm_compute].
Defined.
