(* ===== verification/Process.v ===== *)
(** [src/kernel/task/process.c]: processes, their list, and loading a program.

    [processing] is what the functions share: the tasks with the machine under them,
    the state of the file interface apart from memory, and the globals of
    [process.c]. [system_task] and [kernel_page_directory] are the addresses of the
    globals of those names; [raise_int_20] is the routine of [idt.asm], an argument;
    [idle_function] is the address of the function. The file functions act on a
    [vfs] made of the memory and the file state. *)
From S2P Require Import Prelude Mem CString Heap Kheap Store Ring Termio Disk PathParser Gdt Paging Task FileTable File.

Definition MAX_PROCESSES : Z := 1024.
Definition PROGRAM_BASE_VIRT_ADDR : Z := 0x400000.
Definition PROGRAM_STACK_TOP_VIRT_ADDR : Z := 0x4000000.
Definition PROGRAM_STACK_SIZE : Z := 4096.
Definition PAGING_ACCESS_FROM_ALL : Z := 4.

(** Members of [struct process] other than those of [Task], and of [struct stat]. *)
Definition process_pid : Z := 0.
Definition process_task : Z := 256.
Definition process_memory : Z := 264.
Definition process_memory_size : Z := 268.
Definition process_stack : Z := 272.
Definition process_next : Z := 276.
Definition process_previous : Z := 280.
Definition stat_st_size : Z := 4.

(** [ERROR(v)], an error number as a pointer. *)
Definition ERROR (v : Z) : Z := u32 v.
Definition IS_ERROR (v : Z) : bool := bool_decide (v < 0).

Record processing (K F : Type) := Processing {
  ptasks : tasking K;
  pfiles : F * file_table_t * list Z * Z;   (* the file systems' state, the table, the registered systems, the disk's *)
  processes : list Z;
  current_process : Z;
  interrupts : bool
}.
Arguments Processing {K F}.
Arguments ptasks {K F}.
Arguments pfiles {K F}.
Arguments processes {K F}.
Arguments current_process {K F}.
Arguments interrupts {K F}.

Definition set_ptasks {K F} (s : processing K F) (t : tasking K) : processing K F :=
  Processing t (pfiles s) (processes s) (current_process s) (interrupts s).
Definition set_processes {K F} (s : processing K F) (l : list Z) : processing K F :=
  Processing (ptasks s) (pfiles s) l (current_process s) (interrupts s).
Definition set_current_process {K F} (s : processing K F) (p : Z) : processing K F :=
  Processing (ptasks s) (pfiles s) (processes s) p (interrupts s).
Definition set_interrupts {K F} (s : processing K F) (b : bool) : processing K F :=
  Processing (ptasks s) (pfiles s) (processes s) (current_process s) b.

Definition pmem {K F} (s : processing K F) : K := kheap (mach (ptasks s)).
Definition set_pmem {K F} (s : processing K F) (k : K) : processing K F :=
  set_ptasks s (set_mach (ptasks s) (set_kheap (mach (ptasks s)) k)).
Definition set_pmach {K F} (s : processing K F) (m : machine K) : processing K F :=
  set_ptasks s (set_mach (ptasks s) m).

(** The file interface's view of the state, and back. *)
Definition vfs_of {K F} (s : processing K F) : vfs K F :=
  let '(f, ft, l, d) := pfiles s in Vfs (pmem s) f ft l d.
Definition set_vfs {K F} (s : processing K F) (v : vfs K F) : processing K F :=
  set_pmem (Processing (ptasks s) (vstate v, file_table v, registered_filesystems v, disk_fs v)
              (processes s) (current_process s) (interrupts s)) (vmem v).

(** [enable_interrupts] and [disable_interrupts]: [sti] and [cli]. *)
Definition enable_interrupts {K F} (s : processing K F) : processing K F := set_interrupts s true.
Definition disable_interrupts {K F} (s : processing K F) : processing K F := set_interrupts s false.

Definition process_current {K F} (s : processing K F) : Z := current_process s.

Definition process_get {K F} (s : processing K F) (pid : Z) : outcome Z :=
  if decide (pid < 0 ∨ MAX_PROCESSES ≤ pid) then Ok (ERROR (- EINVAL)) else arr_get (processes s) pid.

Section process.
Context {K F : Type} `{Allocator K}.
Variable operations_at : Z → option (filesystem_operations_t K F).
Variables disks_address w_str r_str a_str colon_slash : Z.
Variables system_task kernel_page_directory idle_function : Z.
Variable raise_int_20 : processing K F → outcome (processing K F).
Implicit Type s : processing K F.

(** Members of structs in memory. *)
Definition pread s (p off : Z) : outcome Z := if decide (p = 0) then Ub else kread (pmem s) (p + off).
Definition pwrite s (p off v : Z) : outcome (processing K F) :=
  if decide (p = 0) then Ub else k ← kwrite (pmem s) (p + off) v; Ok (set_pmem s k).
Definition pzalloc s (size : Z) : outcome (Z * processing K F) :=
  pk ← kzalloc (pmem s) size; let '(p, k) := pk in Ok (p, set_pmem s k).
Definition pfree s (p : Z) : outcome (processing K F) := k ← kfree (pmem s) p; Ok (set_pmem s k).

(** [strncpy(process->name, source, sizeof(process->name))]. *)
Definition pname s (process source : Z) : outcome (processing K F) :=
  m ← strncpy (memory (pmem s)) (process + process_name) source MAX_PATH_LEN;
  Ok (set_pmem s (with_memory (pmem s) m)).

Definition process_list_insert s (process : Z) : outcome (Z * processing K F) :=
  system_process ← pread s system_task task_process;
  s ← pwrite s process process_next system_process;
  previous ← pread s system_process process_previous;
  s ← pwrite s process process_previous previous;
  s ← pwrite s system_process process_previous process;
  previous ← pread s process process_previous;
  s ← pwrite s previous process_next process;
  Ok (process, s).

Definition process_list_remove s (process : Z) : outcome (Z * processing K F) :=
  previous ← pread s process process_previous;
  next ← pread s process process_next;
  s ← pwrite s previous process_next next;
  next ← pread s process process_next;
  previous ← pread s process process_previous;
  s ← pwrite s next process_previous previous;
  s ← pwrite s process process_next 0;
  s ← pwrite s process process_previous 0;
  Ok (process, s).

(** A call of a file function. *)
Definition with_files {A} (f : vfs K F → outcome (A * vfs K F)) s : outcome (A * processing K F) :=
  r ← f (vfs_of s); Ok (r.1, set_vfs s r.2).

(** The block at [out]; [memory] and [len] are the values of the two results. *)
Definition load_binary_out (fuel : nat) s (res fd memory len : Z) : outcome (Z * Z * Z * processing K F) :=
  r ← with_files (λ v, fclose operations_at disks_address fuel v fd) s;
  let s := r.2 in
  if decide (res = 0) then Ok (res, memory, len, s)
  else
    s ← (if decide (fd = 0) then Ok s
         else r ← with_files (λ v, fclose operations_at disks_address fuel v fd) s; Ok r.2);
    if decide (memory = 0) then Ok (res, memory, 0, s)
    else s ← pfree s memory; Ok (res, 0, 0, s).

(** [len] is what [*len] holds before; [file_stat] is the address of the local. The
    values are the result, [*memory] and [*len]. *)
Definition process_load_binary (fuel : nat) s (filename len file_stat : Z) : outcome (Z * Z * Z * processing K F) :=
  r ← with_files (λ v, fopen operations_at disks_address w_str r_str a_str colon_slash fuel v filename r_str) s;
  let '(fd, s) := r in
  if decide (fd = 0) then load_binary_out fuel s (- File.EIO) fd 0 len
  else
    fileno ← pread s fd file_fileno;
    r ← with_files (λ v, fstat operations_at disks_address v (s32 fileno) file_stat) s;
    let '(res, s) := r in
    if decide (res ≠ 0) then load_binary_out fuel s res fd 0 len
    else
      st_size ← kread (pmem s) (file_stat + stat_st_size);
      r ← pzalloc s st_size; let '(memory, s) := r in
      if decide (memory = 0) then load_binary_out fuel s (- ENOMEM) fd memory len
      else
        r ← with_files (λ v, fread operations_at disks_address v memory st_size 1 fd) s;
        let '(read_bytes, s) := r in
        if decide (read_bytes ≠ st_size) then load_binary_out fuel s (- File.EIO) fd memory len
        else load_binary_out fuel s 0 fd memory st_size.

Definition process_map_memory s (process : Z) : outcome (Z * processing K F) :=
  memory ← pread s process process_memory;
  if decide (memory = 0) then Panic "PROCESS MEMORY NOT LOADED"
  else if decide (process = 0) then Panic "PROCESS BROKEN"
  else
    r ← paging_clone_directory (mach (ptasks s)) kernel_page_directory kernel_page_directory;
    let '(page_directory, m) := r in
    let s := set_pmach s m in
    s ← pwrite s process process_page_directory page_directory;
    code_begin ← virtual_to_physical_addr (mach (ptasks s)) (current_directory (mach (ptasks s))) memory;
    memory_size ← pread s process process_memory_size;
    let code_end := paging_align_address (u32 (code_begin + memory_size)) in
    let flags := Z.lor (Z.lor PAGING_WRITABLE_PAGE PAGING_ACCESS_FROM_ALL) PAGING_PRESENT in
    r ← paging_map_from_to (mach (ptasks s)) page_directory PROGRAM_BASE_VIRT_ADDR code_begin code_end flags;
    let '(res, m) := r in
    let s := set_pmach s m in
    if decide (res ≠ 0) then Ok (res, s)
    else
      stack ← pread s process process_stack;
      stack_begin ← virtual_to_physical_addr (mach (ptasks s)) (current_directory (mach (ptasks s))) stack;
      let stack_end := paging_align_address (u32 (stack_begin + PROGRAM_STACK_SIZE)) in
      r ← paging_map_from_to (mach (ptasks s)) page_directory PROGRAM_STACK_TOP_VIRT_ADDR stack_begin stack_end flags;
      let '(res, m) := r in Ok (res, set_pmach s m).

(** [processes[pid] = process]. *)
Definition set_slot s (pid process : Z) : outcome (processing K F) :=
  l ← arr_set (processes s) pid process; Ok (set_processes s l).

(** The first statements of the two functions that follow. *)
Definition new_kernel_process s (pid name : Z) : outcome (Z * processing K F) :=
  r ← pzalloc s SIZEOF_PROCESS; let '(process, s) := r in
  s ← pwrite s process process_pid pid;
  s ← pwrite s process process_memory_size 0;
  s ← pwrite s process process_memory KERNEL_VIRTUAL_BASE;
  s ← pname s process name;
  s ← pwrite s process process_page_directory kernel_page_directory;
  Ok (process, s).

(** [name] is the address of ["System Process"]. *)
Definition init_system_process s (name : Z) : outcome (processing K F) :=
  r ← new_kernel_process s 0 name; let '(process, s) := r in
  s ← pwrite s process process_task system_task;
  s ← pwrite s process process_next process;
  s ← pwrite s process process_previous process;
  s ← pwrite s system_task registers_ss GDT_KERNEL_DATA_SEGMENT_SELECTOR;
  s ← pwrite s system_task task_process process;
  s ← pwrite s system_task task_next system_task;
  s ← pwrite s system_task task_previous system_task;
  let s := set_current_process s process in
  task ← pread s process process_task;
  let s := set_ptasks s (set_current_task (ptasks s) task) in
  pid ← pread s process process_pid;
  s ← set_slot s (s32 pid) process;
  raise_int_20 s.

(** [name] is the address of ["Idle Process"]. The stack pointer passed on is the
    [char] after the stack. *)
Definition init_idle_process (fuel : nat) s (name : Z) : outcome (processing K F) :=
  r ← new_kernel_process s 1 name; let '(process, s) := r in
  r ← pzalloc s PROGRAM_STACK_SIZE; let '(stack, s) := r in
  s ← pwrite s process process_stack stack;
  top ← load_char (memory (pmem s)) (stack + PROGRAM_STACK_SIZE);
  r ← task_new fuel (ptasks s) process 1 idle_function (u32 top);
  let '(task, t) := r in
  let s := set_ptasks s t in
  s ← pwrite s process process_task task;
  pid ← pread s process process_pid;
  s ← set_slot s (s32 pid) process;
  r ← process_list_insert s process; Ok r.2.

Definition tasking_init (fuel : nat) s (system_name idle_name : Z) : outcome (processing K F) :=
  s ← init_system_process s system_name;
  let s := enable_interrupts s in
  init_idle_process fuel s idle_name.

(** The block at [out] for a failure. *)
Definition process_init_fail s (res process : Z) : outcome (Z * processing K F) :=
  stack ← pread s process process_stack;
  s ← (if decide (stack = 0) then Ok s else pfree s stack);
  memory ← pread s process process_memory;
  s ← (if decide (memory = 0) then Ok s else pfree s memory);
  task ← pread s process process_task;
  let s := if decide (task = 0) then s else set_ptasks s (task_free (ptasks s) task) in
  s ← pfree s process;
  Ok (res, s).

(** From the stack on. *)
Definition process_build (fuel : nat) s (process name privileged : Z) : outcome (Z * processing K F) :=
  r ← pzalloc s PROGRAM_STACK_SIZE; let '(stack, s) := r in
  s ← pwrite s process process_stack stack;
  if decide (stack = 0) then Ok (- EINVAL, s)
  else
    r ← process_map_memory s process; let '(res, s) := r in
    if decide (res ≠ 0) then Ok (res, s)
    else
      s ← pname s process name;
      r ← task_new fuel (ptasks s) process privileged PROGRAM_BASE_VIRT_ADDR (PROGRAM_STACK_TOP_VIRT_ADDR + PROGRAM_STACK_SIZE);
      let '(task, t) := r in
      let s := set_ptasks s t in
      s ← pwrite s process process_task task;
      if decide (task = 0) then Ok (- ENOMEM, s)
      else r ← process_list_insert s process; Ok (0, r.2).

(** [*process] is the slot [processes[slot]]. *)
Definition process_init (fuel : nat) s (name memory memory_size privileged slot : Z) : outcome (Z * processing K F) :=
  r ← pzalloc s SIZEOF_PROCESS; let '(process, s) := r in
  s ← set_slot s slot process;
  if decide (process = 0) then Ok (- ENOMEM, s)
  else
    s ← pwrite s process process_pid (u32 slot);
    s ← pwrite s process process_memory_size memory_size;
    s ← pwrite s process process_memory memory;
    r ← process_build fuel s process name privileged; let '(res, s) := r in
    if IS_ERROR res then process_init_fail s res process else Ok (res, s).

(** [src/kernel/task/task.c]; the macro [switch_to], which jumps to it, is used nowhere. *)
Definition __switch_task s (previous next : Z) : outcome (processing K F) :=
  let s := set_ptasks s (set_gdt (ptasks s) (tss_set_kernel_stack (gdt (ptasks s)) (u32 (next + SIZEOF_TASK)))) in
  process ← pread s next task_process;
  let s := set_current_process s process in
  Ok (set_ptasks s (set_current_task (ptasks s) next)).

(** One round of the search for a free slot. *)
Definition process_slot_round s (i : Z) : outcome (Z + Z) :=
  if decide (i < MAX_PROCESSES) then
    p ← process_get s i;
    Ok (if decide (p = 0) then inr i else inl (i + 1))
  else Ok (inr (-1)).

(** [memory_size] is an uninitialised local, and [file_stat] the address of
    another; the result of [process_load_binary] is not tested. *)
Definition process_load (fuel : nat) s (filename memory_size file_stat : Z) : outcome (Z * processing K F) :=
  slot_found ← while_loop (S (Z.to_nat MAX_PROCESSES)) (process_slot_round s) 0;
  if decide (slot_found < 0) then Ok (- ENOMEM, s)
  else
    r ← process_load_binary fuel s filename memory_size file_stat;
    let '(_, memory, memory_size, s) := r in
    process_init fuel s filename memory memory_size 0 slot_found.
End process.

(** * Structs and their members *)

Section laws.
Context {K F : Type} `{AllocatorLaws K}.
Implicit Types (k : K) (s : processing K F).

(** The words at offsets of the struct at [b]. *)
Definition reads k (b : Z) (l : list (Z * Z)) : Prop := Forall (λ ov, kread k (b + ov.1) = Ok ov.2) l.

(** The offsets are words within [n] bytes, away from the word at [off]. *)
Definition spread (n off : Z) (l : list (Z * Z)) : Prop :=
  Forall (λ ov, 0 ≤ ov.1 ∧ ov.1 + 4 ≤ n ∧ apart ov.1 4 off 4) l.

#[local] Instance spread_dec n off l : Decision (spread n off l).
Proof. unfold spread. apply _. Defined.

Lemma reads_modifies cs k k' b n l : modifies cs k k' → kowned k b n →
  Forall (λ ov, 0 ≤ ov.1 ∧ ov.1 + 4 ≤ n ∧ apart_all cs (b + ov.1) 4) l → reads k b l → reads k' b l.
Proof.
  intros M Ho Hl Hr. unfold reads in *. rewrite Forall_forall in *. intros ov Hov. rewrite <- (Hr ov Hov).
  destruct (Hl ov Hov) as (? & ? & ?). apply (modifies_read _ _ _ _ M); [|done].
  apply (kowned_sub _ _ _ _ _ Ho); lia.
Qed.

Lemma pwrite_step {Q} sizes s b n off v l : alloc_inv (pmem s) → kowned (pmem s) b n → 0 < b → 0 ≤ off → off + 4 ≤ n →
  word v → spread n off l → reads (pmem s) b l → room_then Q sizes (pmem s) →
  ∃ k', pwrite s b off v = Ok (set_pmem s k') ∧ modifies [(b + off, 4)] (pmem s) k' ∧ room_then Q sizes k' ∧
    reads k' b ((off, v) :: l).
Proof.
  intros Hi Ho Hb Hlo Hhi Hv Hsp Hr Hroom. unfold pwrite. rewrite decide_False by lia.
  destruct (write_step (Q := Q) sizes (pmem s) (b + off) v Hi) as (k' & -> & M & R & W);
    [apply (kowned_sub _ _ _ _ _ Ho); lia|done|done|].
  exists k'. rewrite bind_Ok. split; [done|]. split; [done|]. split; [done|]. apply Forall_cons. split; [done|].
  apply (reads_modifies _ _ _ _ n _ M Ho); [|done]. eapply Forall_impl; [exact Hsp|]. intros ov (? & ? & ?).
  split; [lia|]. split; [lia|]. apply Forall_singleton. unfold apart in *. cbn [fst snd]. lia.
Qed.

Lemma pread_reads s b l off v : 0 < b → reads (pmem s) b l → In (off, v) l → pread s b off = Ok v.
Proof.
  intros Hb Hr Hin. unfold pread. rewrite decide_False by lia. unfold reads in Hr. rewrite Forall_forall in Hr.
  apply list_elem_of_In in Hin. exact (Hr _ Hin).
Qed.

Lemma pread_member k b l off v : reads k b l → (off, v) ∈ l → kread k (b + off) = Ok v.
Proof. unfold reads. rewrite Forall_forall. intros Hr Hin. exact (Hr _ Hin). Qed.

(** Changes inside new memory are none to what there was. *)
Lemma modifies_new k k1 k2 b n c m : modifies [] k k1 → fresh k b n → b ≤ c → c + m ≤ b + n → 0 ≤ m →
  modifies [(c, m)] k1 k2 → modifies [] k k2.
Proof.
  intros M1 Hf Hlo Hhi Hm M2. apply (modifies_step _ [(c, m)] k k1); [done..|]. intros a l Hl Ho _.
  apply Forall_singleton. pose proof (Hf a l Hl Ho). unfold apart in *. cbn [fst snd]. lia.
Qed.

Lemma pname_step {Q} sizes s b src t : alloc_inv (pmem s) → kowned (pmem s) b SIZEOF_PROCESS →
  cstr (memory (pmem s)) src t → (length t < 250)%nat → apart src (Z.of_nat (length t) + 1) (b + process_name) 250 →
  room_then Q sizes (pmem s) →
  ∃ k', pname s b src = Ok (set_pmem s k') ∧ modifies [(b + process_name, 250)] (pmem s) k' ∧ room_then Q sizes k' ∧
    cstr (memory k') (b + process_name) t.
Proof.
  intros Hi Ho Ht Hl Ha Hroom. unfold pname, MAX_PATH_LEN.
  assert (Hon : kowned (pmem s) (b + process_name) 250).
  { apply (kowned_sub _ _ _ _ _ Ho); unfold process_name, SIZEOF_PROCESS; lia. }
  rewrite (strncpy_ok _ _ _ t); [|done|lia|apply Hon|unfold apart in Ha; lia]. rewrite bind_Ok.
  set (l := take (Z.to_nat 250) t ++ replicate (Z.to_nat 250 - length t) 0).
  assert (El : l = t ++ [0] ++ replicate (249 - length t) 0).
  { unfold l. rewrite take_ge by lia. replace (Z.to_nat 250 - length t)%nat with (S (249 - length t)) by lia. done. }
  assert (Hlen : Z.of_nat (length l) = 250) by (rewrite El, !length_app, length_replicate; cbn [length]; lia).
  destruct (bytes_step (Q := Q) sizes (pmem s) (b + process_name) l Hi) as (M & R & B); [rewrite Hlen; apply Hon| |done|].
  { rewrite El, !Forall_app. split; [|split; [by repeat constructor|by apply Forall_replicate]].
    destruct Ht as [_ Ht]. eapply Forall_impl; [exact Ht|]. unfold is_byte. cbn. lia. }
  rewrite Hlen in M. set (k' := with_memory _ (write_bytes _ _ l)) in *. exists k'.
  split; [done|]. split; [done|]. split; [done|]. split; [|apply Ht].
  rewrite El, app_assoc in B. by apply bytes_at_app in B as [B _].
Qed.

Lemma set_pmem_twice s k k' : set_pmem (set_pmem s k) k' = set_pmem s k'.
Proof. done. Qed.

Lemma pread_ok s p off v : p ≠ 0 → kread (pmem s) (p + off) = Ok v → pread s p off = Ok v.
Proof. intros Hp E. unfold pread. by rewrite decide_False. Qed.

Lemma switch_task_spec s previous next p : next ≠ 0 → kread (pmem s) (next + task_process) = Ok p →
  ∃ s', __switch_task s previous next = Ok s' ∧ mach (ptasks s') = mach (ptasks s) ∧ current_task (ptasks s') = next ∧
    current_process s' = p ∧ gdt (ptasks s') = tss_set_kernel_stack (gdt (ptasks s)) (u32 (next + SIZEOF_TASK)).
Proof.
  intros Hn Hp. unfold __switch_task. cbv zeta. rewrite (pread_ok _ next task_process p), bind_Ok by done. by eexists.
Qed.

(** Assignments to members of the struct at [b], one after another. *)
Fixpoint pwrites {A} s (b : Z) (l : list (Z * Z)) (f : processing K F → outcome A) : outcome A :=
  match l with
  | [] => f s
  | (off, v) :: l => s ← pwrite s b off v; pwrites s b l f
  end.

(** The members are words between the offsets [lo] and [hi], apart from each other. *)
Fixpoint members_apart (lo hi : Z) (l : list (Z * Z)) : Prop :=
  match l with
  | [] => True
  | (off, v) :: l => (lo ≤ off ∧ off + 4 ≤ hi ∧ Forall (λ ov, apart ov.1 4 off 4) l) ∧ members_apart lo hi l
  end.

#[local] Instance members_apart_dec lo hi l : Decision (members_apart lo hi l).
Proof. induction l as [|[off v] l IH]; cbn; apply _. Defined.

Lemma members_apart_within lo hi l ov : members_apart lo hi l → ov ∈ l → lo ≤ ov.1 ∧ ov.1 + 4 ≤ hi.
Proof.
  induction l as [|[off v] l IH]; cbn [members_apart].
  - by intros _ ?%not_elem_of_nil.
  - intros [(? & ? & _) Hl] [-> | ?]%elem_of_cons; [done|by apply IH].
Qed.

(** Where the members are. *)
Definition fields (b : Z) (l : list (Z * Z)) : list (Z * Z) := (λ ov, (b + ov.1, 4)) <$> l.

Lemma fields_apart b l a n : apart_all (fields b l) a n ↔ ∀ ov, ov ∈ l → apart a n (b + ov.1) 4.
Proof. unfold apart_all, fields. rewrite Forall_fmap, Forall_forall. done. Qed.

Lemma fields_modifies b lo hi l k k' : members_apart lo hi l → modifies (fields b l) k k' →
  modifies [(b + lo, hi - lo)] k k'.
Proof.
  intros Hl M. apply (modifies_sub _ _ _ _ M). intros a n _ _ Ha. apply fields_apart. intros ov Hov.
  unfold apart_all in Ha. rewrite Forall_singleton in Ha. pose proof (members_apart_within _ _ _ _ Hl Hov). unfold apart in *. cbn [fst snd] in *. lia.
Qed.

Lemma pwrites_spec {Q} sizes s b lo hi l : alloc_inv (pmem s) → kowned (pmem s) (b + lo) (hi - lo) → 0 < b →
  members_apart lo hi l → Forall (λ ov, word ov.2) l → room_then Q sizes (pmem s) →
  ∃ k', (∀ A (f : processing K F → outcome A), pwrites s b l f = f (set_pmem s k')) ∧
    modifies (fields b l) (pmem s) k' ∧ room_then Q sizes k' ∧ reads k' b l.
Proof.
  revert s. induction l as [|[off v] l IH]; intros s Hi Ho Hb Hl Hw Hroom; cbn [pwrites].
  - exists (pmem s). split; [|split; [by apply modifies_refl|split; [done|constructor]]].
    intros A f. destruct s as [[[] ? ?] ? ? ? ?]. done.
  - destruct Hl as [(Hlo & Hhi & Hap) Hl]. apply Forall_cons in Hw as [Hv Hw]. cbn [snd] in Hv.
    assert (Hoff : kowned (pmem s) (b + off) 4) by (apply (kowned_sub _ _ _ _ _ Ho); lia).
    destruct (write_step (Q := Q) sizes (pmem s) (b + off) v Hi Hoff Hv Hroom) as (k1 & E1 & M1 & R1 & W1).
    assert (Ho1 : kowned k1 (b + lo) (hi - lo)) by (apply (modifies_owned _ _ _ _ _ M1 Ho); lia).
    destruct (IH (set_pmem s k1) (modifies_inv _ _ _ M1) Ho1 Hb Hl Hw R1) as (k2 & E2 & M2 & R2 & W2).
    change (pmem (set_pmem s k1)) with k1 in M2. exists k2. split; [|split; [|split; [done|]]].
    + intros A f. unfold pwrite. rewrite decide_False, E1, !bind_Ok by lia. apply E2.
    + eapply modifies_step; [|exact M2|].
      * apply (modifies_sub _ _ _ _ M1). intros a n _ _ Ha. apply Forall_cons in Ha as [Ha _]. by apply Forall_singleton.
      * intros a n _ _ Ha. apply Forall_cons in Ha as [_ Ha]. exact Ha.
    + constructor; [|exact W2]. cbn [fst snd]. rewrite (modifies_read _ _ _ _ M2); [done| |].
      * by apply (modifies_owned _ _ _ _ _ M1).
      * apply fields_apart. intros ov Hov. rewrite Forall_forall in Hap. specialize (Hap ov Hov). unfold apart in *. lia.
Qed.

(** The values assigned are words. *)
Ltac all_words := repeat first [apply Forall_nil_2 | apply Forall_cons_2; [done || (unfold word, SIZEOF_TASK, TASK_KERNEL_STACK_SIZE in *; cbn [snd]; lia)|]].

Lemma new_kernel_process_spec kpd sizes s pid name t : alloc_inv (pmem s) → room (SIZEOF_PROCESS :: sizes) (pmem s) →
  cstr (memory (pmem s)) name t → (length t < 250)%nat → kowned (pmem s) name (Z.of_nat (length t) + 1) →
  word kpd → word pid →
  ∃ p k', new_kernel_process kpd s pid name = Ok (p, set_pmem s k') ∧ 0 < p ∧ p + SIZEOF_PROCESS < 2 ^ 32 ∧
    fresh (pmem s) p SIZEOF_PROCESS ∧ kowned k' p SIZEOF_PROCESS ∧ modifies [] (pmem s) k' ∧ room sizes k' ∧
    reads k' p [(process_page_directory, kpd); (process_pid, pid)] ∧ cstr (memory k') (p + process_name) t.
Proof.
  intros Hi Hroom Ht Hl Ho Hkpd Hpid. set (k := pmem s) in *. unfold new_kernel_process, pzalloc. fold k.
  destruct (alloc_step (Q := λ _, True) SIZEOF_PROCESS sizes k Hi) as (p & k1 & -> & Hp & Htop & _ & M1 & R1 & O1 & F1 & _); [done|done|].
  rewrite !bind_Ok. pose proof (F1 name (Z.of_nat (length t) + 1) ltac:(lia) Ho) as Hap.
  set (l := [(process_pid, pid); (process_memory_size, 0); (process_memory, KERNEL_VIRTUAL_BASE)]).
  destruct (pwrites_spec (Q := λ _, True) sizes (set_pmem s k1) p 0 SIZEOF_PROCESS l (modifies_inv _ _ _ M1)) as (k2 & E2 & M2 & R2 & W2);
    [rewrite Z.add_0_r; exact O1|done|decide_by_compute|all_words|done|].
  apply (fields_modifies _ 0 SIZEOF_PROCESS) in M2; [|decide_by_compute]. rewrite Z.add_0_r in M2.
  change (pmem (set_pmem s k1)) with k1 in M2. pose proof (modifies_owned _ _ _ _ _ M2 O1 ltac:(done)) as O2.
  assert (Hin : ∀ ka kb off m, modifies [] k ka → 0 ≤ off → 0 ≤ m → off + m ≤ SIZEOF_PROCESS →
    modifies [(p + off, m)] ka kb → modifies [] k kb).
  { intros ka kb off m Ma Hlo Hm Hhi. apply (modifies_new k ka kb p SIZEOF_PROCESS); [done..|lia|lia|lia]. }
  assert (M02 : modifies [] k k2) by (apply (Hin k1 k2 0 SIZEOF_PROCESS); [done..|by rewrite Z.add_0_r]).
  unfold l in E2. cbn [pwrites] in E2. rewrite E2, set_pmem_twice.
  destruct (pname_step (Q := λ _, True) sizes (set_pmem s k2) p name t (modifies_inv _ _ _ M02) O2)
    as (k3 & -> & M3 & R3 & W3); [|done|unfold apart, process_name, SIZEOF_PROCESS in *; lia|done|].
  { apply (modifies_cstr _ _ _ _ _ M02 Ho); [constructor|done]. }
  rewrite bind_Ok, set_pmem_twice. change (pmem (set_pmem s k2)) with k2 in M3.
  pose proof (modifies_owned _ _ _ _ _ M3 O2 ltac:(done)) as O3.
  destruct (pwrite_step (Q := λ _, True) sizes (set_pmem s k3) p SIZEOF_PROCESS process_page_directory kpd
    [(process_pid, pid)] (modifies_inv _ _ _ M3) O3)
    as (k4 & -> & M4 & R4 & W4); [done|done|done|done|decide_by_compute| |done|].
  { apply (reads_modifies _ _ _ _ SIZEOF_PROCESS _ M3 O2).
    - apply Forall_singleton. split_and!; [done|done|]. apply Forall_singleton.
      unfold apart, process_pid, process_name. cbn [fst snd]. lia.
    - apply Forall_singleton. apply (pread_member k2 p _ process_pid pid W2). by left. }
  rewrite bind_Ok, set_pmem_twice. change (pmem (set_pmem s k3)) with k3 in M4.
  exists p, k4. split; [done|]. do 3 (split; [done|]). split; [by apply (modifies_owned _ _ _ _ _ M4)|].
  split; [|split; [done|split; [done|]]].
  - apply (Hin k3 k4 process_page_directory 4); [|done..]. by apply (Hin k2 k3 process_name 250).
  - apply (modifies_cstr _ _ _ _ _ M4); [apply (kowned_sub _ _ _ _ _ O3); unfold process_name, SIZEOF_PROCESS; lia| |done].
    apply Forall_singleton. unfold apart, process_page_directory, process_name. cbn [fst snd]. lia.
Qed.

(** ** The first process *)

(** The kernel's page directory, apart from the tasks [l]. *)
Definition kernel_directory k (l : list Z) (kpd : Z) : Prop :=
  ∃ d e, (kread k kpd = Ok d ∧ outside k l kpd 4) ∧ (kread k (d + 4 * 1023) = Ok e ∧ outside k l (d + 4 * 1023) 4).

(** A process on the kernel's directory: the name [t] and the handle. *)
Record kernel_process (fuel : nat) k (kpd p : Z) (t : list Z) : Prop := KernelProcess {
  kproc_owned : kowned k p SIZEOF_PROCESS;
  kproc_handle : kread k (p + process_page_directory) = Ok kpd;
  kproc_name : cstr (memory k) (p + process_name) t;
  kproc_length : (length t < 250)%nat ∧ (length t < fuel)%nat
}.

Lemma kernel_process_modifies cs fuel k k' kpd p t : modifies cs k k' → apart_all cs (p + process_name) 250 →
  apart_all cs (p + process_page_directory) 4 → kernel_process fuel k kpd p t → kernel_process fuel k' kpd p t.
Proof.
  intros M Hn Hd [Ho Hh Ht Hl]. split; [by apply (modifies_owned _ _ _ _ _ M)| | |done].
  - rewrite (modifies_read _ _ _ _ M); [done| |done].
    apply (kowned_sub _ _ _ _ _ Ho); unfold process_page_directory, SIZEOF_PROCESS; lia.
  - apply (modifies_cstr _ _ _ _ _ M); [| |done].
    + apply (kowned_sub _ _ _ _ _ Ho); unfold process_name, SIZEOF_PROCESS; lia.
    + eapply Forall_impl; [exact Hn|]. intros c. unfold apart. lia.
Qed.

Lemma process_of_kernel fuel k l p kpd t : kernel_directory k l kpd → kernel_process fuel k kpd p t →
  (∀ c, c ∈ l → apart p SIZEOF_PROCESS c SIZEOF_TASK) → process_of fuel k l p.
Proof.
  intros (d & e & Hd & He) [Ho Hk Ht [Hlen Hf]] Hl. exists t, kpd, d, e.
  split; [split; [split; [done|]|split; [done|]|done..]|done].
  - split; [apply (kowned_sub _ _ _ _ _ Ho)|intros c Hc; pose proof (Hl c Hc); unfold apart in *];
      unfold process_name, SIZEOF_PROCESS in *; lia.
  - split; [apply (kowned_sub _ _ _ _ _ Ho)|intros c Hc; pose proof (Hl c Hc); unfold apart in *];
      unfold process_page_directory, SIZEOF_PROCESS in *; lia.
Qed.

Lemma kernel_directory_modifies cs k k' l kpd : modifies cs k k' → Forall (within l) cs →
  kernel_directory k l kpd → kernel_directory k' l kpd.
Proof.
  intros M Hcs (d & e & [Hd Hod] & [He Hoe]). exists d, e.
  split; (split; [by eapply (outside_read _ _ _ _ _ _ M)|by apply (outside_modifies _ _ _ _ _ _ M)]).
Qed.

(** An interrupt whose handler at most prints. *)
Definition prints_only (raise : processing K F → outcome (processing K F)) : Prop :=
  ∀ s, ∃ t, raise s = Ok (set_pmach s (set_console (mach (ptasks s)) t)).

(** What [init_system_process] assigns to the kernel's task. *)
Definition first_task_words (st p : Z) : list (Z * Z) :=
  [(registers_ss, GDT_KERNEL_DATA_SEGMENT_SELECTOR); (task_process, p); (task_next, st); (task_previous, st)].

(** And to its process. *)
Definition first_process_words (st p : Z) : list (Z * Z) :=
  [(process_task, st); (process_next, p); (process_previous, p)].

(** The task the kernel starts in: alone in the ring. *)
Lemma first_task_ok fuel k st p : alloc_inv k → kowned k st SIZEOF_TASK → 0 < st → st + SIZEOF_TASK < 2 ^ 32 →
  reads k st (first_task_words st p) →
  process_of fuel k [st] p → tasks_ok fuel k [st].
Proof.
  intros Hi Ho Hpos Htop Hr Hp. apply tasks_of_set; [|split; [split; [done|..]|]].
  - split; [by apply NoDup_singleton|]. cbn [app chain]. unfold tnx, tpv.
    split; [|split; [|done]]; apply (pread_member _ _ _ _ _ Hr); [do 2 right; by left|do 3 right; by left].
  - intros a ->%list_elem_of_singleton. done.
  - intros a b ->%list_elem_of_singleton ->%list_elem_of_singleton. done.
  - intros a ->%list_elem_of_singleton. exists p. split; [|done].
    apply (pread_member _ _ _ _ _ Hr). right. by left.
Qed.

(** ** The list of processes *)

Definition pnx k (a b : Z) : Prop := kread k (a + process_next) = Ok b.
Definition ppv k (a b : Z) : Prop := kread k (a + process_previous) = Ok b.

(** The processes [l] are separate objects. *)
Record procs_mem k (l : list Z) : Prop := ProcsMem {
  procs_inv : alloc_inv k;
  procs_owned : ∀ a, a ∈ l → kowned k a SIZEOF_PROCESS ∧ 0 < a < 2 ^ 32;
  procs_apart : ∀ a b, a ∈ l → b ∈ l → a ≠ b → apart a SIZEOF_PROCESS b SIZEOF_PROCESS
}.

Definition plinks (l : list Z) : list (Z * Z) := (λ c, (c + process_next, 8)) <$> l.

Lemma plinks_apart l b n : apart_all (plinks l) b n ↔ ∀ c, c ∈ l → apart b n (c + process_next) 8.
Proof. unfold apart_all, plinks. rewrite Forall_fmap, Forall_forall. done. Qed.

Definition plink (off : Z) : Prop := off = process_next ∨ off = process_previous.

Lemma plink_write s l c off v : procs_mem (pmem s) l → c ∈ l → plink off → 0 ≤ v < 2 ^ 32 →
  ∃ k', pwrite s c off v = Ok (set_pmem s k') ∧ modifies (plinks l) (pmem s) k' ∧ procs_mem k' l ∧
    ∀ d off', d ∈ l → plink off' →
      kread k' (d + off') = if decide (d = c ∧ off' = off) then Ok v else kread (pmem s) (d + off').
Proof.
  intros [Hi Ho Ha] Hc Hoff Hv. destruct (Ho c Hc) as [Hoc Hcp].
  assert (Hr : ∀ o, plink o → process_next ≤ o ≤ process_next + 4 ∧ 0 ≤ o ∧ o + 4 ≤ SIZEOF_PROCESS).
  { intros o [-> | ->]; done. }
  pose proof (Hr off Hoff) as Hoffr.
  destruct (pwrite_step (Q := λ _, True) [] s c SIZEOF_PROCESS off v [] Hi Hoc) as (k' & E & M & _ & W); [lia|lia|lia|done|constructor..|done|].
  exists k'. split; [done|]. split; [|split; [split|]].
  - apply (modifies_sub _ _ _ _ M). intros b n Hn _ Hb. rewrite plinks_apart in Hb. specialize (Hb c Hc).
    apply Forall_singleton. unfold apart in *. cbn [fst snd]. lia.
  - by apply (modifies_inv _ _ _ M).
  - intros a Hal. destruct (Ho a Hal). split; [by apply (modifies_owned _ _ _ _ _ M)|done].
  - done.
  - intros d off' Hd Hoff'. pose proof (Hr off' Hoff'). case_decide as Hdec.
    + destruct Hdec as [-> ->]. apply (pread_member _ _ _ _ _ W). by left.
    + apply (modifies_read _ _ _ _ M).
      * destruct (Ho d Hd) as [Hod _]. apply (kowned_sub _ _ _ _ _ Hod); lia.
      * apply Forall_singleton. cbn [fst snd]. destruct (decide (d = c)) as [-> | Hdc].
        -- unfold apart. destruct Hoff as [-> | ->], Hoff' as [-> | ->]; unfold process_next, process_previous; try lia; tauto.
        -- pose proof (Ha d c Hd Hc Hdc). unfold apart in *. lia.
Qed.

Lemma next_not_previous : process_next ≠ process_previous.
Proof. done. Qed.

(** What a link holds after a list of link writes. *)
Ltac linked := unfold pnx, ppv in *;
  repeat match goal with
    | F : ∀ d off', d ∈ _ → plink off' → kread ?k (d + off') = _ |- context [kread ?k (?x + ?o)] =>
        rewrite (F x o) by (first [by left | by right] || (repeat first [done | left; done | right]))
    end;
  pose proof next_not_previous; repeat case_decide; destruct_and?; try done; try congruence; try tauto.

Lemma process_list_insert_spec system_task s a l n : ring (pnx (pmem s)) (ppv (pmem s)) (a :: l) →
  procs_mem (pmem s) (n :: a :: l) → n ∉ a :: l → 0 < system_task →
  kread (pmem s) (system_task + task_process) = Ok a →
  ∃ k', process_list_insert system_task s n = Ok (n, set_pmem s k') ∧ ring (pnx k') (ppv k') (a :: l ++ [n]) ∧
    procs_mem k' (n :: a :: l) ∧ modifies (plinks (n :: a :: l)) (pmem s) k'.
Proof.
  intros Hr Hm Hna Hst Hsys. set (k := pmem s) in *. pose proof (ring_NoDup _ _ _ Hr) as [Hal _]%NoDup_cons.
  destruct (proj1 (ring_head _ _ _ _) Hr) as (_ & _ & Hza & Haz). pose proof (last_of_in a l) as Hz.
  set (z := last_of a l) in *.
  assert (Hn : n ∈ n :: a :: l) by (by left). assert (Ha : a ∈ n :: a :: l) by (by right; left).
  assert (Hzin : z ∈ n :: a :: l) by (by right). assert (Hnz : n ≠ z) by (intros E; rewrite E in Hna; done).
  assert (Han : a ≠ n) by (intros ->; apply Hna; by left).
  assert (Hpos : ∀ x, x ∈ n :: a :: l → x ≠ 0 ∧ 0 ≤ x < 2 ^ 32).
  { intros x Hx. destruct (procs_owned _ _ Hm x Hx) as [_ ?]. lia. }
  unfold process_list_insert. rewrite (pread_ok s system_task _ a), bind_Ok by (lia || done).
  destruct (plink_write s _ n process_next a Hm Hn) as (k1 & -> & M1 & Hm1 & F1); [by left|by apply Hpos|].
  fold k in M1, F1. rewrite bind_Ok.
  assert (E1 : kread k1 (a + process_previous) = Ok z) by linked.
  rewrite (pread_ok (set_pmem s k1) a _ z), bind_Ok by (done || by apply Hpos).
  destruct (plink_write (set_pmem s k1) _ n process_previous z Hm1 Hn) as (k2 & -> & M2 & Hm2 & F2); [by right|by apply Hpos|].
  change (pmem (set_pmem s k1)) with k1 in M2, F2. rewrite bind_Ok, set_pmem_twice.
  destruct (plink_write (set_pmem s k2) _ a process_previous n Hm2 Ha) as (k3 & -> & M3 & Hm3 & F3); [by right|by apply Hpos|].
  change (pmem (set_pmem s k2)) with k2 in M3, F3. rewrite bind_Ok, set_pmem_twice.
  assert (E3 : kread k3 (n + process_previous) = Ok z) by linked.
  rewrite (pread_ok (set_pmem s k3) n _ z), bind_Ok by (done || by apply Hpos).
  destruct (plink_write (set_pmem s k3) _ z process_next n Hm3 Hzin) as (k4 & -> & M4 & Hm4 & F4); [by left|by apply Hpos|].
  change (pmem (set_pmem s k3)) with k3 in M4, F4. rewrite bind_Ok, set_pmem_twice. exists k4. split; [done|].
  split; [|split; [done|do 3 (eapply modifies_again; [eassumption|]); done]].
  assert (Hin : ∀ x, x ∈ a :: l → x ∈ n :: a :: l ∧ x ≠ n) by (intros x Hx; split; [by right|by intros ->]).
  apply (ring_insert (pnx k) (ppv k) _ _ a l n Hr Hna); fold z; [linked..| |].
  - intros x y Hx Hxz Hxy. destruct (Hin x Hx). linked.
  - intros x y Hx Hxy. destruct (Hin x ltac:(by right)). assert (x ≠ a) by (by intros ->). linked.
Qed.

(** ** Starting up *)

(** What [init_system_process] leaves: the process [p] of the task [st], each alone
    in its ring, in memory that was new in [k0]. *)
Record system_ready (fuel : nat) (sizes : list Z) (st kpd : Z) (t : list Z) k0 k (p : Z) : Prop := SystemReady {
  system_modifies : modifies [(st, SIZEOF_TASK)] k0 k;
  system_room : room sizes k;
  system_tasks : tasks_ok fuel k [st];
  system_procs : procs_mem k [p];
  system_ring : ring (pnx k) (ppv k) [p];
  system_fresh : fresh k0 p SIZEOF_PROCESS;
  system_member : kread k (st + task_process) = Ok p;
  system_process : kernel_process fuel k kpd p t;
  system_directory : kernel_directory k [st] kpd
}.

(** What the assignments keep of the process. *)
Lemma first_writes_apart st p off n : apart st SIZEOF_TASK p SIZEOF_PROCESS → 0 ≤ off → off + n ≤ SIZEOF_PROCESS →
  apart off n process_task 4 → apart off n process_next 8 →
  apart_all (fields p (first_process_words st p) ++ [(st, SIZEOF_TASK)]) (p + off) n.
Proof.
  intros Hap Hlo Hhi Ha1 Ha2.
  apply Forall_app. split; [|apply Forall_singleton; cbn [fst snd]; unfold apart in *; lia].
  apply fields_apart. intros ov Hov%list_elem_of_In. cbn [In first_process_words] in Hov.
  destruct Hov as [<- | [<- | [<- | []]]]; cbn [fst]; unfold apart, process_next, process_previous, process_task in *; lia.
Qed.

Lemma fields_fresh k p lo l a n : fresh k p SIZEOF_PROCESS → members_apart lo SIZEOF_PROCESS l → 0 ≤ lo →
  0 < n → kowned k a n → apart_all (fields p l) a n.
Proof.
  intros Hfr Hl Hlo Hn Ho. apply fields_apart. intros ov Hov. pose proof (Hfr a n Hn Ho).
  pose proof (members_apart_within _ _ _ ov Hl Hov). unfold apart in *. lia.
Qed.

(** A ring of one process. *)
Lemma process_alone k p l : alloc_inv k → kowned k p SIZEOF_PROCESS → 0 < p < 2 ^ 32 → reads k p l →
  (process_next, p) ∈ l → (process_previous, p) ∈ l → procs_mem k [p] ∧ ring (pnx k) (ppv k) [p].
Proof.
  intros Hi Ho Hp Hr Hn Hv. split; split.
  - done.
  - intros a ->%list_elem_of_singleton. done.
  - intros a b ->%list_elem_of_singleton ->%list_elem_of_singleton. done.
  - by apply NoDup_singleton.
  - cbn [app chain]. unfold pnx, ppv. split; [|split; [|done]]; by apply (pread_member _ _ _ _ _ Hr).
Qed.

Lemma system_writes fuel sizes st kpd k0 s p t : modifies [] k0 (pmem s) → fresh k0 p SIZEOF_PROCESS →
  kernel_process fuel (pmem s) kpd p t → 0 < p < 2 ^ 32 → kowned k0 st SIZEOF_TASK → 0 < st → st + SIZEOF_TASK < 2 ^ 32 →
  kernel_directory k0 [st] kpd → room sizes (pmem s) →
  ∃ k', (∀ A (f : processing K F → outcome A),
      pwrites s p (first_process_words st p) (λ s, pwrites s st (first_task_words st p) f) = f (set_pmem s k')) ∧
    system_ready fuel sizes st kpd t k0 k' p ∧
    kread k' (p + process_task) = Ok st ∧ kread k' (p + process_pid) = kread (pmem s) (p + process_pid).
Proof.
  intros M0 Hfr Hproc Hp Host0 Hst Htop Hdir Hroom. pose proof (kproc_owned _ _ _ _ _ Hproc) as Ho. set (k := pmem s) in *.
  pose proof (modifies_inv _ _ _ M0) as Hi. pose proof (modifies_owned _ _ _ _ _ M0 Host0 ltac:(done)) as Host.
  pose proof (Hfr st SIZEOF_TASK ltac:(done) Host0) as Hap.
  destruct (pwrites_spec (Q := λ _, True) sizes s p process_task SIZEOF_PROCESS (first_process_words st p) Hi)
    as (k1 & E1 & M1 & R1 & W1); [|lia|decide_by_compute|unfold first_process_words; all_words|done|].
  { apply (kowned_sub _ _ _ _ _ Ho); unfold process_task, SIZEOF_PROCESS; lia. }
  fold k in M1.
  assert (Host1 : kowned k1 (st + 0) (SIZEOF_TASK - 0)) by (rewrite Z.add_0_r; by apply (modifies_owned _ _ _ _ _ M1)).
  destruct (pwrites_spec (Q := λ _, True) sizes (set_pmem s k1) st 0 SIZEOF_TASK (first_task_words st p) (modifies_inv _ _ _ M1) Host1 Hst)
    as (k2 & E2 & M2 & R2 & W2); [decide_by_compute|unfold first_task_words; all_words|done|].
  apply (fields_modifies _ 0 SIZEOF_TASK) in M2; [|decide_by_compute]. rewrite Z.add_0_r in M2.
  change (pmem (set_pmem s k1)) with k1 in M2, Host1. exists k2.
  assert (M : modifies (fields p (first_process_words st p) ++ [(st, SIZEOF_TASK)]) k k2).
  { eapply modifies_step; [|exact M2|].
    - apply (modifies_sub _ _ _ _ M1). intros a n _ _ [Ha _]%Forall_app. exact Ha.
    - intros a n _ _ [_ Ha]%Forall_app. exact Ha. }
  assert (Hin : ∀ off n, 0 < n → 0 ≤ off → off + n ≤ SIZEOF_PROCESS → apart off n process_task 4 → apart off n process_next 8 →
    kowned k (p + off) n ∧ apart_all (fields p (first_process_words st p) ++ [(st, SIZEOF_TASK)]) (p + off) n).
  { intros off n ? ? ? ? ?. split; [apply (kowned_sub _ _ _ _ _ Ho); lia|by apply first_writes_apart]. }
  assert (M0' : modifies [(st, SIZEOF_TASK)] k0 k2).
  { eapply modifies_step; [apply (modifies_sub _ _ _ _ M0); by constructor|exact M|]. intros a n Hn Hoa Ha.
    apply Forall_app. split; [|exact Ha]. apply (fields_fresh k0 p process_task); [done|decide_by_compute|done..]. }
  assert (Hdir2 : kernel_directory k2 [st] kpd).
  { apply (kernel_directory_modifies _ _ _ _ _ M0'); [|done]. apply Forall_singleton. exists st, 0. cbn [fst snd].
    split; [by left|lia]. }
  destruct (Hin process_pid 4) as [Hop Hap4]; [done..|by left|by left|].
  assert (Hproc2 : kernel_process fuel k2 kpd p t).
  { apply (kernel_process_modifies _ _ _ _ _ _ _ M); [apply Hin; [done..|by left|by left]|apply Hin; [done..|by right|by left]|done]. }
  pose proof (modifies_owned _ _ _ _ _ M Ho ltac:(done)) as Ho2.
  pose proof (modifies_owned _ _ _ _ _ M Host ltac:(done)) as Host2.
  assert (W1' : reads k2 p (first_process_words st p)).
  { apply (reads_modifies _ _ _ _ SIZEOF_PROCESS _ M2); [by apply (modifies_owned _ _ _ _ _ M1)| |done].
    apply Forall_forall. intros ov Hov.
    pose proof (members_apart_within process_task SIZEOF_PROCESS (first_process_words st p) ov ltac:(decide_by_compute) Hov).
    split_and!; [unfold process_task in *; lia|lia|]. apply Forall_singleton. cbn [fst snd].
    unfold apart, process_task in *. lia. }
  destruct (process_alone k2 p _ (modifies_inv _ _ _ M) Ho2 Hp W1') as [Hprocs Hring]; [by right; left|by do 2 right; left|].
  split; [|split; [split|split]].
  - intros A f. rewrite E1. apply E2.
  - done.
  - done.
  - apply (first_task_ok _ _ _ p); [by apply (modifies_inv _ _ _ M)|done..|].
    apply (process_of_kernel fuel k2 [st] p kpd t); [done..|]. intros c ->%list_elem_of_singleton. unfold apart in *. lia.
  - done.
  - done.
  - done.
  - apply (pread_member _ _ _ _ _ W2). right. by left.
  - done.
  - done.
  - apply (pread_member _ _ _ _ _ W1'). by left.
  - by rewrite (modifies_read _ _ _ _ M).
Qed.

(** A name passed to the functions. *)
Definition name_ok k (a : Z) (t : list Z) : Prop :=
  cstr (memory k) a t ∧ (length t < 250)%nat ∧ kowned k a (Z.of_nat (length t) + 1).

(** The kernel's own task and directory, before there is any process. *)
Record kernel_task k (st kpd : Z) : Prop := KernelTask {
  ktask_inv : alloc_inv k;
  ktask_owned : kowned k st SIZEOF_TASK ∧ 0 < st ∧ st + SIZEOF_TASK < 2 ^ 32;
  ktask_word : word kpd;
  ktask_directory : kernel_directory k [st] kpd
}.

Lemma init_system_process_spec fuel sizes st kpd raise s name t : kernel_task (pmem s) st kpd → prints_only raise →
  room (SIZEOF_PROCESS :: sizes) (pmem s) → name_ok (pmem s) name t → (length t < fuel)%nat → (1 < length (processes s))%nat →
  ∃ p s', init_system_process st kpd raise s name = Ok s' ∧
    system_ready fuel sizes st kpd t (pmem s) (pmem s') p ∧ current_task (ptasks s') = st ∧ current_process s' = p ∧
    processes s' = <[0%nat := p]> (processes s) ∧ interrupts s' = interrupts s.
Proof.
  intros [Hi (Host & Hst & Htop) Hkpd Hdir] Hraise Hroom (Ht & Hlen & Hname) Hf Hslots. unfold init_system_process.
  destruct (new_kernel_process_spec kpd sizes s 0 name t Hi Hroom Ht Hlen Hname Hkpd)
    as (p & k1 & -> & Hp & Hptop & Hfr & Ho & M1 & R1 & W1 & Ht1); [done|].
  rewrite bind_Ok.
  destruct (system_writes fuel sizes st kpd (pmem s) (set_pmem s k1) p t) as (k2 & E2 & Hready & Hpt & Hpid);
    [done|done| |unfold SIZEOF_PROCESS in *; lia|done..|].
  { split; [done| |done|done]. apply (pread_member _ _ _ _ _ W1). by left. }
  change (pmem (set_pmem s k1)) with k1 in Hpid. rewrite (pread_member _ _ _ _ _ W1) in Hpid by (right; by left).
  cbn [pwrites first_process_words first_task_words] in E2. rewrite E2. cbv zeta.
  rewrite (pread_ok _ p process_task st), bind_Ok by (lia || done).
  rewrite (pread_ok _ p process_pid 0), bind_Ok by (lia || done).
  unfold set_slot. change (s32 0) with 0. cbn [processes set_ptasks set_current_process set_pmem].
  rewrite arr_set_in, !bind_Ok by lia. destruct (Hraise (set_processes
    (set_ptasks (set_current_process (set_pmem s k2) p) (set_current_task (ptasks (set_current_process (set_pmem s k2) p)) st))
    (<[Z.to_nat 0 := p]> (processes s)))) as [c E].
  eexists p, _. split; [exact E|]. done.
Qed.

(** ** The second process *)

(** An allocation lies in the arena. *)
Lemma alloc_arena k size p k' : alloc_inv k → 0 < size < 2 ^ 32 → kzalloc k size = Ok (p, k') → p ≠ 0 →
  ∀ x, p ≤ x < p + size → arena k x.
Proof. intros Hi Hs E Hp. by destruct (kalloc_ok k size p k' Hi Hs E Hp) as (_ & _ & _ & _ & _ & _ & Ha & _). Qed.

Lemma modifies_mapped cs k k' x : modifies cs k k' → is_Some (memory k !! x) → is_Some (memory k' !! x).
Proof. intros [[_ _ _ Hm] _]. apply Hm. Qed.

Lemma modifies_arena cs k k' x : modifies cs k k' → arena k' x ↔ arena k x.
Proof. intros [[Ha _ _ _] _]. apply Ha. Qed.

(** The new process gets a stack, and the byte after it is there. *)
Lemma idle_stack cs sizes k0 s p : modifies cs k0 (pmem s) → kowned (pmem s) p SIZEOF_PROCESS → 0 < p →
  (∀ x, arena k0 x → is_Some (memory k0 !! (x + 1))) → room (PROGRAM_STACK_SIZE :: sizes) (pmem s) →
  ∃ stack k1 k2 c, pzalloc s PROGRAM_STACK_SIZE = Ok (stack, set_pmem s k1) ∧
    pwrite (set_pmem s k1) p process_stack stack = Ok (set_pmem s k2) ∧
    load_char (memory k2) (stack + PROGRAM_STACK_SIZE) = Ok c ∧ room sizes k2 ∧
    modifies [(p + process_stack, 4)] (pmem s) k2 ∧ fresh (pmem s) stack PROGRAM_STACK_SIZE ∧
    kowned k2 stack PROGRAM_STACK_SIZE ∧ kread k2 (p + process_stack) = Ok stack.
Proof.
  intros M0 Ho Hp Har Hroom. pose proof (modifies_inv _ _ _ M0) as Hi. unfold pzalloc.
  destruct (alloc_step (Q := λ _, True) PROGRAM_STACK_SIZE sizes (pmem s) Hi) as (st & k1 & E & Hst & Htop & _ & M1 & R1 & O1 & F1 & _); [done|done|].
  assert (Hlast : arena (pmem s) (st + 4095)).
  { apply (alloc_arena _ PROGRAM_STACK_SIZE st k1 Hi); [done|done|lia|unfold PROGRAM_STACK_SIZE; lia]. }
  pose proof (modifies_owned _ _ _ _ _ M1 Ho ltac:(done)) as Ho1.
  destruct (pwrite_step (Q := λ _, True) sizes (set_pmem s k1) p SIZEOF_PROCESS process_stack st [] (modifies_inv _ _ _ M1) Ho1)
    as (k2 & E2 & M2 & R2 & W2); [done|done|done|unfold word, PROGRAM_STACK_SIZE in *; lia|constructor|constructor|done|].
  rewrite set_pmem_twice in E2. change (pmem (set_pmem s k1)) with k1 in M2.
  assert (M : modifies [(p + process_stack, 4)] (pmem s) k2).
  { eapply modifies_step; [apply (modifies_sub _ _ _ _ M1); by constructor|exact M2|done]. }
  assert (Hm : is_Some (memory k2 !! (st + PROGRAM_STACK_SIZE))).
  { apply (modifies_mapped _ _ _ _ M), (modifies_mapped _ _ _ _ M0). change PROGRAM_STACK_SIZE with (4095 + 1).
    rewrite Z.add_assoc. apply Har. by apply (modifies_arena _ _ _ _ M0). }
  destruct Hm as [b Hb]. exists st, k1, k2, (s8 b). rewrite E, bind_Ok. split; [done|]. split; [done|].
  split; [unfold load_char, load8; by rewrite Hb|]. do 3 (split; [done|]).
  split; [by apply (modifies_owned _ _ _ _ _ M2)|]. apply (pread_member _ _ _ _ _ W2). by left.
Qed.

Lemma tasks_keep cs fuel k k' l : tasks_ok fuel k l → modifies cs k k' → (∀ a, a ∈ l → apart_all cs a SIZEOF_TASK) →
  (∀ a, a ∈ l → ∃ p, kread k' (a + task_process) = Ok p ∧ process_of fuel k' l p) → tasks_ok fuel k' l.
Proof.
  intros [Hring Hmem _] M Hap Hrun.
  assert (HF : ∀ x off, x ∈ l → off ∈ members → kread k' (x + off) = kread k (x + off)).
  { intros x off Hx Hoff. apply (modifies_read _ _ _ _ M); [by eapply member_owned|].
    eapply Forall_impl; [exact (Hap x Hx)|]. intros c. pose proof (members_range off Hoff).
    unfold apart, SIZEOF_TASK, TASK_KERNEL_STACK_SIZE. lia. }
  split; [|by eapply tasks_mem_modifies|done].
  apply (ring_frame _ _ _ _ _ Hring); intros x y Hx; unfold tnx, tpv; rewrite HF; [done|done|member|done|done|member].
Qed.

(** The system once both processes are there; [k0] is the memory it started from. *)
Record tasking_ready (fuel : nat) (st kpd : Z) k0 k (p0 p1 t : Z) : Prop := TaskingReady {
  ready_tasks : tasks_ok fuel k [st; t];
  ready_ring : ring (pnx k) (ppv k) [p0; p1];
  ready_procs : procs_mem k [p0; p1];
  ready_first : kread k (st + task_process) = Ok p0;
  ready_second : kread k (t + task_process) = Ok p1 ∧ kread k (p1 + process_task) = Ok t;
  ready_frame : saved k t (first_stack t 1);
  ready_modifies : modifies [(st, SIZEOF_TASK)] k0 k;
  ready_processes : ∃ tx0 tx1, kernel_process fuel k kpd p0 tx0 ∧ kernel_process fuel k kpd p1 tx1;
  ready_new : fresh k0 p0 SIZEOF_PROCESS ∧ fresh k0 p1 SIZEOF_PROCESS ∧ fresh k0 t SIZEOF_TASK;
  ready_apart : ∀ a q, a ∈ [st; t] → q ∈ [p0; p1] → apart a SIZEOF_TASK q SIZEOF_PROCESS
}.

Lemma kernel_directory_fresh k l kpd t : kernel_directory k l kpd → fresh k t SIZEOF_TASK → kernel_directory k (t :: l) kpd.
Proof.
  intros (d & e & [Hd [Hod Hld]] & [He [Hoe Hle]]) Hfr. exists d, e.
  split; (split; [done|split; [done|]]); intros c [-> | Hc]%elem_of_cons; [by apply Hfr|by apply Hld|by apply Hfr|by apply Hle].
Qed.

Lemma kernel_directory_permute k l l' kpd : l ≡ₚ l' → kernel_directory k l kpd → kernel_directory k l' kpd.
Proof.
  intros Hp (d & e & [Hd [Hod Hld]] & [He [Hoe Hle]]). exists d, e.
  split; (split; [done|split; [done|]]); intros c Hc; rewrite <- Hp in Hc; [by apply Hld|by apply Hle].
Qed.

(** The assignments to the members [task], [next] and [previous] of processes. *)
Definition joins_cs (p0 p1 : Z) : list (Z * Z) := (p1 + process_task, 4) :: plinks [p1; p0].

Lemma joins_apart p0 p1 a n : 0 < n → apart a n p0 SIZEOF_PROCESS → apart a n p1 SIZEOF_PROCESS → apart_all (joins_cs p0 p1) a n.
Proof.
  intros Hn H0' H1'. apply Forall_cons_2; [|apply plinks_apart; intros c Hc%list_elem_of_In; destruct Hc as [<- | [<- | []]]];
    cbn [fst snd]; unfold apart, process_task, process_next, SIZEOF_PROCESS in *; lia.
Qed.

Lemma joins_keep p0 p1 p off n : p = p0 ∨ p = p1 → apart p0 SIZEOF_PROCESS p1 SIZEOF_PROCESS → 0 < n → 0 ≤ off →
  off + n ≤ SIZEOF_PROCESS → apart off n process_task 4 → apart off n process_next 8 → apart_all (joins_cs p0 p1) (p + off) n.
Proof.
  intros Hp Hap Hn Hlo Hhi Ha1 Ha2. apply Forall_cons_2; [|apply plinks_apart; intros c Hc%list_elem_of_In; destruct Hc as [<- | [<- | []]]];
    destruct Hp as [-> | ->]; cbn [fst snd]; unfold apart, process_task, process_next, SIZEOF_PROCESS in *; lia.
Qed.

(** Neither the new process nor the new task changes whose the first task is. *)
Lemma first_process_kept fuel sizes st kpd t0 k0 k k2 k3 p0 : system_ready fuel sizes st kpd t0 k0 k p0 →
  modifies [] k k2 → modifies (links [st]) k2 k3 → kread k3 (st + task_process) = Ok p0.
Proof.
  intros Hr M2 M3. pose proof (tasks_memory _ _ _ (system_tasks _ _ _ _ _ _ _ _ Hr)) as Hmem.
  assert (Hom : kowned k (st + task_process) 4) by (eapply member_owned; [exact Hmem|by left|member]).
  rewrite (modifies_read _ _ _ _ M3), (modifies_read _ _ _ _ M2);
    [apply Hr|done|constructor|by apply (modifies_owned _ _ _ _ _ M2)|].
  apply links_apart. intros c ->%list_elem_of_singleton. unfold apart, task_process, task_next. lia.
Qed.

(** The new process [p1] and its task [t] joined to the system: what the three kinds of
    assignments keep. *)
Lemma idle_joined fuel sizes st kpd t0 t1 k0 k k2 k3 k5 p0 p1 t : kernel_task k0 st kpd →
  system_ready fuel sizes st kpd t0 k0 k p0 → fresh k p1 SIZEOF_PROCESS → modifies [] k k2 → kernel_process fuel k2 kpd p1 t1 →
  fresh k2 t SIZEOF_TASK → tasks_ok fuel k3 [st; t] → modifies (links [st]) k2 k3 →
  modifies (joins_cs p0 p1) k3 k5 → kread k3 (t + task_process) = Ok p1 →
  tasks_ok fuel k5 [st; t] ∧ kread k5 (st + task_process) = Ok p0 ∧ kread k5 (t + task_process) = Ok p1 ∧
  apart_all (joins_cs p0 p1) t SIZEOF_TASK ∧ modifies [(st, SIZEOF_TASK)] k0 k5 ∧
  (kernel_process fuel k5 kpd p0 t0 ∧ kernel_process fuel k5 kpd p1 t1) ∧
  (fresh k0 p0 SIZEOF_PROCESS ∧ fresh k0 p1 SIZEOF_PROCESS ∧ fresh k0 t SIZEOF_TASK) ∧
  (∀ a q, a ∈ [st; t] → q ∈ [p0; p1] → apart a SIZEOF_TASK q SIZEOF_PROCESS).
Proof.
  intros [_ (Host & Hst & Htop) _ Hdir] Hr Hfr1 M2 Hp1 Hfrt Hok M3 M5 Ht.
  pose proof (first_process_kept _ _ _ _ _ _ _ _ _ _ Hr M2 M3) as Hstp. destruct Hr as [Ms _ Hsys Hprocs _ Hfr0 Hm Hp0 _].
  pose proof (kproc_owned _ _ _ _ _ Hp0) as Ho0. pose proof (kproc_owned _ _ _ _ _ Hp1) as Ho1.
  pose proof (Hfr0 st SIZEOF_TASK ltac:(done) Host) as As0.
  pose proof (Hfr1 st SIZEOF_TASK ltac:(done) (proj1 (tasks_owned _ _ (tasks_memory _ _ _ Hsys) st ltac:(by left)))) as As1.
  pose proof (Hfr1 p0 SIZEOF_PROCESS ltac:(done) Ho0) as A01.
  pose proof (Hfrt p0 SIZEOF_PROCESS ltac:(done) (modifies_owned _ _ _ _ _ M2 Ho0 ltac:(done))) as A0t.
  pose proof (Hfrt p1 SIZEOF_PROCESS ltac:(done) Ho1) as A1t.
  assert (Hk : ∀ c, c ∈ [st; t] → apart c SIZEOF_TASK p0 SIZEOF_PROCESS ∧ apart c SIZEOF_TASK p1 SIZEOF_PROCESS).
  { intros c [-> | ->%list_elem_of_singleton]%elem_of_cons; split; unfold apart in *; lia. }
  assert (Hread : ∀ c, c ∈ [st; t] → kread k5 (c + task_process) = kread k3 (c + task_process)).
  { intros c Hc. destruct (Hk c Hc). apply (modifies_read _ _ _ _ M5).
    - eapply member_owned; [apply (tasks_memory _ _ _ Hok)|done|member].
    - apply joins_apart; [done|..]; unfold apart, task_process, SIZEOF_TASK, TASK_KERNEL_STACK_SIZE in *; lia. }
  pose proof (fresh_before _ _ _ _ _ Ms Hfr1) as Hfr1'.
  assert (M05 : modifies [(st, SIZEOF_TASK)] k0 k5).
  { eapply modifies_step; [eapply modifies_step; [eapply modifies_step; [exact Ms|exact M2|constructor]|exact M3|]|exact M5|].
    - intros a n Hn _ Ha. apply links_apart. intros c ->%list_elem_of_singleton. unfold apart_all in Ha. rewrite Forall_singleton in Ha.
      unfold apart, task_next, SIZEOF_TASK, TASK_KERNEL_STACK_SIZE in *. cbn [fst snd] in *. lia.
    - intros a n Hn Hoa _. apply joins_apart; [done|by apply Hfr0|by apply Hfr1']. }
  assert (Hdir5 : kernel_directory k5 [st; t] kpd).
  { apply (kernel_directory_modifies [(st, SIZEOF_TASK)] k0); [done| |].
    - apply Forall_singleton. exists st, 0. cbn [fst snd]. split; [by left|lia].
    - apply (kernel_directory_permute _ [t; st]); [apply perm_swap|]. apply kernel_directory_fresh; [done|].
      apply (fresh_before _ _ _ _ _ Ms), (fresh_before _ _ _ _ _ M2). done. }
  assert (Hproc : ∀ p tx, p = p0 ∨ p = p1 → kernel_process fuel k2 kpd p tx → kernel_process fuel k5 kpd p tx).
  { intros p tx Hp Hpk. apply (kernel_process_modifies _ _ _ _ _ _ _ M5);
      [by apply joins_keep; [..|left|left]|by apply joins_keep; [..|right|left]|].
    apply (kernel_process_modifies _ _ _ _ _ _ _ M3); [..|done]; apply links_apart; intros c ->%list_elem_of_singleton;
      destruct (Hk st ltac:(by left)), Hp as [-> | ->];
      unfold apart, process_name, process_page_directory, task_next, SIZEOF_TASK, TASK_KERNEL_STACK_SIZE, SIZEOF_PROCESS in *; lia. }
  assert (Hp02 : kernel_process fuel k2 kpd p0 t0) by (apply (kernel_process_modifies _ _ _ _ _ _ _ M2); [constructor..|done]).
  split; [|rewrite !Hread by (try (by left); by right; left); (split; [done|]; split; [done|]; split; [|split; [exact M05|]])].
  2: { destruct (Hk t ltac:(by right; left)). by apply joins_apart. }
  2: { split; [split; apply Hproc; first [by left | by right | done]|]. split.
    - split; [done|]. split; [done|]. by apply (fresh_before _ _ _ _ _ Ms), (fresh_before _ _ _ _ _ M2).
    - intros a q Ha [-> | ->%list_elem_of_singleton]%elem_of_cons; by apply Hk. }
  apply (tasks_keep _ _ _ _ _ Hok M5).
  - intros a Ha. destruct (Hk a Ha). by apply joins_apart.
  - intros a Ha. rewrite Hread by done. destruct (Hk a Ha).
    apply elem_of_cons in Ha as [-> | ->%list_elem_of_singleton].
    + exists p0. split; [done|]. apply (process_of_kernel _ _ _ _ kpd t0); [done|by apply Hproc; [left|]|].
      intros c Hc. destruct (Hk c Hc). unfold apart in *. lia.
    + exists p1. split; [done|]. apply (process_of_kernel _ _ _ _ kpd t1); [done|by apply Hproc; [right|]|].
      intros c Hc. destruct (Hk c Hc). unfold apart in *. lia.
Qed.

Lemma ring_procs_modifies cs k k' l : ring (pnx k) (ppv k) l → modifies cs k k' →
  (∀ q, q ∈ l → kowned k q SIZEOF_PROCESS ∧ apart_all cs (q + process_next) 8) → ring (pnx k') (ppv k') l.
Proof.
  intros Hring M Hq.
  assert (Hr : ∀ q off, q ∈ l → plink off → kread k' (q + off) = kread k (q + off)).
  { intros q off Hin Hoff. destruct (Hq q Hin) as [Ho Ha]. apply (modifies_load _ _ _ (q + process_next) 8 M); [|done|lia|..].
    - apply (kowned_sub _ _ _ _ _ Ho); unfold process_next, SIZEOF_PROCESS; lia.
    - destruct Hoff as [-> | ->]; unfold process_next, process_previous; lia.
    - destruct Hoff as [-> | ->]; unfold process_next, process_previous; lia. }
  apply (ring_frame _ _ _ _ _ Hring); intros x y Hx; unfold pnx, ppv; rewrite Hr; first [done | by left | by right].
Qed.

Lemma ring_alone_modifies cs k k' p : ring (pnx k) (ppv k) [p] → modifies cs k k' → kowned k p SIZEOF_PROCESS →
  apart_all cs (p + process_next) 8 → ring (pnx k') (ppv k') [p].
Proof. intros Hr M Ho Ha. apply (ring_procs_modifies cs k k' _ Hr M). by intros q ->%list_elem_of_singleton. Qed.

(** A process joined to a single one. *)
Lemma process_joins st cs k s l p0 p1 v : procs_mem k [p0] → ring (pnx k) (ppv k) [p0] → fresh k p1 SIZEOF_PROCESS →
  kowned (pmem s) p1 SIZEOF_PROCESS → 0 < p1 < 2 ^ 32 → word v → modifies cs k (pmem s) → apart_all cs (p0 + process_next) 8 →
  kread (pmem s) (st + task_process) = Ok p0 → kowned (pmem s) st SIZEOF_TASK → 0 < st →
  apart st SIZEOF_TASK p1 SIZEOF_PROCESS →
  ∃ k4 k5, pwrite s p1 process_task v = Ok (set_pmem s k4) ∧
    kread k4 (p1 + process_pid) = kread (pmem s) (p1 + process_pid) ∧
    process_list_insert st (set_processes (set_pmem s k4) l) p1 = Ok (p1, set_pmem (set_processes s l) k5) ∧
    modifies (joins_cs p0 p1) (pmem s) k5 ∧ ring (pnx k5) (ppv k5) [p0; p1] ∧ procs_mem k5 [p0; p1] ∧
    kread k5 (p1 + process_task) = Ok v.
Proof.
  intros Hpm Hring Hfr Ho Hp Hv M Hap Hst Host Hpos Has.
  destruct (procs_owned _ _ Hpm p0 ltac:(by left)) as [Ho0 Hp0]. pose proof (Hfr p0 SIZEOF_PROCESS ltac:(done) Ho0) as A01.
  destruct (pwrite_step (Q := λ _, True) [] s p1 SIZEOF_PROCESS process_task v [] (modifies_inv _ _ _ M) Ho)
    as (k4 & E4 & M4 & _ & W4); [lia|done|done|done|constructor|constructor|done|].
  assert (Hin : ∀ q off n, q = p0 ∧ 0 ≤ off ∧ off + n ≤ SIZEOF_PROCESS ∨ q = p1 ∧ apart off n process_task 4 →
    apart_all [(p1 + process_task, 4)] (q + off) n).
  { intros q off n Hq. apply Forall_singleton. cbn [fst snd]. unfold apart, process_task, SIZEOF_PROCESS in *.
    destruct Hq as [[-> ?] | [-> ?]]; lia. }
  assert (Hring4 : ring (pnx k4) (ppv k4) [p0]).
  { apply (ring_alone_modifies [(p1 + process_task, 4)] (pmem s)); [by apply (ring_alone_modifies cs k)|exact M4|by apply (modifies_owned _ _ _ _ _ M)|].
    apply Hin. by left. }
  assert (Hpm4 : procs_mem k4 [p1; p0]).
  { split; [by apply (modifies_inv _ _ _ M4)| |].
    - intros a [-> | ->%list_elem_of_singleton]%elem_of_cons; (split; [apply (modifies_owned _ _ _ _ _ M4); [|done]|done]); [done|].
      by apply (modifies_owned _ _ _ _ _ M).
    - intros a b [-> | ->%list_elem_of_singleton]%elem_of_cons [-> | ->%list_elem_of_singleton]%elem_of_cons Hab;
        unfold apart in *; (done || lia). }
  assert (Hst4 : kread k4 (st + task_process) = Ok p0).
  { rewrite (modifies_read _ _ _ _ M4); [done|..].
    - apply (kowned_sub _ _ _ _ _ Host); unfold task_process, SIZEOF_TASK, TASK_KERNEL_STACK_SIZE; lia.
    - apply Forall_singleton. cbn [fst snd]. unfold apart, task_process, process_task, SIZEOF_PROCESS, SIZEOF_TASK, TASK_KERNEL_STACK_SIZE in *. lia. }
  assert (Hnot : p1 ∉ [p0]) by (intros ->%list_elem_of_singleton; unfold apart, SIZEOF_PROCESS in *; lia).
  destruct (process_list_insert_spec st (set_processes (set_pmem s k4) l) p0 [] p1 Hring4 Hpm4 Hnot Hpos Hst4) as (k5 & E5 & Hr5 & Hpm5 & M5).
  change (pmem (set_processes (set_pmem s k4) l)) with k4 in M5. exists k4, k5. split; [done|]. split; [|split; [|split; [|split; [done|split]]]].
  - rewrite (modifies_read _ _ _ _ M4); [done|apply (kowned_sub _ _ _ _ _ Ho); unfold process_pid, SIZEOF_PROCESS; lia|].
    apply Hin. right. split; [done|]. by left.
  - exact E5.
  - eapply modifies_step; [apply (modifies_sub _ _ _ _ M4)|exact M5|];
      intros a n _ _ Ha; apply Forall_cons in Ha as [Ha1 Ha2]; [by apply Forall_singleton|done].
  - destruct Hpm5 as [Hi5 Ho5 Ha5]. split; [done| |].
    + intros a Ha. apply Ho5. rewrite list_elem_of_In in Ha |- *. cbn [In] in *. tauto.
    + intros a b Ha Hb. apply Ha5; rewrite list_elem_of_In in Ha, Hb |- *; cbn [In] in *; tauto.
  - rewrite (modifies_read _ _ _ _ M5); [apply (pread_member _ _ _ _ _ W4); by left| |].
    + apply (modifies_owned _ _ _ _ _ M4); [|done]. apply (kowned_sub _ _ _ _ _ Ho); unfold process_task, SIZEOF_PROCESS; lia.
    + apply plinks_apart. intros c Hc%list_elem_of_In. unfold apart, process_task, process_next, SIZEOF_PROCESS in *.
      destruct Hc as [<- | [<- | []]]; lia.
Qed.

(** The process of [init_idle_process], up to its task. *)
Lemma idle_process fuel sizes st kpd t0 k0 s p0 name t1 : kernel_task k0 st kpd →
  (∀ x, arena k0 x → is_Some (memory k0 !! (x + 1))) →
  system_ready fuel (SIZEOF_PROCESS :: PROGRAM_STACK_SIZE :: sizes) st kpd t0 k0 (pmem s) p0 →
  name_ok (pmem s) name t1 → (length t1 < fuel)%nat →
  ∃ p1 stack k1 k1' k2 c, new_kernel_process kpd s 1 name = Ok (p1, set_pmem s k1) ∧
    pzalloc (set_pmem s k1) PROGRAM_STACK_SIZE = Ok (stack, set_pmem s k1') ∧
    pwrite (set_pmem s k1') p1 process_stack stack = Ok (set_pmem s k2) ∧
    load_char (memory k2) (stack + PROGRAM_STACK_SIZE) = Ok c ∧ 0 < p1 ∧ p1 + SIZEOF_PROCESS < 2 ^ 32 ∧
    fresh (pmem s) p1 SIZEOF_PROCESS ∧ modifies [] (pmem s) k2 ∧ kernel_process fuel k2 kpd p1 t1 ∧
    kread k2 (p1 + process_pid) = Ok 1 ∧ room sizes k2.
Proof.
  intros Hk0 Har Hready (Ht1 & Hlen & Hname) Hf1.
  pose proof (tasks_inv _ _ (tasks_memory _ _ _ (system_tasks _ _ _ _ _ _ _ _ Hready))) as Hi.
  destruct (new_kernel_process_spec kpd (PROGRAM_STACK_SIZE :: sizes) s 1 name t1 Hi)
    as (p1 & k1 & E1 & Hp & Hptop & Hfr & Ho & M1 & R1 & W1 & Hn1); [apply Hready|done|done|done|apply Hk0|done|].
  assert (M01 : modifies [(st, SIZEOF_TASK)] k0 k1) by (eapply modifies_step; [apply Hready|exact M1|constructor]).
  destruct (idle_stack _ sizes k0 (set_pmem s k1) p1 M01 Ho Hp Har R1)
    as (stack & k1' & k2 & c & E2 & E3 & Ec & R2 & M2 & _).
  change (pmem (set_pmem s k1)) with k1 in *. exists p1, stack, k1, k1', k2, c. split; [done|].
  do 6 (split; [done|]). split; [|split; [|split; [|done]]].
  - apply (modifies_new _ k1 k2 p1 SIZEOF_PROCESS (p1 + process_stack) 4); [done..| | |done|done];
      unfold process_stack, SIZEOF_PROCESS; lia.
  - apply (kernel_process_modifies _ _ _ _ _ _ _ M2).
    + apply Forall_singleton. unfold apart, process_name, process_stack. cbn [fst snd]. lia.
    + apply Forall_singleton. unfold apart, process_page_directory, process_stack. cbn [fst snd]. lia.
    + split; [done| |done|done]. apply (pread_member _ _ _ _ _ W1). by left.
  - rewrite (modifies_read _ _ _ _ M2); [apply (pread_member _ _ _ _ _ W1); right; by left| |].
    + apply (kowned_sub _ _ _ _ _ Ho); unfold process_pid, SIZEOF_PROCESS; lia.
    + apply Forall_singleton. unfold apart, process_pid, process_stack. cbn [fst snd]. lia.
Qed.

(** What the first task's links and the new process have in common: nothing. *)
Lemma links_process st p off n : apart st SIZEOF_TASK p SIZEOF_PROCESS → 0 ≤ off → off + n ≤ SIZEOF_PROCESS →
  apart_all (links [st]) (p + off) n.
Proof.
  intros Ha Hlo Hhi. apply links_apart. intros a ->%list_elem_of_singleton.
  unfold apart, task_next, SIZEOF_TASK, SIZEOF_PROCESS, TASK_KERNEL_STACK_SIZE in *. lia.
Qed.

Lemma init_idle_process_spec fuel sizes st kpd t0 idle k0 s p0 name t1 : kernel_task k0 st kpd →
  (∀ x, arena k0 x → is_Some (memory k0 !! (x + 1))) →
  system_ready fuel (SIZEOF_PROCESS :: PROGRAM_STACK_SIZE :: SIZEOF_TASK :: sizes) st kpd t0 k0 (pmem s) p0 →
  current_task (ptasks s) = st → name_ok (pmem s) name t1 → (length t1 < fuel)%nat → (1 < fuel)%nat →
  (1 < length (processes s))%nat → word idle →
  ∃ p1 t esp s', init_idle_process st kpd idle fuel s name = Ok s' ∧ tasking_ready fuel st kpd k0 (pmem s') p0 p1 t ∧
    words_at (pmem s') (first_stack t 1) (first_frame 1 idle esp) ∧
    current_task (ptasks s') = st ∧ current_process s' = current_process s ∧
    processes s' = <[1%nat := p1]> (processes s) ∧ interrupts s' = interrupts s.
Proof.
  intros Hk0 Har Hready Hc Hname Hf1 Hf Hslots Hidle. unfold init_idle_process.
  destruct (idle_process _ _ _ _ _ _ _ _ _ _ Hk0 Har Hready Hname Hf1)
    as (p1 & stack & k1 & k1' & k2 & c & -> & E1 & E2 & Ec & Hp & Hptop & Hfr & M02 & Hp1 & Hpid & R2).
  rewrite bind_Ok, E1, bind_Ok, E2, bind_Ok. set (s2 := set_pmem s k2). change (pmem s2) with k2. rewrite Ec, bind_Ok.
  assert (Host : kowned (pmem s) st SIZEOF_TASK).
  { by apply (tasks_owned _ _ (tasks_memory _ _ _ (system_tasks _ _ _ _ _ _ _ _ Hready))); left. }
  pose proof (Hfr st SIZEOF_TASK ltac:(done) Host) as As1.
  pose proof (system_fresh _ _ _ _ _ _ _ _ Hready st SIZEOF_TASK ltac:(done) (proj1 (ktask_owned _ _ _ Hk0))) as As0.
  destruct (task_new_spec fuel sizes (ptasks s2) st [] p1 1 idle (u32 c)) as (t & tk & E3 & Hfrt & Hok3 & Hc3 & Ht3 & Hsv3 & W3 & M3);
    [apply (tasks_frame _ _ _ _ M02), Hready|exact Hc|done|exact R2|unfold word, SIZEOF_PROCESS in *; lia| |done|apply u32_range|].
  { apply (process_of_kernel _ _ _ _ kpd t1); [|done|].
    - apply (kernel_directory_modifies [] (pmem s)); [done|constructor|apply Hready].
    - intros a ->%list_elem_of_singleton. unfold apart in *. lia. }
  rewrite E3, bind_Ok. clear E3. cbv zeta. set (s3 := set_ptasks s2 tk).
  change (kheap (mach (ptasks s2))) with k2 in *. change (kheap (mach tk)) with (pmem s3) in *.
  pose proof (tasks_memory _ _ _ Hok3) as Hm3. destruct (tasks_owned _ _ Hm3 t) as [Hot Htop]; [by right; left|].
  destruct (process_joins st (links [st]) (pmem s) s3 (<[1%nat := p1]> (processes s)) p0 p1 t)
    as (k4 & k5 & -> & Epid & E5 & M5 & Hring & Hprocs & Hpt);
    [apply Hready|apply Hready|done| | | | | | |by apply (tasks_owned _ _ Hm3); left|apply Hk0|done|].
  { apply (modifies_owned _ _ _ _ _ M3); [apply Hp1|done]. }
  { unfold SIZEOF_PROCESS in *. lia. }
  { unfold word, SIZEOF_TASK, TASK_KERNEL_STACK_SIZE in *. lia. }
  { eapply modifies_step; [apply (modifies_sub _ _ _ _ M02); by constructor|exact M3|done]. }
  { by apply links_process. }
  { by apply (first_process_kept fuel _ st kpd t0 k0 (pmem s) k2 _ p0 Hready). }
  assert (Hpid4 : kread k4 (p1 + process_pid) = Ok 1).
  { rewrite Epid, (modifies_read _ _ _ _ M3); [done| |by apply links_process].
    apply (kowned_sub _ _ _ _ _ (kproc_owned _ _ _ _ _ Hp1)); unfold process_pid, SIZEOF_PROCESS; lia. }
  rewrite bind_Ok, (pread_ok (set_pmem s3 k4) p1 process_pid 1), bind_Ok by (lia || done).
  unfold set_slot. change (s32 1) with 1. change (processes (set_pmem s3 k4)) with (processes s).
  rewrite arr_set_in, !bind_Ok by lia. change (Z.to_nat 1) with 1%nat. rewrite E5, bind_Ok.
  destruct (idle_joined fuel _ st kpd t0 t1 k0 (pmem s) k2 (pmem s3) k5 p0 p1 t Hk0 Hready Hfr M02 Hp1 Hfrt Hok3 M3 M5 Ht3) as (Hok5 & Hs5 & Ht5 & Hap5 & M05 & Hps5 & Hnew5 & Hat5).
  assert (Hin : ∀ off n, 0 ≤ off → off + n ≤ SIZEOF_TASK →
    kowned (pmem s3) (t + off) n ∧ apart_all (joins_cs p0 p1) (t + off) n).
  { intros off n Hlo Hhi. split; [apply (kowned_sub _ _ _ _ _ Hot); lia|].
    eapply Forall_impl; [exact Hap5|]. intros a. unfold apart. lia. }
  exists p1, t, (u32 c). eexists. split; [done|]. cbn [snd].
  split; [split; [done..|by split| |exact M05|by exists t0, t1|done|done]|split; [|done]].
  - unfold saved. change (kread k5 (t + task_kernel_stack_pointer) = Ok (first_stack t 1)).
    rewrite (modifies_read _ _ _ _ M5); [done|by apply Hin..].
  - destruct (first_stack_place t 1 idle (u32 c)) as [Hlo Hhi].
    replace (first_stack t 1) with (t + (first_stack t 1 - t)) in W3, Hlo, Hhi |- * by lia.
    destruct (Hin (first_stack t 1 - t) (4 * Z.of_nat (length (first_frame 1 idle (u32 c))))); [lia|lia|].
    by apply (words_at_modifies _ _ _ _ _ M5).
Qed.

Lemma name_ok_modifies cs k k' a t : modifies cs k k' → apart_all cs a (Z.of_nat (length t) + 1) → name_ok k a t → name_ok k' a t.
Proof.
  intros M Ha (Ht & Hl & Ho). split; [by apply (modifies_cstr _ _ _ _ _ M)|]. split; [done|].
  apply (modifies_owned _ _ _ _ _ M); [done|lia].
Qed.

(** What is in memory when [tasking_init] is called: the kernel's task and directory, the
    two names, and the byte after every byte of the heap. *)
Record boots (fuel : nat) k (st kpd system_name : Z) (t0 : list Z) (idle_name : Z) (t1 : list Z) : Prop := Boots {
  boots_task : kernel_task k st kpd;
  boots_past : ∀ x, arena k x → is_Some (memory k !! (x + 1));
  boots_names : name_ok k system_name t0 ∧ name_ok k idle_name t1;
  boots_apart : apart idle_name (Z.of_nat (length t1) + 1) st SIZEOF_TASK;
  boots_fuel : (length t0 < fuel)%nat ∧ (length t1 < fuel)%nat ∧ (1 < fuel)%nat
}.

(** [tasking_init] leaves the processor's registers, the segments and the files alone. *)
Definition frozen s := (processor (ptasks s), pfiles s).

Lemma pwrite_frozen s p off v s' : pwrite s p off v = Ok s' → frozen s' = frozen s.
Proof. unfold pwrite. intros E. by processor_tac. Qed.

Lemma task_frozen s t : processor t = processor (ptasks s) → frozen (set_ptasks s t) = frozen s.
Proof. intros E. by apply pair_equal_spec. Qed.

Lemma new_process_frozen kpd s pid name r : new_kernel_process kpd s pid name = Ok r → frozen r.2 = frozen s.
Proof.
  unfold new_kernel_process, pzalloc, pname. intros E. processor_tac.
  repeat match goal with H : pwrite _ _ _ _ = Ok _ |- _ => apply pwrite_frozen in H end.
  by repeat (etransitivity; [eassumption|]).
Qed.

Lemma list_insert_frozen st s p r : process_list_insert st s p = Ok r → frozen r.2 = frozen s.
Proof.
  unfold process_list_insert. intros E. processor_tac.
  repeat match goal with H : pwrite _ _ _ _ = Ok _ |- _ => apply pwrite_frozen in H end.
  by repeat (etransitivity; [eassumption|]).
Qed.

Lemma tasking_init_frozen st kpd idle raise fuel s system_name idle_name s' : prints_only raise →
  tasking_init st kpd idle raise fuel s system_name idle_name = Ok s' → frozen s' = frozen s.
Proof.
  intros Hraise. unfold tasking_init, init_system_process, init_idle_process, set_slot, pzalloc. intros E. processor_tac.
  repeat match goal with
    | H : pwrite _ _ _ _ = Ok _ |- _ => apply pwrite_frozen in H
    | H : new_kernel_process _ _ _ _ = Ok _ |- _ => apply new_process_frozen in H
    | H : process_list_insert _ _ _ = Ok _ |- _ => apply list_insert_frozen in H
    | H : task_new _ _ _ _ _ _ = Ok _ |- _ => apply task_new_processor, task_frozen in H
    | H : raise ?s = Ok _ |- _ => let Er := fresh in destruct (Hraise s) as [? Er]; rewrite Er in H; injection H as <-; clear Er
    end.
  by repeat (etransitivity; [eassumption|]).
Qed.

(** The next timer tick runs the idle task. *)
Lemma ready_schedules fuel st kpd k0 (ts : tasking K) p0 p1 t frame :
  tasking_ready fuel st kpd k0 (kheap (mach ts)) p0 p1 t → current_task ts = st → word frame →
  ∃ ts', schedule fuel ts frame = Ok (first_stack t 1, ts') ∧ current_task ts' = t.
Proof.
  intros Hr Hc Hframe. pose proof (ready_tasks _ _ _ _ _ _ _ _ Hr) as Hok. pose proof (tasks_memory _ _ _ Hok) as Hm.
  destruct (member_value _ _ st task_n_switches Hm) as [n Hn]; [by left|member|].
  destruct (runnable_directory _ _ _ _ (tasks_run _ _ _ Hok t ltac:(by right; left))) as [e He].
  destruct (schedule_spec fuel ts st t [] frame n _ e Hok Hc Hframe Hn (ready_frame _ _ _ _ _ _ _ _ Hr) He)
    as (s3 & E3 & Hc3 & _).
  by exists s3.
Qed.

Lemma tasking_init_spec fuel sizes st kpd idle raise s system_name t0 idle_name t1 :
  boots fuel (pmem s) st kpd system_name t0 idle_name t1 → prints_only raise →
  room (SIZEOF_PROCESS :: SIZEOF_PROCESS :: PROGRAM_STACK_SIZE :: SIZEOF_TASK :: sizes) (pmem s) →
  (1 < length (processes s))%nat → word idle →
  ∃ p0 p1 t s', tasking_init st kpd idle raise fuel s system_name idle_name = Ok s' ∧
    tasking_ready fuel st kpd (pmem s) (pmem s') p0 p1 t ∧
    current_task (ptasks s') = st ∧ current_process s' = p0 ∧ interrupts s' = true ∧
    processes s' = <[1%nat := p1]> (<[0%nat := p0]> (processes s)) ∧
    ∀ frame, word frame → ∃ esp ts, schedule fuel (ptasks s') frame = Ok (first_stack t 1, ts) ∧
      current_task ts = t ∧ words_at (pmem s') (first_stack t 1) (first_frame 1 idle esp).
Proof.
  intros [Hk Hpast [Hn0 Hn1] Hap (Hf0 & Hf1 & Hf)] Hraise Hroom Hslots Hidle. unfold tasking_init.
  destruct (init_system_process_spec fuel _ st kpd raise s system_name t0 Hk Hraise Hroom Hn0 Hf0 Hslots)
    as (p0 & s1 & -> & Hready & Hc1 & Hp1 & Ht1 & _).
  rewrite bind_Ok. cbv zeta.
  destruct (init_idle_process_spec fuel sizes st kpd t0 idle (pmem s) (enable_interrupts s1) p0 idle_name t1 Hk Hpast Hready Hc1)
    as (p1 & t & esp & s2 & E & Hrt & W & Hc2 & Hp2 & Ht2 & Hi2); [|done|done| |done|].
  { apply (name_ok_modifies _ _ _ _ _ (system_modifies _ _ _ _ _ _ _ _ Hready)); [by apply Forall_singleton|done]. }
  { cbn. rewrite Ht1, length_insert. done. }
  exists p0, p1, t, s2. split; [exact E|]. split; [done|]. split; [done|]. split; [by rewrite Hp2|]. split; [by rewrite Hi2|].
  split; [rewrite Ht2; cbn; by rewrite Ht1|]. intros frame Hframe.
  destruct (ready_schedules fuel st kpd _ (ptasks s2) p0 p1 t frame Hrt Hc2 Hframe) as (ts & E2 & Hts).
  by exists esp, ts.
Qed.

(** ** The claims *)

(** C4: [tasking_init] with room for two processes, a stack and a task. Afterwards the
    process table holds the system process and the idle process in slots 0 and 1, the
    two are linked in a ring, each is the process of its task and the tasks are linked
    in a ring; the system process is current, interrupts are enabled, and the next timer
    tick runs the idle task, on a frame that returns to the idle function. *)
Theorem tasking_init_ready fuel sizes st kpd idle raise s system_name t0 idle_name t1 :
  boots fuel (pmem s) st kpd system_name t0 idle_name t1 → prints_only raise →
  room (SIZEOF_PROCESS :: SIZEOF_PROCESS :: PROGRAM_STACK_SIZE :: SIZEOF_TASK :: sizes) (pmem s) →
  (1 < length (processes s))%nat → word idle →
  ∃ p0 p1 t s', tasking_init st kpd idle raise fuel s system_name idle_name = Ok s' ∧
    tasking_ready fuel st kpd (pmem s) (pmem s') p0 p1 t ∧
    current_task (ptasks s') = st ∧ current_process s' = p0 ∧ interrupts s' = true ∧
    processes s' = <[1%nat := p1]> (<[0%nat := p0]> (processes s)) ∧
    ∀ frame, word frame → ∃ esp ts, schedule fuel (ptasks s') frame = Ok (first_stack t 1, ts) ∧
      current_task ts = t ∧ words_at (pmem s') (first_stack t 1) (first_frame 1 idle esp).
Proof. apply tasking_init_spec. Qed.

(** ** Loading a program *)

Section load.
Variable operations_at : Z → option (filesystem_operations_t K F).
Variables disks_address w_str r_str a_str colon_slash system_task kernel_page_directory : Z.
#[local] Abbreviation load := (process_load operations_at disks_address w_str r_str a_str colon_slash system_task kernel_page_directory).
#[local] Abbreviation load_binary := (process_load_binary operations_at disks_address w_str r_str a_str colon_slash).
#[local] Abbreviation init := (process_init system_task kernel_page_directory).

Lemma process_get_spec s (i : nat) p : (Z.of_nat i < MAX_PROCESSES) → processes s !! i = Some p →
  process_get s (Z.of_nat i) = Ok p.
Proof. intros Hi Hp. unfold process_get. rewrite decide_False, arr_get_nat, Hp by lia. done. Qed.

Lemma process_search s : length (processes s) = Z.to_nat MAX_PROCESSES →
  let search := while_loop (S (Z.to_nat MAX_PROCESSES)) (process_slot_round s) 0 in
  (Forall (λ p, p ≠ 0) (processes s) ∧ search = Ok (-1)) ∨
  ∃ i, search = Ok (Z.of_nat i) ∧ processes s !! i = Some 0 ∧ ∀ j p, (j < i)%nat → processes s !! j = Some p → p ≠ 0.
Proof.
  intros Hl. cbv zeta. rewrite <- Hl. apply search_spec.
  - intros i x Hx. pose proof (lookup_lt_Some _ _ _ Hx). unfold process_slot_round.
    rewrite decide_True by lia. by rewrite (process_get_spec _ _ x) by (done || lia).
  - unfold process_slot_round. by rewrite decide_False by lia.
Qed.

(** C40: the search of [process_load] ends. With every slot taken it returns [-ENOMEM]
    and changes nothing; else it reads the file and builds the process in the lowest free
    slot. *)
Theorem process_load_slot fuel s filename memory_size file_stat : length (processes s) = Z.to_nat MAX_PROCESSES →
  (Forall (λ p, p ≠ 0) (processes s) ∧ load fuel s filename memory_size file_stat = Ok (- ENOMEM, s)) ∨
  ∃ i, processes s !! i = Some 0 ∧ (∀ j p, (j < i)%nat → processes s !! j = Some p → p ≠ 0) ∧
    load fuel s filename memory_size file_stat =
    r ← load_binary fuel s filename memory_size file_stat;
    let '(_, memory, memory_size, s) := r in init fuel s filename memory memory_size 0 (Z.of_nat i).
Proof.
  intros Hl. unfold process_load. destruct (process_search s Hl) as [[Hf ->] | (i & -> & Hi & Hlow)]; rewrite bind_Ok.
  - left. done.
  - right. exists i. rewrite decide_False by lia. done.
Qed.

(** A file that [fopen] cannot open. [process_load_binary] then passes the NULL
    stream to [fclose], so [process_load] is undefined whenever a slot is free. *)
Theorem process_load_unopened fuel s filename memory_size file_stat i v : length (processes s) = Z.to_nat MAX_PROCESSES →
  processes s !! i = Some 0 → fopen operations_at disks_address w_str r_str a_str colon_slash fuel (vfs_of s) filename r_str = Ok (0, v) →
  load fuel s filename memory_size file_stat = Ub.
Proof.
  intros Hl Hi Hopen. destruct (process_search s Hl) as [[Hf _] | (j & E & _)].
  - by apply Forall_lookup_1 with (1 := Hf) in Hi.
  - unfold process_load. rewrite E, bind_Ok, decide_False by lia.
    unfold process_load_binary, with_files. rewrite Hopen. reflexivity.
Qed.
End load.
End laws.

(** ** A kernel to boot

    The heap has one block taken and eight free ones. The task of the kernel lies past
    it, then the two names, the strings of [fopen] and of the path parser, the handle of the kernel's directory and the directory. The
    interrupt does nothing. *)
Definition witness_boot_kernel : kernel :=
  example_kernel (Used 1 :: replicate 8 Free) 0x12000
    [(0x1D000, text "System Process" ++ [0]); (0x1D100, text "Idle Process" ++ [0]);
     (0x1D200, [119; 0]); (0x1D204, [114; 0]); (0x1D208, [97; 0]); (0x1D20C, [58; 47; 0]);
     (0x1E000, split4 0x1F000); (0x1FFFC, split4 0x5003)].

Definition witness_boot : processing kernel unit :=
  Processing (Tasking (Machine witness_boot_kernel 0 0 0 0 0 0 (Terminal ∅ 0 0)) witness_gdt 0)
    (tt, FileTable [] 0, [], 0) (replicate (Z.to_nat MAX_PROCESSES) 0) 0 false.

Lemma witness_boot_ok : kernel_ok witness_boot_kernel (Used 1 :: replicate 8 Free).
Proof. apply example_kernel_ok; [by repeat constructor|done|done|by repeat constructor]. Qed.

Lemma witness_boot_outside a n : 0x19000 ≤ a → a + n ≤ 0x22000 → kowned witness_boot_kernel a n.
Proof. intros Ha Hn. apply example_outside; [exact Ha|]. change (0x10000 + 0x12000) with 0x22000. done. Qed.

Lemma witness_boots : boots 20 witness_boot_kernel 0x19000 0x1E000 0x1D000 (text "System Process") 0x1D100 (text "Idle Process").
Proof.
  split; [split| | | |].
  - eexists. exact witness_boot_ok.
  - split; [by apply witness_boot_outside|done].
  - done.
  - exists 0x1F000, 0x5003. split; (split; [example_mem|]); (split; [apply witness_boot_outside; done|]);
      intros c ->%list_elem_of_singleton; by (left + right).
  - intros x Hx. change (0x10000 ≤ x < 0x19000) in Hx. apply (example_ram_mapped 0x12000). lia.
  - split; (split; [split; [example_mem|by repeat constructor]|]);
      (split; [cbn; lia|apply witness_boot_outside; done]).
  - by right.
  - cbn. lia.
Qed.

Lemma tasking_init_ready_witness :
  ∃ p0 p1 t s', tasking_init 0x19000 0x1E000 0x101234 Ok 20 witness_boot 0x1D000 0x1D100 = Ok s' ∧
    tasking_ready 20 0x19000 0x1E000 witness_boot_kernel (pmem s') p0 p1 t ∧
    current_task (ptasks s') = 0x19000 ∧ current_process s' = p0 ∧ interrupts s' = true ∧
    processes s' = <[1%nat := p1]> (<[0%nat := p0]> (replicate (Z.to_nat MAX_PROCESSES) 0)) ∧
    ∀ frame, word frame → ∃ esp ts, schedule 20 (ptasks s') frame = Ok (first_stack t 1, ts) ∧
      current_task ts = t ∧ words_at (pmem s') (first_stack t 1) (first_frame 1 0x101234 esp).
Proof.
  apply (tasking_init_ready 20 [] 0x19000 0x1E000 0x101234 Ok witness_boot 0x1D000 (text "System Process") 0x1D100 (text "Idle Process")).
  - exact witness_boots.
  - intros s. exists (console (mach (ptasks s))). destruct s as [[[] ? ?] ? ? ? ?]. done.
  - apply (heap_room_ok _ _ _ witness_boot_ok). by vm_compute.
  - unfold witness_boot. cbn [processes]. rewrite length_replicate. apply Nat2Z.inj_lt. done.
  - done.
Defined.

Lemma process_load_slot_witness :
  (Forall (λ p, p ≠ 0) (processes witness_boot) ∧
    process_load (λ _, None) 0 1 2 3 4 0x19000 0x1E000 20 witness_boot 0x1D000 0 0x20000 = Ok (- ENOMEM, witness_boot)) ∨
  ∃ i, processes witness_boot !! i = Some 0 ∧ (∀ j p, (j < i)%nat → processes witness_boot !! j = Some p → p ≠ 0) ∧
    process_load (λ _, None) 0 1 2 3 4 0x19000 0x1E000 20 witness_boot 0x1D000 0 0x20000 =
    r ← process_load_binary (λ _, None) 0 1 2 3 4 20 witness_boot 0x1D000 0 0x20000;
    let '(_, memory, memory_size, s) := r in
    process_init 0x19000 0x1E000 20 s 0x1D000 memory memory_size 0 (Z.of_nat i).
Proof.
  apply (process_load_slot (λ _, None) 0 1 2 3 4 0x19000 0x1E000 20 witness_boot 0x1D000 0 0x20000).
  unfold witness_boot. cbn [processes]. apply length_replicate.
Defined.

Lemma process_load_unopened_witness :
  fopen (λ _, None) 0 0x1D200 0x1D204 0x1D208 0x1D20C 20 (vfs_of witness_boot) 0x1D000 0x1D204 = Ok (0, vfs_of witness_boot) ∧
  process_load (λ _, None) 0 0x1D200 0x1D204 0x1D208 0x1D20C 0x19000 0x1E000 20 witness_boot 0x1D000 0 0x20000 = Ub.
Proof.
  assert (E : fopen (λ _, None) 0 0x1D200 0x1D204 0x1D208 0x1D20C 20 (vfs_of witness_boot) 0x1D000 0x1D204 = Ok (0, vfs_of witness_boot)).
  { assert (Em : file_mode_from_string 0x1D200 0x1D204 0x1D208 (memory (vmem (vfs_of witness_boot))) 0x1D204 = Ok OPEN_MODE_READ).
    { apply (file_mode_ok (K := kernel) (F := unit) (λ _, None) 0 0x1D200 0x1D204 0x1D208 0x1D20C _ _ 114); [split_and!; example_mem|example_mem|done]. }
    assert (Ep : pathparser_path_is_valid (vmem (vfs_of witness_boot)) 0x1D20C 0x1D000 = Ok false).
    { destruct witness_boots as [_ _ [[Ht _] _] _ _].
      destruct (path_is_valid_ok _ 0x1D20C _ _ Ht) as ([] & E & Hv); [example_mem| |exact E].
      destruct (proj1 Hv eq_refl) as (d & rest & Hp & _). discriminate Hp. }
    unfold fopen, pathparser_path_parse. rewrite Em, bind_Ok, Ep. done. }
  split; [exact E|].
  apply (process_load_unopened (λ _, None) 0 0x1D200 0x1D204 0x1D208 0x1D20C 0x19000 0x1E000 20 witness_boot 0x1D000 0 0x20000
    0 (vfs_of witness_boot)).
  - unfold witness_boot. cbn [processes]. apply length_replicate.
  - done.
  - exact E.
Defined.
