(* ===== verification/Program.v ===== *)
(** [src/kernel/task/process.c], the memory of a program: [process_map_memory] gives a
    process a copy of the kernel's directory in which the program's file is at
    [PROGRAM_BASE_VIRT_ADDR] and its stack at [PROGRAM_STACK_TOP_VIRT_ADDR].
    [Process] has the definitions. *)
From S2P Require Import Prelude Mem CString Heap Kheap Store Ring Termio Disk PathParser Gdt Paging AddressSpace Task FileTable File Process.

(** * The machine's side *)

Section machine.
Context {K : Type} `{AllocatorLaws K}.
Context {Q : K → Prop}.
Implicit Types (m : machine K).

(** A page the current directory maps at the start is mapped, to the same place, once
    the kernel has changed [cs] and memory of its own; the words that map it are apart
    from the slot [b] of a new handle. *)
Lemma walkable_later m m' cs x b c : walkable m (current_directory m) cs x → keeps m m' →
  modifies cs (kheap m) (kheap m') → (∀ a n, 0 < n → owned m a n → apart a n b c) →
  walkable m' (current_directory m') [(b, c)] x ∧
  virtual_to_physical_addr m' (current_directory m') x = virtual_to_physical_addr m (current_directory m) x.
Proof.
  intros Hw K1 M1 Hfr. destruct (walk m m' _ _ x Hw (keeps_cr4 _ _ K1)) as (ph & E1 & E2 & _).
  { intros a Ha Hcs. by apply (modifies_read _ _ _ _ M1). }
  rewrite (keeps_current _ _ K1), E1, E2. split; [|done].
  destruct Hw as (words & ph' & Ht & Hr & Hm & Hf). exists words, ph'. split; [|split; [done|split; [done|]]].
  - intros s' Hc Hs. apply Ht; [by rewrite Hc, (keeps_cr4 _ _ K1)|]. rewrite Forall_forall in *.
    intros a Ha. rewrite (Hs a Ha). destruct (Hf a Ha). by apply (modifies_read _ _ _ _ M1).
  - eapply Forall_impl; [exact Hf|]. intros a [Ho _]. split; [by apply (modifies_owned _ _ _ _ _ M1)|].
    apply Forall_singleton. by apply Hfr.
Qed.

(** A range mapped in a slot that has no table yet: the table is the next allocation. *)
Lemma map_new_range m h d tbl virt phys phys_end flags t al :
  let i := V_ADDR_PAGEDIR_INDEX virt in
  alloc_inv (kheap m) → dir_ok m h d tbl → tbl i = 0 → i < 1023 → 0 ≤ virt → 0 ≤ phys < phys_end → phys_end < 2 ^ 32 →
  virt mod 4096 = 0 → phys mod 4096 = 0 → phys_end mod 4096 = 0 →
  (∀ x, 0 ≤ x < phys_end - phys → V_ADDR_PAGEDIR_INDEX (virt + x) = i) →
  0 ≤ flags < 4096 → PAGE_ENTRY_PSE_BIT flags = 0 →
  allots Q ((4096, t) :: al) (kheap m) → walkable m (current_directory m) [(directory_virtual_at h i, 4)] t →
  ∃ m' tbl', paging_map_from_to m h virt phys phys_end flags = Ok (0, m') ∧ keeps m m' ∧ dir_ok m' h d tbl' ∧
    tbl' i = t ∧ t ≠ 0 ∧ (∀ j, j ≠ i → tbl' j = tbl j) ∧ allots Q al (kheap m') ∧
    modifies [(h, SIZEOF_PAGE_DIRECTORY_HANDLE); (d, 4096); (t, 4096)] (kheap m) (kheap m') ∧
    (∀ a n, 0 < n → owned m a n → apart a n t 4096) ∧
    (∀ x, 0 ≤ x < phys_end - phys → virtual_to_physical_addr m' h (virt + x) = Ok (phys + x)) ∧
    (∀ va, 0 ≤ va < 2 ^ 32 → V_ADDR_PAGEDIR_INDEX va < 1023 → tbl (V_ADDR_PAGEDIR_INDEX va) ≠ 0 →
       virtual_to_physical_addr m' h va = virtual_to_physical_addr m h va) ∧
    (∀ j, 0 ≤ j < 1024 → j ≠ i → Paging.read m' (d + 4 * j) = Paging.read m (d + 4 * j)) ∧
    entries_after m m' tbl tbl' virt phys ((phys_end - phys) / 4096) flags ∧
    ∃ frame, virtual_to_physical_addr m (current_directory m) t = Ok frame ∧ Paging.read m' (d + 4 * i) = Ok (Z.lor frame flags).
Proof.
  intros i Hi Hd Hz Hlt Hv Hp Hpe Hva Hpa Hea Hone Hfl Hpse Ha Hw.
  destruct (map_from_to_spec m h d tbl virt phys phys_end flags) as (m' & tbl' & E & T & Hent & Ht & Hs); try done.
  { right. exists t. by eapply allots_room_table. }
  fold i in T. destruct (supplied_next (Q := Q) m m' h d tbl tbl' i flags t al Hi T Hz Ha) as (Et & A' & _ & Hap & Hfr).
  pose proof T as [K1 D1 Hne O1 F1 P1 _]. exists m', tbl'. rewrite Et in *.
  do 5 (split; [done|]). split; [intros j Hj; apply O1; by right|]. do 4 (split; [done|]). split; [|split; [|by split]].
  - intros va Hr Hiv Htv. apply Hs; try done. intros [H1 H2]. apply Htv.
    replace va with (virt + (va - virt)) by lia. rewrite Hone by lia. done.
  - intros j Hj Hji. apply P1; [done|by left].
Qed.

(** The kernel's directory [kd] at [kpd] as the source of a copy: entries with tables. *)
Record kernel_space m (kpd kd : Z) (ktbl kent : Z → Z) : Prop := KernelSpace {
  ks_dir : dir_ok m kpd kd ktbl;
  ks_ent : ∀ i, 0 ≤ i < 1023 → Paging.read m (kd + 4 * i) = Ok (kent i);
  ks_table : ∀ i, 0 ≤ i < 1023 → kent i ≠ 0 → ktbl i ≠ 0
}.

Lemma nothing_copied kent pages rest : to_copy kent kent pages rest 0 = rest.
Proof.
  unfold to_copy. induction (seqZ 0 (1023 - 0)) as [|j l IH]; [done|].
  rewrite filter_cons_False; [done|]. by intros [_ Hne].
Qed.

(** A copy of the kernel's own directory shares all its tables. *)
Lemma clone_kernel_spec m kpd kd ktbl kent c d al : alloc_inv (kheap m) → kernel_space m kpd kd ktbl kent →
  walkable m (current_directory m) [] d →
  allots Q ((SIZEOF_PAGE_DIRECTORY_HANDLE, c) :: (4096, d) :: al) (kheap m) →
  let tbl := copy_tbl d ktbl kent kent (λ _, 0) in
  ∃ m' physical, paging_clone_directory m kpd kpd = Ok (c, m') ∧ keeps m m' ∧ modifies [] (kheap m) (kheap m') ∧
    allots Q al (kheap m') ∧ dir_ok m' c d tbl ∧
    (∀ va, 0 ≤ va < 2 ^ 32 → V_ADDR_PAGEDIR_INDEX va < 1023 → kent (V_ADDR_PAGEDIR_INDEX va) ≠ 0 →
       virtual_to_physical_addr m' c va = virtual_to_physical_addr m kpd va) ∧
    virtual_to_physical_addr m (current_directory m) d = Ok physical ∧ Paging.read m' (d + 4 * 1023) = Ok (Z.lor physical 3) ∧
    (∀ a n, 0 < n → owned m a n → apart a n c SIZEOF_PAGE_DIRECTORY_HANDLE ∧ apart a n d 4096) ∧
    (∀ i, 0 ≤ i < 1023 → directory_entry m' c i = Ok (kent i)) ∧
    (∀ i k, 0 ≤ i < 1023 → kent i ≠ 0 → 0 ≤ k < 1024 → table_word m' c i k = table_word m kpd i k) ∧
    ∀ i, 0 ≤ i < 1023 → tbl i = if decide (kent i = 0) then 0 else ktbl i.
Proof.
  intros Hi [Hd He Ht] Hw Ha tbl.
  assert (Hs : clone_source m kpd kd kpd kd ktbl ktbl kent kent) by (by split).
  destruct (clone_spec (Q := Q) m kpd kd kpd kd c d ktbl ktbl kent kent (λ _, 0) al Hs)
    as (m' & ph & E & K1 & M1 & A1 & D1 & V1 & Hpde & Hw1 & _ & Ep & Re & N1).
  - intros i _ [_ Hne]. done.
  - done.
  - by rewrite nothing_copied.
  - exists m', ph. do 9 (split; [done|]). split; [|split; [done|]].
    { intros i Hir. specialize (Hpde i Hir). unfold clone_pde in Hpde. unfold directory_entry. rewrite (dir_ptr _ _ _ _ D1), bind_Ok.
      repeat case_decide; [congruence|done|done]. }
    intros i Hir. unfold tbl, copy_tbl, clone_tbl.
    rewrite decide_False by lia. destruct (decide (kent i = 0)); [rewrite decide_False by (intros []; done); done|].
    rewrite decide_True by (split; [lia|done]). by rewrite decide_True.
Qed.

Definition page_directory_of (p : Z) : list (Z * Z) := [(p + process_page_directory, 4)].

(** The program's size in whole pages. *)
Definition page_size_up (size : Z) : Z := 4096 * ((size + 4095) / 4096).

(** What the processor reads of the slot [i] of the directory [c] for the [n] bytes from
    [physical] on: the frame of the table [t], which [m] translates, and the bytes' frames,
    all present, writable and accessible to programs; nothing else is mapped there. *)
Record slot_maps m m' (c i t n physical : Z) : Prop := SlotMaps {
  sm_table : Paging.read m' (directory_virtual_at c i) = Ok t;
  sm_directory : ∃ frame, virtual_to_physical_addr m (current_directory m) t = Ok frame ∧ page frame ∧
    directory_entry m' c i = Ok (Z.lor frame (Z.lor PAGING_WRITABLE_PAGE (Z.lor PAGING_ACCESS_FROM_ALL PAGING_PRESENT)));
  sm_words : ∀ k, 0 ≤ k < 1024 → table_word m' c i k = Ok (if decide (4096 * k < n)
    then Z.lor (physical + 4096 * k) (Z.lor PAGING_WRITABLE_PAGE (Z.lor PAGING_ACCESS_FROM_ALL PAGING_PRESENT)) else 0)
}.

(** What loading starts from: the process at [p] with a file of [size] bytes at
    [memory], a stack, and the pages the copy will be made of. *)
Record loadable m (kpd kd : Z) (ktbl kent : Z → Z) (p memory size stack d t1 t16 pm ps : Z) : Prop := Loadable {
  ld_inv : alloc_inv (kheap m);
  ld_kernel : kernel_space m kpd kd ktbl kent;
  ld_slots : kent 1 = 0 ∧ kent 16 = 0;
  ld_process : owned m p SIZEOF_PROCESS ∧ 0 < p;
  ld_apart : ∀ i, 0 ≤ i < 1023 → ktbl i ≠ 0 → apart (ktbl i) 4096 p SIZEOF_PROCESS;
  ld_size : 0 < size ≤ 0x400000 ∧ pm + size + 4096 ≤ 2 ^ 32 ∧ ps + 8192 ≤ 2 ^ 32;
  ld_directory : walkable m (current_directory m) [] d;
  ld_walk : Forall (walkable m (current_directory m) (page_directory_of p)) [memory; stack; t1; t16];
  ld_physical : virtual_to_physical_addr m (current_directory m) memory = Ok pm ∧
    virtual_to_physical_addr m (current_directory m) stack = Ok ps
}.

Lemma aligned_end a size : 0 ≤ a → a mod 4096 = 0 → 0 < size → a + size + 4096 ≤ 2 ^ 32 →
  paging_align_address (u32 (a + size)) = a + page_size_up size ∧ 0 < page_size_up size < size + 4096 ∧
  page_size_up size mod 4096 = 0.
Proof.
  intros Ha Hm Hs Hr. unfold paging_align_address, PAGING_PAGE_SIZE, page_size_up.
  rewrite (u32_id (a + size)) by lia. rewrite (u32_id (a + size + _)) by lia.
  assert (E : (a + size + (4096 - 1)) / 4096 = a / 4096 + (size + 4095) / 4096) by (Z.div_mod_to_equations; lia).
  rewrite E. rewrite u32_id by (Z.div_mod_to_equations; lia).
  split; [Z.div_mod_to_equations; lia|]. split; [Z.div_mod_to_equations; lia|]. rewrite Z.mul_comm. apply Z.mod_mul. lia.
Qed.

Lemma walkable_page m c cs x ph : walkable m c cs x → virtual_to_physical_addr m c x = Ok ph → 0 ≤ ph ∧ ph mod 4096 = 0.
Proof.
  intros (words & ph' & Ht & Hr & Hm & _) E. rewrite (translates_now _ _ _ _ _ Ht) in E. injection E as <-. split; [lia|done].
Qed.

(** What the range from a slot's start covers. *)
Lemma slot_range i x : 0 ≤ x < 0x400000 → V_ADDR_PAGEDIR_INDEX (i * 0x400000 + x) = i.
Proof. intros Hx. rewrite pagedir_index. change (2 ^ 22) with 0x400000. Z.div_mod_to_equations. lia. Qed.

(** The machine [m'] some steps after [m], with the copy [c] made: only the process's
    member for it changed, and its tables are the kernel's or new. *)
Record stage m (p c d : Z) (ktbl tbl : Z → Z) (al : list (Z * Z)) m' : Prop := Stage {
  st_keeps : keeps m m';
  st_modifies : modifies (page_directory_of p) (kheap m) (kheap m');
  st_allots : allots Q al (kheap m');
  st_dir : dir_ok m' c d tbl;
  st_new : ∀ a n, 0 < n → owned m a n → apart a n c SIZEOF_PAGE_DIRECTORY_HANDLE ∧ apart a n d 4096;
  st_tables : ∀ i, 0 ≤ i < 1023 → tbl i ≠ 0 → tbl i = ktbl i ∨ ∀ a n, 0 < n → owned m a n → apart a n (tbl i) 4096
}.

(** One of the two mappings of [process_map_memory]: [n] bytes from where [x] is. *)
Lemma stage_map m p c d ktbl tbl i t al m1 x ph n : stage m p c d ktbl tbl ((4096, t) :: al) m1 →
  tbl i = 0 → 0 ≤ i < 1023 → Forall (walkable m (current_directory m) (page_directory_of p)) [x; t] →
  virtual_to_physical_addr m (current_directory m) x = Ok ph → 0 < n ≤ 0x400000 → n mod 4096 = 0 → ph + n < 2 ^ 32 →
  ∃ m' tbl', virtual_to_physical_addr m1 (current_directory m1) x = Ok ph ∧
    paging_map_from_to m1 c (i * 0x400000) ph (ph + n) 7 = Ok (0, m') ∧ stage m p c d ktbl tbl' al m' ∧
    tbl' i ≠ 0 ∧ (∀ j, j ≠ i → tbl' j = tbl j) ∧
    (∀ y, 0 ≤ y < n → virtual_to_physical_addr m' c (i * 0x400000 + y) = Ok (ph + y)) ∧
    (∀ va, 0 ≤ va < 2 ^ 32 → V_ADDR_PAGEDIR_INDEX va < 1023 → tbl (V_ADDR_PAGEDIR_INDEX va) ≠ 0 →
       virtual_to_physical_addr m' c va = virtual_to_physical_addr m1 c va) ∧
    (∀ j, 0 ≤ j < 1024 → j ≠ i → directory_entry m' c j = directory_entry m1 c j) ∧
    (∀ a, owned m a 4 → Paging.read m' a = Paging.read m1 a) ∧
    slot_maps m m' c i t n ph ∧
    (∀ j k, 0 ≤ j < 1023 → j ≠ i → tbl j ≠ 0 → 0 ≤ k < 1024 → table_word m' c j k = table_word m1 c j k) ∧
    (∀ j, 0 ≤ j < 1023 → j ≠ i → Paging.read m' (directory_virtual_at c j) = Paging.read m1 (directory_virtual_at c j)).
Proof.
  intros [K1 M1 A1 D1 N1 T1] Hz Hir Hw Ex Hn Hnm Hend. rewrite !Forall_cons in Hw. destruct Hw as (Hwx & Hwt & _).
  destruct (walkable_page _ _ _ _ _ Hwx Ex) as [Hph Hphm].
  assert (Hslot : ∀ a n, 0 < n → owned m a n → apart a n (directory_virtual_at c i) 4).
  { intros a l Hl Ho. destruct (N1 a l Hl Ho) as [Hc _]. unfold apart, directory_virtual_at, SIZEOF_PAGE_DIRECTORY_HANDLE in *. lia. }
  destruct (walkable_later m m1 _ x _ _ Hwx K1 M1 Hslot) as [_ E1].
  destruct (walkable_later m m1 _ t _ _ Hwt K1 M1 Hslot) as [Hwt1 Et1].
  pose proof (slot_range i 0 ltac:(lia)) as Ei. rewrite Z.add_0_r in Ei.
  destruct (map_new_range m1 c d tbl (i * 0x400000) ph (ph + n) 7 t al) as
    (m2 & tbl2 & Em & K2 & D2 & Et & Ht & Ho & A2 & M2 & Nt & V2 & U2 & P2 & W2 & frame & Ef & Rf);
    rewrite ?Ei; try done; try lia.
  - apply (keeps_inv _ _ K1).
  - Z.div_mod_to_equations. lia.
  - Z.div_mod_to_equations. lia.
  - intros y Hy. apply slot_range. lia.
  - rewrite Ei in *. exists m2, tbl2. rewrite E1. split; [done|]. split; [exact Em|].
    assert (N3 : ∀ a l, 0 < l → owned m a l → apart_all [(c, SIZEOF_PAGE_DIRECTORY_HANDLE); (d, 4096); (t, 4096)] a l).
    { intros a l Hl Hoa. destruct (N1 a l Hl Hoa) as [Hc Hd]. do 2 (apply Forall_cons; split; [done|]). apply Forall_singleton.
      apply Nt; [done|]. by apply (keeps_owned _ _ K1). }
    assert (S2 : stage m p c d ktbl tbl2 al m2).
    { split; [by eapply keeps_trans| |done|done|done|].
      - eapply modifies_step; [exact M1|exact M2|]. intros a l Hl Hoa _. by apply N3.
      - intros j Hj Hne. destruct (decide (j = i)) as [-> | Hji]; [|rewrite (Ho j Hji) in *; by apply T1].
        right. rewrite Et. intros a l Hl Hoa. apply Nt; [done|]. by apply (keeps_owned _ _ K1). }
    assert (Hent : ∀ j k, 0 ≤ j < 1023 → tbl2 j ≠ 0 → 0 ≤ k < 1024 →
      table_word m2 c j k = if decide (j = i ∧ 4096 * k < n) then Ok (Z.lor (ph + 4096 * k) 7) else old_entry m1 tbl j k).
    { intros j k Hj Hne Hk. specialize (W2 j k Hj Hne Hk). cbv zeta in W2.
      replace (i * 0x400000 / 4096) with (i * 1024) in W2 by (Z.div_mod_to_equations; lia).
      replace ((ph + n - ph) / 4096) with (n / 4096) in W2 by (f_equal; lia).
      rewrite (table_word_entry m2 c d tbl2), W2 by (done || lia). destruct (decide (j = i ∧ _)) as [[-> Hkn] | Hn'].
      - rewrite decide_True by (Z.div_mod_to_equations; lia). do 2 f_equal. lia.
      - rewrite decide_False; [done|]. intros Hj'. apply Hn'. Z.div_mod_to_equations. lia. }
    assert (Hde : ∀ j, directory_entry m2 c j = Paging.read m2 (d + 4 * j)).
    { intros j. unfold directory_entry. by rewrite (dir_ptr _ _ _ _ D2), bind_Ok. }
    split; [exact S2|]. split; [by rewrite Et|]. split; [exact Ho|]. split; [|split; [exact U2|split; [|split; [|split; [split|split]]]]].
    + intros y Hy. apply V2. lia.
    + intros j Hj Hji. rewrite Hde, P2 by done. unfold directory_entry. by rewrite (dir_ptr _ _ _ _ D1), bind_Ok.
    + intros a Hoa. apply (modifies_read _ _ _ _ M2); [by apply (keeps_owned _ _ K1)|by apply N3].
    + by rewrite (dir_tbl _ _ _ _ D2), Et by lia.
    + exists frame. rewrite <- Et1. split; [exact Ef|]. split; [by apply (walkable_physical _ _ _ _ _ Hwt1)|]. by rewrite Hde.
    + intros k Hk. rewrite Hent by (rewrite ?Et; done || lia). unfold old_entry. repeat case_decide; try done; tauto.
    + intros j k Hj Hji Hne Hk. rewrite Hent by (rewrite ?Ho; done || lia). rewrite decide_False by tauto.
      unfold old_entry. rewrite decide_False by done. symmetry. apply (table_word_entry m1 c d tbl); [done|lia].
    + intros j Hj Hji. rewrite (dir_tbl _ _ _ _ D2), (dir_tbl _ _ _ _ D1), Ho by (done || lia). done.
Qed.

(** The copy with its address stored in the process. *)
Lemma stage_start m kpd kd ktbl kent p memory size stack c d t1 t16 pm ps al :
  loadable m kpd kd ktbl kent p memory size stack d t1 t16 pm ps →
  allots Q ((SIZEOF_PAGE_DIRECTORY_HANDLE, c) :: (4096, d) :: al) (kheap m) →
  ∃ m1 m2 tbl ph, paging_clone_directory m kpd kpd = Ok (c, m1) ∧ write m1 (p + process_page_directory) c = Ok m2 ∧
    stage m p c d ktbl tbl al m2 ∧ Paging.read m2 (p + process_page_directory) = Ok c ∧
    (∀ i, 0 ≤ i < 1023 → tbl i = if decide (kent i = 0) then 0 else ktbl i) ∧
    (∀ va, 0 ≤ va < 2 ^ 32 → V_ADDR_PAGEDIR_INDEX va < 1023 → kent (V_ADDR_PAGEDIR_INDEX va) ≠ 0 →
       virtual_to_physical_addr m2 c va = virtual_to_physical_addr m kpd va) ∧
    virtual_to_physical_addr m (current_directory m) d = Ok ph ∧ directory_entry m2 c 1023 = Ok (Z.lor ph 3) ∧
    (∀ i, 0 ≤ i < 1023 → directory_entry m2 c i = Ok (kent i)) ∧
    (∀ i k, 0 ≤ i < 1023 → kent i ≠ 0 → 0 ≤ k < 1024 → table_word m2 c i k = table_word m kpd i k).
Proof.
  intros [Hi Hk Hslots [Hp Hpos] Hap Hsz Hwd Hw Hph] Ha.
  destruct (clone_kernel_spec m kpd kd ktbl kent c d al Hi Hk Hwd Ha)
    as (m1 & ph & E1 & K1 & M1 & A1 & D1 & V1 & Eph & R1 & N1 & P1 & W1 & T1). set (tbl := copy_tbl _ _ _ _ _) in *.
  destruct (N1 p SIZEOF_PROCESS ltac:(done) Hp) as [Hpc Hpd].
  assert (Hpf : owned m1 (p + process_page_directory) 4).
  { apply (keeps_owned _ _ K1); [lia|]. apply (owned_sub _ _ _ _ _ Hp); unfold process_page_directory, SIZEOF_PROCESS; lia. }
  destruct (write_next (Q := Q) m1 (p + process_page_directory) c al (keeps_inv _ _ K1) Hpf)
    as (m2 & E2 & K2 & M2 & A2 & W2 & _).
  { pose proof (dir_ptr _ _ _ _ (ks_dir _ _ _ _ _ Hk)). destruct (Ha (kheap m)) as (k' & E & Hne & _); [by apply same_heap_refl|].
    destruct (alloc_ok m SIZEOF_PAGE_DIRECTORY_HANDLE c k' Hi) as (_ & _ & _ & _ & _ & ? & Hc & _); [done|done|done|].
    unfold SIZEOF_PAGE_DIRECTORY_HANDLE in Hc. lia. }
  { done. }
  assert (Hsub : ∀ a n, apart a n p SIZEOF_PROCESS → apart_all (page_directory_of p) a n).
  { intros a n Hx. apply Forall_singleton. unfold apart, process_page_directory, SIZEOF_PROCESS in *. cbn [fst snd]. lia. }
  destruct (dir_modifies m1 m2 c d tbl (page_directory_of p) D1 M2) as [D2 V2].
  { apply Hsub. by apply apart_sym. }
  { apply Hsub. by apply apart_sym. }
  { intros i Hir. rewrite T1 by done. case_decide; [done|]. intros Hne. apply Hsub. by apply Hap. }
  destruct (dir_words m1 m2 c d tbl (page_directory_of p) D1 M2) as [P2 W2'].
  { apply Hsub. by apply apart_sym. }
  { apply Hsub. by apply apart_sym. }
  { intros i Hir. rewrite T1 by done. case_decide; [done|]. intros Hne. apply Hsub. by apply Hap. }
  exists m1, m2, tbl, ph. split; [done|]. split; [done|]. split; [|split; [done|split; [done|split; [|split; [done|split; [|split]]]]]].
  - split; [by eapply keeps_trans| |done|done|done|].
    + eapply modifies_step; [apply (modifies_sub _ _ _ _ M1); constructor|exact M2|done].
    + intros i Hir. rewrite T1 by done. case_decide; [done|]. by left.
  - intros va Hva Hiv Hne. rewrite V2; [by apply V1|done|done|]. rewrite T1 by (destruct (indices va Hva); lia).
    rewrite decide_False by done. apply (ks_table _ _ _ _ _ Hk); [destruct (indices va Hva); lia|done].
  - rewrite P2 by lia. unfold directory_entry. by rewrite (dir_ptr _ _ _ _ D1), bind_Ok.
  - intros i Hir. by rewrite P2, P1 by lia.
  - intros i k Hir Hne Hkr. rewrite W2'; [by apply W1|done| |done]. rewrite T1, decide_False by done. by apply (ks_table _ _ _ _ _ Hk).
Qed.
End machine.

(** * [process_map_memory] *)

(** The process's address space: its program, its stack and the kernel, where they are;
    [t1] and [t16] are the program's and the stack's tables. First as the code translates
    addresses, then the words the processor reads. *)
Record program_mapped {K} `{AllocatorLaws K} (m m' : machine K) (kpd : Z) (kent : Z → Z) (p c d t1 t16 size pm ps : Z) : Prop := ProgramMapped {
  pmap_handle : Paging.read m' (p + process_page_directory) = Ok c;
  pmap_code : ∀ x, 0 ≤ x < page_size_up size → virtual_to_physical_addr m' c (PROGRAM_BASE_VIRT_ADDR + x) = Ok (pm + x);
  pmap_stack : ∀ x, 0 ≤ x < PROGRAM_STACK_SIZE → virtual_to_physical_addr m' c (PROGRAM_STACK_TOP_VIRT_ADDR + x) = Ok (ps + x);
  pmap_kernel : ∀ va, 0 ≤ va < 2 ^ 32 → V_ADDR_PAGEDIR_INDEX va < 1023 → kent (V_ADDR_PAGEDIR_INDEX va) ≠ 0 →
    virtual_to_physical_addr m' c va = virtual_to_physical_addr m kpd va;
  pmap_code_slot : slot_maps m m' c (V_ADDR_PAGEDIR_INDEX PROGRAM_BASE_VIRT_ADDR) t1 (page_size_up size) pm;
  pmap_stack_slot : slot_maps m m' c (V_ADDR_PAGEDIR_INDEX PROGRAM_STACK_TOP_VIRT_ADDR) t16 PROGRAM_STACK_SIZE ps;
  pmap_kernel_slots : ∀ i, 0 ≤ i < 1023 → i ≠ V_ADDR_PAGEDIR_INDEX PROGRAM_BASE_VIRT_ADDR →
    i ≠ V_ADDR_PAGEDIR_INDEX PROGRAM_STACK_TOP_VIRT_ADDR → directory_entry m' c i = Ok (kent i) ∧
    (kent i ≠ 0 → ∀ k, 0 ≤ k < 1024 → table_word m' c i k = table_word m kpd i k);
  pmap_last : ∃ ph, virtual_to_physical_addr m (current_directory m) d = Ok ph ∧
    directory_entry m' c 1023 = Ok (Z.lor ph (Z.lor PAGING_WRITABLE_PAGE PAGING_PRESENT))
}.

(** The slots [process_map_memory] leaves with a table. *)
Definition slots_filled (kent tbl : Z → Z) : Prop :=
  tbl 1 ≠ 0 ∧ tbl 16 ≠ 0 ∧ ∀ i, 0 ≤ i < 1023 → kent i ≠ 0 → tbl i ≠ 0.

Lemma page_size_up_range size : 0 < size ≤ 0x400000 → 0 < page_size_up size ≤ 0x400000 ∧ page_size_up size < size + 4096.
Proof. unfold page_size_up. intros Hs. Z.div_mod_to_equations. lia. Qed.

Lemma slot_maps_later {K} `{AllocatorLaws K} (m m' m'' : machine K) c d i t n physical tbl :
  dir_ok m' c d tbl → dir_ok m'' c d tbl → (∀ j, 0 ≤ j < 1024 → directory_entry m'' c j = directory_entry m' c j) →
  (∀ j k, 0 ≤ j < 1023 → tbl j ≠ 0 → 0 ≤ k < 1024 → table_word m'' c j k = table_word m' c j k) →
  0 ≤ i < 1023 → tbl i ≠ 0 → slot_maps m m' c i t n physical → slot_maps m m'' c i t n physical.
Proof.
  intros D D' P W Hi Hne [St Sd Sw]. split.
  - rewrite <- St, (dir_tbl _ _ _ _ D), (dir_tbl _ _ _ _ D') by lia. done.
  - destruct Sd as (frame & ? & ? & ?). exists frame. by rewrite P by lia.
  - intros k Hk. rewrite W by done. by apply Sw.
Qed.

(** Later changes apart from the directory, its tables and the process's member for it
    move none of the program's addresses. *)
Lemma program_mapped_later {K} `{AllocatorLaws K} (m m' m'' : machine K) kpd kent p c d t1 t16 size pm ps tbl cs :
  program_mapped m m' kpd kent p c d t1 t16 size pm ps → 0 < size ≤ 0x400000 → dir_ok m' c d tbl → slots_filled kent tbl →
  modifies cs (kheap m') (kheap m'') → apart_all cs c SIZEOF_PAGE_DIRECTORY_HANDLE → apart_all cs d 4096 →
  (∀ i, 0 ≤ i < 1023 → tbl i ≠ 0 → apart_all cs (tbl i) 4096) →
  owned m' (p + process_page_directory) 4 → apart_all cs (p + process_page_directory) 4 →
  program_mapped m m'' kpd kent p c d t1 t16 size pm ps ∧ dir_ok m'' c d tbl.
Proof.
  intros [Ph Pc Ps Pk S1 S16 Sk (ph & El & Rl)] Hsize D (F1 & F16 & Fk) M Hc Hd Ht Ho Hp.
  destruct (dir_modifies m' m'' c d tbl cs D M Hc Hd Ht) as [D' V'].
  destruct (dir_words m' m'' c d tbl cs D M Hc Hd Ht) as [P' W']. destruct (page_size_up_range size Hsize) as [Hn _].
  assert (Hslot : ∀ i x, i = 1 ∨ i = 16 → 0 ≤ x < 0x400000 →
    virtual_to_physical_addr m'' c (i * 0x400000 + x) = virtual_to_physical_addr m' c (i * 0x400000 + x)).
  { intros i x Hi Hx. apply V'; [lia|rewrite slot_range by done; lia|rewrite slot_range by done].
    by destruct Hi as [-> | ->]. }
  split; [split|done].
  - unfold Paging.read. by rewrite (modifies_read _ _ _ _ M).
  - intros x Hx. rewrite <- (Pc x Hx). apply (Hslot 1); [by left|lia].
  - intros x Hx. rewrite <- (Ps x Hx). apply (Hslot 16); [by right|unfold PROGRAM_STACK_SIZE in *; lia].
  - intros va Hva Hiv Hne. rewrite <- (Pk va Hva Hiv Hne). destruct (indices va Hva). apply V'; [done..|]. apply Fk; [lia|done].
  - by apply (slot_maps_later m m' m'' c d _ _ _ _ tbl D D' P' W').
  - by apply (slot_maps_later m m' m'' c d _ _ _ _ tbl D D' P' W').
  - intros i Hir H1 H16. destruct (Sk i Hir H1 H16) as [Pi Wi]. rewrite P' by lia. split; [done|].
    intros Hne k Hk. rewrite W' by (done || by apply Fk). by apply Wi.
  - exists ph. split; [done|]. by rewrite P'.
Qed.

Section mapping.
Context {K F : Type} `{AllocatorLaws K}.
Context {Q : K → Prop}.
Implicit Types (s : processing K F).

(** A member of the process other than [page_directory]. *)
Lemma stage_member m p c d ktbl tbl al m' off v : stage (Q := Q) m p c d ktbl tbl al m' → owned m p SIZEOF_PROCESS →
  0 ≤ off → off + 4 ≤ SIZEOF_PROCESS → apart off 4 process_page_directory 4 →
  Paging.read m (p + off) = Ok v → Paging.read m' (p + off) = Ok v.
Proof.
  intros S Ho Hlo Hhi Ha <-. apply (modifies_read _ _ _ _ (st_modifies _ _ _ _ _ _ _ _ S)).
  - apply (owned_sub _ _ _ _ _ Ho); lia.
  - apply Forall_singleton. unfold apart in *. cbn [fst snd]. lia.
Qed.

Lemma pwrite_machine s m m' p off v : p ≠ 0 → write m (p + off) v = Ok m' → pwrite (set_pmach s m) p off v = Ok (set_pmach s m').
Proof.
  intros Hp E. unfold pwrite. rewrite decide_False by done. unfold write in E. apply bind_Ok_inv in E as (k & E & [= <-]).
  change (pmem (set_pmach s m)) with (kheap m). by rewrite E, bind_Ok.
Qed.

Lemma process_map_memory_spec s kpd kd ktbl kent p memory size stack c d t1 t16 pm ps al :
  loadable (mach (ptasks s)) kpd kd ktbl kent p memory size stack d t1 t16 pm ps →
  allots Q ((SIZEOF_PAGE_DIRECTORY_HANDLE, c) :: (4096, d) :: (4096, t1) :: (4096, t16) :: al) (pmem s) →
  reads (pmem s) p [(process_memory, memory); (process_memory_size, size); (process_stack, stack)] → memory ≠ 0 →
  ∃ m' tbl, process_map_memory kpd s p = Ok (0, set_pmach s m') ∧
    stage (Q := Q) (mach (ptasks s)) p c d ktbl tbl al m' ∧ slots_filled kent tbl ∧
    program_mapped (mach (ptasks s)) m' kpd kent p c d t1 t16 size pm ps.
Proof.
  set (m := mach (ptasks s)). intros L Ha Hr Hm. pose proof L as [Hi _ [Hz1 Hz16] [Hp Hpos] _ (Hsz & Hpm & Hps) _ Hw [Em Es]].
  rewrite !Forall_cons in Hw. destruct Hw as (Wm & Ws & W1 & W16 & _).
  destruct (stage_start (Q := Q) m kpd kd ktbl kent p memory size stack c d t1 t16 pm ps _ L Ha)
    as (m1 & m2 & tbl & ph & E1 & E2 & S2 & R2 & T2 & V2 & Eph & L2 & P2 & G2).
  destruct (page_size_up_range size Hsz) as [Hn Hn'].
  destruct (walkable_page _ _ _ _ _ Wm Em) as [Hpm0 Hpma]. destruct (walkable_page _ _ _ _ _ Ws Es) as [Hps0 Hpsa].
  destruct (aligned_end pm size Hpm0 Hpma) as (Eend & _ & Hnm); [lia|lia|].
  destruct (aligned_end ps PROGRAM_STACK_SIZE Hps0 Hpsa) as (Send & _); [done|unfold PROGRAM_STACK_SIZE; lia|].
  destruct (stage_map (Q := Q) m p c d ktbl tbl 1 t1 ((4096, t16) :: al) m2 memory pm (page_size_up size) S2) as
    (m3 & tbl3 & X3 & E3 & S3 & N3 & O3 & C3 & V3 & P3 & F3 & M3 & G3 & D3); try done; [by rewrite T2, Hz1|by repeat constructor|lia|].
  destruct (stage_map (Q := Q) m p c d ktbl tbl3 16 t16 al m3 stack ps 4096 S3) as
    (m4 & tbl4 & X4 & E4 & S4 & N4 & O4 & C4 & V4 & P4 & F4 & M4 & G4 & D4); try done; [by rewrite O3, T2, Hz16|by repeat constructor|lia|].
  assert (Hmem : ∀ off v m' tbl' al', stage (Q := Q) m p c d ktbl tbl' al' m' → apart off 4 process_page_directory 4 → 0 ≤ off → off + 4 ≤ SIZEOF_PROCESS →
    In (off, v) [(process_memory, memory); (process_memory_size, size); (process_stack, stack)] →
    pread (set_pmach s m') p off = Ok v).
  { intros off v m' tbl' al' S Hoff Hlo Hhi Hin. apply pread_ok; [lia|]. apply (stage_member _ _ _ _ _ _ _ _ _ _ S Hp Hlo Hhi Hoff).
    apply (pread_member _ _ _ _ _ Hr). by apply list_elem_of_In. }
  exists m4, tbl4. split; [|split; [exact S4|split]].
  - unfold process_map_memory. rewrite (pread_ok s p process_memory memory), bind_Ok;
      [|lia|apply (pread_member _ _ _ _ _ Hr); by left].
    rewrite !decide_False by lia. fold m. rewrite E1, bind_Ok.
    rewrite (pwrite_machine s m1 m2), bind_Ok by (lia || done).
    change (mach (ptasks (set_pmach s m2))) with m2. rewrite X3, bind_Ok.
    rewrite (Hmem process_memory_size size m2 _ _ S2), bind_Ok; [|decide_by_compute|done|done|right; by left].
    rewrite Eend. change (Z.lor _ PAGING_PRESENT) with 7. change PROGRAM_BASE_VIRT_ADDR with (1 * 0x400000).
    rewrite E3, bind_Ok. rewrite decide_False by lia.
    change (set_pmach (set_pmach s m2) m3) with (set_pmach s m3). change (mach (ptasks (set_pmach s m3))) with m3.
    rewrite (Hmem process_stack stack m3 _ _ S3), bind_Ok; [|decide_by_compute|done|done|right; right; by left]. rewrite X4, bind_Ok, Send.
    change (page_size_up PROGRAM_STACK_SIZE) with 4096. change PROGRAM_STACK_TOP_VIRT_ADDR with (16 * 0x400000).
    by rewrite E4, bind_Ok.
  - split; [by rewrite O4|]. split; [done|]. intros i Hir Hne. destruct (decide (i = 16)) as [-> | H16]; [done|]. rewrite O4 by done.
    destruct (decide (i = 1)) as [-> | H1]; [done|]. rewrite O3, T2, decide_False by done. by apply (ks_table _ _ _ _ _ (ld_kernel _ _ _ _ _ _ _ _ _ _ _ _ _ _ L)).
  - split.
    + rewrite F4, F3; [done|..]; apply (owned_sub _ _ _ _ _ Hp); unfold process_page_directory, SIZEOF_PROCESS; lia.
    + intros x Hx. rewrite V4; [by apply (C3 x)|unfold PROGRAM_BASE_VIRT_ADDR; lia|..];
        change PROGRAM_BASE_VIRT_ADDR with (1 * 0x400000); rewrite slot_range by lia; done.
    + exact C4.
    + intros va Hva Hiv Hne. assert (Ht : tbl (V_ADDR_PAGEDIR_INDEX va) ≠ 0).
      { destruct (indices va Hva). rewrite T2, decide_False by (done || lia). apply (ks_table _ _ _ _ _ (ld_kernel _ _ _ _ _ _ _ _ _ _ _ _ _ _ L)); [lia|done]. }
      rewrite V4, V3, V2; try done. rewrite O3; [done|]. congruence.
    + change (V_ADDR_PAGEDIR_INDEX PROGRAM_BASE_VIRT_ADDR) with 1. destruct M3 as [Mt (frame & Ef & Hf & Rf) Mw]. split.
      * by rewrite D4.
      * exists frame. by rewrite P4.
      * intros k Hk. rewrite G4 by done. by apply Mw.
    + exact M4.
    + change (V_ADDR_PAGEDIR_INDEX PROGRAM_BASE_VIRT_ADDR) with 1. change (V_ADDR_PAGEDIR_INDEX PROGRAM_STACK_TOP_VIRT_ADDR) with 16.
      intros i Hir H1 H16. rewrite P4, P3, P2 by (done || lia). split; [done|]. intros Hne k Hk.
      assert (Ht : tbl i ≠ 0).
      { rewrite T2, decide_False by done. by apply (ks_table _ _ _ _ _ (ld_kernel _ _ _ _ _ _ _ _ _ _ _ _ _ _ L)). }
      rewrite G4, G3, G2 by (done || by rewrite O3). done.
    + exists ph. by rewrite P4, P3.
Qed.
End mapping.

Section claim.
Context {K F : Type} `{AllocatorLaws K}.

(** C15: [process_map_memory], called with the program in [memory] and a stack, returns 0:
    the process has a directory of its own, in which its program is at
    [PROGRAM_BASE_VIRT_ADDR], its stack at [PROGRAM_STACK_TOP_VIRT_ADDR] and the kernel
    where it was, and whose last entry is what the scheduler loads. The words the
    processor reads are so too: the program's and the stack's tables and pages are
    entered by their frames, present, writable and accessible to programs, the kernel's
    slots are the kernel's, and nothing else is mapped. Of what was owned only the
    process's member for the directory changes. *)
Theorem process_map_memory_maps (s : processing K F) kpd kd ktbl kent p memory size stack c d t1 t16 pm ps :
  let m := mach (ptasks s) in
  loadable m kpd kd ktbl kent p memory size stack d t1 t16 pm ps →
  allots (λ _, True) [(SIZEOF_PAGE_DIRECTORY_HANDLE, c); (4096, d); (4096, t1); (4096, t16)] (pmem s) →
  reads (pmem s) p [(process_memory, memory); (process_memory_size, size); (process_stack, stack)] → memory ≠ 0 →
  ∃ m', process_map_memory kpd s p = Ok (0, set_pmach s m') ∧ alloc_inv (kheap m') ∧
    current_directory m' = current_directory m ∧ modifies (page_directory_of p) (kheap m) (kheap m') ∧
    program_mapped m m' kpd kent p c d t1 t16 size pm ps.
Proof.
  intros m L Ha Hr Hm. destruct (process_map_memory_spec (Q := λ _, True) s kpd kd ktbl kent p memory size stack c d t1 t16 pm ps [] L Ha Hr Hm)
    as (m' & tbl & E & [K1 M1 _ _ _ _] & _ & P). exists m'. split; [exact E|]. split; [apply (keeps_inv _ _ K1)|].
  split; [apply (keeps_current _ _ K1)|]. by split.
Qed.
End claim.

(** ** A program to load

    The heap has the process, its program and its stack, and six free blocks. Past it
    lie the boot directory, the kernel's handle, directory and table (for the slot of
    [KERNEL_VIRTUAL_BASE]) and the current handle, on the boot directory. *)
Definition loading_segs : list seg := replicate 3 (Used 1) ++ replicate 6 Free.
Definition loading_data : list (Z * list Z) :=
  (λ av, (av.1, split4 av.2)) <$>
    [(0x10000 + process_memory, 0x11000); (0x10000 + process_memory_size, 1000); (0x10000 + process_stack, 0x12000);
     (0x19000, 0x83); (0x1A000, 0x1C000); (0x1AC04, 0x1D000); (0x1CC00, 0x1D003); (0x1E000, 0x19000)].
Definition loading_machine : machine kernel :=
  Machine (example_kernel loading_segs 0x11000 loading_data) 0x1E000 0x11 0 PSE_BIT 0 0 (Terminal ∅ 0 0).
Definition loading : processing kernel unit :=
  Processing (Tasking loading_machine witness_gdt 0) (tt, FileTable [] 0, [], 0) [] 0 false.

Lemma loading_ok : kernel_ok (kheap loading_machine) loading_segs.
Proof.
  apply example_kernel_ok; [by repeat constructor|by vm_compute|by vm_compute|].
  unfold loading_data. apply Forall_fmap, Forall_forall. intros av _. apply split4_bytes.
Qed.

Lemma loading_owned a n : 0x19000 ≤ a → a + n ≤ 0x21000 → owned loading_machine a n.
Proof. intros Ha Hn. apply (example_outside loading_segs 0x11000 loading_data a n); [exact Ha|lia]. Qed.

Lemma loading_words a l : forallb (λ i, bool_decide (example_word 0x11000 loading_data (a + 4 * i) = Ok (one_of l i))) (seqZ 0 1024) = true →
  ∀ i, 0 ≤ i < 1024 → kread (kheap loading_machine) (a + 4 * i) = Ok (one_of l i).
Proof. apply example_words. lia. Qed.

Lemma loading_kernel : kernel_space loading_machine 0x1A000 0x1C000 (one_of [(768, 0x1D000)]) (one_of [(768, 0x1D003)]).
Proof.
  split.
  - apply (example_dir_ok loading_machine 0x19000 0x21000 0x1A000 0x1C000 [(768, 0x1D000)] [(768, 0x1D003)]).
    + exact loading_owned.
    + unfold Paging.read, loading_machine, kheap. example_mem.
    + apply (loading_words (0x1A000 + 4)). by vm_compute.
    + apply loading_words. by vm_compute.
    + by vm_compute.
    + lia.
    + lia.
    + lia.
    + decide_by_compute.
    + decide_by_compute.
  - intros i Hi. apply (loading_words 0x1C000 [(768, 0x1D003)]); [by vm_compute|lia].
  - intros i _. unfold one_of. cbn [list_find fst]. repeat case_decide; cbn; done.
Qed.

Lemma loading_walkable cs x : Forall (λ a, apart_all cs a 4) [0x1E000; 0x19000] → page x → x < 2 ^ 22 →
  walkable loading_machine 0x1E000 cs x.
Proof.
  rewrite !Forall_cons. intros (H1 & H2 & _) Hx Hr. apply (example_walkable loading_machine 0x1E000 0x19000).
  - repeat (apply Forall_cons; split); [split; [apply loading_owned; lia|done]..|constructor].
  - unfold Paging.read, loading_machine, kheap. example_mem.
  - unfold Paging.read, loading_machine, kheap. example_mem.
  - done.
  - exact Hx.
  - exact Hr.
Qed.

Lemma loading_physical x : 0 ≤ x < 2 ^ 22 →
  virtual_to_physical_addr loading_machine 0x1E000 x = Ok (u32 (PAGE_ENTRY_ADDR 0x83 + V_ADDR_PAGEFRAME_INDEX_PSE x)).
Proof.
  intros Hx. eapply translates_now, (example_translates loading_machine 0x1E000 0x19000); [..|done|exact Hx];
    unfold Paging.read, loading_machine, kheap; example_mem.
Qed.

Lemma loading_loadable : loadable loading_machine 0x1A000 0x1C000 (one_of [(768, 0x1D000)]) (one_of [(768, 0x1D003)])
  0x10000 0x11000 1000 0x12000 0x15000 0x16000 0x17000 0x11000 0x12000.
Proof.
  split.
  - exists loading_segs. exact loading_ok.
  - exact loading_kernel.
  - done.
  - split; [|lia]. split; [eapply mapped_sub; [apply (example_ram_mapped 0x11000)|by apply Z.leb_le|by apply Z.leb_le]|].
    left. exists 0x10000, 4096. split; [|done].
    apply (kernel_live_intro _ _ 0 1 _ loading_ok); [|done]. left. split; [done|lia].
  - intros i _ Hne. apply one_of_in, list_elem_of_singleton in Hne. injection Hne as _ ->. decide_by_compute.
  - lia.
  - apply loading_walkable; [decide_by_compute|done|done].
  - repeat (apply Forall_cons; split); [apply loading_walkable; [decide_by_compute|done|done]..|constructor].
  - split; by apply loading_physical.
Qed.

Lemma process_map_memory_maps_witness :
  ∃ m', process_map_memory 0x1A000 loading 0x10000 = Ok (0, set_pmach loading m') ∧ alloc_inv (kheap m') ∧
    current_directory m' = 0x1E000 ∧ modifies (page_directory_of 0x10000) (kheap loading_machine) (kheap m') ∧
    program_mapped loading_machine m' 0x1A000 (one_of [(768, 0x1D003)]) 0x10000 0x13000 0x15000 0x16000 0x17000 1000 0x11000 0x12000.
Proof.
  apply (process_map_memory_maps loading 0x1A000 0x1C000 (one_of [(768, 0x1D000)]) (one_of [(768, 0x1D003)])
    0x10000 0x11000 1000 0x12000 0x13000 0x15000 0x16000 0x17000 0x11000 0x12000).
  - exact loading_loadable.
  - apply (heap_allots_ok _ _ _ loading_ok). by vm_compute.
  - unfold reads. repeat (apply Forall_cons; split); [unfold pmem, loading, loading_machine; cbn [ptasks mach kheap fst snd]; example_mem..|constructor].
  - done.
Defined.
