(* ===== verification/System.v ===== *)
(** The running system: the tasks of [src/kernel/task/task.c], the processes of
    [src/kernel/task/process.c] and the kernel's page directory in one memory.
    [system_ok] is what holds between interrupts once the system has started; ticks of the scheduler and
    [process_init] keep it. *)
From S2P Require Import Prelude Mem CString Heap Kheap Store Ring Termio Disk PathParser Gdt Paging AddressSpace Task FileTable File Process Program.

Section system.
Context {K : Type} `{AllocatorLaws K}.
Implicit Types (k : K) (m : machine K).

(** Memory in use in which no task of [ts] and no process of [ps] has a part. *)
Definition beyond k (ts ps : list Z) (b n : Z) : Prop :=
  outside k ts b n ∧ ∀ q, q ∈ ps → apart b n q SIZEOF_PROCESS.

(** The process [q] as its tasks use it: its name, and the last entry of its directory. *)
Record process_in (fuel : nat) k (ts ps : list Z) (q : Z) : Prop := ProcessIn {
  pin_name : ∃ name, cstr (memory k) (q + process_name) name ∧ (length name < 250)%nat ∧ (length name < fuel)%nat;
  pin_directory : ∃ h d e, kread k (q + process_page_directory) = Ok h ∧
    (kread k h = Ok d ∧ beyond k ts ps h 4) ∧ (kread k (d + 4 * 1023) = Ok e ∧ beyond k ts ps (d + 4 * 1023) 4)
}.

(** Tasks, processes and the kernel's directory, separate from each other; every task
    has one of the processes. *)
Record system_set (fuel : nat) m (kpd kd : Z) (ktbl kent : Z → Z) (ts ps : list Z) : Prop := SystemSet {
  set_tasks : tasks_mem (kheap m) ts;
  set_procs : procs_mem (kheap m) ps;
  set_apart : ∀ t q, t ∈ ts → q ∈ ps → apart t SIZEOF_TASK q SIZEOF_PROCESS;
  set_runs : ∀ t, t ∈ ts → ∃ q, q ∈ ps ∧ kread (kheap m) (t + task_process) = Ok q ∧ process_in fuel (kheap m) ts ps q;
  set_kernel : kernel_space m kpd kd ktbl kent;
  set_pages : beyond (kheap m) ts ps kpd SIZEOF_PAGE_DIRECTORY_HANDLE ∧ beyond (kheap m) ts ps kd 4096 ∧
    ∀ i, 0 ≤ i < 1023 → ktbl i ≠ 0 → beyond (kheap m) ts ps (ktbl i) 4096
}.

(** The system with its two rings; the process of the kernel's task [st] is the first. *)
Record system_ok (fuel : nat) m (kpd kd : Z) (ktbl kent : Z → Z) (st : Z) (ts ps : list Z) : Prop := SystemOk {
  sys_set : system_set fuel m kpd kd ktbl kent ts ps;
  sys_tasks : ring (tnx (kheap m)) (tpv (kheap m)) ts;
  sys_procs : ring (pnx (kheap m)) (ppv (kheap m)) ps;
  sys_slots : kent 1 = 0 ∧ kent 16 = 0;
  sys_first : st ∈ ts ∧ ∃ sp, head ps = Some sp ∧ kread (kheap m) (st + task_process) = Ok sp
}.

(** ** Changes inside tasks and processes *)

(** In the name, or the pointer to the directory. *)
Definition of_process (off n : Z) : Prop :=
  process_name ≤ off ∧ off + n ≤ process_name + 250 ∨ process_page_directory ≤ off ∧ off + n ≤ process_page_directory + 4.

(** A region in a task, apart from its process, or in a process, apart from its name and
    its directory. *)
Definition harmless (ts ps : list Z) (c : Z * Z) : Prop :=
  (∃ t off, t ∈ ts ∧ c.1 = t + off ∧ 0 ≤ off ∧ off + c.2 ≤ SIZEOF_TASK ∧ apart off c.2 task_process 4) ∨
  (∃ q off, q ∈ ps ∧ c.1 = q + off ∧ 0 ≤ off ∧ off + c.2 ≤ SIZEOF_PROCESS ∧
    apart off c.2 process_name 250 ∧ apart off c.2 process_page_directory 4).

Lemma harmless_beyond k ts ps b n cs : beyond k ts ps b n → Forall (harmless ts ps) cs → apart_all cs b n.
Proof.
  intros [[_ Ht] Hp] Hcs. eapply Forall_impl; [exact Hcs|].
  intros [c l] [(t & off & Hin & -> & ? & ? & _) | (q & off & Hin & -> & ? & ? & _)]; cbn [fst snd] in *.
  - specialize (Ht t Hin). unfold apart in *. lia.
  - specialize (Hp q Hin). unfold apart in *. lia.
Qed.

Lemma beyond_modifies cs k k' ts ps b n : modifies cs k k' → 0 < n → beyond k ts ps b n → beyond k' ts ps b n.
Proof. intros M Hn [Ho Hp]. split; [by apply (outside_modifies cs k)|done]. Qed.

Lemma beyond_sub k ts ps b n c l : beyond k ts ps b n → b ≤ c → c + l ≤ b + n → beyond k ts ps c l.
Proof.
  intros [[Ho Ht] Hp] Hb Hc. split; [split; [by apply (kowned_sub _ _ _ _ _ Ho)|]|].
  - intros x Hx. pose proof (Ht x Hx). unfold apart in *. lia.
  - intros x Hx. pose proof (Hp x Hx). unfold apart in *. lia.
Qed.

(** What the list of a process's and a task's members keep. *)
Lemma harmless_process m fuel kpd kd ktbl kent ts ps q off n cs : system_set fuel m kpd kd ktbl kent ts ps → q ∈ ps →
  Forall (harmless ts ps) cs → of_process off n → 0 < n →
  kowned (kheap m) (q + off) n ∧ apart_all cs (q + off) n.
Proof.
  intros S Hq Hcs Hof Hn. destruct (procs_owned _ _ (set_procs _ _ _ _ _ _ _ _ S) q Hq) as [Ho _].
  unfold of_process, process_name, process_page_directory in *. split; [apply (kowned_sub _ _ _ _ _ Ho); unfold SIZEOF_PROCESS; lia|].
  eapply Forall_impl; [exact Hcs|]. intros [c l] [(t & o & Hin & -> & ? & ? & _) | (r & o & Hin & -> & ? & ? & Ha & Ha')]; cbn [fst snd] in *.
  - pose proof (set_apart _ _ _ _ _ _ _ _ S t q Hin Hq). unfold apart, SIZEOF_PROCESS in *. lia.
  - destruct (decide (r = q)) as [-> | Hne]; [unfold apart, process_name, process_page_directory in *; lia|].
    pose proof (procs_apart _ _ (set_procs _ _ _ _ _ _ _ _ S) r q Hin Hq Hne). unfold apart, SIZEOF_PROCESS in *. lia.
Qed.

Lemma harmless_task m fuel kpd kd ktbl kent ts ps t cs : system_set fuel m kpd kd ktbl kent ts ps → t ∈ ts →
  Forall (harmless ts ps) cs → kowned (kheap m) (t + task_process) 4 ∧ apart_all cs (t + task_process) 4.
Proof.
  intros S Ht Hcs. split; [eapply member_owned; [apply S|done|member]|].
  eapply Forall_impl; [exact Hcs|]. intros [c l] [(u & o & Hin & -> & ? & ? & Ha) | (q & o & Hin & -> & ? & ? & _)]; cbn [fst snd] in *.
  - destruct (decide (u = t)) as [-> | Hne]; [unfold apart in *; lia|].
    pose proof (tasks_apart _ _ (set_tasks _ _ _ _ _ _ _ _ S) u t Hin Ht Hne).
    unfold apart, task_process, SIZEOF_TASK, TASK_KERNEL_STACK_SIZE in *. lia.
  - pose proof (set_apart _ _ _ _ _ _ _ _ S t q Ht Hin). unfold apart, task_process, SIZEOF_TASK, TASK_KERNEL_STACK_SIZE in *. lia.
Qed.

(** The process [q] after such changes, among more objects perhaps: [Hadd] says that what was
    beyond the old ones is beyond the new ones. *)
Lemma process_in_grow cs m k' fuel kpd kd ktbl kent ts ps ts' ps' q : system_set fuel m kpd kd ktbl kent ts ps → q ∈ ps →
  modifies cs (kheap m) k' → Forall (harmless ts ps) cs →
  (∀ b n, 0 < n → beyond (kheap m) ts ps b n → beyond k' ts' ps' b n) →
  process_in fuel (kheap m) ts ps q → process_in fuel k' ts' ps' q.
Proof.
  intros S Hq M Hcs Hadd [(name & Ht & Hl & Hf) (h & d & e & Hh & [Hd Hhb] & [He Hdb])]. split.
  - exists name. split; [|done].
    destruct (harmless_process m fuel kpd kd ktbl kent ts ps q process_name (Z.of_nat (length name) + 1) cs S Hq Hcs)
      as [Ho Ha]; [left; lia|lia|]. by apply (modifies_cstr _ _ _ _ _ M).
  - destruct (harmless_process m fuel kpd kd ktbl kent ts ps q process_page_directory 4 cs S Hq Hcs) as [Ho Ha]; [by right|done|].
    exists h, d, e. split; [by rewrite (modifies_read _ _ _ _ M)|].
    split; (split; [rewrite (modifies_read _ _ _ _ M); [done|by apply Hhb || by apply Hdb|by eapply harmless_beyond]|by apply Hadd]).
Qed.

(** The same for the whole; a task that is not an old one comes with its process. *)
Lemma set_grow cs m m' fuel kpd kd ktbl kent ts ps ts' ps' : system_set fuel m kpd kd ktbl kent ts ps →
  modifies cs (kheap m) (kheap m') → Forall (harmless ts ps) cs →
  (∀ b n, 0 < n → beyond (kheap m) ts ps b n → beyond (kheap m') ts' ps' b n) →
  tasks_mem (kheap m') ts' → procs_mem (kheap m') ps' → (∀ t q, t ∈ ts' → q ∈ ps' → apart t SIZEOF_TASK q SIZEOF_PROCESS) →
  (∀ q, q ∈ ps → q ∈ ps') →
  (∀ t, t ∈ ts' → t ∈ ts ∨ ∃ q, q ∈ ps' ∧ kread (kheap m') (t + task_process) = Ok q ∧ process_in fuel (kheap m') ts' ps' q) →
  system_set fuel m' kpd kd ktbl kent ts' ps'.
Proof.
  intros S M Hcs Hadd Ht Hp Hap Hps Hts. pose proof S as [_ _ _ Hr [Hkd Hke Hkt] (Hp1 & Hp2 & Hp3)]. split; [done..| | |].
  - intros t Hin. destruct (Hts t Hin) as [Hold | ?]; [|done]. destruct (Hr t Hold) as (q & Hq & Ev & Hproc).
    destruct (harmless_task m fuel kpd kd ktbl kent ts ps t cs S Hold Hcs).
    exists q. split; [by apply Hps|]. split; [by rewrite (modifies_read _ _ _ _ M)|].
    by apply (process_in_grow cs m _ fuel kpd kd ktbl kent ts ps).
  - split; [|intros i Hi; unfold Paging.read; rewrite <- (Hke i Hi); apply (modifies_load _ _ _ kd 4096 M); [apply Hp2|by eapply harmless_beyond|lia..]|done].
    apply (dir_modifies m m' kpd kd ktbl cs Hkd M); [by eapply harmless_beyond..|]. intros i Hi Hne. by eapply harmless_beyond, Hcs; apply Hp3.
  - split; [by apply Hadd|]. split; [by apply Hadd|]. intros i Hi Hne. by apply Hadd, Hp3.
Qed.

Lemma procs_mem_modifies cs k k' ps : modifies cs k k' → procs_mem k ps → procs_mem k' ps.
Proof.
  intros M [_ Ho Ha]. split; [by apply (modifies_inv _ _ _ M)| |done].
  intros q Hq. destruct (Ho q Hq). split; [by apply (modifies_owned _ _ _ _ _ M)|done].
Qed.

Lemma set_modifies cs m m' fuel kpd kd ktbl kent ts ps : system_set fuel m kpd kd ktbl kent ts ps →
  modifies cs (kheap m) (kheap m') → Forall (harmless ts ps) cs → system_set fuel m' kpd kd ktbl kent ts ps.
Proof.
  intros S M Hcs. apply (set_grow cs m m' fuel kpd kd ktbl kent ts ps ts ps S M Hcs).
  - intros b n Hn. by apply (beyond_modifies cs).
  - apply (tasks_mem_modifies cs (kheap m)); [done|apply S].
  - apply (procs_mem_modifies cs (kheap m)); [done|apply S].
  - apply S.
  - done.
  - by left.
Qed.

(** ** More processes and tasks *)

Lemma procs_mem_add k k' ps p : procs_mem k ps → modifies [] k k' → fresh k p SIZEOF_PROCESS → kowned k' p SIZEOF_PROCESS →
  0 < p < 2 ^ 32 → procs_mem k' (p :: ps).
Proof.
  intros Hm M Hfr Ho Hp. pose proof (procs_mem_modifies [] k k' ps M Hm) as [Hi Hpo Hpa]. split; [done| |].
  - intros q [-> | Hq]%elem_of_cons; [done|by apply Hpo].
  - assert (Hnew : ∀ q, q ∈ ps → apart q SIZEOF_PROCESS p SIZEOF_PROCESS).
    { intros q Hq. apply Hfr; [done|]. by apply (procs_owned _ _ Hm). }
    intros a b [-> | Ha]%elem_of_cons [-> | Hb]%elem_of_cons Hab; [done|apply apart_sym; by apply Hnew|by apply Hnew|by apply Hpa].
Qed.

(** A new process, not yet in its list. *)
Lemma set_add_process m0 m fuel kpd kd ktbl kent ts ps p : system_set fuel m0 kpd kd ktbl kent ts ps →
  modifies [] (kheap m0) (kheap m) → fresh (kheap m0) p SIZEOF_PROCESS → kowned (kheap m) p SIZEOF_PROCESS → 0 < p < 2 ^ 32 →
  system_set fuel m kpd kd ktbl kent ts (p :: ps).
Proof.
  intros S M Hfr Ho Hp. apply (set_grow [] m0 m fuel kpd kd ktbl kent ts ps ts (p :: ps) S M (Forall_nil_2 _)).
  - intros b n Hn Hb. destruct (beyond_modifies [] _ _ _ _ _ _ M Hn Hb) as [Hout Hps]. split; [done|].
    intros q [-> | Hq]%elem_of_cons; [|by apply Hps]. apply Hfr; [done|apply Hb].
  - apply (tasks_mem_modifies [] (kheap m0)); [done|apply S].
  - apply (procs_mem_add (kheap m0)); [apply S|done..].
  - intros t q Ht [-> | Hq]%elem_of_cons; [|by apply S]. apply Hfr; [done|].
    by apply (tasks_owned _ _ (set_tasks _ _ _ _ _ _ _ _ S)).
  - intros q Hq. by right.
  - by left.
Qed.

Lemma links_harmless ts ps : Forall (harmless ts ps) (links ts).
Proof.
  unfold links. apply Forall_fmap, Forall_forall. intros t Ht. left. exists t, task_next. split; [done|]. split; [done|].
  decide_by_compute.
Qed.

Lemma plinks_harmless ts ps : Forall (harmless ts ps) (plinks ps).
Proof.
  unfold plinks. apply Forall_fmap, Forall_forall. intros q Hq. right. exists q, process_next. split; [done|]. split; [done|].
  decide_by_compute.
Qed.

(** A new task for one of the processes, linked into the ring. *)
Lemma set_add_task m m' fuel kpd kd ktbl kent ts ts' ps t p : system_set fuel m kpd kd ktbl kent ts ps →
  modifies (links ts) (kheap m) (kheap m') → fresh (kheap m) t SIZEOF_TASK → tasks_mem (kheap m') ts' → ts' ≡ₚ t :: ts →
  kread (kheap m') (t + task_process) = Ok p → p ∈ ps → process_in fuel (kheap m) ts ps p →
  system_set fuel m' kpd kd ktbl kent ts' ps.
Proof.
  intros S M Hfr Ht E Hp Hin Hproc. pose proof (links_harmless ts ps) as Hcs.
  assert (Hadd : ∀ b n, 0 < n → beyond (kheap m) ts ps b n → beyond (kheap m') ts' ps b n).
  { intros b n Hn Hb. destruct (beyond_modifies _ _ _ _ _ _ _ M Hn Hb) as [[Ho Hts] Hps]. split; [|done]. split; [done|].
    intros c Hc. rewrite E in Hc. apply elem_of_cons in Hc as [-> | Hc]; [|by apply Hts]. apply Hfr; [done|apply Hb]. }
  apply (set_grow (links ts) m m' fuel kpd kd ktbl kent ts ps ts' ps S M Hcs Hadd).
  - done.
  - apply (procs_mem_modifies (links ts) (kheap m)); [done|apply S].
  - intros c q Hc Hq. rewrite E in Hc. apply elem_of_cons in Hc as [-> | Hc]; [|by apply S].
    apply apart_sym, Hfr; [done|]. by apply (procs_owned _ _ (set_procs _ _ _ _ _ _ _ _ S)).
  - done.
  - intros c Hc. rewrite E in Hc. apply elem_of_cons in Hc as [-> | Hc]; [right|by left].
    exists p. split; [done|]. split; [done|]. by apply (process_in_grow (links ts) m _ fuel kpd kd ktbl kent ts ps).
Qed.

(** The order of the lists is no part of it. *)
Lemma set_permute fuel m kpd kd ktbl kent ts ts' ps ps' : ts ≡ₚ ts' → ps ≡ₚ ps' → system_set fuel m kpd kd ktbl kent ts ps →
  system_set fuel m kpd kd ktbl kent ts' ps'.
Proof.
  intros E E' S. pose proof (procs_inv _ _ (set_procs _ _ _ _ _ _ _ _ S)) as Hi.
  apply (set_grow [] m m fuel kpd kd ktbl kent ts ps ts' ps' S (modifies_refl _ _ Hi) (Forall_nil_2 _)).
  - intros b n Hn [[Ho Ht] Hq]. split; [split; [done|]|]; intros c Hc; [apply Ht; by rewrite E|apply Hq; by rewrite E'].
  - destruct (set_tasks _ _ _ _ _ _ _ _ S) as [_ Ho Ha]. split; [done| |].
    + intros c Hc. apply Ho. by rewrite E.
    + intros c d Hc Hd. apply Ha; by rewrite E.
  - destruct (set_procs _ _ _ _ _ _ _ _ S) as [_ Ho Ha]. split; [done| |].
    + intros c Hc. apply Ho. by rewrite E'.
    + intros c d Hc Hd. apply Ha; by rewrite E'.
  - intros t q Ht Hq. apply S; [by rewrite E|by rewrite E'].
  - intros q Hq. by rewrite <- E'.
  - intros t Ht. left. by rewrite E.
Qed.

(** ** What the parts need of it *)

Lemma process_in_of fuel m kpd kd ktbl kent ts ps q : system_set fuel m kpd kd ktbl kent ts ps → q ∈ ps →
  process_in fuel (kheap m) ts ps q → process_of fuel (kheap m) ts q.
Proof.
  intros S Hq [(name & Ht & Hl & Hf) (h & d & e & Hh & [Hd [Hhb _]] & [He [Hdb _]])]. exists name, h, d, e.
  assert (Hin : ∀ off n, 0 < n → of_process off n → outside (kheap m) ts (q + off) n).
  { intros off n Hn Hof. destruct (harmless_process m fuel kpd kd ktbl kent ts ps q off n [] S Hq) as [Ho _]; [constructor|done..|].
    split; [done|]. intros t Hin. pose proof (set_apart _ _ _ _ _ _ _ _ S t q Hin Hq).
    unfold apart, of_process, process_name, process_page_directory, SIZEOF_PROCESS in *. lia. }
  split; [|done]. split; [split; [done|apply Hin; [|left]; lia]|split; [done|apply Hin; [|right]; done]|done..].
Qed.

Lemma system_tasks fuel m kpd kd ktbl kent st ts ps : system_ok fuel m kpd kd ktbl kent st ts ps → tasks_ok fuel (kheap m) ts.
Proof.
  intros [S Hr _ _ _]. split; [done|apply S|]. intros t Ht. destruct (set_runs _ _ _ _ _ _ _ _ S t Ht) as (q & Hq & Ev & Hp).
  exists q. split; [done|]. by apply (process_in_of fuel m kpd kd ktbl kent ts ps).
Qed.

(** The ring of processes when tasks change, and the ring of tasks when processes do. *)
Lemma procs_ring_keeps cs fuel m m' kpd kd ktbl kent ts ps : system_set fuel m kpd kd ktbl kent ts ps →
  modifies cs (kheap m) (kheap m') → Forall (within ts) cs → ring (pnx (kheap m)) (ppv (kheap m)) ps →
  ring (pnx (kheap m')) (ppv (kheap m')) ps.
Proof.
  intros S M Hcs Hr. apply (ring_procs_modifies cs (kheap m)); [done..|]. intros q Hq.
  destruct (procs_owned _ _ (set_procs _ _ _ _ _ _ _ _ S) q Hq) as [Ho _]. split; [done|].
  eapply Forall_impl; [exact Hcs|]. intros [c n] (t & off & Ht & ? & ? & ->). cbn [fst snd] in *.
  pose proof (set_apart _ _ _ _ _ _ _ _ S t q Ht Hq). unfold apart, process_next, SIZEOF_PROCESS in *. lia.
Qed.

Definition within_procs (ps : list Z) (c : Z * Z) : Prop :=
  ∃ q off, q ∈ ps ∧ c.1 = q + off ∧ 0 ≤ off ∧ off + c.2 ≤ SIZEOF_PROCESS.

Lemma tasks_ring_keeps cs fuel m m' kpd kd ktbl kent ts ps : system_set fuel m kpd kd ktbl kent ts ps →
  modifies cs (kheap m) (kheap m') → Forall (within_procs ps) cs → ring (tnx (kheap m)) (tpv (kheap m)) ts →
  ring (tnx (kheap m')) (tpv (kheap m')) ts.
Proof.
  intros S M Hcs Hr. pose proof (set_tasks _ _ _ _ _ _ _ _ S) as Hm.
  assert (HF : ∀ t off, t ∈ ts → off ∈ members → kread (kheap m') (t + off) = kread (kheap m) (t + off)).
  { intros t off Ht Hoff. apply (modifies_read _ _ _ _ M); [by eapply member_owned|].
    eapply Forall_impl; [exact Hcs|]. intros [c n] (q & o & Hq & -> & ? & ?). cbn [fst snd] in *.
    pose proof (set_apart _ _ _ _ _ _ _ _ S t q Ht Hq). pose proof (members_range off Hoff).
    unfold apart, SIZEOF_TASK, TASK_KERNEL_STACK_SIZE in *. lia. }
  apply (ring_frame _ _ _ _ _ Hr); intros x y Hx; unfold tnx, tpv; rewrite HF; done || member.
Qed.

(** ** A tick *)

(** Where a tick writes in the task [a]. *)
Lemma tick_places ts ps a : a ∈ ts → let cs := [(a + task_kernel_stack_pointer, 4); (a + task_n_switches, 4)] in
  Forall (harmless ts ps) cs ∧ Forall (within ts) cs.
Proof.
  intros Ha. split.
  - repeat (apply Forall_cons; split); [left; eexists a, _; (split; [done|split; [done|decide_by_compute]])..|constructor].
  - apply Forall_cons; split; [|apply Forall_singleton]; eexists a, _; (split; [done|]; split; [|split; [|done]]; done).
Qed.

Lemma tick_keeps_system fuel (s : tasking K) kpd kd ktbl kent st a b l ps frame v e :
  system_ok fuel (mach s) kpd kd ktbl kent st (a :: b :: l) ps → current_task s = a → word frame →
  saved (kheap (mach s)) b v → directory_of (kheap (mach s)) b e →
  ∃ s', schedule fuel s frame = Ok (v, s') ∧ current_task s' = b ∧
    system_ok fuel (mach s') kpd kd ktbl kent st (b :: l ++ [a]) ps ∧ cr3 (mach s') = PAGE_ENTRY_ADDR e ∧
    saved (kheap (mach s')) a frame ∧
    modifies [(a + task_kernel_stack_pointer, 4); (a + task_n_switches, 4)] (kheap (mach s)) (kheap (mach s')).
Proof.
  intros S Hc Hf Hv He. pose proof (system_tasks _ _ _ _ _ _ _ _ _ S) as Hok. pose proof S as [S0 Hrt Hrp Hslots (Hst & sp & Hhd & Hsp)].
  assert (Ha : a ∈ a :: b :: l) by (by left). pose proof (Permutation_app_comm [a] (b :: l)) as Hperm. cbn [app] in Hperm.
  destruct (member_value _ _ a task_n_switches (set_tasks _ _ _ _ _ _ _ _ S0) Ha) as [n Hn]; [member|].
  destruct (schedule_spec fuel s a b l frame n v e Hok Hc Hf Hn Hv He)
    as (s' & E & Hc' & Hok' & _ & Hcr & Hsv & _ & _ & M).
  destruct (tick_places (a :: b :: l) ps a Ha) as [Hh Hw].
  pose proof (set_modifies _ _ _ _ _ _ _ _ _ _ S0 M Hh) as S1.
  exists s'. split; [done|]. split; [done|]. split; [|done]. split.
  - by apply (set_permute fuel _ _ _ _ _ (a :: b :: l) _ ps).
  - apply Hok'.
  - by apply (procs_ring_keeps _ fuel (mach s) (mach s') kpd kd ktbl kent (a :: b :: l) ps S0 M).
  - done.
  - split; [by rewrite <- Hperm|]. exists sp. split; [done|].
    destruct (harmless_task _ _ _ _ _ _ _ _ st _ S0 Hst Hh). by rewrite (modifies_read _ _ _ _ M).
Qed.
End system.

(** * The program *)

Section program.
Context {K : Type} `{AllocatorLaws K}.
Context {Q : K → Prop}.
Implicit Types (k : K) (m : machine K).

(** What a program is started from: its name, the memory it is in, at the physical
    address [pm], and pages the current directory maps; [sp] is where the stack is. *)
Record program_source (fuel : nat) m (name : Z) (tx : list Z) (memory size stack d t1 t16 pm sp : Z) : Prop := ProgramSource {
  src_name : name_ok (kheap m) name tx ∧ (length tx < fuel)%nat;
  src_memory : memory ≠ 0 ∧ word memory;
  src_size : 0 < size ≤ 0x400000 ∧ pm + size + 4096 ≤ 2 ^ 32 ∧ sp + 8192 ≤ 2 ^ 32;
  src_walk : Forall (walkable m (current_directory m) []) [memory; stack; d; t1; t16];
  src_physical : virtual_to_physical_addr m (current_directory m) memory = Ok pm ∧
    virtual_to_physical_addr m (current_directory m) stack = Ok sp
}.

Lemma walkable_weaken m c cs x : walkable m c cs x → walkable m c [] x.
Proof.
  intros (words & ph & Ht & Hr & Hm & Hf). exists words, ph. do 3 (split; [done|]).
  eapply Forall_impl; [exact Hf|]. intros a [Ho _]. split; [done|constructor].
Qed.

Lemma modifies_machine m k : modifies [] (kheap m) k → keeps m (set_kheap m k).
Proof. intros M. split; [done|done|apply (modifies_keeps _ _ _ M)]. Qed.

Lemma source_loadable fuel m k kpd kd ktbl kent ts ps p name tx memory size stack d t1 t16 pm sp :
  system_set fuel m kpd kd ktbl kent ts ps → kent 1 = 0 ∧ kent 16 = 0 →
  program_source fuel m name tx memory size stack d t1 t16 pm sp → modifies [] (kheap m) k →
  fresh (kheap m) p SIZEOF_PROCESS → kowned k p SIZEOF_PROCESS → 0 < p →
  loadable (set_kheap m k) kpd kd ktbl kent p memory size stack d t1 t16 pm sp.
Proof.
  intros S Hz [_ _ Hsize Hw [Em Es]] M Hfr Ho Hp. set (m' := set_kheap m k).
  pose proof (set_modifies [] m m' fuel kpd kd ktbl kent ts ps S M (Forall_nil_2 _)) as S'.
  assert (Hlater : ∀ x, walkable m (current_directory m) [] x → walkable m' (current_directory m') (page_directory_of p) x ∧
    virtual_to_physical_addr m' (current_directory m') x = virtual_to_physical_addr m (current_directory m) x).
  { intros x Hx. apply (walkable_later m m' [] x _ _ Hx (modifies_machine m k M) M). intros a n Hn Hoa.
    pose proof (Hfr a n Hn Hoa). unfold apart, process_page_directory, SIZEOF_PROCESS in *. lia. }
  rewrite !Forall_cons in Hw. destruct Hw as (Wm & Ws & Wd & W1 & W16 & _).
  split.
  - by apply (modifies_inv _ _ _ M).
  - apply S'.
  - done.
  - done.
  - intros i Hi Hne. apply Hfr; [done|]. destruct (set_pages _ _ _ _ _ _ _ _ S) as (_ & _ & Hpg). by apply (Hpg i Hi Hne).
  - done.
  - eapply walkable_weaken. by apply Hlater.
  - repeat (apply Forall_cons_2; [by apply Hlater|]). constructor.
  - rewrite (proj2 (Hlater memory Wm)), (proj2 (Hlater stack Ws)). done.
Qed.

(** A region of a task or of a process. *)
Definition inside (ts ps : list Z) (c : Z * Z) : Prop := within ts c ∨ within_procs ps c.

Lemma harmless_inside ts ps c : harmless ts ps c → inside ts ps c.
Proof.
  intros [(t & off & Ht & E & ? & ? & _) | (q & off & Hq & E & ? & ? & _)]; [left; by exists t, off|right; by exists q, off].
Qed.

(** The new directory and its tables have no part in the objects of the system. *)
Lemma stage_objects fuel m kpd kd ktbl kent ts ps p c d tbl al m' cs : system_set fuel m kpd kd ktbl kent ts ps →
  stage (Q := Q) m p c d ktbl tbl al m' → Forall (inside ts ps) cs →
  apart_all cs c SIZEOF_PAGE_DIRECTORY_HANDLE ∧ apart_all cs d 4096 ∧
  ∀ i, 0 ≤ i < 1023 → tbl i ≠ 0 → apart_all cs (tbl i) 4096.
Proof.
  intros S [_ _ _ _ N T] Hcs. destruct (set_pages _ _ _ _ _ _ _ _ S) as (_ & _ & Hpg).
  assert (Hobj : ∀ b n, (∀ t, t ∈ ts → apart t SIZEOF_TASK b n) → (∀ q, q ∈ ps → apart q SIZEOF_PROCESS b n) → apart_all cs b n).
  { intros b n Ht Hp. eapply Forall_impl; [exact Hcs|].
    intros [a l] [(t & off & Hin & ? & ? & E) | (q & off & Hin & E & ? & ?)]; cbn [fst snd] in *; subst a.
    - specialize (Ht t Hin). unfold apart in *. lia.
    - specialize (Hp q Hin). unfold apart in *. lia. }
  assert (Hot : ∀ t, t ∈ ts → owned m t SIZEOF_TASK) by (intros t Ht; apply (tasks_owned _ _ (set_tasks _ _ _ _ _ _ _ _ S) t Ht)).
  assert (Hop : ∀ q, q ∈ ps → owned m q SIZEOF_PROCESS) by (intros q Hq; apply (procs_owned _ _ (set_procs _ _ _ _ _ _ _ _ S) q Hq)).
  split; [|split].
  - apply Hobj; intros x Hx; [apply (N x SIZEOF_TASK ltac:(done)), Hot, Hx|apply (N x SIZEOF_PROCESS ltac:(done)), Hop, Hx].
  - apply Hobj; intros x Hx; [apply (N x SIZEOF_TASK ltac:(done)), Hot, Hx|apply (N x SIZEOF_PROCESS ltac:(done)), Hop, Hx].
  - intros i Hi Hne. destruct (T i Hi Hne) as [E | Hnew].
    + rewrite E in *. destruct (Hpg i Hi Hne) as [[_ Ht] Hp]. apply Hobj; intros x Hx; apply apart_sym; [by apply Ht|by apply Hp].
    + apply Hobj; intros x Hx; apply Hnew; [done|by apply Hot|done|by apply Hop].
Qed.
End program.

(** * [process_init] *)

Section init.
Context {K F : Type} `{AllocatorLaws K}.
Context {Q : K → Prop}.
Implicit Types (s : processing K F).

Lemma pzalloc_next s size p al : alloc_inv (pmem s) → 0 < size < 2 ^ 32 → allots Q ((size, p) :: al) (pmem s) →
  ∃ k', pzalloc s size = Ok (p, set_pmem s k') ∧ allots Q al k' ∧ modifies [] (pmem s) k' ∧ kowned k' p size ∧
    fresh (pmem s) p size ∧ 0 < p ∧ p + size < 2 ^ 32.
Proof.
  intros Hi Hs Ha. destruct (Ha (pmem s)) as (k' & E & Hp & Hl); [by apply same_heap_refl|].
  destruct (alloc_ok (mach (ptasks s)) size p k' Hi Hs E Hp) as (_ & _ & ? & ? & _ & ? & ? & _ & ? & _).
  exists k'. unfold pzalloc. rewrite E, bind_Ok. done.
Qed.

(** A new process, its number and where its program is. *)
Lemma process_init_opens st kpd fuel s name memory size privileged slot p al : alloc_inv (pmem s) →
  allots Q ((SIZEOF_PROCESS, p) :: al) (pmem s) → word memory → word size → 0 ≤ slot < Z.of_nat (length (processes s)) →
  ∃ k1, let s1 := set_pmem (set_processes s (<[Z.to_nat slot := p]> (processes s))) k1 in
    process_init st kpd fuel s name memory size privileged slot =
      (r ← process_build st kpd fuel s1 p name privileged; let '(res, s) := r in
       if IS_ERROR res then process_init_fail s res p else Ok (res, s)) ∧
    modifies [] (pmem s) k1 ∧ allots Q al k1 ∧ fresh (pmem s) p SIZEOF_PROCESS ∧ kowned k1 p SIZEOF_PROCESS ∧
    0 < p ∧ p + SIZEOF_PROCESS < 2 ^ 32 ∧
    reads k1 p [(process_pid, u32 slot); (process_memory_size, size); (process_memory, memory)].
Proof.
  intros Hi Ha Hm Hsz Hslot.
  destruct (pzalloc_next s SIZEOF_PROCESS p al Hi ltac:(done) Ha) as (k0 & E0 & A0 & M0 & O0 & Fr & Hp & Htop).
  set (l := [(process_pid, u32 slot); (process_memory_size, size); (process_memory, memory)]).
  set (s0 := set_processes (set_pmem s k0) (<[Z.to_nat slot := p]> (processes s))).
  assert (Hw : Forall (λ ov, word ov.2) l).
  { repeat (apply Forall_cons_2; [first [apply u32_range|done]|]). constructor. }
  destruct (pwrites_spec (Q := allots Q al) [] s0 p 0 SIZEOF_PROCESS l (modifies_inv _ _ _ M0)) as (k1 & E1 & M1 & R1 & W1);
    [by rewrite Z.add_0_r, Z.sub_0_r|done|decide_by_compute|done|by apply allots_keep|].
  apply (fields_modifies _ 0 SIZEOF_PROCESS) in M1; [|decide_by_compute]. rewrite Z.add_0_r in M1. change (pmem s0) with k0 in M1.
  assert (M : modifies [] (pmem s) k1).
  { apply (modifies_new _ k0 k1 p SIZEOF_PROCESS p (SIZEOF_PROCESS - 0)); [done|done|lia|lia|done|done]. }
  exists k1. cbv zeta. split; [|split; [done|split; [|split; [done|split; [|done]]]]].
  - unfold process_init. rewrite E0, bind_Ok. unfold set_slot. change (processes (set_pmem s k0)) with (processes s).
    rewrite arr_set_in, !bind_Ok by done. rewrite decide_False by lia. fold s0. cbn [pwrites l] in E1. by rewrite E1.
  - apply room_end; [by apply (modifies_inv _ _ _ M)|exact R1].
  - by apply (modifies_owned _ _ _ _ _ M1).
Qed.

(** The stack of a process. *)
Lemma build_stack s p stack al l : alloc_inv (pmem s) → allots Q ((PROGRAM_STACK_SIZE, stack) :: al) (pmem s) →
  kowned (pmem s) p SIZEOF_PROCESS → 0 < p → spread SIZEOF_PROCESS process_stack l → reads (pmem s) p l →
  ∃ k1 k2, pzalloc s PROGRAM_STACK_SIZE = Ok (stack, set_pmem s k1) ∧
    pwrite (set_pmem s k1) p process_stack stack = Ok (set_pmem s k2) ∧ modifies [(p + process_stack, 4)] (pmem s) k2 ∧
    allots Q al k2 ∧ reads k2 p ((process_stack, stack) :: l) ∧ stack ≠ 0.
Proof.
  intros Hi Ha Ho Hp Hsp Hr.
  destruct (pzalloc_next s PROGRAM_STACK_SIZE stack al Hi ltac:(done) Ha) as (k1 & E1 & A1 & M1 & O1 & Fr & Hst & Htop).
  pose proof (modifies_owned _ _ _ _ _ M1 Ho ltac:(done)) as Ho1.
  destruct (pwrite_step (Q := allots Q al) [] (set_pmem s k1) p SIZEOF_PROCESS process_stack stack l (modifies_inv _ _ _ M1) Ho1)
    as (k2 & E2 & M2 & R2 & W2); [done|done|done|unfold word, PROGRAM_STACK_SIZE in *; lia|done| |by apply allots_keep|].
  { apply (reads_modifies [] (pmem s) k1 p SIZEOF_PROCESS); [done..| |done].
    eapply Forall_impl; [exact Hsp|]. intros ov (? & ? & _). split; [done|]. split; [done|constructor]. }
  rewrite set_pmem_twice in E2. change (pmem (set_pmem s k1)) with k1 in M2. exists k1, k2.
  do 2 (split; [done|]). split; [|split; [|split; [done|lia]]].
  - eapply modifies_step; [apply (modifies_sub _ _ _ _ M1); by constructor|exact M2|done].
  - apply room_end; [by apply (modifies_inv _ _ _ M2)|exact R2].
Qed.

(** The process [p] with its directory and its name, in memory that was free in [m]; its
    task is to come. *)
Record program_built (fuel : nat) (m : machine K) kpd kd ktbl kent ts ps p c d t1 t16 tbl size pm sp al (m' : machine K) : Prop := ProgramBuilt {
  built_keeps : keeps m m';
  built_modifies : modifies [] (kheap m) (kheap m');
  built_allots : allots Q al (kheap m');
  built_set : system_set fuel m' kpd kd ktbl kent ts (p :: ps);
  built_process : process_in fuel (kheap m') ts (p :: ps) p;
  built_mapped : program_mapped m m' kpd kent p c d t1 t16 size pm sp;
  built_directory : dir_ok m' c d tbl ∧ slots_filled kent tbl;
  built_apart : ∀ cs, Forall (inside ts (p :: ps)) cs →
    apart_all cs c SIZEOF_PAGE_DIRECTORY_HANDLE ∧ apart_all cs d 4096 ∧ ∀ i, 0 ≤ i < 1023 → tbl i ≠ 0 → apart_all cs (tbl i) 4096;
  built_new : fresh (kheap m) p SIZEOF_PROCESS ∧ 0 < p ∧ p + SIZEOF_PROCESS < 2 ^ 32
}.

(** What was translated before the process got its memory. *)
Lemma program_mapped_before m k m' kpd kd ktbl kent p c d t1 t16 size pm sp : program_mapped (set_kheap m k) m' kpd kent p c d t1 t16 size pm sp →
  kernel_space m kpd kd ktbl kent → modifies [] (kheap m) k → Forall (walkable m (current_directory m) []) [d; t1; t16] →
  program_mapped m m' kpd kent p c d t1 t16 size pm sp.
Proof.
  intros [Ph Pc Ps Pk S1 S16 Sk (ph & El & Rl)] [Hkd _ Hkt] M Hw. rewrite !Forall_cons in Hw. destruct Hw as (Hd & H1 & H16 & _).
  assert (Hv : ∀ x, walkable m (current_directory m) [] x →
    virtual_to_physical_addr (set_kheap m k) (current_directory (set_kheap m k)) x = virtual_to_physical_addr m (current_directory m) x).
  { intros x Hx. destruct (walk m (set_kheap m k) _ _ x Hx eq_refl) as (ph' & E & E' & _); [|by rewrite E].
    intros a Ho Ha. by apply (modifies_read _ _ _ _ M). }
  assert (Hs : ∀ i t n q, walkable m (current_directory m) [] t → slot_maps (set_kheap m k) m' c i t n q → slot_maps m m' c i t n q).
  { intros i t n q Ht [St Sd Sw]. split; [done|by rewrite <- Hv|done]. }
  split; [done..| |by apply Hs|by apply Hs| |].
  - intros va Hva Hiv Hne. rewrite (Pk va Hva Hiv Hne). destruct (indices va Hva).
    apply (dir_modifies m (set_kheap m k) kpd kd ktbl [] Hkd M); [constructor|constructor|intros; constructor|done|done|].
    apply Hkt; [lia|done].
  - intros i Hi Hi1 Hi16. destruct (Sk i Hi Hi1 Hi16) as [P W]. split; [done|]. intros Hne j Hj. rewrite W by done.
    apply (dir_words m (set_kheap m k) kpd kd ktbl [] Hkd M); [constructor|constructor|intros; constructor|done|by apply Hkt|done].
  - exists ph. split; [|done]. by rewrite <- Hv.
Qed.

(** Of the new process, what its tasks use. *)
Lemma new_process_in fuel m ts ps p c d tbl tx e : kowned (kheap m) p SIZEOF_PROCESS → cstr (memory (kheap m)) (p + process_name) tx →
  (length tx < 250)%nat → (length tx < fuel)%nat → Paging.read m (p + process_page_directory) = Ok c → dir_ok m c d tbl →
  Paging.read m (d + 4 * 1023) = Ok e → (∀ t, t ∈ ts → apart c SIZEOF_PAGE_DIRECTORY_HANDLE t SIZEOF_TASK ∧ apart d 4096 t SIZEOF_TASK) →
  (∀ q, q ∈ ps → apart c SIZEOF_PAGE_DIRECTORY_HANDLE q SIZEOF_PROCESS ∧ apart d 4096 q SIZEOF_PROCESS) →
  process_in fuel (kheap m) ts ps p.
Proof.
  intros Ho Ht Hl Hf Hh D He Hts Hps. split; [by exists tx|]. exists c, d, e. split; [done|].
  assert (Hb : ∀ b n off l, (b = c ∧ n = SIZEOF_PAGE_DIRECTORY_HANDLE ∨ b = d ∧ n = 4096) → 0 ≤ off → off + l ≤ n → 0 < l →
    beyond (kheap m) ts ps (b + off) l).
  { intros b n off l Hbn Hlo Hhi Hpos. split; [split|].
    - destruct Hbn as [[-> ->] | [-> ->]]; [apply (kowned_sub _ _ _ _ _ (dir_handle _ _ _ _ D))|apply (kowned_sub _ _ _ _ _ (dir_page _ _ _ _ D))]; lia.
    - intros t Hin. destruct (Hts t Hin). destruct Hbn as [[-> ->] | [-> ->]]; unfold apart in *; lia.
    - intros q Hin. destruct (Hps q Hin). destruct Hbn as [[-> ->] | [-> ->]]; unfold apart in *; lia. }
  split; split.
  - apply (dir_ptr _ _ _ _ D).
  - rewrite <- (Z.add_0_r c). apply (Hb c SIZEOF_PAGE_DIRECTORY_HANDLE); [by left|done..].
  - done.
  - apply (Hb d 4096); [by right|done..].
Qed.

(** The stack and the directory. *)
Lemma build_directory fuel s l k1 kpd kd ktbl kent ts ps p name tx memory size slot stack c d t1 t16 pm sp al :
  let m := mach (ptasks s) in let s1 := set_pmem (set_processes s l) k1 in
  system_set fuel m kpd kd ktbl kent ts ps → kent 1 = 0 ∧ kent 16 = 0 →
  program_source fuel m name tx memory size stack d t1 t16 pm sp → modifies [] (kheap m) k1 →
  allots Q ((PROGRAM_STACK_SIZE, stack) :: (SIZEOF_PAGE_DIRECTORY_HANDLE, c) :: (4096, d) :: (4096, t1) :: (4096, t16) :: al) k1 →
  fresh (kheap m) p SIZEOF_PROCESS → kowned k1 p SIZEOF_PROCESS → 0 < p < 2 ^ 32 →
  reads k1 p [(process_pid, slot); (process_memory_size, size); (process_memory, memory)] →
  ∃ k1' k2 m3 tbl, pzalloc s1 PROGRAM_STACK_SIZE = Ok (stack, set_pmem s1 k1') ∧
    pwrite (set_pmem s1 k1') p process_stack stack = Ok (set_pmem s1 k2) ∧ stack ≠ 0 ∧
    process_map_memory kpd (set_pmem s1 k2) p = Ok (0, set_pmach s1 m3) ∧ keeps m m3 ∧ modifies [] (kheap m) (kheap m3) ∧
    system_set fuel (set_kheap m k2) kpd kd ktbl kent ts (p :: ps) ∧
    stage (Q := Q) (set_kheap m k2) p c d ktbl tbl al m3 ∧ slots_filled kent tbl ∧ program_mapped m m3 kpd kent p c d t1 t16 size pm sp.
Proof.
  intros m s1 S Hz Src M1 A1 Hfr Ho Hp Hr.
  assert (Hsp : spread SIZEOF_PROCESS process_stack [(process_pid, slot); (process_memory_size, size); (process_memory, memory)]).
  { repeat (apply Forall_cons_2; [by repeat split; first [left; done | right; done | done]|]). constructor. }
  destruct (build_stack s1 p stack _ _ (modifies_inv _ _ _ M1) A1 Ho (proj1 Hp) Hsp Hr)
    as (k1' & k2 & E1 & E2 & M12 & A2 & R2 & Hst).
  change (pmem s1) with k1 in M12.
  assert (M2 : modifies [] (kheap m) k2).
  { apply (modifies_new _ k1 k2 p SIZEOF_PROCESS (p + process_stack) 4); [done|done|unfold process_stack; lia|unfold process_stack, SIZEOF_PROCESS; lia|done|done]. }
  assert (Ho2 : kowned k2 p SIZEOF_PROCESS) by (by apply (modifies_owned _ _ _ _ _ M12)).
  pose proof (source_loadable fuel m k2 kpd kd ktbl kent ts ps p name tx memory size stack d t1 t16 pm sp S Hz Src M2 Hfr Ho2 (proj1 Hp)) as L.
  destruct (process_map_memory_spec (Q := Q) (set_pmem s1 k2) kpd kd ktbl kent p memory size stack c d t1 t16 pm sp al L A2)
    as (m3 & tbl & E3 & St & Hsl & Hpm); [|apply Src|].
  { repeat (apply Forall_cons_2; [apply (pread_member _ _ _ _ _ R2); rewrite list_elem_of_In; cbn [In]; tauto|]). constructor. }
  change (mach (ptasks (set_pmem s1 k2))) with (set_kheap m k2) in *. exists k1', k2, m3, tbl.
  do 4 (split; [done|]). pose proof (st_keeps _ _ _ _ _ _ _ _ St) as K3.
  split; [eapply keeps_trans; [by apply modifies_machine|exact K3]|]. split; [|split; [|split; [done|split; [done|]]]].
  - apply (modifies_new _ k2 (kheap m3) p SIZEOF_PROCESS (p + process_page_directory) 4);
      [done|done|unfold process_page_directory; lia|unfold process_page_directory, SIZEOF_PROCESS; lia|done|apply (st_modifies _ _ _ _ _ _ _ _ St)].
  - by apply (set_add_process m).
  - pose proof (src_walk _ _ _ _ _ _ _ _ _ _ _ _ Src) as Hw. rewrite !Forall_cons in Hw. destruct Hw as (_ & _ & Wd & W1 & W16 & _).
    apply (program_mapped_before m k2 m3 kpd kd ktbl kent); [done|apply S|done|by repeat apply Forall_cons_2].
Qed.

(** And the name. *)
Lemma build_name fuel s l m2 m3 kpd kd ktbl kent ts ps p name tx size c d t1 t16 tbl pm sp al :
  let m := mach (ptasks s) in let s3 := set_pmach (set_processes s l) m3 in
  name_ok (kheap m) name tx → (length tx < fuel)%nat → keeps m m3 → modifies [] (kheap m) (kheap m3) →
  system_set fuel m kpd kd ktbl kent ts ps → system_set fuel m2 kpd kd ktbl kent ts (p :: ps) →
  stage (Q := Q) m2 p c d ktbl tbl al m3 → slots_filled kent tbl → program_mapped m m3 kpd kent p c d t1 t16 size pm sp →
  0 < size ≤ 0x400000 → fresh (kheap m) p SIZEOF_PROCESS → 0 < p ∧ p + SIZEOF_PROCESS < 2 ^ 32 →
  ∃ m4, pname s3 p name = Ok (set_pmach (set_processes s l) m4) ∧
    program_built fuel m kpd kd ktbl kent ts ps p c d t1 t16 tbl size pm sp al m4.
Proof.
  intros m s3 (Ht & Hl & Hon) Hf K3 M3 S S2 St Hsl Hpm Hsize Hfr Hp.
  pose proof (modifies_inv _ _ _ M3) as Hi3. destruct (procs_owned _ _ (set_procs _ _ _ _ _ _ _ _ S2) p ltac:(by left)) as [Ho2 Hpr].
  pose proof (keeps_owned _ _ (st_keeps _ _ _ _ _ _ _ _ St) p SIZEOF_PROCESS ltac:(done) Ho2) as Ho3.
  destruct (pname_step (Q := allots Q al) [] s3 p name tx Hi3 Ho3) as (k4 & E4 & M4 & R4 & W4).
  { apply (modifies_cstr _ _ _ _ _ M3); [done|constructor|done]. }
  { done. }
  { pose proof (Hfr name (Z.of_nat (length tx) + 1) ltac:(lia) Hon). unfold apart, process_name, SIZEOF_PROCESS in *. lia. }
  { by apply allots_keep, (st_allots _ _ _ _ _ _ _ _ St). }
  set (m4 := set_kheap m3 k4). change (pmem s3) with (kheap m3) in M4.
  destruct (stage_objects (Q := Q) fuel m2 kpd kd ktbl kent ts (p :: ps) p c d tbl al m3 [(p + process_name, 250)] S2 St) as (Ac & Ad & At).
  { apply Forall_singleton. right. exists p, process_name. split; [by left|]. done. }
  destruct (program_mapped_later m m3 m4 kpd kent p c d t1 t16 size pm sp tbl [(p + process_name, 250)] Hpm Hsize
    (st_dir _ _ _ _ _ _ _ _ St) Hsl M4 Ac Ad At) as [Hpm4 D4].
  { apply (owned_sub _ _ _ _ _ Ho3); unfold process_page_directory, SIZEOF_PROCESS; lia. }
  { apply Forall_singleton. unfold apart, process_page_directory, process_name. cbn [fst snd]. lia. }
  assert (M : modifies [] (kheap m) k4).
  { apply (modifies_new _ (kheap m3) k4 p SIZEOF_PROCESS (p + process_name) 250); [done|done|unfold process_name; lia|unfold process_name, SIZEOF_PROCESS; lia|done|done]. }
  pose proof (modifies_owned _ _ _ _ _ M4 Ho3 ltac:(done)) as Ho4.
  exists m4. split; [exact E4|]. split.
  - eapply keeps_trans; [exact K3|]. split; [done|done|apply (modifies_keeps _ _ _ M4)].
  - done.
  - apply room_end; [by apply (modifies_inv _ _ _ M4)|exact R4].
  - by apply (set_add_process m).
  - pose proof Hpm4 as [Ph _ _ _ _ _ _ (ph & _ & Rl)]. rewrite (get_entry _ _ _ _ (dir_ptr _ _ _ _ D4)) in Rl.
    apply (new_process_in fuel m4 ts (p :: ps) p c d tbl tx (Z.lor ph 3)); try done.
    + intros t Hin. destruct (st_new _ _ _ _ _ _ _ _ St t SIZEOF_TASK ltac:(done)); [by apply (tasks_owned _ _ (set_tasks _ _ _ _ _ _ _ _ S2))|].
      split; by apply apart_sym.
    + intros q Hin. destruct (st_new _ _ _ _ _ _ _ _ St q SIZEOF_PROCESS ltac:(done)); [by apply (procs_owned _ _ (set_procs _ _ _ _ _ _ _ _ S2))|].
      split; by apply apart_sym.
  - done.
  - done.
  - intros cs Hcs. by apply (stage_objects (Q := Q) fuel m2 kpd kd ktbl kent ts (p :: ps) p c d tbl al m3 cs).
  - done.
Qed.

(** ** Its task *)

Definition program_stack : Z := PROGRAM_STACK_TOP_VIRT_ADDR + PROGRAM_STACK_SIZE.

(** The new task [t] in the ring, about to start the program; the process is not in its
    list yet. *)
Record program_tasked (fuel : nat) (m : machine K) kpd kd ktbl kent st ts ps p t privileged c d t1 t16 tbl size pm sp (m' : machine K) : Prop := ProgramTasked {
  tasked_set : system_set fuel m' kpd kd ktbl kent ts (p :: ps);
  tasked_ring : ring (tnx (kheap m')) (tpv (kheap m')) ts;
  tasked_first : st ∈ ts ∧ ∃ q, head ps = Some q ∧ kread (kheap m') (st + task_process) = Ok q;
  tasked_task : t ∈ ts ∧ kread (kheap m') (t + task_process) = Ok p;
  tasked_frame : saved (kheap m') t (first_stack t privileged) ∧
    words_at (kheap m') (first_stack t privileged) (first_frame privileged PROGRAM_BASE_VIRT_ADDR program_stack);
  tasked_mapped : program_mapped m m' kpd kent p c d t1 t16 size pm sp ∧ dir_ok m' c d tbl
}.

Lemma within_links ts : Forall (within ts) (links ts).
Proof.
  unfold links. apply Forall_fmap, Forall_forall. intros t Ht. exists t, task_next. by split.
Qed.

Lemma handle_kept fuel m kpd kd ktbl kent ts ps p cs : system_set fuel m kpd kd ktbl kent ts ps → p ∈ ps →
  Forall (harmless ts ps) cs → owned m (p + process_page_directory) 4 ∧ apart_all cs (p + process_page_directory) 4.
Proof. intros S Hp Hcs. apply (harmless_process m fuel kpd kd ktbl kent ts ps p process_page_directory 4 cs S Hp Hcs); [by right|done]. Qed.

Lemma build_task fuel (t0 : tasking K) m kpd kd ktbl kent st a l ps p privileged c d t1 t16 tbl size pm sp v al :
  system_ok fuel m kpd kd ktbl kent st (a :: l) ps → current_task t0 = a → (S (length l) < fuel)%nat → 0 < size ≤ 0x400000 →
  program_built fuel m kpd kd ktbl kent (a :: l) ps p c d t1 t16 tbl size pm sp ((SIZEOF_TASK, v) :: al) (mach t0) →
  ∃ t tk, task_new fuel t0 p privileged PROGRAM_BASE_VIRT_ADDR program_stack = Ok (t, tk) ∧ current_task tk = a ∧ 0 < t < 2 ^ 32 ∧
    program_tasked fuel m kpd kd ktbl kent st (a :: t :: l) ps p t privileged c d t1 t16 tbl size pm sp (mach tk) ∧
    ring (pnx (kheap (mach tk))) (ppv (kheap (mach tk))) ps.
Proof.
  intros Sys Hc Hf Hsize [K4 M4 A4 S4 P4 Hpm [D4 Hsl] Hap (Hfr & Hp & Htop)]. pose proof Sys as [S0 Hrt Hrp Hz (Hst & q & Hhd & Hq)].
  set (k4 := kheap (mach t0)) in *.
  assert (Hok4 : tasks_ok fuel k4 (a :: l)) by (apply (tasks_frame _ (kheap m)); [done|by eapply system_tasks]).
  destruct (task_new_spec fuel (al.*1) t0 a l p privileged PROGRAM_BASE_VIRT_ADDR program_stack Hok4 Hc Hf)
    as (t & tk & E & Fr & Ok5 & Hc5 & Ht5 & Hsv & W5 & M5).
  { apply (room_mono Q); [done|]. exact (allots_room Q _ _ A4). }
  { unfold word, SIZEOF_PROCESS in *. lia. }
  { apply (process_in_of fuel (mach t0) kpd kd ktbl kent (a :: l) (p :: ps)); [done|by left|done]. }
  { done. }
  { done. }
  fold k4 in Fr, M5. set (k5 := kheap (mach tk)) in *. exists t, tk. do 2 (split; [done|]).
  pose proof (links_harmless (a :: l) (p :: ps)) as Hh. pose proof (Permutation_swap a t l) as Hperm.
  assert (M : modifies (links (a :: l)) (kheap m) k5).
  { eapply modifies_step; [apply (modifies_sub _ _ _ _ M4); by constructor|exact M5|done]. }
  pose proof (tasks_memory _ _ _ Ok5) as Hm5. destruct (tasks_owned _ _ Hm5 t) as (_ & Hpos & Ht); [by right; left|].
  split; [unfold SIZEOF_TASK, TASK_KERNEL_STACK_SIZE in *; lia|]. split; [split|].
  - apply (set_add_task (mach t0) (mach tk) fuel kpd kd ktbl kent (a :: l) _ (p :: ps) t p); try done. by left.
  - apply Ok5.
  - split; [apply elem_of_cons in Hst as [-> | ?]; [by left|by right; right]|]. exists q. split; [done|].
    destruct (harmless_task m fuel kpd kd ktbl kent (a :: l) ps st (links (a :: l)) S0 Hst (links_harmless _ _)).
    by rewrite (modifies_read _ _ _ _ M).
  - split; [by right; left|done].
  - done.
  - destruct (Hap (links (a :: l))) as (Ac & Ad & At).
    { eapply Forall_impl; [exact Hh|]. apply harmless_inside. }
    destruct (handle_kept fuel (mach t0) kpd kd ktbl kent (a :: l) (p :: ps) p _ S4 ltac:(by left) Hh).
    by apply (program_mapped_later m (mach t0) (mach tk) kpd kent p c d t1 t16 size pm sp tbl (links (a :: l))).
  - apply (procs_ring_keeps (links (a :: l)) fuel m (mach tk) kpd kd ktbl kent (a :: l)); [done..|apply within_links|done].
Qed.

(** It stays so while the processes' other members change. *)
Lemma tasked_modifies fuel m kpd kd ktbl kent st ts ps p t privileged c d t1 t16 tbl size pm sp m' m'' cs :
  program_tasked fuel m kpd kd ktbl kent st ts ps p t privileged c d t1 t16 tbl size pm sp m' → 0 < size ≤ 0x400000 → slots_filled kent tbl →
  t + 92 ≤ first_stack t privileged ∧ first_stack t privileged + 4 * Z.of_nat (length (first_frame privileged PROGRAM_BASE_VIRT_ADDR program_stack)) ≤ t + SIZEOF_TASK →
  modifies cs (kheap m') (kheap m'') → Forall (harmless ts (p :: ps)) cs → Forall (within_procs (p :: ps)) cs →
  (apart_all cs c SIZEOF_PAGE_DIRECTORY_HANDLE ∧ apart_all cs d 4096 ∧ ∀ i, 0 ≤ i < 1023 → tbl i ≠ 0 → apart_all cs (tbl i) 4096) →
  program_tasked fuel m kpd kd ktbl kent st ts ps p t privileged c d t1 t16 tbl size pm sp m''.
Proof.
  intros [S Hr [Hst (q & Hhd & Hq)] [Ht Htp] [Hsv Hw] [Hpm D]] Hsize Hsl Hfs M Hh Hin (Ac & Ad & At).
  assert (Hta : ∀ off n, 0 ≤ off → off + n ≤ SIZEOF_TASK → 0 < n → kowned (kheap m') (t + off) n ∧ apart_all cs (t + off) n).
  { intros off n Hlo Hhi Hn. destruct (tasks_owned _ _ (set_tasks _ _ _ _ _ _ _ _ S) t Ht) as [Ho _].
    split; [apply (kowned_sub _ _ _ _ _ Ho); lia|]. eapply Forall_impl; [exact Hin|].
    intros [b n'] (r & o & Hrin & -> & ? & ?). cbn [fst snd] in *. pose proof (set_apart _ _ _ _ _ _ _ _ S t r Ht Hrin). unfold apart in *. lia. }
  assert (Hread : ∀ x, x ∈ ts → kread (kheap m'') (x + task_process) = kread (kheap m') (x + task_process)).
  { intros x Hx. destruct (harmless_task _ _ _ _ _ _ _ _ x cs S Hx Hh). by apply (modifies_read _ _ _ _ M). }
  split.
  - by apply (set_modifies cs m').
  - by apply (tasks_ring_keeps cs fuel m' m'' kpd kd ktbl kent ts (p :: ps)).
  - split; [done|]. exists q. by rewrite Hread.
  - by rewrite Hread.
  - split.
    + unfold saved. destruct (Hta task_kernel_stack_pointer 4); [done..|]. by rewrite (modifies_read _ _ _ _ M).
    + replace (first_stack t privileged) with (t + (first_stack t privileged - t)) in Hw |- * by lia.
      assert (Hl : (0 < length (first_frame privileged PROGRAM_BASE_VIRT_ADDR program_stack))%nat) by (cbn; lia).
      destruct (Hta (first_stack t privileged - t) (4 * Z.of_nat (length (first_frame privileged PROGRAM_BASE_VIRT_ADDR program_stack)))); [lia|lia|lia|].
      by apply (words_at_modifies _ _ _ _ _ M).
  - destruct (handle_kept fuel m' kpd kd ktbl kent ts (p :: ps) p cs S ltac:(by left) Hh).
    by apply (program_mapped_later m m' m'' kpd kent p c d t1 t16 size pm sp tbl cs).
Qed.

Lemma plinks_within ps : Forall (within_procs ps) (plinks ps).
Proof. unfold plinks. apply Forall_fmap, Forall_forall. intros q Hq. exists q, process_next. by split. Qed.

(** The process gets its task and joins the list. *)
Lemma build_links fuel s m kpd kd ktbl kent st ts p0 pl p t privileged c d t1 t16 tbl size pm sp :
  program_tasked fuel m kpd kd ktbl kent st ts (p0 :: pl) p t privileged c d t1 t16 tbl size pm sp (mach (ptasks s)) →
  ring (pnx (pmem s)) (ppv (pmem s)) (p0 :: pl) → 0 < size ≤ 0x400000 → slots_filled kent tbl → 0 < t < 2 ^ 32 → p ∉ p0 :: pl →
  (∀ cs, Forall (within_procs (p :: p0 :: pl)) cs →
    apart_all cs c SIZEOF_PAGE_DIRECTORY_HANDLE ∧ apart_all cs d 4096 ∧ ∀ i, 0 ≤ i < 1023 → tbl i ≠ 0 → apart_all cs (tbl i) 4096) →
  ∃ k6 k7, pwrite s p process_task t = Ok (set_pmem s k6) ∧ process_list_insert st (set_pmem s k6) p = Ok (p, set_pmem s k7) ∧
    program_tasked fuel m kpd kd ktbl kent st ts (p0 :: pl) p t privileged c d t1 t16 tbl size pm sp (set_kheap (mach (ptasks s)) k7) ∧
    ring (pnx k7) (ppv k7) (p0 :: pl ++ [p]) ∧ kread k7 (p + process_task) = Ok t.
Proof.
  intros T Hring Hsize Hsl Ht Hnot Hap. set (m5 := mach (ptasks s)) in *. pose proof (tasked_set _ _ _ _ _ _ _ _ _ _ _ _ _ _ _ _ _ _ _ _ _ T) as S5.
  assert (Hfs : t + 92 ≤ first_stack t privileged ∧
    first_stack t privileged + 4 * Z.of_nat (length (first_frame privileged PROGRAM_BASE_VIRT_ADDR program_stack)) ≤ t + SIZEOF_TASK).
  { destruct (first_stack_place t privileged PROGRAM_BASE_VIRT_ADDR program_stack). lia. }
  pose proof (set_procs _ _ _ _ _ _ _ _ S5) as Hpm5. destruct (procs_owned _ _ Hpm5 p ltac:(by left)) as [Ho Hp].
  destruct (pwrite_step (Q := λ _, True) [] s p SIZEOF_PROCESS process_task t [] (procs_inv _ _ Hpm5) Ho)
    as (k6 & E6 & M6 & _ & W6); [lia|done|done|unfold word; lia|constructor|constructor|done|].
  assert (Hw6 : Forall (within_procs (p :: p0 :: pl)) [(p + process_task, 4)]).
  { apply Forall_singleton. exists p, process_task. split; [by left|done]. }
  assert (Hh6 : Forall (harmless ts (p :: p0 :: pl)) [(p + process_task, 4)]).
  { apply Forall_singleton. right. exists p, process_task. split; [by left|]. split; [done|]. decide_by_compute. }
  pose proof (tasked_modifies _ _ _ _ _ _ _ _ _ _ _ _ _ _ _ _ _ _ _ _ _ (set_kheap m5 k6) _ T Hsize Hsl Hfs M6 Hh6 Hw6 (Hap _ Hw6)) as T6.
  assert (Hring6 : ring (pnx k6) (ppv k6) (p0 :: pl)).
  { apply (ring_procs_modifies [(p + process_task, 4)] (pmem s)); [done..|]. intros q Hq.
    assert (Hqp : q ≠ p) by (by intros ->). assert (Hq' : q ∈ p :: p0 :: pl) by (by right).
    destruct (procs_owned _ _ Hpm5 q Hq'). split; [done|]. apply Forall_singleton. cbn [fst snd].
    pose proof (procs_apart _ _ Hpm5 q p Hq' ltac:(by left) Hqp). unfold apart, process_task, process_next, SIZEOF_PROCESS in *. lia. }
  destruct (tasked_first _ _ _ _ _ _ _ _ _ _ _ _ _ _ _ _ _ _ _ _ _ T6) as (Hst & q & [= <-] & Hq).
  pose proof (tasked_set _ _ _ _ _ _ _ _ _ _ _ _ _ _ _ _ _ _ _ _ _ T6) as S6.
  destruct (tasks_owned _ _ (set_tasks _ _ _ _ _ _ _ _ S6) st Hst) as (_ & Hst0 & _).
  destruct (process_list_insert_spec st (set_pmem s k6) p0 pl p Hring6 (set_procs _ _ _ _ _ _ _ _ S6) Hnot Hst0 Hq)
    as (k7 & E7 & Hring7 & Hpm7 & M7).
  change (pmem (set_pmem s k6)) with k6 in M7. exists k6, k7. split; [done|]. split; [exact E7|].
  split; [|split; [done|]].
  - apply (tasked_modifies _ _ _ _ _ _ _ _ _ _ _ _ _ _ _ _ _ _ _ _ (set_kheap m5 k6) (set_kheap m5 k7) (plinks (p :: p0 :: pl)) T6 Hsize Hsl Hfs M7);
      [apply plinks_harmless|apply plinks_within|apply Hap, plinks_within].
  - rewrite (modifies_read _ _ _ _ M7); [apply (pread_member _ _ _ _ _ W6); by left| |].
    + apply (modifies_owned _ _ _ _ _ M6); [|done]. apply (kowned_sub _ _ _ _ _ Ho); unfold process_task, SIZEOF_PROCESS; lia.
    + apply plinks_apart. intros r [-> | Hr]%elem_of_cons; [unfold apart, process_task, process_next; lia|].
      assert (Hrp : r ≠ p) by (by intros ->). pose proof (procs_apart _ _ Hpm5 r p ltac:(by right) ltac:(by left) Hrp).
      unfold apart, process_task, process_next, SIZEOF_PROCESS in *. lia.
Qed.

(** With the process at the end of the list the system is as before. *)
Lemma tasked_system fuel m kpd kd ktbl kent st ts p0 pl p t privileged c d t1 t16 tbl size pm sp m' :
  program_tasked fuel m kpd kd ktbl kent st ts (p0 :: pl) p t privileged c d t1 t16 tbl size pm sp m' → kent 1 = 0 ∧ kent 16 = 0 →
  ring (pnx (kheap m')) (ppv (kheap m')) (p0 :: pl ++ [p]) → system_ok fuel m' kpd kd ktbl kent st ts (p0 :: pl ++ [p]).
Proof.
  intros [S Hr Hfirst _ _ _] Hz Hring. split; [|done..].
  apply (set_permute fuel m' kpd kd ktbl kent ts ts (p :: p0 :: pl)); [done|exact (Permutation_cons_append (p0 :: pl) p)|done].
Qed.

Definition program_allocations (p stack c d t1 t16 v : Z) : list (Z * Z) :=
  [(SIZEOF_PROCESS, p); (PROGRAM_STACK_SIZE, stack); (SIZEOF_PAGE_DIRECTORY_HANDLE, c); (4096, d); (4096, t1); (4096, t16); (SIZEOF_TASK, v)].

Lemma process_init_spec fuel s kpd kd ktbl kent st a l p0 pl name tx memory size privileged slot p stack c d t1 t16 v pm sp :
  let m := mach (ptasks s) in
  system_ok fuel m kpd kd ktbl kent st (a :: l) (p0 :: pl) → current_task (ptasks s) = a → (S (length l) < fuel)%nat →
  program_source fuel m name tx memory size stack d t1 t16 pm sp → 0 ≤ slot < Z.of_nat (length (processes s)) →
  allots Q (program_allocations p stack c d t1 t16 v) (pmem s) →
  ∃ t s' tbl, process_init st kpd fuel s name memory size privileged slot = Ok (0, s') ∧
    processes s' = <[Z.to_nat slot := p]> (processes s) ∧ current_task (ptasks s') = a ∧
    program_tasked fuel m kpd kd ktbl kent st (a :: t :: l) (p0 :: pl) p t privileged c d t1 t16 tbl size pm sp (mach (ptasks s')) ∧
    ring (pnx (pmem s')) (ppv (pmem s')) (p0 :: pl ++ [p]) ∧ slots_filled kent tbl ∧
    ∀ cs, Forall (inside (a :: l) (p :: p0 :: pl)) cs →
      apart_all cs c SIZEOF_PAGE_DIRECTORY_HANDLE ∧ apart_all cs d 4096 ∧ ∀ i, 0 ≤ i < 1023 → tbl i ≠ 0 → apart_all cs (tbl i) 4096.
Proof.
  intros m Sys Hc Hf Src Hslot A. pose proof Sys as [S _ _ Hz _]. pose proof (procs_inv _ _ (set_procs _ _ _ _ _ _ _ _ S)) as Hi.
  pose proof Src as [[Hname Hnf] [Hm0 Hmw] (Hsize & Hsz) _ _].
  destruct (process_init_opens st kpd fuel s name memory size privileged slot p _ Hi A Hmw ltac:(unfold word; lia) Hslot)
    as (k1 & E & M1 & A1 & Hfr & Ho1 & Hp & Htop & R1).
  set (l' := <[Z.to_nat slot := p]> (processes s)) in *. cbv zeta in E.
  assert (Hpr : 0 < p < 2 ^ 32) by (unfold SIZEOF_PROCESS in *; lia).
  destruct (build_directory fuel s l' k1 kpd kd ktbl kent (a :: l) (p0 :: pl) p name tx memory size _ stack c d t1 t16 pm sp _
    S Hz Src M1 A1 Hfr Ho1 Hpr R1) as (k1' & k2 & m3 & tbl & E1 & E2 & Hst & E3 & K3 & M3 & S2 & St & Hsl & Hpm).
  destruct (build_name fuel s l' _ m3 kpd kd ktbl kent (a :: l) (p0 :: pl) p name tx size c d t1 t16 tbl pm sp _
    Hname Hnf K3 M3 S S2 St Hsl Hpm Hsize Hfr (conj Hp Htop)) as (m4 & E4 & B).
  set (s4 := set_pmach (set_processes s l') m4) in *.
  destruct (build_task fuel (ptasks s4) m kpd kd ktbl kent st a l (p0 :: pl) p privileged c d t1 t16 tbl size pm sp v [] Sys Hc Hf Hsize B)
    as (t & tk & E5 & Hc5 & Ht & T5 & Hring5).
  assert (Hnot : p ∉ p0 :: pl).
  { intros Hin. destruct (procs_owned _ _ (set_procs _ _ _ _ _ _ _ _ S) p Hin) as [Ho _].
    pose proof (Hfr p SIZEOF_PROCESS ltac:(done) Ho). unfold apart, SIZEOF_PROCESS in *. lia. }
  destruct (build_links fuel (set_ptasks s4 tk) m kpd kd ktbl kent st (a :: t :: l) p0 pl p t privileged c d t1 t16 tbl size pm sp
    T5 Hring5 Hsize Hsl Ht Hnot) as (k6 & k7 & E6 & E7 & T7 & Hring7 & _).
  { intros cs Hcs. apply (built_apart _ _ _ _ _ _ _ _ _ _ _ _ _ _ _ _ _ _ _ B). eapply Forall_impl; [exact Hcs|]. by right. }
  exists t, (set_pmem (set_ptasks s4 tk) k7), tbl. split; [|split; [done|split; [exact Hc5|split; [exact T7|split; [exact Hring7|split; [done|]]]]]].
  - rewrite E. unfold process_build. rewrite E1, bind_Ok, E2, bind_Ok, decide_False, E3, bind_Ok, decide_False by (done || by intros []).
    change (set_pmach (set_pmem (set_processes s l') k1) m3) with (set_pmach (set_processes s l') m3). rewrite E4, bind_Ok.
    change (set_pmach (set_processes s l') m4) with s4. fold program_stack. rewrite E5, bind_Ok. cbv zeta.
    rewrite E6, bind_Ok, decide_False, E7, !bind_Ok by lia. done.
  - apply (built_apart _ _ _ _ _ _ _ _ _ _ _ _ _ _ _ _ _ _ _ B).
Qed.
End init.

(** * The claim *)

Section claim.
Context {K F : Type} `{AllocatorLaws K}.

(** C3: [process_init], called in a running system with room for its allocations, returns
    0: the process is in its slot and last in the list of processes, its task follows the
    current one, and the system is as sound as before. The next tick starts the program: it
    loads the process's own directory, in which the program, its stack and the kernel are
    where they belong, entered by their frames as present, writable and, but for the
    kernel, accessible to programs, and resumes at a frame that returns to [PROGRAM_BASE_VIRT_ADDR]
    with the stack's top, on ring 3 segments unless the task is privileged. *)
Theorem process_init_runs_program fuel (s : processing K F) kpd kd ktbl kent st a l p0 pl name tx memory size privileged slot p stack c d t1 t16 v pm sp :
  let m := mach (ptasks s) in
  system_ok fuel m kpd kd ktbl kent st (a :: l) (p0 :: pl) → current_task (ptasks s) = a → (S (length l) < fuel)%nat →
  program_source fuel m name tx memory size stack d t1 t16 pm sp → 0 ≤ slot < Z.of_nat (length (processes s)) →
  allots (λ _, True) (program_allocations p stack c d t1 t16 v) (pmem s) →
  ∃ t s', process_init st kpd fuel s name memory size privileged slot = Ok (0, s') ∧
    processes s' = <[Z.to_nat slot := p]> (processes s) ∧ current_task (ptasks s') = a ∧
    system_ok fuel (mach (ptasks s')) kpd kd ktbl kent st (a :: t :: l) (p0 :: pl ++ [p]) ∧
    ∀ frame, word frame → ∃ ts, schedule fuel (ptasks s') frame = Ok (first_stack t privileged, ts) ∧ current_task ts = t ∧
      system_ok fuel (mach ts) kpd kd ktbl kent st (t :: l ++ [a]) (p0 :: pl ++ [p]) ∧
      virtual_to_physical_addr m (current_directory m) d = Ok (cr3 (mach ts)) ∧
      program_mapped m (mach ts) kpd kent p c d t1 t16 size pm sp ∧
      words_at (kheap (mach ts)) (first_stack t privileged) (first_frame privileged PROGRAM_BASE_VIRT_ADDR program_stack).
Proof.
  intros m Sys Hc Hf Src Hslot A. pose proof Sys as [_ _ _ Hz _].
  destruct (process_init_spec (Q := λ _, True) fuel s kpd kd ktbl kent st a l p0 pl name tx memory size privileged slot p stack c d t1 t16 v pm sp
    Sys Hc Hf Src Hslot A) as (t & s' & tbl & E & El & Hc' & T & Hring & Hsl & Hap).
  pose proof (tasked_system _ _ _ _ _ _ _ _ _ _ _ _ _ _ _ _ _ _ _ _ _ _ T Hz Hring) as Sys'.
  pose proof T as [S' _ _ [Htin Htp] [Hsv Hw] [Hpm D]].
  exists t, s'. do 4 (split; [done|]). intros frame Hframe. pose proof Hpm as [Hh _ _ _ _ _ _ (ph & Eph & Hlast)].
  rewrite (get_entry _ _ _ _ (dir_ptr _ _ _ _ D)) in Hlast.
  destruct (tick_keeps_system fuel (ptasks s') kpd kd ktbl kent st a t l (p0 :: pl ++ [p]) frame (first_stack t privileged) (Z.lor ph 3)
    Sys' Hc' Hframe Hsv) as (ts & Et & Hct & Syst & Hcr & _ & M).
  { exists p, c, d. split; [done|]. split; [done|]. split; [apply (dir_ptr _ _ _ _ D)|done]. }
  exists ts. do 3 (split; [done|]). destruct (tick_places (a :: t :: l) (p :: p0 :: pl) a ltac:(by left)) as [Hh2 Hw2].
  split; [|split].
  - rewrite Hcr. pose proof (src_walk _ _ _ _ _ _ _ _ _ _ _ _ Src) as Hwk. rewrite !Forall_cons in Hwk. destruct Hwk as (_ & _ & Wd & _).
    destruct (walk m m _ _ d Wd eq_refl ltac:(done)) as (ph' & Ep & _ & Hr & Hal). fold m in Eph. rewrite Eph in Ep. injection Ep as <-.
    destruct (page_flags ph (conj Hr Hal)) as (_ & -> & _). done.
  - destruct (Hap [(a + task_kernel_stack_pointer, 4); (a + task_n_switches, 4)]) as (Ac & Ad & At).
    { destruct (tick_places (a :: l) (p :: p0 :: pl) a ltac:(by left)) as [_ Hw3]. eapply Forall_impl; [exact Hw3|]. by left. }
    destruct (handle_kept fuel _ kpd kd ktbl kent _ (p :: p0 :: pl) p _ S' ltac:(by left) Hh2).
    by apply (program_mapped_later m (mach (ptasks s')) (mach ts) kpd kent p c d t1 t16 size pm sp tbl
      [(a + task_kernel_stack_pointer, 4); (a + task_n_switches, 4)] Hpm (proj1 (src_size _ _ _ _ _ _ _ _ _ _ _ _ Src)) D Hsl).
  - destruct (first_stack_place t privileged PROGRAM_BASE_VIRT_ADDR program_stack) as [Hlo Hhi].
    pose proof (ring_NoDup _ _ _ (sys_tasks _ _ _ _ _ _ _ _ _ Sys')) as Hnd. apply NoDup_cons in Hnd as [Hat _].
    assert (Hne : a ≠ t) by (intros ->; apply Hat; by left). pose proof (set_tasks _ _ _ _ _ _ _ _ S') as Hm.
    pose proof (tasks_apart _ _ Hm a t ltac:(by left) Htin Hne). destruct (tasks_owned _ _ Hm t Htin) as [Hot _].
    apply (words_at_modifies _ _ _ _ _ M); [apply (kowned_sub _ _ _ _ _ Hot); lia| |done].
    repeat (apply Forall_cons_2; [unfold apart, task_kernel_stack_pointer, task_n_switches, SIZEOF_TASK, TASK_KERNEL_STACK_SIZE in *; cbn [fst snd]; lia|]).
    constructor.
Qed.
End claim.

#[local] Opaque example_ram.

(** ** A system to load a program into

    The heap has the program in its first block and twelve free ones. Past it lie the boot
    directory, the kernel's handle, directory and table, the current handle, on the boot
    directory, the first process, with an empty name, its task, and the program's name. *)
Definition running_segs : list seg := Used 1 :: replicate 12 Free.
Definition running_data : list (Z * list Z) :=
  ((λ av, (av.1, split4 av.2)) <$>
    [(0x1D000, 0x83); (0x1E000, 0x20000); (0x1EC04, 0x21000); (0x20C00, 0x21003); (0x22000, 0x1D000);
     (0x23800 + process_page_directory, 0x1E000); (0x23800 + process_next, 0x23800); (0x23800 + process_previous, 0x23800);
     (0x24000 + task_process, 0x23800); (0x24000 + task_next, 0x24000); (0x24000 + task_previous, 0x24000)]) ++
  [(0x28000, text "0:/shell.bin" ++ [0])].
Definition running_machine : machine kernel :=
  Machine (example_kernel running_segs 0x19000 running_data) 0x22000 0x11 0 PSE_BIT 0 0 (Terminal ∅ 0 0).
Definition running : processing kernel unit :=
  Processing (Tasking running_machine witness_gdt 0x24000) (tt, FileTable [] 0, [], 0) (replicate 3 0) 0x23800 true.

Ltac running_read := unfold Paging.read, running_machine, running, kheap, mach, ptasks, pmem; example_mem.

Lemma running_kernel_ok : kernel_ok (kheap running_machine) running_segs.
Proof.
  apply example_kernel_ok; [by repeat constructor|by vm_compute|by vm_compute|]. unfold running_data.
  apply Forall_app; split; [apply Forall_fmap, Forall_forall; intros av _; apply split4_bytes|].
  apply Forall_singleton. decide_by_compute.
Qed.

Lemma running_owned a n : 0x1D000 ≤ a → a + n ≤ 0x29000 → owned running_machine a n.
Proof. intros Ha Hn. apply (example_outside running_segs 0x19000 running_data a n); [exact Ha|lia]. Qed.

Lemma running_words a l : forallb (λ i, bool_decide (example_word 0x19000 running_data (a + 4 * i) = Ok (one_of l i))) (seqZ 0 1024) = true →
  ∀ i, 0 ≤ i < 1024 → kread (kheap running_machine) (a + 4 * i) = Ok (one_of l i).
Proof. apply example_words. lia. Qed.

Definition running_ktbl : Z → Z := one_of [(768, 0x21000)].
Definition running_kent : Z → Z := one_of [(768, 0x21003)].

Lemma running_kernel : kernel_space running_machine 0x1E000 0x20000 running_ktbl running_kent.
Proof.
  split.
  - apply (example_dir_ok running_machine 0x1D000 0x29000 0x1E000 0x20000 [(768, 0x21000)] [(768, 0x21003)]).
    + exact running_owned.
    + running_read.
    + apply (running_words (0x1E000 + 4)). by vm_compute.
    + apply running_words. by vm_compute.
    + by vm_compute.
    + lia.
    + lia.
    + lia.
    + decide_by_compute.
    + decide_by_compute.
  - intros i Hi. apply (running_words 0x20000 [(768, 0x21003)]); [by vm_compute|lia].
  - intros i _. unfold running_kent, running_ktbl, one_of. cbn [list_find fst]. repeat case_decide; cbn; done.
Qed.

Lemma running_beyond b n : 0x1D000 ≤ b → b + n ≤ 0x29000 → apart b n 0x24000 SIZEOF_TASK → apart b n 0x23800 SIZEOF_PROCESS →
  beyond (kheap running_machine) [0x24000] [0x23800] b n.
Proof.
  intros Hlo Hhi Ht Hp. split; [split; [exact (running_owned b n Hlo Hhi)|]|]; intros c ->%list_elem_of_singleton; done.
Qed.

Lemma running_set : system_set 20 running_machine 0x1E000 0x20000 running_ktbl running_kent [0x24000] [0x23800].
Proof.
  split.
  - split; [exists running_segs; exact running_kernel_ok| |].
    + intros a ->%list_elem_of_singleton. split; [apply running_owned; done|done].
    + intros a b ->%list_elem_of_singleton ->%list_elem_of_singleton. done.
  - split; [exists running_segs; exact running_kernel_ok| |].
    + intros a ->%list_elem_of_singleton. split; [apply running_owned; done|done].
    + intros a b ->%list_elem_of_singleton ->%list_elem_of_singleton. done.
  - intros t q ->%list_elem_of_singleton ->%list_elem_of_singleton. decide_by_compute.
  - intros t ->%list_elem_of_singleton. exists 0x23800. split; [by left|]. split; [running_read|]. split.
    + exists []. split; [split; [running_read|constructor]|cbn; lia].
    + exists 0x1E000, 0x20000, 0. split; [running_read|].
      split; (split; [running_read|apply running_beyond; decide_by_compute]).
  - exact running_kernel.
  - split; [apply running_beyond; decide_by_compute|]. split; [apply running_beyond; decide_by_compute|].
    intros i _ Hne. apply one_of_in, list_elem_of_singleton in Hne. injection Hne as _ E. unfold running_ktbl. rewrite E.
    apply running_beyond; decide_by_compute.
Qed.

Lemma running_ok : system_ok 20 running_machine 0x1E000 0x20000 running_ktbl running_kent 0x24000 [0x24000] [0x23800].
Proof.
  split.
  - exact running_set.
  - apply ring_singleton. unfold tnx, tpv. split; running_read.
  - apply ring_singleton. unfold pnx, ppv. split; running_read.
  - done.
  - split; [by left|]. exists 0x23800. split; [done|running_read].
Qed.

Lemma running_walkable x : page x → x < 2 ^ 22 → walkable running_machine 0x22000 [] x.
Proof.
  intros Hx Hr. apply (example_walkable running_machine 0x22000 0x1D000).
  - repeat (apply Forall_cons_2; [split; [apply running_owned; lia|constructor]|]). constructor.
  - running_read.
  - running_read.
  - done.
  - exact Hx.
  - exact Hr.
Qed.

Lemma running_physical x : 0 ≤ x < 2 ^ 22 →
  virtual_to_physical_addr running_machine 0x22000 x = Ok (u32 (PAGE_ENTRY_ADDR 0x83 + V_ADDR_PAGEFRAME_INDEX_PSE x)).
Proof. intros Hx. eapply translates_now, (example_translates running_machine 0x22000 0x1D000); [running_read|running_read|done|exact Hx]. Qed.

Lemma running_source : program_source 20 running_machine 0x28000 (text "0:/shell.bin") 0x10000 1000 0x12000 0x15000 0x16000 0x17000 0x10000 0x12000.
Proof.
  split.
  - split; [|cbn; lia]. split; [split; [running_read|by repeat constructor]|]. split; [cbn; lia|apply running_owned; done].
  - done.
  - lia.
  - repeat (apply Forall_cons_2; [by apply running_walkable|]). constructor.
  - split; by apply running_physical.
Qed.

Lemma process_init_runs_program_witness :
  ∃ t s', process_init 0x24000 0x1E000 20 running 0x28000 0x10000 1000 0 2 = Ok (0, s') ∧
    processes s' = [0; 0; 0x11000] ∧ current_task (ptasks s') = 0x24000 ∧
    system_ok 20 (mach (ptasks s')) 0x1E000 0x20000 running_ktbl running_kent 0x24000 [0x24000; t] [0x23800; 0x11000] ∧
    ∀ frame, word frame → ∃ ts, schedule 20 (ptasks s') frame = Ok (first_stack t 0, ts) ∧ current_task ts = t ∧
      system_ok 20 (mach ts) 0x1E000 0x20000 running_ktbl running_kent 0x24000 [t; 0x24000] [0x23800; 0x11000] ∧
      virtual_to_physical_addr running_machine 0x22000 0x15000 = Ok (cr3 (mach ts)) ∧
      program_mapped running_machine (mach ts) 0x1E000 running_kent 0x11000 0x13000 0x15000 0x16000 0x17000 1000 0x10000 0x12000 ∧
      words_at (kheap (mach ts)) (first_stack t 0) (first_frame 0 PROGRAM_BASE_VIRT_ADDR program_stack).
Proof.
  apply (process_init_runs_program 20 running 0x1E000 0x20000 running_ktbl running_kent 0x24000 0x24000 [] 0x23800 [] 0x28000
    (text "0:/shell.bin") 0x10000 1000 0 2 0x11000 0x12000 0x13000 0x15000 0x16000 0x17000 0x18000 0x10000 0x12000).
  - exact running_ok.
  - done.
  - cbn. lia.
  - exact running_source.
  - done.
  - apply (heap_allots_ok _ _ _ running_kernel_ok). by vm_compute.
Defined.
