(* ===== verification/Running.v ===== *)
(** The system over time: it is sound once [tasking_init] has run, and stays so under any
    sequence of ticks and of programs started. *)
From S2P Require Import Prelude Mem CString Heap Kheap Store Ring Termio Disk PathParser Gdt Paging AddressSpace Task FileTable File Process Program System.

Section start.
Context {K : Type} `{AllocatorLaws K}.
Implicit Types (k : K) (m : machine K).

(** The kernel's task lies apart from the kernel's directory. *)
Definition task_apart (kpd kd : Z) (ktbl : Z → Z) (st : Z) : Prop :=
  apart kpd SIZEOF_PAGE_DIRECTORY_HANDLE st SIZEOF_TASK ∧ apart kd 4096 st SIZEOF_TASK ∧
  ∀ i, 0 ≤ i < 1023 → ktbl i ≠ 0 → apart (ktbl i) 4096 st SIZEOF_TASK.

Lemma kernel_space_modifies cs m m' kpd kd ktbl kent : kernel_space m kpd kd ktbl kent → modifies cs (kheap m) (kheap m') →
  apart_all cs kpd SIZEOF_PAGE_DIRECTORY_HANDLE → apart_all cs kd 4096 →
  (∀ i, 0 ≤ i < 1023 → ktbl i ≠ 0 → apart_all cs (ktbl i) 4096) → kernel_space m' kpd kd ktbl kent.
Proof.
  intros [Hkd Hke Hkt] M Hp Hd Ht. destruct (dir_modifies m m' kpd kd ktbl cs Hkd M Hp Hd Ht) as [D _]. split; [done| |done].
  intros i Hi. unfold Paging.read. rewrite <- (Hke i Hi). apply (modifies_load _ _ _ kd 4096 M (dir_page _ _ _ _ Hkd) Hd); lia.
Qed.

(** What was owned before, and apart from the kernel's task, is beyond all that
    [tasking_init] made. *)
Lemma ready_beyond fuel st kpd k0 k p0 p1 t b n : tasking_ready fuel st kpd k0 k p0 p1 t → kowned k0 b n → 0 < n →
  apart b n st SIZEOF_TASK → beyond k [st; t] [p0; p1] b n.
Proof.
  intros R Ho Hn Hap. destruct (ready_new _ _ _ _ _ _ _ _ R) as (F0 & F1 & Ft). split; [split|].
  - by apply (modifies_owned _ _ _ _ _ (ready_modifies _ _ _ _ _ _ _ _ R)).
  - intros c [-> | ->%list_elem_of_singleton]%elem_of_cons; [done|by apply Ft].
  - intros q [-> | ->%list_elem_of_singleton]%elem_of_cons; [by apply F0|by apply F1].
Qed.

Lemma ready_system fuel m0 m st kpd kd ktbl kent p0 p1 t : tasking_ready fuel st kpd (kheap m0) (kheap m) p0 p1 t →
  kernel_space m0 kpd kd ktbl kent → kent 1 = 0 ∧ kent 16 = 0 → task_apart kpd kd ktbl st →
  system_ok fuel m kpd kd ktbl kent st [st; t] [p0; p1].
Proof.
  intros R K0 Hz (Hak & Had & Hat). pose proof R as [Ht Hr Hp H0' [H1 _] _ M (tx0 & tx1 & P0 & P1) _ Hap].
  pose proof (ks_dir _ _ _ _ _ K0) as D0.
  assert (Km : kernel_space m kpd kd ktbl kent).
  { apply (kernel_space_modifies [(st, SIZEOF_TASK)] m0); [done..|by apply Forall_singleton|by apply Forall_singleton|].
    intros i Hi Hne. apply Forall_singleton. by apply Hat. }
  assert (Hb : ∀ b n, 0 < n → owned m0 b n → apart b n st SIZEOF_TASK → beyond (kheap m) [st; t] [p0; p1] b n).
  { intros b n Hn Ho Ha. by apply (ready_beyond fuel st kpd (kheap m0)). }
  pose proof (Hb kpd SIZEOF_PAGE_DIRECTORY_HANDLE ltac:(done) (dir_handle _ _ _ _ D0) Hak) as Bk. pose proof (Hb kd 4096 ltac:(done) (dir_page _ _ _ _ D0) Had) as Bd.
  assert (Hpin : ∀ p tx, kernel_process fuel (kheap m) kpd p tx → process_in fuel (kheap m) [st; t] [p0; p1] p).
  { intros p tx [Ho Hh Hx [Hl Hf]]. split; [by exists tx|]. destruct (dir_pde _ _ _ _ (ks_dir _ _ _ _ _ Km) 1023 ltac:(lia)) as (e & He & _).
    exists kpd, kd, e. split; [done|]. split; (split; [first [apply (dir_ptr _ _ _ _ (ks_dir _ _ _ _ _ Km))|done]|]).
    - apply (beyond_sub _ _ _ kpd SIZEOF_PAGE_DIRECTORY_HANDLE); [done|lia|unfold SIZEOF_PAGE_DIRECTORY_HANDLE; lia].
    - apply (beyond_sub _ _ _ kd 4096); [done|lia|lia]. }
  split; [split|..].
  - apply Ht.
  - done.
  - done.
  - intros x [-> | ->%list_elem_of_singleton]%elem_of_cons;
      [exists p0; split; [by left|split; [done|by apply (Hpin p0 tx0)]]|exists p1; split; [by right; left|split; [done|by apply (Hpin p1 tx1)]]].
  - done.
  - split; [done|]. split; [done|]. intros i Hi Hne. apply Hb; [done|by apply (dir_table _ _ _ _ D0)|by apply Hat].
  - apply Ht.
  - done.
  - done.
  - split; [by left|]. by exists p0.
Qed.
End start.

(** * Runs *)

Section runs.
Context {K F : Type} `{AllocatorLaws K}.
Implicit Types (s : processing K F).

(** The states after [s0]: a tick of the timer at any point, or a program started with
    what [process_init] needs. [n] is the number of tasks, of which [print_tasks] can list
    [fuel]. *)
Inductive runs (fuel : nat) (st kpd : Z) s0 : nat → processing K F → Prop :=
  | runs_start : runs fuel st kpd s0 2 s0
  | runs_tick n s frame v ts : runs fuel st kpd s0 n s → word frame → schedule fuel (ptasks s) frame = Ok (v, ts) →
      runs fuel st kpd s0 n (set_ptasks s ts)
  | runs_load n s name tx memory size privileged slot p stack c d t1 t16 v pm sp res s' : runs fuel st kpd s0 n s → (n < fuel)%nat →
      program_source fuel (mach (ptasks s)) name tx memory size stack d t1 t16 pm sp → 0 ≤ slot < Z.of_nat (length (processes s)) →
      allots (λ _, True) (program_allocations p stack c d t1 t16 v) (pmem s) →
      process_init st kpd fuel s name memory size privileged slot = Ok (res, s') → runs fuel st kpd s0 (S n) s'.

(** A sound system of [n] tasks and as many processes, from whose current task the ring
    starts. *)
Definition sound (fuel : nat) kpd kd ktbl kent (st : Z) (n : nat) s : Prop :=
  ∃ ts ps, system_ok fuel (mach (ptasks s)) kpd kd ktbl kent st ts ps ∧ length ts = n ∧ length ps = n ∧ (2 ≤ n)%nat ∧
    head ts = Some (current_task (ptasks s)).

(** A tick is never stuck, and keeps it. *)
Lemma sound_tick fuel kpd kd ktbl kent st n s frame : sound fuel kpd kd ktbl kent st n s → word frame →
  ∃ v ts, schedule fuel (ptasks s) frame = Ok (v, ts) ∧ sound fuel kpd kd ktbl kent st n (set_ptasks s ts).
Proof.
  intros (tks & ps & S & Hl & Hp & Hn & Hhd) Hf. destruct tks as [|a [|b l]]; cbn [length head] in *; [lia|lia|].
  injection Hhd as Ha. pose proof (system_tasks _ _ _ _ _ _ _ _ _ S) as Hok.
  assert (Hb : b ∈ a :: b :: l) by (by right; left).
  destruct (member_value _ _ b task_kernel_stack_pointer (tasks_memory _ _ _ Hok) Hb) as [v Hv]; [member|].
  destruct (runnable_directory _ _ _ _ (tasks_run _ _ _ Hok b Hb)) as [e He].
  destruct (tick_keeps_system fuel (ptasks s) kpd kd ktbl kent st a b l ps frame v e S (eq_sym Ha) Hf Hv He)
    as (ts & E & Hc & S' & _). exists v, ts. split; [done|]. exists (b :: l ++ [a]), ps. split; [exact S'|].
  cbn [length head]. rewrite length_app. cbn [length]. split; [lia|]. split; [done|]. split; [done|]. by rewrite <- Hc.
Qed.

Lemma sound_load fuel kpd kd ktbl kent st n s name tx memory size privileged slot p stack c d t1 t16 v pm sp :
  sound fuel kpd kd ktbl kent st n s → (n < fuel)%nat →
  program_source fuel (mach (ptasks s)) name tx memory size stack d t1 t16 pm sp → 0 ≤ slot < Z.of_nat (length (processes s)) →
  allots (λ _, True) (program_allocations p stack c d t1 t16 v) (pmem s) →
  ∃ s', process_init st kpd fuel s name memory size privileged slot = Ok (0, s') ∧ sound fuel kpd kd ktbl kent st (S n) s'.
Proof.
  intros (tks & ps & S & Hl & Hp & Hn & Hhd) Hf Src Hs A. destruct tks as [|a l]; [done|]. destruct ps as [|p0 pl]; [cbn in *; lia|].
  cbn [length head] in *. injection Hhd as Ha. pose proof S as [_ _ _ Hz _].
  destruct (process_init_spec (Q := λ _, True) fuel s kpd kd ktbl kent st a l p0 pl name tx memory size privileged slot p stack c d t1 t16 v pm sp)
    as (t & s' & tbl & E & _ & Hc & T & Hring & _); [done|done|lia|done..|].
  exists s'. split; [done|]. exists (a :: t :: l), (p0 :: pl ++ [p]). split; [by apply (tasked_system _ _ _ _ _ _ _ _ _ _ _ _ _ _ _ _ _ _ _ _ _ _ T)|].
  cbn [length head]. rewrite length_app. cbn [length]. split; [lia|]. split; [lia|]. split; [lia|]. by rewrite Hc.
Qed.

Lemma runs_sound fuel st kpd kd ktbl kent s0 : sound fuel kpd kd ktbl kent st 2 s0 →
  ∀ n s, runs fuel st kpd s0 n s → sound fuel kpd kd ktbl kent st n s.
Proof.
  intros H0'. induction 1 as [|n s frame v ts _ IH Hf E|n s name tx memory size privileged slot p stack c d t1 t16 v pm sp res s' _ IH Hn Src Hs A E].
  - done.
  - destruct (sound_tick _ _ _ _ _ _ _ _ frame IH Hf) as (v' & ts' & E' & S'). rewrite E in E'. by injection E' as <- <-.
  - destruct (sound_load _ _ _ _ _ _ _ _ _ _ _ _ privileged _ _ _ _ _ _ _ _ _ _ IH Hn Src Hs A) as (s2 & E' & S').
    rewrite E in E'. by injection E' as _ <-.
Qed.

(** C2: from [tasking_init] on the system stays sound: after any ticks of the timer, at
    any moments, and any programs started, the tasks and the processes are rings of
    separate objects, each task has a process whose name and directory are there, the kernel's
    directory is whole, and the scheduler returns a task to run at the next tick. *)
Theorem system_keeps_running fuel sizes st kpd kd ktbl kent idle raise s system_name t0 idle_name t1 :
  boots fuel (pmem s) st kpd system_name t0 idle_name t1 → prints_only raise →
  room (SIZEOF_PROCESS :: SIZEOF_PROCESS :: PROGRAM_STACK_SIZE :: SIZEOF_TASK :: sizes) (pmem s) →
  (1 < length (processes s))%nat → word idle →
  kernel_space (mach (ptasks s)) kpd kd ktbl kent → kent 1 = 0 ∧ kent 16 = 0 → task_apart kpd kd ktbl st →
  ∃ s0, tasking_init st kpd idle raise fuel s system_name idle_name = Ok s0 ∧
    ∀ n s', runs fuel st kpd s0 n s' → sound fuel kpd kd ktbl kent st n s' ∧
      ∀ frame, word frame → ∃ v ts, schedule fuel (ptasks s') frame = Ok (v, ts).
Proof.
  intros Hb Hraise Hroom Hslots Hidle Hk Hz Hap.
  destruct (tasking_init_spec fuel sizes st kpd idle raise s system_name t0 idle_name t1 Hb Hraise Hroom Hslots Hidle)
    as (p0 & p1 & t & s0 & E & R & Hc & _). exists s0. split; [exact E|]. intros n s' Hr.
  assert (S : sound fuel kpd kd ktbl kent st n s').
  { apply (runs_sound fuel st kpd kd ktbl kent s0); [|done]. exists [st; t], [p0; p1].
    split; [by apply (ready_system fuel (mach (ptasks s)))|]. cbn. by rewrite Hc. }
  split; [done|]. intros frame Hf. destruct (sound_tick _ _ _ _ _ _ _ _ frame S Hf) as (v & ts & Et & _). by exists v, ts.
Qed.
End runs.

(** ** A kernel to start

    The heap has one block taken and eight free ones. Past it lie the kernel's task, the
    two names, and the kernel's handle, directory and table (for the slot of
    [KERNEL_VIRTUAL_BASE]). The interrupt does nothing. *)
#[local] Opaque example_ram.
Definition start_kernel_data : list (Z * list Z) :=
  [(0x1D000, text "System Process" ++ [0]); (0x1D100, text "Idle Process" ++ [0]); (0x1E000, split4 0x20000);
   (0x1EC04, split4 0x21000); (0x20C00, split4 0x21003)].
Definition start_kernel : kernel := example_kernel (Used 1 :: replicate 8 Free) 0x12000 start_kernel_data.
Definition start_state : processing kernel unit :=
  Processing (Tasking (Machine start_kernel 0x1E000 0 0 0 0 0 (Terminal ∅ 0 0)) witness_gdt 0)
    (tt, FileTable [] 0, [], 0) (replicate 3 0) 0 false.

Lemma start_kernel_ok : kernel_ok start_kernel (Used 1 :: replicate 8 Free).
Proof. apply example_kernel_ok; [by repeat constructor|done|done|by repeat constructor]. Qed.

Lemma start_kernel_owned a n : 0x19000 ≤ a → a + n ≤ 0x22000 → owned (mach (ptasks start_state)) a n.
Proof. intros Ha Hn. apply (example_outside _ 0x12000 start_kernel_data); [exact Ha|]. change (0x10000 + 0x12000) with 0x22000. done. Qed.

Lemma start_kernel_words a l : forallb (λ i, bool_decide (example_word 0x12000 start_kernel_data (a + 4 * i) = Ok (one_of l i))) (seqZ 0 1024) = true →
  ∀ i, 0 ≤ i < 1024 → kread start_kernel (a + 4 * i) = Ok (one_of l i).
Proof. apply example_words. lia. Qed.

Lemma start_kernel_space :
  kernel_space (mach (ptasks start_state)) 0x1E000 0x20000 (one_of [(768, 0x21000)]) (one_of [(768, 0x21003)]).
Proof.
  split.
  - apply (example_dir_ok _ 0x19000 0x22000 0x1E000 0x20000 [(768, 0x21000)] [(768, 0x21003)]).
    + exact start_kernel_owned.
    + unfold Paging.read. example_mem.
    + apply (start_kernel_words (0x1E000 + 4)). by vm_compute.
    + apply start_kernel_words. by vm_compute.
    + by vm_compute.
    + lia.
    + lia.
    + lia.
    + decide_by_compute.
    + decide_by_compute.
  - intros i Hi. apply (start_kernel_words 0x20000 [(768, 0x21003)]); [by vm_compute|lia].
  - intros i _. unfold one_of. cbn [list_find fst]. repeat case_decide; cbn; done.
Qed.

Lemma start_boots : boots 20 start_kernel 0x19000 0x1E000 0x1D000 (text "System Process") 0x1D100 (text "Idle Process").
Proof.
  split; [split| | | |].
  - eexists. exact start_kernel_ok.
  - split; [by apply start_kernel_owned|done].
  - done.
  - exists 0x20000, 0. split; (split; [example_mem|]); (split; [apply start_kernel_owned; done|]);
      intros c ->%list_elem_of_singleton; by (left + right).
  - intros x Hx. change (0x10000 ≤ x < 0x19000) in Hx. apply (example_ram_mapped 0x12000). lia.
  - split; (split; [split; [example_mem|by repeat constructor]|]); (split; [cbn; lia|apply start_kernel_owned; done]).
  - by right.
  - cbn. lia.
Qed.

Lemma system_keeps_running_witness :
  ∃ s0, tasking_init 0x19000 0x1E000 0x101234 Ok 20 start_state 0x1D000 0x1D100 = Ok s0 ∧
    ∀ n s', runs 20 0x19000 0x1E000 s0 n s' →
      sound 20 0x1E000 0x20000 (one_of [(768, 0x21000)]) (one_of [(768, 0x21003)]) 0x19000 n s' ∧
      ∀ frame, word frame → ∃ v ts, schedule 20 (ptasks s') frame = Ok (v, ts).
Proof.
  apply (system_keeps_running 20 [] 0x19000 0x1E000 0x20000 (one_of [(768, 0x21000)]) (one_of [(768, 0x21003)]) 0x101234 Ok
    start_state 0x1D000 (text "System Process") 0x1D100 (text "Idle Process")).
  - exact start_boots.
  - intros s. exists (console (mach (ptasks s))). destruct s as [[[] ? ?] ? ? ? ?]. done.
  - apply (heap_room_ok _ _ _ start_kernel_ok). by vm_compute.
  - cbn. lia.
  - done.
  - exact start_kernel_space.
  - done.
  - split; [decide_by_compute|]. split; [decide_by_compute|].
    intros i _ Hne. apply one_of_in, list_elem_of_singleton in Hne. injection Hne as _ ->. decide_by_compute.
Defined.
