(* ===== verification/Kernel.v ===== *)
(** [src/kernel/kernel.c]: the order in which the kernel starts its parts; and
    [src/kernel/panic.c].

    The kernel's own heap ([kernel]) is the allocator here. The addresses the linker
    chose are the record [image]. The file systems' state is the ports and the disk. *)
From S2P Require Import Prelude Mem CString Heap Kheap Store Ring Termio Disk PathParser Gdt Pic Paging AddressSpace.
From S2P Require Import Task Idt FileTable DiskStream Fat16 File Volume Process Program System Running.

(** The globals of the parts, and the control of the processor's interrupts. *)
Record system_state (D P : Type) := SystemState {
  procs : processing kernel (D * disk_t P);
  interrupt_table : idt_state
}.
Arguments SystemState {D P}.
Arguments procs {D P}.
Arguments interrupt_table {D P}.

(** The symbols: [_kernel_end], the stubs of [idt.asm], and the addresses of globals,
    functions and string literals. *)
Record image := Image {
  kernel_end : Z;
  isr_table : list Z;
  idt_descriptors_address : Z;
  tss_address : Z;
  gdt_native_address : Z;
  system_task_stack_bottom : Z;
  BOOT_PAGE_DIRECTORY : Z;
  kernel_page_directory : Z;
  fat16_operations : Z;
  disks_address : Z;
  system_task : Z;
  idle_function : Z;
  system_name : Z;
  idle_name : Z
}.

(** [panic]: the message, and the loop at [trap]. *)
Definition panic (fuel : nat) (t : terminal) (msg : list Z) : outcome terminal :=
  let put colour l t := foldl (λ t b, terminal_put_char t b colour) t l in
  while_loop fuel (λ t, Ok (inl t)) (put 15 msg (put 12 (text "[PANIC] ") t)).

Section kernel.
Context {D : Type} `{Ports D} {P : Type}.
Variable operations_at : Z → option (filesystem_operations_t kernel (D * disk_t P)).
Variable raise_int_20 : processing kernel (D * disk_t P) → outcome (processing kernel (D * disk_t P)).
Variable im : image.
Implicit Type s : system_state D P.

Definition set_procs s (p : processing kernel (D * disk_t P)) : system_state D P := SystemState p (interrupt_table s).
Definition the_machine s : machine kernel := mach (ptasks (procs s)).
Definition set_machine s (m : machine kernel) : system_state D P := set_procs s (set_pmach (procs s) m).

(** A call of a function on the tasks' state, the machine, the console or the files. *)
Definition on_tasks (f : tasking kernel → outcome (tasking kernel)) s : outcome (system_state D P) :=
  t ← f (ptasks (procs s)); Ok (set_procs s (set_ptasks (procs s) t)).
Definition on_machine (f : machine kernel → outcome (machine kernel)) s : outcome (system_state D P) :=
  m ← f (the_machine s); Ok (set_machine s m).
Definition on_console (f : terminal → outcome terminal) : system_state D P → outcome (system_state D P) :=
  on_machine (λ m, t ← f (console m); Ok (set_console m t)).
Definition on_files (f : vfs kernel (D * disk_t P) → outcome (vfs kernel (D * disk_t P))) s : outcome (system_state D P) :=
  v ← f (vfs_of (procs s)); Ok (set_procs s (set_vfs (procs s) v)).

(** ** Output *)

(** [print] and [terminal_put_str] of a literal. *)
Definition put_text (colour : Z) (l : list Z) s : system_state D P :=
  set_machine s (set_console (the_machine s) (foldl (λ t b, terminal_put_char t b colour) (console (the_machine s)) l)).

Definition splash : list (list Z) := [
  text "                  _                                _    ___  __" ++ [10];
  text "                 /_\ __   __ ___    ___  __ _   __| |  /___\/ _\" ++ [10];
  text "                //_\\\ \ / // _ \  / __|/ _` | / _` | //  //\ \" ++ [10];
  text "               /  _  \\ V /| (_) || (__| (_| || (_| |/ \_// _\ \" ++ [10];
  text "               \_/ \_/ \_/  \___/  \___|\__,_| \__,_|\___/  \__/" ++ [10]].

Definition kernel_splash s : system_state D P :=
  foldl (λ s l, put_text 2 l s) (put_text 15 [10; 10; 10; 10; 10] s) splash.

(** [system_function] is a [nop]. *)
Definition system_function s : system_state D P := s.

(** ** The steps of [kernel_main] *)

(** What the table's memory holds is overwritten. *)
Definition start_heap (m : machine kernel) : outcome (machine kernel) :=
  let old := (λ i, default 0 (ram m !! (page_round_up (kernel_end im) + i))) <$>
               seqZ 0 (KERNEL_HEAP_SIZE / KERNEL_HEAP_BLOCK_SIZE) in
  h ← kheap_init (kernel_end im) old; Ok (set_kheap m (Kernel (ram m) h)).

(** The [cli] is among [paging_init]'s last statements. *)
Definition start_paging s : outcome (system_state D P) :=
  s ← on_machine (λ m, paging_init m (kernel_page_directory im) (BOOT_PAGE_DIRECTORY im)) s;
  Ok (set_procs s (disable_interrupts (procs s))).

Definition start_file_table (v : vfs kernel (D * disk_t P)) : outcome (vfs kernel (D * disk_t P)) :=
  Ok (set_files v (vmem v) (file_table_init (file_table v)).2).

Definition start_fs (v : vfs kernel (D * disk_t P)) : outcome (vfs kernel (D * disk_t P)) :=
  r ← fs_init v (fat16_operations im); Ok r.2.

(** [disk_init], with the disk that is probed in the file systems' state. *)
Definition probe_disk (fuel : nat) (v : vfs kernel (D * disk_t P)) (d : disk_t P) :
    outcome (Z * disk_t P * vfs kernel (D * disk_t P)) :=
  let v := Vfs (vmem v) ((vstate v).1, d) (file_table v) (registered_filesystems v) (fs_operations d) in
  r ← fs_probe_fs operations_at fuel v (disks_address im);
  let '(op, v) := r in Ok (op, (vstate v).2, v).

Definition start_disk (fuel : nat) (v : vfs kernel (D * disk_t P)) : outcome (vfs kernel (D * disk_t P)) :=
  r ← disk_init (probe_disk fuel) v;
  let '(d, v) := r in
  Ok (Vfs (vmem v) ((vstate v).1, d) (file_table v) (registered_filesystems v) (fs_operations d)).

Definition start_tasking (fuel : nat) s : outcome (system_state D P) :=
  p ← tasking_init (system_task im) (kernel_page_directory im) (idle_function im) raise_int_20 fuel (procs s)
        (system_name im) (idle_name im);
  Ok (set_procs s p).

(** [kernel_main] up to its loop. *)
Definition kernel_start (fuel : nat) s : outcome (system_state D P) :=
  s ← on_files (λ v, Ok (set_vstate v (vmem v) (remap_master_pic_C (vstate v).1, (vstate v).2))) s;
  s ← on_tasks (λ t, g ← gdt_init (gdt t) (tss_address im) (gdt_native_address im) (system_task_stack_bottom im);
                     Ok (set_gdt t g)) s;
  i ← idt_init (interrupt_table s) (isr_table im) (idt_descriptors_address im);
  let s := SystemState (procs s) i in
  s ← on_console terminal_init s;
  s ← on_machine start_heap s;
  s ← start_paging s;
  s ← on_console terminal_init s;
  let s := kernel_splash s in
  s ← on_files start_file_table s;
  s ← on_files start_fs s;
  s ← on_files (start_disk fuel) s;
  s ← start_tasking fuel s;
  Ok (put_text 15 ([10; 10] ++ text "Done, for now" ++ [10]) s).

(** And the loop, [rounds] of it. *)
Definition kernel_main (fuel rounds : nat) s : outcome (system_state D P) :=
  s ← kernel_start fuel s;
  while_loop rounds (λ s, Ok (inl (system_function s))) s.
End kernel.

(** ** [print_path] *)

Section print_path.
Context {K : Type} `{Allocator K}.

Definition print_part (fuel : nat) (st : Z * machine K) : outcome ((Z * machine K) + machine K) :=
  let '(part, m) := st in
  if decide (part = 0) then Ok (inr m)
  else
    str ← Paging.read m part;
    t ← print fuel (ram m) (console m) str;
    let m := print_bytes (set_console m t) [10] in
    next ← Paging.read m (part + 4);
    Ok (inl (next, m)).

Definition print_path (fuel : nat) (m : machine K) (path : Z) : outcome (machine K) :=
  if decide (path = 0) then Ub
  else
    part ← Paging.read m (path + 4);
    let m := print_bytes m (text "Drive: ") in
    drive_number ← Paging.read m path;
    buffer ← itoa_string 10 (s32 drive_number);
    let m := print_bytes (print_bytes m buffer) [10] in
    while_loop fuel (print_part fuel) (part, m).
End print_path.

(** * Starting up *)

(** Where the heap's blocks begin: behind the table. *)
Definition heap_base (im : image) : Z := page_round_up (kernel_end im) + 4096.

(** Memory of the kernel's image. *)
Definition in_image (im : image) (m : machine kernel) (a n : Z) : Prop :=
  0 < a ∧ a + n ≤ kernel_end im ∧ mapped (ram m) a n.

(** The addresses of [paging_init]'s five allocations: [boot] takes two blocks. *)
Definition first_block (im : image) (i : Z) : Z := heap_base im + 4096 * i.
Definition paging_sizes : list Z := [4096; SIZEOF_PAGE_DIRECTORY_HANDLE; 4096; 4096; 4096].
Definition paging_segs : list seg := [Free; Used 1; Used 2; Used 1; Used 1; Used 1].
Definition paged_segs : list seg := [Free; Used 1; Free; Free; Used 1; Used 1; Used 1].

Lemma paging_allocations im : front_allocations (heap_base im) [Free] paging_sizes =
  [(4096, first_block im 1); (SIZEOF_PAGE_DIRECTORY_HANDLE, first_block im 2); (4096, first_block im 4);
   (4096, first_block im 5); (4096, first_block im 6)].
Proof. unfold paging_sizes, front_allocations, front_address, first_block. reflexivity. Qed.

(** What the boot code leaves: the image below [kernel_end], memory for the heap and one
    byte more, and large pages, on a directory that maps the first blocks. *)
Record boot_memory (im : image) (m : machine kernel) : Prop := BootMemory {
  bm_end : 0 < kernel_end im ∧ kernel_end im + KERNEL_HEAP_SIZE + 0x3000 < 2 ^ 32;
  bm_wf : wf_mem (ram m);
  bm_heap : mapped (ram m) (heap_base im) (KERNEL_HEAP_SIZE + 1);
  bm_pse : Z.land (cr4 m) PSE_BIT ≠ 0;
  bm_boot : in_image im m (BOOT_PAGE_DIRECTORY im) 4096;
  bm_maps : Forall (λ i, boot_maps m (BOOT_PAGE_DIRECTORY im) (first_block im i)) [4; 5; 6];
  bm_handle : in_image im m (kernel_page_directory im) SIZEOF_PAGE_DIRECTORY_HANDLE;
  bm_apart : apart (BOOT_PAGE_DIRECTORY im) 4096 (kernel_page_directory im) SIZEOF_PAGE_DIRECTORY_HANDLE
}.

Lemma heap_base_spec im m : boot_memory im m → kernel_end im + 4096 ≤ heap_base im < kernel_end im + 8192 ∧
  heap_base im mod 4096 = 0 ∧ heap_base im + KERNEL_HEAP_SIZE < 2 ^ 32.
Proof.
  intros [[H1 H2] _ _ _ _ _ _ _]. unfold heap_base, KERNEL_HEAP_SIZE in *.
  destruct (page_round_up_spec (kernel_end im)) as [Ha Hb]; [lia|]. split; [lia|]. split; [|lia].
  Z.div_mod_to_equations. lia.
Qed.

Lemma start_heap_spec im m : boot_memory im m →
  ∃ k, start_heap im m = Ok (set_kheap m k) ∧ memory k = ram m ∧ base_addr (kernel_heap k) = heap_base im ∧
    kernel_front k [Free] 4095.
Proof.
  intros Hb. destruct (heap_base_spec _ _ Hb) as (_ & _ & _). destruct Hb as [[H1 H2] Hwf Hm _ _ _ _ _].
  unfold start_heap. set (old := _ <$> seqZ _ _).
  destruct (kheap_init_spec (kernel_end im) old H1 H2) as (h & E & Hok & Hlast & Hbase).
  { unfold old. rewrite length_fmap, length_seqZ. done. }
  rewrite E, bind_Ok. eexists. split; [done|]. split; [done|]. split; [exact Hbase|].
  assert (Hl : len (Heap.table h) = 4096) by (rewrite (ok_len _ _ Hok), layout_free, length_replicate; done).
  split; [|split; [exact Hok|by cbn [kernel_heap]; rewrite Hlast]].
  split; [exact Hok|]. cbn [kernel_heap kmem]. rewrite Hl, Hbase. split; [done|]. split; [done|].
  eapply mapped_sub; [exact Hm|unfold heap_base; lia|]. unfold KERNEL_HEAP_SIZE, heap_base, KERNEL_HEAP_BLOCK_SIZE. lia.
Qed.

Lemma in_image_global im m k a n : boot_memory im m → memory k = ram m → base_addr (kernel_heap k) = heap_base im →
  in_image im m a n → global (set_kheap m k) a n.
Proof.
  intros Hb Hm Hbase (Ha & Hn & Hma). destruct (heap_base_spec _ _ Hb) as (Hh & _ & _). split.
  - unfold ram. cbn [set_kheap kheap]. by rewrite Hm.
  - intros x Hx [Hlo _]. cbn [set_kheap kheap] in Hlo. rewrite Hbase in Hlo. lia.
Qed.

(** The byte behind a byte of the heap is there. *)
Lemma heap_past im m k x : boot_memory im m → memory k = ram m → base_addr (kernel_heap k) = heap_base im →
  len (Heap.table (kernel_heap k)) = 4096 → kernel_arena k x → is_Some (memory k !! (x + 1)).
Proof.
  intros Hb Hm Hbase Hl [H1 H2]. rewrite Hl, Hbase in *. unfold KERNEL_HEAP_BLOCK_SIZE in H2. rewrite Hm.
  apply (bm_heap _ _ Hb). unfold KERNEL_HEAP_SIZE. lia.
Qed.

Lemma kernel_front_len k segs f : kernel_front k segs f → len (Heap.table (kernel_heap k)) = Z.of_nat (length (layout segs) + f).
Proof. intros [(Hok & _) _]. by rewrite (ok_len _ _ Hok), layout_app, layout_free, length_app, length_replicate. Qed.

(** The words of the kernel's directory and of its tables in [m']: the five allocations are
    where the boot directory of [m] maps them, and [cr3] has the directory. *)
Definition booted_words (im : image) (m m' : machine kernel) (p0 p1 : Z) : Prop :=
  boot_physical m (BOOT_PAGE_DIRECTORY im) (first_block im 4) = Ok (cr3 m') ∧
  boot_physical m (BOOT_PAGE_DIRECTORY im) (first_block im 5) = Ok p0 ∧
  boot_physical m (BOOT_PAGE_DIRECTORY im) (first_block im 6) = Ok p1 ∧
  kernel_entries m' (kernel_page_directory im) (cr3 m') p0 p1.

(** The machine once paging is on. *)
Record paged (im : image) (m m' : machine kernel) : Prop := Paged {
  paged_front : kernel_front (kheap m') paged_segs 4089;
  paged_base : base_addr (kernel_heap (kheap m')) = heap_base im;
  paged_current : current_directory m' = kernel_page_directory im;
  paged_cr0 : cr0 m' = Z.lor (cr0 m) 0x80000000;
  paged_cr4 : cr4 m' = Z.land (cr4 m) (Z.lnot PSE_BIT);
  paged_directory : dir_ok m' (kernel_page_directory im) (first_block im 4)
    (kernel_tables (first_block im 4) (first_block im 5) (first_block im 6));
  paged_mapped : kernel_mapped m' (kernel_page_directory im);
  paged_words : ∃ p0 p1, booted_words im m m' p0 p1;
  paged_image : ∀ a n, 0 < n → in_image im m a n → apart a n (kernel_page_directory im) SIZEOF_PAGE_DIRECTORY_HANDLE →
    owned m' a n ∧ ∀ x, a ≤ x < a + n → ram m' !! x = ram m !! x;
  paged_past : ∀ x, arena (kheap m') x → is_Some (memory (kheap m') !! (x + 1))
}.

Lemma paging_step im m k : boot_memory im m → memory k = ram m → base_addr (kernel_heap k) = heap_base im →
  kernel_front k [Free] 4095 →
  ∃ m', paging_init (set_kheap m k) (kernel_page_directory im) (BOOT_PAGE_DIRECTORY im) = Ok m' ∧ paged im m m'.
Proof.
  intros Hb Hm Hbase Hf. destruct (heap_base_spec _ _ Hb) as (Hh & Hal & Hend).
  pose proof (in_image_global im m k _ _ Hb Hm Hbase (bm_handle _ _ Hb)) as Hgk.
  pose proof (in_image_global im m k _ _ Hb Hm Hbase (bm_boot _ _ Hb)) as HgB.
  assert (Hr : ∀ a, Paging.read (set_kheap m k) a = Paging.read m a).
  { intros a. unfold Paging.read. cbn [set_kheap kheap]. unfold kread. by rewrite Hm. }
  assert (Hmaps : Forall (boot_maps (set_kheap m k) (BOOT_PAGE_DIRECTORY im)) [first_block im 4; first_block im 5; first_block im 6]).
  { pose proof (bm_maps _ _ Hb) as Hmp. rewrite !Forall_cons in Hmp |- *. unfold boot_maps in *. setoid_rewrite Hr.
    destruct Hmp as (? & ? & ? & _). done. }
  destruct (proj1 (proj1 (Forall_cons _ _ _) Hmaps)) as (e & He & _).
  set (Q k' := kernel_front k' paging_segs 4089 ∧ base_addr (kernel_heap k') = heap_base im).
  assert (Hal0 : allots Q (front_allocations (heap_base im) [Free] paging_sizes) k).
  { unfold Q. rewrite <- Hbase. apply (front_allots _ paging_sizes k [Free] 4095 Hf); [by repeat constructor|by apply leb_complete|].
    intros k' Hk' Hb'. split; [exact Hk'|exact Hb']. }
  rewrite paging_allocations in Hal0.
  destruct (paging_init_spec (Q := Q) (set_kheap m k) (kernel_page_directory im) (BOOT_PAGE_DIRECTORY im) (first_block im 1)
    (first_block im 2) (first_block im 4) (first_block im 5) (first_block im 6) e)
    as (m' & E & Hi & Hc & Hc0 & Hc3 & Hc4 & D & V & Fr & (p0 & p1 & Ep0 & Ep1 & Hke) & k1 & [Hk1 Hb1] & Efree); try done.
  { eexists. apply Hf. }
  { apply (bm_apart _ _ Hb). }
  { destruct (bm_boot _ _ Hb) as (? & ? & _). unfold KERNEL_HEAP_SIZE in *. lia. }
  { apply (bm_pse _ _ Hb). }
  { unfold first_block. lia. }
  exists m'. split; [exact E|].
  destruct (kfree_front k1 [Free; Used 1] 2 [Used 1; Used 1; Used 1] 4089 (kheap m') Hk1) as [Hf' Hb'].
  { rewrite Hb1. exact Efree. }
  assert (Hpast : is_Some (memory (kheap m') !! (heap_base im + KERNEL_HEAP_SIZE))).
  { destruct (Fr (heap_base im + KERNEL_HEAP_SIZE) 1) as [[Ho _] _]; [done| | |apply Ho; lia].
    - split; [|right; intros x Hx [_ Har]].
      + intros x Hx. unfold ram. cbn [set_kheap kheap]. rewrite Hm. apply (bm_heap _ _ Hb). unfold KERNEL_HEAP_SIZE in *. lia.
      + cbn [set_kheap kheap] in Har. rewrite Hbase, (kernel_front_len _ _ _ Hf) in Har.
        unfold KERNEL_HEAP_SIZE, KERNEL_HEAP_BLOCK_SIZE in *. cbn in Har. lia.
    - destruct (bm_handle _ _ Hb) as (? & ? & _). right. unfold KERNEL_HEAP_SIZE. lia. }
  split; [exact Hf'|by rewrite Hb', Hb1|done|done|done|done|done| | |].
  - exists p0, p1. unfold booted_words. rewrite Hc3 in *. unfold boot_physical in *. rewrite !Hr in *.
    by rewrite He, bind_Ok.
  - intros a n Hn Ha Hap. destruct (Fr a n Hn (global_owned _ _ _ (in_image_global _ _ _ _ _ Hb Hm Hbase Ha)) Hap) as [Ho Hs].
    split; [exact Ho|]. intros x Hx. rewrite Hs by done. unfold ram. cbn [set_kheap kheap]. by rewrite Hm.
  - pose proof (kernel_front_len _ _ _ Hf') as Hl. change (Z.of_nat _) with 4096 in Hl.
    intros x [H1 H2]. rewrite Hb', Hb1, Hl in *.
    destruct (decide (x + 1 = heap_base im + KERNEL_HEAP_SIZE)) as [->|Hne]; [done|].
    destruct Hf' as [(_ & _ & _ & Hma) _]. apply Hma. rewrite Hb', Hl.
    unfold KERNEL_HEAP_SIZE, KERNEL_HEAP_BLOCK_SIZE in *. lia.
Qed.

(** The kernel's directory then: two tables, and no entry elsewhere. *)
Definition boot_tables (im : image) : Z → Z := kernel_tables (first_block im 4) (first_block im 5) (first_block im 6).

Lemma paged_space im m m' pd p0 p1 : boot_memory im m → paged im m m' → kernel_entries m' (kernel_page_directory im) pd p0 p1 →
  kernel_space m' (kernel_page_directory im) (first_block im 4) (boot_tables im) (kernel_pde pd p0 p1).
Proof.
  intros Hb Hp [Hd _]. destruct (heap_base_spec _ _ Hb) as (Hh & _). pose proof (bm_end _ _ Hb) as [Hend _].
  pose proof (paged_directory _ _ _ Hp) as D. split.
  - exact D.
  - intros i Hi. specialize (Hd i ltac:(lia)). by rewrite (get_entry _ _ _ _ (dir_ptr _ _ _ _ D)) in Hd.
  - intros i Hi Hne. unfold boot_tables, kernel_tables, no_tables. unfold kernel_pde in Hne.
    repeat case_decide; unfold first_block; lia.
Qed.

(** The kernel's task and the names of the first two processes, in the image. *)
Record boot_name (im : image) (m : machine kernel) (fuel : nat) (a : Z) (t : list Z) : Prop := BootName {
  bn_image : in_image im m a (Z.of_nat (length t) + 1);
  bn_text : cstr (ram m) a t;
  bn_length : (length t < 250)%nat ∧ (length t < fuel)%nat;
  bn_apart : apart a (Z.of_nat (length t) + 1) (kernel_page_directory im) SIZEOF_PAGE_DIRECTORY_HANDLE
}.

Record boot_tasks (im : image) (m : machine kernel) (fuel : nat) (t0 t1 : list Z) : Prop := BootTasks {
  bt_task : in_image im m (system_task im) SIZEOF_TASK;
  bt_apart : apart (system_task im) SIZEOF_TASK (kernel_page_directory im) SIZEOF_PAGE_DIRECTORY_HANDLE;
  bt_system : boot_name im m fuel (system_name im) t0;
  bt_idle : boot_name im m fuel (idle_name im) t1;
  bt_idle_apart : apart (idle_name im) (Z.of_nat (length t1) + 1) (system_task im) SIZEOF_TASK;
  bt_fuel : (1 < fuel)%nat
}.

Lemma boot_task_apart im m fuel t0 t1 : boot_memory im m → boot_tasks im m fuel t0 t1 →
  task_apart (kernel_page_directory im) (first_block im 4) (boot_tables im) (system_task im).
Proof.
  intros Hb Ht. destruct (heap_base_spec _ _ Hb) as (Hh & _). pose proof (bt_task _ _ _ _ _ Ht) as (_ & Hste & _).
  split; [apply apart_sym, (bt_apart _ _ _ _ _ Ht)|]. split; [right; unfold first_block; lia|].
  intros i Hi Hne. right. unfold boot_tables, kernel_tables, no_tables in *. repeat case_decide; unfold first_block in *; lia.
Qed.

Lemma boot_name_ok im m m' k fuel a t : paged im m m' → boot_name im m fuel a t → modifies [] (kheap m') k → name_ok k a t.
Proof.
  intros Hp [Hi Ht [Hl _] Ha] M. destruct (paged_image _ _ _ Hp a (Z.of_nat (length t) + 1) ltac:(lia) Hi Ha) as [Ho Hs].
  apply (name_ok_modifies [] (kheap m')); [done|constructor|]. split; [|by split].
  destruct Ht as [Hb Hz]. split; [|done]. intros i b Hib. pose proof (lookup_lt_Some _ _ _ Hib) as Hlt.
  rewrite length_app in Hlt. cbn in Hlt. change (memory (kheap m')) with (ram m'). rewrite Hs by lia. by apply Hb.
Qed.

Lemma paged_boots im m m' k fuel t0 t1 : boot_memory im m → boot_tasks im m fuel t0 t1 → paged im m m' → modifies [] (kheap m') k →
  boots fuel k (system_task im) (kernel_page_directory im) (system_name im) t0 (idle_name im) t1.
Proof.
  intros Hb Ht Hp M. destruct (heap_base_spec _ _ Hb) as (Hh & Hal & Hend). pose proof (bt_task _ _ _ _ _ Ht) as (Hst & Hste & Hstm).
  destruct (bm_handle _ _ Hb) as (Hk1 & Hk2 & _). unfold KERNEL_HEAP_SIZE in Hend.
  destruct (paged_image _ _ _ Hp _ SIZEOF_TASK ltac:(done) (bt_task _ _ _ _ _ Ht) (bt_apart _ _ _ _ _ Ht)) as [Hso _].
  pose proof (paged_directory _ _ _ Hp) as D. pose proof (bt_apart _ _ _ _ _ Ht) as Hap.
  assert (Hout : ∀ b n, 4 ≤ n → owned m' b n → apart b n (system_task im) SIZEOF_TASK → ∀ a, b ≤ a → a + 4 ≤ b + n →
    kread k a = Paging.read m' a ∧ outside k [system_task im] a 4).
  { intros b n Hn Ho Ha a H1 H2. split; [apply (modifies_load _ _ _ b n M Ho); [constructor|done..]|]. split.
    - apply (modifies_owned _ _ _ _ _ M); [|done]. by apply (owned_sub _ b n).
    - intros c ->%list_elem_of_singleton. unfold apart in *. lia. }
  split.
  - split; [apply (modifies_inv _ _ _ M)| |unfold word, SIZEOF_PAGE_DIRECTORY_HANDLE in *; lia|].
    + split; [by apply (modifies_owned _ _ _ _ _ M)|]. lia.
    + destruct (dir_pde _ _ _ _ D 1023 ltac:(lia)) as (e & He & _). exists (first_block im 4), e.
      destruct (Hout _ SIZEOF_PAGE_DIRECTORY_HANDLE ltac:(done) (dir_handle _ _ _ _ D) (apart_sym _ _ _ _ Hap) (kernel_page_directory im)) as [R1 O1];
        [lia|unfold SIZEOF_PAGE_DIRECTORY_HANDLE; lia|].
      destruct (Hout _ 4096 ltac:(done) (dir_page _ _ _ _ D) ltac:(right; unfold first_block; lia) (first_block im 4 + 4 * 1023)) as [R2 O2];
        [lia..|]. rewrite R1, R2. split; (split; [|done]); [apply (dir_ptr _ _ _ _ D)|done].
  - intros x Hx. apply (modifies_mapped _ _ _ _ M), (paged_past _ _ _ Hp). by apply (modifies_arena _ _ _ _ M).
  - split; [by apply (boot_name_ok im m m' _ fuel); [..|apply Ht|]|by apply (boot_name_ok im m m' _ fuel); [..|apply Ht|]].
  - apply Ht.
  - split; [apply (bt_system _ _ _ _ _ Ht)|]. split; [apply (bt_idle _ _ _ _ _ Ht)|apply Ht].
Qed.

(** The two records say something of the memory and the paging mode only. *)
Lemma boot_memory_ext im m m' : ram m' = ram m → cr4 m' = cr4 m → boot_memory im m → boot_memory im m'.
Proof.
  intros Hm Hc [H1 H2 H3 H4 H5 H6 H7 H8].
  assert (Hr : ∀ a, Paging.read m' a = Paging.read m a).
  { intros a. unfold Paging.read, kread. unfold ram in Hm. by rewrite Hm. }
  split; unfold in_image, boot_maps in *; rewrite ?Hm, ?Hc; try done.
  eapply Forall_impl; [exact H6|]. intros i. unfold boot_maps. by setoid_rewrite Hr.
Qed.

Lemma boot_tasks_ext im m m' fuel t0 t1 : ram m' = ram m → boot_tasks im m fuel t0 t1 → boot_tasks im m' fuel t0 t1.
Proof.
  intros Hm [H1 H2 H3 H4 H5 H6].
  assert (Hn : ∀ a t, boot_name im m fuel a t → boot_name im m' fuel a t).
  { intros a t [? ? ? ?]. split; unfold in_image; by rewrite ?Hm. }
  split; [|done|by apply Hn..|done|done]. unfold in_image. by rewrite Hm.
Qed.

Section boot.
Context {D : Type} `{Ports D} {P : Type}.
Variable operations_at : Z → option (filesystem_operations_t kernel (D * disk_t P)).
Variable raise_int_20 : processing kernel (D * disk_t P) → outcome (processing kernel (D * disk_t P)).
Variable im : image.
Implicit Type s : system_state D P.
Implicit Type v : vfs kernel (D * disk_t P).

(** The disk that is probed, and the disk with its file system. *)
Definition boot_disk : disk_t P :=
  Disk DISK_TYPE_PHYSICAL DISK_SECTOR_SIZE ATA_MASTER 0 0 None (Some ATA_PORTS_PRIMARY).
Definition mounted (d : disk_t P) : disk_t P :=
  Disk (Disk.type d) (sector_size d) (master_slave_flag d) (id d) (fat16_operations im) (fs_private d) (ata_ports d).

(** The FAT16 operations are where [fs_init] says, and their probe, called once paging is
    on, with the ports [bus], accepts the disk, changes no memory in use, and leaves seven
    blocks behind the last allocation; then [V] holds of the ports and the disk. *)
Definition mounts (V : D → disk_t P → Prop) (bus : D) : Prop :=
  fat16_operations im ≠ 0 ∧ ∃ ops f, operations_at (fat16_operations im) = Some ops ∧ probe ops = Some f ∧
  ∀ k, kernel_front k paged_segs 4089 → base_addr (kernel_heap k) = heap_base im →
    ∃ k' bus' d segs n, f k (bus, boot_disk) (disks_address im) = Ok (0, k', (bus', d)) ∧ modifies [] k k' ∧
      kernel_front k' segs n ∧ (7 ≤ n)%nat ∧ V bus' (mounted d).

Lemma disk_step V fuel v bus : mounts V bus → (0 < fuel)%nat → (vstate v).1 = bus →
  registered_filesystems v !! 0%nat = Some (fat16_operations im) →
  kernel_front (vmem v) paged_segs 4089 → base_addr (kernel_heap (vmem v)) = heap_base im →
  ∃ k bus' d segs n, start_disk operations_at im fuel v =
      Ok (Vfs k (bus', mounted d) (file_table v) (registered_filesystems v) (fat16_operations im)) ∧
    modifies [] (vmem v) k ∧ kernel_front k segs n ∧ (7 ≤ n)%nat ∧ V bus' (mounted d).
Proof.
  intros (Hne & ops & f & Hops & Hf & Hprobe) Hfuel Hbus Hreg Hfront Hbase. destruct fuel as [|fuel]; [lia|].
  destruct (Hprobe (vmem v) Hfront Hbase) as (k & bus' & d & segs & n & E & M & Hk & Hn).
  exists k, bus', d, segs, n. split; [|done]. unfold start_disk, disk_init, probe_disk, fs_probe_fs.
  cbn [registered_filesystems]. rewrite (arr_get_nat _ 0), Hreg. cbn [or_ub]. rewrite !bind_Ok.
  erewrite while_exit; cycle 1.
  { unfold probe_round. rewrite decide_False, Hops by done. cbn [or_ub]. rewrite bind_Ok, Hf. cbn [or_ub]. rewrite bind_Ok.
    cbn [vmem vstate fs_operations fst]. rewrite Hbus. fold boot_disk. rewrite E, bind_Ok. by rewrite decide_True. }
  reflexivity.
Qed.

(** The ten slots of [registered_filesystems], the first one taken. *)
Definition first_registered : list Z := fat16_operations im :: replicate 9 0.

Lemma fs_step v : registered_filesystems v = replicate 10 0 →
  start_fs im v = Ok (Vfs (vmem v) (vstate v) (file_table v) first_registered (disk_fs v)).
Proof. intros Hr. unfold start_fs, fs_init, fs_register_fs. rewrite Hr. reflexivity. Qed.

(** The state [kernel_main] is entered in. *)
Record boots_kernel (fuel : nat) s (t0 t1 : list Z) : Prop := BootsKernel {
  bk_memory : boot_memory im (the_machine s);
  bk_tasks : boot_tasks im (the_machine s) fuel t0 t1;
  bk_gdt : wf_gdt (gdt (ptasks (procs s))) ∧ 0 ≤ tss_address im < 2 ^ 32;
  bk_idt : idt_wf (interrupt_table s) ∧ (48 ≤ length (isr_table im))%nat ∧ Forall word (isr_table im);
  bk_registered : registered_filesystems (vfs_of (procs s)) = replicate 10 0;
  bk_slots : (1 < length (processes (procs s)))%nat;
  bk_idle : word (idle_function im);
  bk_raise : prints_only raise_int_20
}.

(** The state of its loop: the processes [p0] and [p1], and the idle task [t]. *)
Record started (V : D → disk_t P → Prop) (fuel : nat) s s' (p0 p1 t : Z) : Prop := Started {
  sk_processor : current_directory (the_machine s') = kernel_page_directory im ∧
    cr0 (the_machine s') = Z.lor (cr0 (the_machine s)) 0x80000000 ∧
    cr4 (the_machine s') = Z.land (cr4 (the_machine s)) (Z.lnot PSE_BIT);
  sk_mapped : kernel_mapped (the_machine s') (kernel_page_directory im);
  sk_pages : ∃ f0 f1, booted_words im (the_machine s) (the_machine s') f0 f1 ∧
    ∀ n p, runs fuel (system_task im) (kernel_page_directory im) (procs s') n p →
      sound fuel (kernel_page_directory im) (first_block im 4) (boot_tables im) (kernel_pde (cr3 (the_machine s')) f0 f1) (system_task im) n p;
  sk_gdt : wf_gdt (gdt (ptasks (procs s'))) ∧ gdtr (gdt (ptasks (procs s'))) = (gdt_native_address im, 47);
  sk_idt : idtr (interrupt_table s') = (2047, idt_descriptors_address im) ∧
    ∀ i, 0 ≤ i < 256 → isr_handlers (interrupt_table s') !! Z.to_nat i = Some (Some (handler_of i));
  sk_files : table (file_table (vfs_of (procs s'))) = replicate 100 0 ∧ disk_fs (vfs_of (procs s')) = fat16_operations im ∧
    fs_operations (vstate (vfs_of (procs s'))).2 = fat16_operations im;
  sk_disk : V (vstate (vfs_of (procs s'))).1 (vstate (vfs_of (procs s'))).2;
  sk_tasks : ∃ k, tasking_ready fuel (system_task im) (kernel_page_directory im) k (pmem (procs s')) p0 p1 t;
  sk_slots : processes (procs s') = <[1%nat := p1]> (<[0%nat := p0]> (processes (procs s)));
  sk_current : current_task (ptasks (procs s')) = system_task im ∧ current_process (procs s') = p0 ∧
    interrupts (procs s') = true;
  sk_idle : ∀ frame, word frame → ∃ esp ts, schedule fuel (ptasks (procs s')) frame = Ok (first_stack t 1, ts) ∧
    current_task ts = t ∧ words_at (pmem (procs s')) (first_stack t 1) (first_frame 1 (idle_function im) esp)
}.

(** Up to the heap. *)
Lemma kernel_start_hardware fuel tk b d0 ft regs dfs ps cp ints it t0 t1 :
  let s := SystemState (Processing tk (b, d0, ft, regs, dfs) ps cp ints) it in boots_kernel fuel s t0 t1 →
  ∃ g i m k, (∀ f : system_state D P → outcome (system_state D P),
    (s ← on_files (λ v, Ok (set_vstate v (vmem v) (remap_master_pic_C (vstate v).1, (vstate v).2))) s;
     s ← on_tasks (λ t, g ← gdt_init (gdt t) (tss_address im) (gdt_native_address im) (system_task_stack_bottom im);
                        Ok (set_gdt t g)) s;
     i ← idt_init (interrupt_table s) (isr_table im) (idt_descriptors_address im);
     let s := SystemState (procs s) i in
     s ← on_console terminal_init s;
     s ← on_machine (start_heap im) s;
     f s) = f (SystemState (Processing (Tasking (set_kheap m k) g (current_task tk))
       (remap_master_pic_C b, d0, ft, regs, dfs) ps cp ints) i)) ∧
    wf_gdt g ∧ gdtr g = (gdt_native_address im, 47) ∧ idtr i = (2047, idt_descriptors_address im) ∧
    (∀ j, 0 ≤ j < 256 → isr_handlers i !! Z.to_nat j = Some (Some (handler_of j))) ∧
    boot_memory im m ∧ boot_tasks im m fuel t0 t1 ∧ cr0 m = cr0 (mach tk) ∧ cr4 m = cr4 (mach tk) ∧ ram m = ram (mach tk) ∧
    memory k = ram m ∧ base_addr (kernel_heap k) = heap_base im ∧ kernel_front k [Free] 4095.
Proof.
  intros s [Hb Ht [Hg Htss] (Hi & Hl & Hw) _ _ _ _].
  destruct (gdt_init_spec (gdt tk) (tss_address im) (gdt_native_address im) (system_task_stack_bottom im) Hg Htss)
    as (g & Eg & _ & Hgr & _ & _ & Hgw).
  destruct (idt_init_spec it (isr_table im) (idt_descriptors_address im) Hi Hl Hw) as (i & Ei & _ & Hir & _ & _ & Hh).
  destruct (terminal_init_spec (console (mach tk))) as (c & Ec & _).
  set (m := set_console (set_kheap (mach tk) (kheap (mach tk))) c).
  destruct (start_heap_spec im m) as (k & Ek & Hk); [by apply (boot_memory_ext im (mach tk))|].
  exists g, i, m, k. split; [|split; [exact Hgw|split; [exact Hgr|split; [exact Hir|split; [exact Hh|]]]]].
  2: { split; [by apply (boot_memory_ext im (mach tk))|]. split; [by apply (boot_tasks_ext im (mach tk))|].
       split; [reflexivity|]. split; [reflexivity|]. split; [reflexivity|exact Hk]. }
  intros f. unfold on_files, on_console, on_tasks, on_machine, the_machine. rewrite !bind_Ok.
  cbn [s procs set_procs vfs_of pfiles set_vfs set_vstate vmem vstate fst snd ptasks set_ptasks set_pmem pmem mach set_mach gdt
    file_table registered_filesystems disk_fs processes current_process interrupts interrupt_table].
  rewrite Eg, !bind_Ok. change (idt_init _ _ _) with (idt_init it (isr_table im) (idt_descriptors_address im)).
  rewrite Ei, bind_Ok. cbv zeta. change (terminal_init _) with (terminal_init (console (mach tk))). rewrite Ec, !bind_Ok.
  change (start_heap im _) with (start_heap im m). rewrite Ek, !bind_Ok. reflexivity.
Qed.

Lemma put_text_console colour l s : ∃ c, put_text colour l s = set_machine s (set_console (the_machine s) c).
Proof. by eexists. Qed.

Lemma splash_console s : ∃ c, kernel_splash s = set_machine s (set_console (the_machine s) c).
Proof.
  unfold kernel_splash. generalize splash. intros ls. destruct (put_text_console 15 [10; 10; 10; 10; 10] s) as [c ->].
  revert c. induction ls as [|l ls IH]; intros c; [by exists c|]. cbn [foldl].
  destruct (put_text_console 2 l (set_machine s (set_console (the_machine s) c))) as [c' ->]. apply IH.
Qed.

(** From the heap to the tasks. *)
Lemma kernel_start_devices V fuel m k g ct b d0 ft dfs ps cp ints i : boot_memory im m → memory k = ram m →
  base_addr (kernel_heap k) = heap_base im → kernel_front k [Free] 4095 → mounts V b → (0 < fuel)%nat →
  ∃ m' M b' d segs n, paged im m m' ∧ current_directory M = current_directory m' ∧ (cr0 M, cr3 M, cr4 M) = (cr0 m', cr3 m', cr4 m') ∧
    modifies [] (kheap m') (kheap M) ∧ kernel_front (kheap M) segs n ∧ (7 ≤ n)%nat ∧ V b' (mounted d) ∧
    ∀ f : system_state D P → outcome (system_state D P),
    (s ← start_paging im (SystemState (Processing (Tasking (set_kheap m k) g ct) (b, d0, ft, replicate 10 0, dfs) ps cp ints) i);
     s ← on_console terminal_init s;
     let s := kernel_splash s in
     s ← on_files start_file_table s;
     s ← on_files (start_fs im) s;
     s ← on_files (start_disk operations_at im fuel) s;
     f s) = f (SystemState (Processing (Tasking M g ct) (b', mounted d, FileTable (replicate 100 0) 100,
       first_registered, fat16_operations im) ps cp false) i).
Proof.
  intros Hb Hm Hbase Hf Hd Hfuel. destruct (paging_step im m k Hb Hm Hbase Hf) as (m' & Em & Hp).
  destruct (terminal_init_spec (console m')) as (c & Ec & _).
  set (S1 := SystemState (Processing (Tasking m' g ct) (b, d0, ft, replicate 10 0, dfs) ps cp false) i).
  destruct (splash_console (set_machine S1 (set_console m' c))) as [c2 Es].
  set (ft' := FileTable (replicate (Z.to_nat MAX_OPEN_FILES) 0) MAX_OPEN_FILES).
  set (v := Vfs (kheap m') (b, d0) ft' first_registered dfs).
  destruct (disk_step V fuel v b Hd Hfuel) as (k' & b' & d & segs & n & Ek & M & Hk & Hn & HV);
    [done|done|apply (paged_front _ _ _ Hp)|apply (paged_base _ _ _ Hp)|].
  exists m', (set_kheap (set_kheap (set_kheap (set_console m' c2) (kheap m')) (kheap m')) k'), b', d, segs, n.
  split; [exact Hp|]. do 2 (split; [done|]). split; [exact M|]. split; [exact Hk|]. split; [exact Hn|]. split; [exact HV|]. intros f.
  unfold start_paging, on_machine at 1. change (the_machine _) with (set_kheap m k). rewrite Em, !bind_Ok.
  change (set_procs _ _) with S1. unfold on_console, on_machine. change (the_machine S1) with m'. rewrite Ec, !bind_Ok.
  cbv zeta. rewrite Es. unfold on_files, start_file_table. rewrite !bind_Ok. rewrite fs_step by done. rewrite !bind_Ok.
  change (start_disk operations_at im fuel _) with (start_disk operations_at im fuel v). rewrite Ek, !bind_Ok. reflexivity.
Qed.

Lemma started_mapped m m' k' st : paged im m m' → modifies [] (kheap m') (kheap st) → boot_memory im m →
  in_image im m (system_task im) SIZEOF_TASK → apart (system_task im) SIZEOF_TASK (kernel_page_directory im) SIZEOF_PAGE_DIRECTORY_HANDLE →
  modifies [(system_task im, SIZEOF_TASK)] (kheap st) (kheap k') →
  kernel_mapped k' (kernel_page_directory im) ∧
  ∀ pd p0 p1, kernel_entries m' (kernel_page_directory im) pd p0 p1 → kernel_entries k' (kernel_page_directory im) pd p0 p1.
Proof.
  intros Hp M Hb (Hst & Hste & _) Hap M'. destruct (heap_base_spec _ _ Hb) as (Hh & _). destruct (bm_end _ _ Hb) as [Hend _].
  pose proof (paged_directory _ _ _ Hp) as Hdir.
  assert (Hblock : ∀ i, 0 ≤ i → apart_all [(system_task im, SIZEOF_TASK)] (first_block im i) 4096).
  { intros i Hi. apply Forall_singleton. right. cbn [fst snd]. unfold first_block. lia. }
  assert (M2 : modifies [(system_task im, SIZEOF_TASK)] (kheap m') (kheap k')).
  { eapply modifies_step; [apply (modifies_sub _ _ _ _ M); by constructor|exact M'|done]. }
  assert (Hh' : apart_all [(system_task im, SIZEOF_TASK)] (kernel_page_directory im) SIZEOF_PAGE_DIRECTORY_HANDLE)
    by (apply Forall_singleton; by apply apart_sym).
  assert (Ht : ∀ i, 0 ≤ i < 1023 → boot_tables im i ≠ 0 → apart_all [(system_task im, SIZEOF_TASK)] (boot_tables im i) 4096).
  { intros i Hi. unfold boot_tables, kernel_tables, no_tables. intros Hne. repeat case_decide; try (apply Hblock); lia. }
  destruct (dir_modifies m' k' _ _ _ _ Hdir M2 Hh' (Hblock 4 ltac:(lia)) Ht) as [_ V].
  destruct (dir_words m' k' _ _ _ _ Hdir M2 Hh' (Hblock 4 ltac:(lia)) Ht) as [Pd W]. split.
  - apply (kernel_mapped_moved m' k' _ (first_block im 4) (first_block im 5) (first_block im 6));
      [unfold first_block; lia..|apply (paged_mapped _ _ _ Hp)|exact V].
  - intros pd p0 p1 [Hd Hw]. split; [intros j Hj; by rewrite Pd, Hd|]. intros i j Hij Hj. rewrite W, Hw; try done; [lia|].
    unfold kernel_tables, first_block. destruct Hij as [-> | ->]; repeat case_decide; lia.
Qed.

Lemma kernel_start_spec V fuel s t0 t1 : boots_kernel fuel s t0 t1 →
  mounts V (remap_master_pic_C (vstate (vfs_of (procs s))).1) →
  ∃ s' p0 p1 t, kernel_start operations_at raise_int_20 im fuel s = Ok s' ∧ started V fuel s s' p0 p1 t.
Proof.
  destruct s as [[tk [[[[b d0] ft] regs] dfs] ps cp ints] it]. intros Hs Hd.
  destruct (kernel_start_hardware fuel tk b d0 ft regs dfs ps cp ints it t0 t1 Hs)
    as (g & i & m & k & E1 & Hg & Hgr & Hir & Hh & Hb & Ht & Hc0 & Hc4 & Hmr & Hm & Hbase & Hf).
  destruct Hs as [_ _ _ _ Hregs Hslots Hidle Hraise]. cbn in Hregs, Hslots, Hd. subst regs.
  assert (Hfuel : (0 < fuel)%nat) by (pose proof (bt_fuel _ _ _ _ _ Ht); lia).
  destruct (kernel_start_devices V fuel m k g (current_task tk) (remap_master_pic_C b) d0 ft dfs ps cp ints i Hb Hm Hbase Hf Hd Hfuel)
    as (m' & M & b' & d & segs & n & Hp & HM & HMc & MM & Hfr & Hn & HV & E2).
  set (S2 := Processing (Tasking M g (current_task tk)) (b', mounted d, FileTable (replicate 100 0) 100,
    first_registered, fat16_operations im) ps cp false) in E2.
  pose proof (paged_boots im m m' (kheap M) fuel t0 t1 Hb Ht Hp MM) as Hboots.
  destruct (tasking_init_spec fuel [] (system_task im) (kernel_page_directory im) (idle_function im) raise_int_20 S2
    (system_name im) t0 (idle_name im) t1 Hboots Hraise) as (p0 & p1 & t & P3 & E3 & Hr & Hct & Hcp & Hin & Hps & Hsched).
  { apply (front_room _ _ (kheap M) segs n Hfr); [decide_by_compute|exact Hn|done]. }
  { exact Hslots. }
  { exact Hidle. }
  pose proof (tasking_init_frozen _ _ _ _ _ _ _ _ _ Hraise E3) as Hfz. unfold frozen in Hfz.
  apply pair_equal_spec in Hfz as [Hpr Hpf]. unfold processor in Hpr. cbn [S2 ptasks mach gdt] in Hpr.
  injection Hpr as Hcd Hcc0 Hcc3 Hcc4 Hgg. injection HMc as HM0 HM3 HM4.
  eexists _, p0, p1, t. split.
  { unfold kernel_start. etransitivity; [apply E1|]. etransitivity; [apply E2|].
    unfold start_tasking. cbn [procs]. rewrite E3, !bind_Ok. reflexivity. }
  assert (Hvfs : vfs_of P3 = Vfs (pmem P3) (b', mounted d) (FileTable (replicate 100 0) 100) first_registered (fat16_operations im)).
  { unfold vfs_of. by rewrite Hpf. }
  destruct (paged_words _ _ _ Hp) as (f0 & f1 & W4 & W5 & W6 & Hke).
  pose proof (paged_space im m m' _ f0 f1 Hb Hp Hke) as Hsp.
  destruct (started_mapped m m' (mach (ptasks P3)) M Hp MM Hb (bt_task _ _ _ _ _ Ht) (bt_apart _ _ _ _ _ Ht)
    (ready_modifies _ _ _ _ _ _ _ _ Hr)) as [Vk Hke3]. rewrite HM3 in Hcc3. rewrite <- Hcc3 in Hke.
  assert (Hbp : ∀ x, boot_physical (mach tk) (BOOT_PAGE_DIRECTORY im) x = boot_physical m (BOOT_PAGE_DIRECTORY im) x).
  { intros x. unfold boot_physical, Paging.read, kread. unfold ram in Hmr. by rewrite Hmr. }
  split.
  - change (current_directory (mach (ptasks P3)) = kernel_page_directory im ∧ cr0 (mach (ptasks P3)) = Z.lor (cr0 (mach tk)) 0x80000000 ∧
      cr4 (mach (ptasks P3)) = Z.land (cr4 (mach tk)) (Z.lnot PSE_BIT)).
    rewrite Hcd, Hcc0, Hcc4, HM, HM0, HM4, (paged_current _ _ _ Hp), (paged_cr0 _ _ _ Hp), (paged_cr4 _ _ _ Hp), Hc0, Hc4. done.
  - exact Vk.
  - exists f0, f1. split.
    { destruct (Hke3 _ _ _ Hke) as [Hd3 Hw3]. change (cr3 (the_machine _)) with (cr3 (mach (ptasks P3))).
      split; [|split; [|split; [|split; [exact Hd3|exact Hw3]]]]; (etransitivity; [apply Hbp|]); [rewrite <- Hcc3 in W4; exact W4|exact W5|exact W6]. }
    change (cr3 (the_machine _)) with (cr3 (mach (ptasks P3))). rewrite Hcc3. apply runs_sound.
    exists [system_task im; t], [p0; p1].
    split; [|exact (conj eq_refl (conj eq_refl (conj (le_n 2) (f_equal Some (eq_sym Hct)))))].
    match goal with |- system_ok _ ?m2 _ _ _ _ _ _ _ => refine (ready_system fuel M m2 (system_task im) (kernel_page_directory im) (first_block im 4) (boot_tables im)
      (kernel_pde (cr3 m') f0 f1) p0 p1 t Hr _ (conj eq_refl eq_refl) _) end; [|by apply (boot_task_apart im m fuel t0 t1)].
    apply (kernel_space_modifies [] m'); [exact Hsp|exact MM|constructor|constructor|intros; constructor].
  - change (wf_gdt (gdt (ptasks P3)) ∧ gdtr (gdt (ptasks P3)) = (gdt_native_address im, 47)). by rewrite Hgg.
  - exact (conj Hir Hh).
  - change (table (file_table (vfs_of P3)) = replicate 100 0 ∧ disk_fs (vfs_of P3) = fat16_operations im ∧
      fs_operations (vstate (vfs_of P3)).2 = fat16_operations im). by rewrite Hvfs.
  - change (V (vstate (vfs_of P3)).1 (vstate (vfs_of P3)).2). by rewrite Hvfs.
  - exists (pmem S2). exact Hr.
  - exact Hps.
  - exact (conj Hct (conj Hcp Hin)).
  - intros frame Hframe. destruct (Hsched frame Hframe) as (esp & _ & _ & _ & W).
    match goal with |- ∃ _ _, schedule fuel ?ts frame = _ ∧ _ =>
      destruct (ready_schedules fuel (system_task im) (kernel_page_directory im) (pmem S2) ts p0 p1 t frame Hr Hct Hframe)
        as (ts' & E4 & Hts) end.
    exists esp, ts'. exact (conj E4 (conj Hts W)).
Qed.
End boot.

(** ** The FAT16 volume of an ATA drive *)
Section fat16_boot.
Context {D : Type} `{AtaDrive D}.
Variable im : image.
Variable operations_at : Z → option (filesystem_operations_t kernel (D * disk_t volume)).
Variable fuel : nat.

(** The header in the drive's first sector. *)
Definition boot_header : fat_header_t := decode_header (take 62 (sector_bytes 0)).

(** The drive is idle, and the disk has the file system, on the volume of the header. *)
Definition fat16_mounted (bus : D) (d : disk_t volume) : Prop :=
  Disk.idle bus ∧ ∃ dev, dev ≠ 0 ∧ volume_ok (layout_of boot_header dev) ∧
    d = set_fs_private (mounted im boot_disk) (Volume (layout_of boot_header dev) (DiskStream 0 (DiskAt 0)) ∅).

Record fat16_drive (bus : D) : Prop := Fat16Drive {
  fd_operations : fat16_operations im ≠ 0 ∧
    operations_at (fat16_operations im) = Some (Volume.fat16_operations (ata_block_device fuel) fuel);
  fd_idle : Disk.idle bus;
  fd_fuel : (max_polls < fuel)%nat ∧ (62 < fuel)%nat;
  fd_header : header_ok boot_header = true;
  fd_sizes : bytes_per_sector boot_header ≠ 0 ∧ sectors_per_cluster boot_header ≠ 0
}.

Lemma remap_idle bus : Disk.idle bus → Disk.idle (remap_master_pic_C bus).
Proof.
  intros Hi. unfold remap_master_pic_C.
  repeat match goal with |- Disk.idle (outb ?d ?q ?v) =>
    apply (λ H, proj1 (write_register d q v H ltac:(done) ltac:(done))) end. exact Hi.
Qed.

Lemma drive_remapped bus : fat16_drive bus → fat16_drive (remap_master_pic_C bus).
Proof. intros [Ho Hi Hf Hh Hs]. split; [exact Ho|by apply remap_idle|exact Hf|exact Hh|exact Hs]. Qed.

Lemma fat16_mounts bus : fat16_drive bus → mounts operations_at im fat16_mounted bus.
Proof.
  intros [[Hne Hops] Hi [Hp Hf] Hh [Hb Hs]]. split; [exact Hne|].
  exists (Volume.fat16_operations (ata_block_device fuel) fuel), (probe_member (ata_block_device fuel) fuel).
  split; [exact Hops|]. split; [done|]. intros k Hk _.
  pose (B := ata_block_device (P := volume) fuel boot_disk). pose (L := ata_block_laws (P := volume) fuel boot_disk eq_refl eq_refl Hp).
  pose proof sector_count_max as Hcount.
  assert (Esl : disk_slice (H := B) (H0 := L) 0 SIZEOF_FAT_HEADER = take 62 (sector_bytes 0)).
  { pose proof (sector_slice (H := B) (H0 := L) 0 0 62 ltac:(cbn; lia) ltac:(done) ltac:(done) ltac:(done)) as E.
    change (arr_slice (sector_bytes 0) 0 62 = Ok (disk_slice (H := B) (H0 := L) 0 62)) in E.
    rewrite arr_slice_in in E; [|done|done|]. 2: { rewrite sector_bytes_length by lia. done. }
    injection E as E. exact (eq_sym E). }
  assert (Eh : disk_header (H := B) (H0 := L) = boot_header) by (unfold disk_header; by rewrite Esl).
  destruct (fat16_probe_spec (H := B) (H0 := L) fuel bus k paged_segs 4089 Hk) as (w' & k' & segs & Hw & M & _ & E);
    [lia|exact Hi| |exact Hf|by rewrite Eh|].
  { unfold disk_size. cbn [block_count L ata_block_laws]. unfold SIZEOF_FAT_HEADER, DISK_SECTOR_SIZE. lia. }
  rewrite Eh, Hh in E. destruct E as (dev & Hdev & E & Hk'). eexists k', w', _, segs, _.
  split; [unfold probe_member; cbn [id boot_disk]; unfold B in E; rewrite E; reflexivity|].
  split; [exact M|]. split; [exact Hk'|]. split; [lia|]. split; [exact Hw|]. exists dev. split; [exact Hdev|]. split; [|reflexivity].
  apply layout_ok; [|exact Hb|exact Hs]. apply Forall_take, sector_bytes_bytes.
Qed.
End fat16_boot.

(** [print_path] prints the drive's digit and each part on a line of its own. *)
Section print_path_ok.
Context {K : Type} `{AllocatorLaws K}.
Implicit Type m : machine K.

Lemma print_parts fuel parts : Forall (λ c, (length c < fuel)%nat) parts → ∀ n m cell part, (length parts < n)%nat →
  parts_at (kheap m) cell parts → kread (kheap m) cell = Ok part →
  while_loop n (print_part fuel) (part, m) = Ok (print_bytes m (concat ((λ c, c ++ [10]) <$> parts))).
Proof.
  induction 1 as [|c parts Hc _ IH]; intros n m cell part Hn Hp Hr; (destruct n as [|n]; [cbn in Hn; lia|]); cbn [parts_at] in Hp.
  - rewrite Hr in Hp. injection Hp as ->. apply while_exit. by destruct m.
  - destruct Hp as (node & En & Hne & _ & (str & Es & _ & Ht & _) & Hp). rewrite Hr in En. injection En as ->.
    assert (E : ∃ next, kread (kheap m) (node + 4) = Ok next).
    { destruct parts; cbn [parts_at] in Hp; [by eexists|]. destruct Hp as (next & ? & _). by exists next. }
    destruct E as [next Enext].
    set (m1 := print_bytes m (c ++ [10])).
    assert (Estep : print_part fuel (node, m) = Ok (inl (next, m1))).
    { unfold print_part, Paging.read. rewrite decide_False, Es, bind_Ok by done.
      unfold print. rewrite (put_str_fold fuel _ _ _ c), bind_Ok by done.
      change (kheap (print_bytes _ _)) with (kheap m). rewrite Enext, bind_Ok. unfold m1, print_bytes. by rewrite foldl_app. }
    rewrite (while_continue (print_part fuel) n (node, m) (next, m1) Estep), (IH n m1 (node + 4)); [|cbn in Hn; lia|done|done].
    rewrite fmap_cons. cbn [concat]. unfold m1, print_bytes. by rewrite !foldl_app.
Qed.

Lemma print_path_spec fuel m path d parts : path ≠ 0 → kread (kheap m) path = Ok d → 0 ≤ d < 10 →
  parts_at (kheap m) (path + 4) parts → (length parts < fuel)%nat → Forall (λ c, (length c < fuel)%nat) parts →
  print_path fuel m path =
    Ok (print_bytes m (text "Drive: " ++ [48 + d] ++ [10] ++ concat ((λ c, c ++ [10]) <$> parts))).
Proof.
  intros Hpath Hd Hdr Hp Hn Hl. unfold print_path, Paging.read. rewrite decide_False by done.
  assert (E : ∃ part, kread (kheap m) (path + 4) = Ok part).
  { destruct parts; cbn [parts_at] in Hp; [by eexists|]. destruct Hp as (part & ? & _). by exists part. }
  destruct E as [part Epart]. rewrite Epart, bind_Ok. cbn zeta. change (kheap (print_bytes _ _)) with (kheap m).
  rewrite Hd, bind_Ok.
  assert (Ei : itoa_string 10 (s32 d) = Ok [48 + d]).
  { assert (Hcase : In d [0; 1; 2; 3; 4; 5; 6; 7; 8; 9]) by (cbn [In]; lia). cbn [In] in Hcase.
    repeat (destruct Hcase as [<- | Hcase]; [by vm_compute|]). done. }
  rewrite Ei, bind_Ok. rewrite (print_parts fuel parts Hl fuel _ (path + 4)) by done.
  unfold print_bytes. by rewrite !foldl_app.
Qed.
End print_path_ok.

(** ** The claim *)

(** C1: [kernel_main] boots and never returns: entered on the boot directory with its image
    below [_kernel_end], memory for the heap, and an ATA drive whose first sector is that
    of a FAT16 volume, it remaps the interrupt controllers, fills the segment and
    interrupt tables, makes the heap, moves to the kernel's own directory, reads the
    header through the ATA driver and mounts the volume, and starts the tasks; its loop
    runs for ever in a state where [cr3] has the directory's physical address, the words of
    the directory and of its tables enter the first four megabytes and their aliases as
    present and writable, and themselves, and nothing else, every vector has its handler, the disk has the file system on the volume
    the header describes, interrupts are enabled, the next timer tick runs the idle task,
    and the system stays sound over any ticks and programs started from there. *)
Theorem kernel_main_boots {D} `{AtaDrive D} operations_at raise_int_20 im fuel (s : system_state D volume) t0 t1 :
  boots_kernel raise_int_20 im fuel s t0 t1 →
  fat16_drive im operations_at fuel (vstate (vfs_of (procs s))).1 →
  ∃ s' p0 p1 t, kernel_start operations_at raise_int_20 im fuel s = Ok s' ∧ started im (fat16_mounted im) fuel s s' p0 p1 t ∧
    ∀ rounds, kernel_main operations_at raise_int_20 im fuel rounds s = Diverge.
Proof.
  intros Hs Hd. destruct (kernel_start_spec operations_at raise_int_20 im (fat16_mounted im) fuel s t0 t1 Hs) as (s' & p0 & p1 & t & E & Hk).
  { by apply (fat16_mounts im operations_at fuel), (drive_remapped im operations_at fuel). }
  exists s', p0, p1, t. split; [exact E|]. split; [exact Hk|]. intros rounds. unfold kernel_main. rewrite E, bind_Ok.
  apply (while_diverges _ (λ _, True)); [|done]. intros s1 _. by exists s1.
Qed.

(** ** A machine to boot

    The image is at 0x10000: the boot directory, whose first entry maps four megabytes to
    themselves, the handle, the kernel's task and the two names; then the heap's table and
    the heap. The drive's first sector is the header of [Volume]'s witness. *)
#[local] Opaque example_ram.
Definition witness_size : Z := 0x1020000.
Definition witness_data : list (Z * list Z) :=
  [(0x10000, split4 0x83); (0x1D000, text "System Process" ++ [0]); (0x1D100, text "Idle Process" ++ [0])].

Definition witness_image : image :=
  Image 0x20000 witness_isr_table 0x1E000 0x1E800 0x1E900 0x1F000 0x10000 0x11000 0x1EA00 0x1EB00 0x13000 0x101234 0x1D000 0x1D100.

Definition witness_sectors (l : Z) : list Z :=
  (λ i, half_at (if decide (l = 0) then witness_header else []) (2 * i)) <$> seq 0 256.

Lemma witness_sectors_length l : 0 ≤ l < 3000 → length (witness_sectors l) = 256%nat.
Proof. intros _. unfold witness_sectors. by rewrite length_fmap, length_seq. Qed.

#[local] Instance witness_ports : Ports drive := drive_ports witness_sectors.
#[local] Instance witness_drive : AtaDrive drive := drive_ata witness_sectors 3000 ltac:(lia) witness_sectors_length.

Definition witness_operations_at (a : Z) : option (filesystem_operations_t kernel (drive * disk_t volume)) :=
  if decide (a = 0x1EA00) then Some (Volume.fat16_operations (ata_block_device 100) 100) else None.

Definition witness_start : system_state drive volume :=
  SystemState (Processing (Tasking (Machine (Kernel (example_ram witness_size witness_data) (Heap (HeapTable [] 0 0) 0 0))
      0 0x11 0 PSE_BIT 0 0 (Terminal ∅ 0 0)) witness_gdt 0)
    (Drive ∅ Disk.Idle, boot_disk, FileTable [] 0, replicate 10 0, 0) (replicate (Z.to_nat MAX_PROCESSES) 0) 0 false) witness_idt.

Lemma witness_in_image a n : 0x10000 ≤ a → a + n ≤ 0x20000 → in_image witness_image (the_machine witness_start) a n.
Proof.
  intros Ha Hn. split; [lia|]. split; [exact Hn|]. intros x Hx. apply (example_ram_mapped witness_size witness_data).
  unfold witness_size. lia.
Qed.

Lemma witness_text a t : forallb (λ i, bool_decide (example_byte witness_size witness_data (a + i) = (t ++ [0]) !! Z.to_nat i))
    (seqZ 0 (Z.of_nat (length (t ++ [0])))) = true → Forall (λ b, 0 < b < 256) t →
  cstr (ram (the_machine witness_start)) a t.
Proof.
  intros Hb Ht. split; [|exact Ht]. change (ram (the_machine witness_start)) with (memory (example_kernel [] witness_size witness_data)).
  by refine (example_bytes [] witness_size witness_data a _ _ Hb).
Qed.

Lemma witness_boot_memory : boot_memory witness_image (the_machine witness_start).
Proof.
  split.
  - done.
  - apply (example_ram_wf witness_size witness_data). decide_by_compute.
  - apply (mapped_sub (ram (the_machine witness_start)) 0x10000 witness_size); [exact (example_ram_mapped witness_size witness_data)|..]; apply Z.leb_le; by vm_compute.
  - done.
  - by apply witness_in_image.
  - apply Forall_forall. intros i Hi. exists 0x83. split; [|done].
    assert (E : Paging.read (the_machine witness_start) 0x10000 = Ok 0x83).
    { change (kread (example_kernel [] witness_size witness_data) 0x10000 = Ok 0x83).
      refine (example_kread [] witness_size witness_data 0x10000 0x83 _ _); [done|by vm_compute]. }
    rewrite list_elem_of_In in Hi. cbn in Hi. destruct Hi as [<- | [<- | [<- | []]]]; exact E.
  - by apply witness_in_image.
  - by left.
Qed.

Lemma witness_boot_tasks : boot_tasks witness_image (the_machine witness_start) 100 (text "System Process") (text "Idle Process").
Proof.
  split.
  - by apply witness_in_image.
  - by right.
  - split; [by apply witness_in_image|apply witness_text; [by vm_compute|decide_by_compute]|cbn; lia|by right].
  - split; [by apply witness_in_image|apply witness_text; [by vm_compute|decide_by_compute]|cbn; lia|by right].
  - by right.
  - lia.
Qed.

Lemma witness_boots_kernel : boots_kernel Ok witness_image 100 witness_start (text "System Process") (text "Idle Process").
Proof.
  split.
  - exact witness_boot_memory.
  - exact witness_boot_tasks.
  - split; [by repeat constructor|done].
  - split; [done|]. split; [apply (bool_decide_unpack (48 ≤ length witness_isr_table)%nat); by vm_compute|decide_by_compute].
  - done.
  - change (1 < length (replicate (Z.to_nat MAX_PROCESSES) 0))%nat. rewrite length_replicate. by apply Nat2Z.inj_lt.
  - done.
  - intros s. exists (console (mach (ptasks s))). destruct s as [[[] ? ?] ? ? ? ?]. done.
Qed.

Lemma kernel_main_boots_witness :
  ∃ s' p0 p1 t, kernel_start witness_operations_at Ok witness_image 100 witness_start = Ok s' ∧
    started witness_image (fat16_mounted witness_image) 100 witness_start s' p0 p1 t ∧
    ∀ rounds, kernel_main witness_operations_at Ok witness_image 100 rounds witness_start = Diverge.
Proof.
  apply (kernel_main_boots witness_operations_at Ok witness_image 100 witness_start (text "System Process") (text "Idle Process")
    witness_boots_kernel).
  split.
  - done.
  - split; [done|apply map_Forall_empty].
  - split; [cbn|]; lia.
  - by vm_compute.
  - split; by vm_compute.
Defined.
